(* ===== verification/_CoqProject ===== *)
-Q . S2P
Prelude.v
Memory.v
Interfaces.v
Pmm.v
Kheap.v
Paging.v
PagingExt.v
Elf.v
ElfSpec.v
ElfLoad.v
Cpu.v
Task.v
TaskRing.v
TaskSpec.v
TaskSched.v
TaskCreate.v
TaskProps.v
TaskSwitch.v
TaskLife.v
Ata.v
Fat32.v
FatName.v
FatTable.v
FatDir.v
FatOps.v
FatFile.v
FatMount.v
FatList.v
FatKeep.v
Keyboard.v
Screen.v
Irq.v
ShellText.v
ShellLine.v
ShellFs.v
ShellPath.v
ShellMessage.v
Panic.v
ShellCommands.v
ShellExec.v
ShellSys.v
ShellRun.v
ShellUse.v
ShellMemory.v
ShellProgram.v
ShellSafe.v
ShellLife.v
Kernel.v
User.v
