(* ===== verification/Prelude.v ===== *)
(** * MyOS: a verification development

    MyOS is a 32-bit x86 kernel in C: a page-frame allocator, a kernel heap,
    two-level paging, an ATA disk driver with a FAT32 file system on it,
    keyboard, screen and serial drivers, an ELF loader, a round-robin
    scheduler with kernel and user tasks, and a shell.  This library is a
    shallow embedding of its C files: every C function is a Rocq function with
    the same name (loops are [for_range] or a [Fixpoint], fallible code
    returns an [outcome]), C integers are [Z] wrapped where C wraps them
    ([u8], [u16], [u32] below), and memory is a map from addresses to bytes
    ([Memory.v]).

    ** Parts and files (sources are under src/src)

    - [Prelude.v], [Memory.v]: integers, outcomes, loops, little-endian memory.
    - [Interfaces.v]: the type classes through which components meet:
      [FrameAllocator] (PMM to paging and loader), [HeapAllocator] (heap to
      loader), [ProcessMemory] (loader and heap to the scheduler),
      [BlockDevice] (ATA to FAT32).  A client's theorems are proved against
      the class; the implementing file gives the instance and its laws.
    - [Pmm.v]: mem/pmm.c.  The bitmap, the e820 map read from low memory.
    - [Kheap.v]: mem/kheap.c, on the bytes of the slab; the doubly linked
      block headers are read and written in memory.  The invariant [heap_inv]
      describes them by a list of blocks.
    - [Paging.v]: mem/paging.c.  The tables are edited through the MMU they
      define, TLB included; [PagingExt.v] says which bytes and frames the
      mapping operations leave alone.
    - [Elf.v] (proc/elf.c), [ElfSpec.v] (the relation [loaded] between the
      address space before and after, one page at a time) and [ElfLoad.v]
      (the contract of [elf_load] and [elf_unload], and the loader as the
      [ProcessMemory] of the scheduler).
    - [Cpu.v]: cpu/gdt.c, tss.c, idt.c, pic.c, with the descriptors as the
      processor reads them.
    - [Task.v] (proc/task.c and the register switch of switch.asm),
      [TaskRing.v] (the ring of [next] pointers as a list up to rotation),
      [TaskSpec.v] (what a task owns in the heap), [TaskSched.v] (the
      invariant [ring_ok] and the scheduler's step), [TaskCreate.v],
      [TaskProps.v] (events, the reference queue, reclaiming),
      [TaskSwitch.v] (stacks, slices, the properties) and [TaskLife.v] (a
      task from its first turn to the end of its structure).
    - [Irq.v]: cpu/isr.c, drivers/timer.c, proc/syscall.c: what an interrupt
      or a trap does to handlers, ticks, screen and tasks.
    - [Ata.v]: drivers/ata.c on a bus of ports.
    - [Fat32.v] (fs/fat32.c, all of it), [FatName.v] (8.3 names), [FatTable.v]
      (the allocation table), [FatDir.v], [FatOps.v] (create, remove, mkdir,
      chdir), [FatFile.v] (read and write), [FatMount.v] (mounting, and the
      concrete volume of the witnesses), [FatList.v] (listdir and find) and
      [FatKeep.v] (what no operation touches, whatever the device does).
    - [Keyboard.v]: drivers/keyboard.c.  [Screen.v]: drivers/serial.c and
      drivers/screen.c.  [Panic.v]: what the kernel prints before it halts.
    - shell/shell.c: [ShellText.v] (strings, numbers, splitting a line, the
      path of the prompt), [ShellLine.v] (readline), [ShellFs.v] (the file
      commands), [ShellExec.v] (exec), [ShellSys.v] (memory, time and tasks)
      and [ShellRun.v] (the table, dispatch, the loop) hold the code, with
      the proofs on text, line and dispatch; [ShellPath.v] and
      [ShellCommands.v] prove cd and the working directory, [ShellUse.v]
      write and cat, [ShellMemory.v] and [ShellProgram.v] exec (what a program
      takes from memory, and the command), [ShellLife.v] the program it
      started to its end, and [ShellSafe.v] that the commands on the kernel's
      own state keep it in order; [ShellMessage.v] is about printing.
    - [Kernel.v]: kernel/kernel.c, the boot sequence on one machine state.
    - [User.v]: the programs of ring 3, userland/hello.c with crt0.S and
      proc/user_demo.c, and the wrappers of proc/syscall.h; a system call is
      a trap into [isr_handler].

    The state of the shell, [ShellFs.shell], contains that of everything
    below it: the volume with its device, and [Irq.kernel], which contains
    screen, keyboard queue, ports, handlers and the scheduler [Task.sched],
    whose [pool] is the loader with page tables, frames and heap.
    [Kernel.machine] adds the descriptor tables.

    ** What the theorems show

    The properties carry an identifier [C1], [C2], ... in their comments; each
    one with hypotheses has a closed instance, named [<property>_witness].
    - Memory: the frame allocator hands out the lowest free frame, never one
      twice, and equals a plain scan; the heap never panics or loops as long
      as its clients write into what they hold and free what they hold,
      whatever sizes they ask for, is first fit, merges freed blocks, and its
      payloads never overlap; after [paging_init] and any mappings that leave
      the first 4 MB one to one the TLB agrees with the tables and
      [vmm_get_phys] with the processor.
    - Loader: a loaded segment is mapped, filled and zero-extended as its
      header says, failures give everything back, images do not disturb each
      other.
    - Tasks: no sequence of calls faults, the ring is a round-robin queue,
      every runnable task runs, exited tasks are reclaimed, a switch resumes
      exactly where the task stopped, new stacks start where they should; the
      timer interrupt alone makes every runnable task run within its slices.
    - Disk: the driver implements the block device and reports its errors;
      on it, the FAT table, directories and files behave as maps do (what was
      written is read, what was created is found, what was removed is gone).
    - Devices: the keyboard is a bounded queue of decoded characters, the
      screen a scrolling terminal mirrored to the serial port; the descriptor
      tables read back as intended and only vector 128 is open to ring 3; the
      four system calls and an unknown one do what they should.
    - Shell: a round takes the line the editor makes of the keys and calls
      the command of its first word; cd goes all the way or nowhere; the file
      commands come back to where they were; what write stores cat shows;
      exec runs the bytes of the file or refuses for the reason it shows and
      leaves nothing behind but page tables, and after the program's exit heap, images, mappings and frames are as
      before; no sequence of lines of the other commands, those apart that
      wait or are told to break something, can halt or damage the kernel.
    - The whole: kmain establishes the hypotheses of the other theorems, and
      the user programs print what they should through their system calls.

    ** Modelling choices and bounds

    - A loop whose trip count the code does not bound has fuel, and a theorem
      shows the fuel suffices: walks of the heap list and of the task ring get
      one step per element, cluster chains one per cluster, and device
      polling gets the iteration limit of the driver where it has one.
    - [for (;;) hlt] and processor exceptions are [Halt] outcomes, named by
      their cause; using a structure that was freed is [BadAccess].
    - The heap slab, the kernel stacks, the file buffer of the loader, the
      static variables and the page frames are separate stores.  The frames
      are above 1 MB and the kernel image with its slab is below, so no C
      object spans two of them; the page tables and the bytes of loaded
      pages share the frame memory, where aliasing matters.
    - The structures of tasks and images are records at their heap addresses
      rather than bytes in the slab; names keep the bytes up to the
      terminating zero.
    - What the code promises only in a part of its input is stated for that
      part, and the theorem's comment says which: the usable bytes of a heap
      block ([Kheap.usable], none past [2^32 - 8]), mappings of the first
      4 MB (one to one only), lines of fewer than sixteen words for the exact
      meaning of a line (but not for the safety of the commands), sleeps in
      which the tick counter does not wrap around, boot sectors of formatted
      volumes.  What happens outside is a finding of the manifest, most of
      them with a lemma that evaluates it.
    - Whether the heap has room is a function of its state: [heap_gives] runs
      the allocations, and a refusal for lack of heap is stated with it.
    - Hardware is a parameter with its documented behaviour as hypotheses:
      the drives behind the ATA ports, the UART's status bits, interrupts as
      the list of what arrives.
    - A command of the shell runs to its end in one step, except where it
      waits: what arrives meanwhile (keys, ticks, the turns of other tasks)
      is an argument, [env] and its [wakes].  [shell_run] makes as many
      rounds as it is given environments.  A user program is not interrupted
      between two of its system calls.
    - The theorem on kmain asks that the image and its tables lie below 1 MB,
      as linker.ld places them.  The kernel reaches page frames through the
      first 4 MB, which are mapped one to one, and a page table or a program
      page elsewhere faults when it is written (a finding of the manifest):
      the theorems on loading ask that the frames the program may need, two a
      page, can be taken below 4 MB ([ElfSpec.room]).

    ** Not modelled

    The boot sector, the entry stub and the interrupt stubs are assembly that
    runs around the C code (of switch.asm and crt0.S the model has what the
    C code depends on); the one-instruction wrappers of include/io.h are the
    port operations the drivers' hardware interfaces stand for. *)

From stdpp Require Export base gmap list numbers strings.
From Stdlib Require Export ZArith Lia.
#[global] Open Scope Z_scope.

(** ** C integers

    An unsigned integer of [w] bits is a [Z] in [[0, 2^w)]; every operation
    of the source that can leave the range is wrapped with one of the casts
    below, at the place where C wraps it. *)

Definition u8 (z : Z) : Z := z mod 2 ^ 8.
Definition u16 (z : Z) : Z := z mod 2 ^ 16.
Definition u32 (z : Z) : Z := z mod 2 ^ 32.
Definition u64 (z : Z) : Z := z mod 2 ^ 64.

(** [~x] on a [uint32_t]. *)
Definition not32 (z : Z) : Z := u32 (Z.lnot z).

(** The value of a [uint32_t] reinterpreted as an [int32_t]. *)
Definition i32 (z : Z) : Z := if u32 z <? 2 ^ 31 then u32 z else u32 z - 2 ^ 32.

(** The C truth value of an expression used as a condition. *)
Definition truth (z : Z) : bool := negb (z =? 0).

Definition is_u8 (z : Z) : Prop := 0 <= z < 2 ^ 8.
Definition is_u32 (z : Z) : Prop := 0 <= z < 2 ^ 32.

(** ** Outcomes

    A routine either returns, or stops the machine ([for (;;) cli; hlt], a
    page fault, an exception), or -- when a loop of the source is modelled
    with a bound on its iterations -- runs out of that bound. *)

Inductive halt : Type :=
  | HeapPanic (msg : string)       (* kheap_panic *)
  | TaskPanic (msg : string)       (* panic_t *)
  | PageFault (addr : Z)           (* page_fault_handler *)
  | NoRunnable                     (* task_yield: "no runnable tasks" *)
  | Exception (vector : Z)         (* isr_handler without a handler *)
  | Stopped                        (* cli; hlt *)
  | BadAccess (addr : Z).          (* an object is used after it was freed *)

Inductive outcome (A : Type) : Type :=
  | Ret (a : A)
  | Halt (h : halt)
  | OutOfFuel.
Arguments Ret {A} a.
Arguments Halt {A} h.
Arguments OutOfFuel {A}.

Definition obind {A B} (o : outcome A) (k : A -> outcome B) : outcome B :=
  match o with
  | Ret a => k a
  | Halt h => Halt h
  | OutOfFuel => OutOfFuel
  end.

Declare Scope outcome_scope.
Delimit Scope outcome_scope with outcome.
Notation "'do!' x ':=' c 'in' k" := (obind c (fun x => k))
  (at level 10, x pattern, c at level 100, k at level 200,
   format "'do!'  x  ':='  c  'in' '//' k") : outcome_scope.
#[global] Open Scope outcome_scope.

#[global] Instance halt_eq_dec : EqDecision halt.
Proof. solve_decision. Defined.

(** ** Automation *)

Create HintDb cint.
Create Rewrite HintDb cint.

(** [lia] with division and modulo by constants turned into equations. *)
Ltac zdm := Z.to_euclidean_division_equations; lia.

(** Case analysis on the boolean tests of a goal or of the hypotheses. *)
Ltac case_ltb :=
  match goal with
  | |- context [?a <? ?b] => destruct (Z.ltb_spec a b)
  | |- context [?a <=? ?b] => destruct (Z.leb_spec a b)
  | |- context [?a =? ?b] => destruct (Z.eqb_spec a b)
  | H : context [?a <? ?b] |- _ => destruct (Z.ltb_spec a b)
  | H : context [?a <=? ?b] |- _ => destruct (Z.leb_spec a b)
  | H : context [?a =? ?b] |- _ => destruct (Z.eqb_spec a b)
  end.

(** Unpack the result of a monadic computation that returned. *)
Lemma obind_ret_inv {A B} (o : outcome A) (k : A -> outcome B) b :
  obind o k = Ret b -> exists a, o = Ret a /\ k a = Ret b.
Proof. destruct o; simpl; intros; [eauto | discriminate | discriminate]. Qed.

Lemma Ret_inj {A} (a b : A) : Ret a = Ret b -> a = b.
Proof. by intros [=]. Qed.

(** ** Range and wrap-around lemmas *)

Lemma u8_range z : is_u8 (u8 z).
Proof. unfold is_u8, u8. apply Z.mod_pos_bound. lia. Qed.

Lemma u32_range z : is_u32 (u32 z).
Proof. unfold is_u32, u32. apply Z.mod_pos_bound. lia. Qed.

Lemma u8_small z : is_u8 z -> u8 z = z.
Proof. unfold is_u8, u8. intros. apply Z.mod_small. lia. Qed.

Lemma u32_small z : 0 <= z < 2 ^ 32 -> u32 z = z.
Proof. unfold u32. intros. apply Z.mod_small. lia. Qed.

Lemma u64_small z : 0 <= z < 2 ^ 64 -> u64 z = z.
Proof. unfold u64. intros. apply Z.mod_small. lia. Qed.

Lemma u32_u32 z : u32 (u32 z) = u32 z.
Proof. apply u32_small, u32_range. Qed.

Lemma i32_small z : - 2 ^ 31 <= z < 2 ^ 31 -> i32 z = z.
Proof. intros Hz. unfold i32, u32. case_ltb; zdm. Qed.
Lemma u32_i32 z : u32 (i32 z) = u32 z.
Proof. unfold i32, u32. case_ltb; zdm. Qed.

#[export] Hint Resolve u8_range u32_range : cint.
#[export] Hint Rewrite u32_u32 : cint.

Lemma truth_0 : truth 0 = false.
Proof. reflexivity. Qed.

Lemma truth_nz z : z ≠ 0 -> truth z = true.
Proof. intros. unfold truth. by rewrite (proj2 (Z.eqb_neq z 0)). Qed.

Lemma truth_pos z : 0 < z -> truth z = true.
Proof. intros. unfold truth. by rewrite (proj2 (Z.eqb_neq z 0)) by lia. Qed.

(** Products of consecutive indices, where [lia] needs the help. *)
Lemma mul_step k f n : k < f -> 0 <= n -> k * n + n <= f * n.
Proof. nia. Qed.

(** ** Bit-level lemmas *)

(** [x & (2^n - 1)] and [x >> n] as [mod] and [div]. *)
Lemma land_mask x n : 0 <= n -> Z.land x (2 ^ n - 1) = x mod 2 ^ n.
Proof. intros. rewrite <- Z.land_ones, Z.ones_equiv by lia. do 2 f_equal; lia. Qed.

Lemma land_31 x : Z.land x 31 = x mod 32.
Proof. apply (land_mask x 5). lia. Qed.

Lemma land_fff x : Z.land x 0xFFF = x mod 4096.
Proof. apply (land_mask x 12). lia. Qed.

Lemma shiftr_div x n : 0 <= n -> Z.shiftr x n = x / 2 ^ n.
Proof. apply Z.shiftr_div_pow2. Qed.

Lemma testbit_u32 z n : 0 <= n < 32 -> Z.testbit (u32 z) n = Z.testbit z n.
Proof. intros. unfold u32. rewrite Z.mod_pow2_bits_low; [done | lia]. Qed.

Lemma testbit_u32_high z n : is_u32 z -> 32 <= n -> Z.testbit z n = false.
Proof.
  intros Hz Hn. rewrite <- (u32_small z Hz). unfold u32.
  apply Z.mod_pow2_bits_high. lia.
Qed.

Lemma testbit_shiftl_1 b n : 0 <= b -> Z.testbit (Z.shiftl 1 b) n = (n =? b).
Proof.
  intros. rewrite Z.shiftl_1_l, Z.pow2_bits_eqb by lia.
  apply eq_true_iff_eq. rewrite !Z.eqb_eq. lia.
Qed.

(** Two 32-bit values are equal when their 32 bits are. *)
Lemma u32_bits_eq x y :
  is_u32 x -> is_u32 y ->
  (forall n, 0 <= n < 32 -> Z.testbit x n = Z.testbit y n) -> x = y.
Proof.
  intros Hx Hy H. apply Z.bits_inj'. intros n Hn.
  destruct (decide (n < 32)); [apply H; lia |].
  rewrite !testbit_u32_high; auto; lia.
Qed.

(** Membership in the range as a fixed point of the cast, which turns the
    closure lemmas into equations between masks. *)
Lemma is_u32_fix z : u32 z = z -> is_u32 z.
Proof. intros <-. apply u32_range. Qed.

Lemma u32_land z : u32 z = Z.land z (2 ^ 32 - 1).
Proof. unfold u32. rewrite land_mask; lia. Qed.

Lemma is_u32_lor x y : is_u32 x -> is_u32 y -> is_u32 (Z.lor x y).
Proof.
  intros Hx Hy. apply is_u32_fix.
  rewrite u32_land, Z.land_lor_distr_l, <- !u32_land, !u32_small; auto.
Qed.

Lemma is_u32_land_l x y : is_u32 x -> is_u32 (Z.land x y).
Proof.
  intros Hx. apply is_u32_fix.
  rewrite u32_land, <- Z.land_assoc, (Z.land_comm y), Z.land_assoc, <- u32_land.
  rewrite u32_small; auto.
Qed.

Lemma is_u32_land_r x y : is_u32 y -> is_u32 (Z.land x y).
Proof. rewrite Z.land_comm. apply is_u32_land_l. Qed.

#[export] Hint Resolve is_u32_lor is_u32_land_l is_u32_land_r : cint.

(** Disjoint bit fields: [or] is [+] when one operand is a multiple of [2^n]
    and the other is below it. *)
Lemma lor_disjoint x y n :
  0 <= n -> x mod 2 ^ n = 0 -> 0 <= y < 2 ^ n -> Z.lor x y = x + y.
Proof.
  intros Hn Hx Hy. rewrite <- Z.add_nocarry_lor; [done |].
  apply Z.bits_inj'. intros k Hk. rewrite Z.land_spec, Z.bits_0.
  destruct (decide (k < n)).
  - replace (Z.testbit x k) with false; [done |].
    rewrite <- (Z.mod_pow2_bits_low x n k), Hx, Z.bits_0 by lia. done.
  - rewrite <- (Z.mod_small y (2 ^ n)), Z.mod_pow2_bits_high by lia.
    by rewrite andb_false_r.
Qed.

(** Masking with [2^32 - 2^n] clears the low [n] bits of a 32-bit value. *)
Lemma land_clear_low x n :
  is_u32 x -> 0 <= n < 32 -> Z.land x (2 ^ 32 - 2 ^ n) = x - x mod 2 ^ n.
Proof.
  intros Hx Hn.
  assert (Z.land x (2 ^ 32 - 2 ^ n) = Z.ldiff x (Z.ones n)) as ->.
  { apply u32_bits_eq; auto with cint.
    - rewrite Z.ldiff_land. auto with cint.
    - intros k Hk. rewrite Z.land_spec, Z.ldiff_spec, Z.testbit_ones by lia.
      replace (2 ^ 32 - 2 ^ n) with (Z.shiftl (Z.ones (32 - n)) n).
      + rewrite Z.shiftl_spec, Z.testbit_ones by lia.
        f_equal. repeat case_ltb; simpl; auto; lia.
      + rewrite Z.shiftl_mul_pow2, Z.ones_equiv by lia.
        replace (2 ^ 32) with (2 ^ (32 - n) * 2 ^ n)
          by (rewrite <- Z.pow_add_r by lia; f_equal; lia).
        lia. }
  rewrite Z.ldiff_ones_r by lia. rewrite Z.shiftl_mul_pow2, Z.shiftr_div_pow2 by lia.
  pose proof (Z.div_mod x (2 ^ n)) as Hd. specialize (Hd ltac:(lia)). lia.
Qed.

(** [x & 0xFFFFF000] on a 32-bit value clears the page offset. *)
Lemma land_page_mask x : is_u32 x -> Z.land x 0xFFFFF000 = x - x mod 4096.
Proof. intros. apply (land_clear_low x 12); [done | lia]. Qed.

(** ** Loops

    A C loop [for (i = a; i < b; i++) s = f(s, i)] runs its body [b - a]
    times (not at all when [b <= a]), on the indices [a], [a + 1], ... *)
Fixpoint for_loop {T} (n : nat) (i : Z) (f : T -> Z -> T) (s : T) : T :=
  match n with
  | O => s
  | S n' => for_loop n' (i + 1) f (f s i)
  end.

Definition for_range {T} (a b : Z) (f : T -> Z -> T) (s : T) : T :=
  for_loop (Z.to_nat (b - a)) a f s.

Lemma for_range_empty {T} a b (f : T -> Z -> T) s : b <= a -> for_range a b f s = s.
Proof. intros. unfold for_range. by replace (Z.to_nat (b - a)) with O by lia. Qed.

Lemma for_range_step {T} a b (f : T -> Z -> T) s :
  a < b -> for_range a b f s = for_range (a + 1) b f (f s a).
Proof.
  intros. unfold for_range.
  replace (Z.to_nat (b - a)) with (S (Z.to_nat (b - (a + 1)))) by lia. done.
Qed.

(** Loop invariant rule. *)
Lemma for_range_ind {T} (P : Z -> T -> Prop) a b f s :
  a <= b -> P a s ->
  (forall i s, a <= i < b -> P i s -> P (i + 1) (f s i)) ->
  P b (for_range a b f s).
Proof.
  remember (Z.to_nat (b - a)) as n eqn:En. revert a s En.
  induction n as [|n IH]; intros a s En Hab H0 Hstep.
  - rewrite for_range_empty by lia. by replace b with a by lia.
  - rewrite for_range_step by lia. apply IH; [lia | lia | apply Hstep; [lia | done] |].
    intros i t Hi. apply Hstep. lia.
Qed.
