(* ===== verification/Memory.v ===== *)
(** * Byte-addressed memory

    The memory of the machine as a finite map from addresses to bytes, with
    the little-endian accesses a 32-bit x86 makes for C's [uint16_t],
    [uint32_t] and [uint64_t] lvalues.  An address that is not in the map
    reads as zero (the BSS the kernel entry code cleared). *)

From S2P Require Import Prelude.

Abbreviation mem := (gmap Z Z).

Definition load8 (m : mem) (a : Z) : Z := u8 (default 0 (m !! a)).
Definition store8 (m : mem) (a v : Z) : mem := <[a := u8 v]> m.

(** [n] consecutive bytes, least significant first. *)
Fixpoint load_le (n : nat) (m : mem) (a : Z) : Z :=
  match n with
  | O => 0
  | S n' => load8 m a + 2 ^ 8 * load_le n' m (a + 1)
  end.

Fixpoint store_le (n : nat) (m : mem) (a v : Z) : mem :=
  match n with
  | O => m
  | S n' => store_le n' (store8 m a v) (a + 1) (v / 2 ^ 8)
  end.

Definition load16 (m : mem) (a : Z) : Z := load_le 2 m a.
Definition load32 (m : mem) (a : Z) : Z := load_le 4 m a.
Definition load64 (m : mem) (a : Z) : Z := load_le 8 m a.
Definition store32 (m : mem) (a v : Z) : mem := store_le 4 m a v.

(** [for (i = 0; i < n; i++) dst[i] = v]. *)
Definition mem_fill (m : mem) (dst v n : Z) : mem :=
  for_range 0 n (fun m i => store8 m (dst + i) v) m.

(** ** Byte-level laws *)

Lemma load8_range m a : 0 <= load8 m a < 2 ^ 8.
Proof. apply u8_range. Qed.

Lemma load8_store8 m a v x :
  load8 (store8 m a v) x = if decide (x = a) then u8 v else load8 m x.
Proof.
  unfold load8, store8. case_decide as E.
  - subst. rewrite lookup_insert_eq. simpl. apply u8_small, u8_range.
  - by rewrite lookup_insert_ne by congruence.
Qed.

Lemma load8_store8_same m a v : load8 (store8 m a v) a = u8 v.
Proof. by rewrite load8_store8, decide_True. Qed.

Lemma load8_store8_ne m a v x : x ≠ a -> load8 (store8 m a v) x = load8 m x.
Proof. intros. by rewrite load8_store8, decide_False. Qed.

Lemma load8_store_le_out n m a v x :
  x < a \/ a + Z.of_nat n <= x -> load8 (store_le n m a v) x = load8 m x.
Proof.
  revert m a v. induction n as [|n IH]; intros m a v Hx; simpl; [done |].
  rewrite IH, load8_store8 by lia. case_decide; [lia | done].
Qed.

(** A store only changes bytes inside its range. *)
Lemma load_le_frame k m m' a :
  (forall x, a <= x < a + Z.of_nat k -> load8 m' x = load8 m x) ->
  load_le k m' a = load_le k m a.
Proof.
  revert a. induction k as [|k IH]; intros a H; simpl; [done |].
  rewrite (H a) by lia. rewrite IH; [done |]. intros. apply H. lia.
Qed.

Lemma load_le_store_le_out k n m a v x :
  x + Z.of_nat k <= a \/ a + Z.of_nat n <= x ->
  load_le k (store_le n m a v) x = load_le k m x.
Proof. intros. apply load_le_frame. intros. apply load8_store_le_out. lia. Qed.

(** Equal bytes at two places give equal loads. *)
Lemma load_le_shift k m m' a b :
  (forall i, 0 <= i < Z.of_nat k -> load8 m (a + i) = load8 m' (b + i)) ->
  load_le k m a = load_le k m' b.
Proof.
  revert a b. induction k as [|k IH]; intros a b H; simpl; [done |].
  pose proof (H 0) as H0. rewrite !Z.add_0_r in H0. rewrite H0 by lia.
  rewrite (IH (a + 1) (b + 1)); [done |]. intros i Hi.
  replace (a + 1 + i) with (a + (i + 1)) by lia.
  replace (b + 1 + i) with (b + (i + 1)) by lia. apply H. lia.
Qed.

Lemma load_le_range k m a : 0 <= load_le k m a < 2 ^ (8 * Z.of_nat k).
Proof.
  revert a. induction k as [|k IH]; intros a; [simpl; lia |].
  cbn [load_le]. specialize (IH (a + 1)). pose proof (load8_range m a).
  replace (8 * Z.of_nat (S k)) with (8 + 8 * Z.of_nat k) by lia.
  rewrite Z.pow_add_r by lia. nia.
Qed.

Lemma load_le_store_le_same n m a v :
  load_le n (store_le n m a v) a = v mod 2 ^ (8 * Z.of_nat n).
Proof.
  revert m a v. induction n as [|n IH]; intros m a v; [simpl; by rewrite Z.mod_1_r |].
  cbn [load_le store_le].
  rewrite load8_store_le_out, load8_store8, decide_True, IH by (done || lia).
  replace (8 * Z.of_nat (S n)) with (8 + 8 * Z.of_nat n) by lia.
  rewrite Z.pow_add_r by lia. unfold u8.
  rewrite Z.rem_mul_r by lia. done.
Qed.

(** ** Word-level laws, as the components use them *)

Lemma load32_range m a : is_u32 (load32 m a).
Proof. apply (load_le_range 4). Qed.

Lemma load32_store32_same m a v : load32 (store32 m a v) a = u32 v.
Proof. apply (load_le_store_le_same 4). Qed.

Lemma load32_store32_out m a v x :
  x + 4 <= a \/ a + 4 <= x -> load32 (store32 m a v) x = load32 m x.
Proof. intros. apply (load_le_store_le_out 4 4). lia. Qed.

Lemma load8_store32_out m a v x :
  x < a \/ a + 4 <= x -> load8 (store32 m a v) x = load8 m x.
Proof. intros. apply (load8_store_le_out 4). lia. Qed.

Lemma load32_frame m m' a :
  (forall x, a <= x < a + 4 -> load8 m' x = load8 m x) -> load32 m' a = load32 m a.
Proof. intros. apply (load_le_frame 4). done. Qed.

Lemma load32_shift m m' a b :
  (forall i, 0 <= i < 4 -> load8 m (a + i) = load8 m' (b + i)) -> load32 m a = load32 m' b.
Proof. intros. by apply (load_le_shift 4). Qed.

#[export] Hint Resolve load32_range load8_range : cint.
#[export] Hint Rewrite load32_store32_same : cint.

(** Simplify a load of a store at a syntactically known distance. *)
Ltac mem_simpl :=
  repeat first
    [ rewrite load32_store32_same
    | rewrite load32_store32_out by lia
    | rewrite load8_store32_out by lia ].

Lemma load8_mem_fill m dst v n x :
  0 <= n ->
  load8 (mem_fill m dst v n) x =
  if decide (dst <= x < dst + n) then u8 v else load8 m x.
Proof.
  intros Hn. unfold mem_fill.
  refine (for_range_ind (fun i m' => load8 m' x =
    if decide (dst <= x < dst + i) then u8 v else load8 m x) 0 n _ m Hn _ _).
  - rewrite decide_False; [done | lia].
  - intros i m' Hi IH. rewrite load8_store8, IH.
    repeat case_decide; done || lia.
Qed.

(** ** Copying between memories *)

(** [n] bytes of [src] from [a] on, at [d] in [dst]. *)
Definition copy_bytes (n : Z) (src : mem) (a : Z) (dst : mem) (d : Z) : mem :=
  for_range 0 n (fun m i => store8 m (d + i) (load8 src (a + i))) dst.

Lemma load8_copy_bytes n src a dst d x : 0 <= n ->
  load8 (copy_bytes n src a dst d) x = if decide (d <= x < d + n) then load8 src (a + (x - d)) else load8 dst x.
Proof.
  intros Hn. unfold copy_bytes.
  refine (for_range_ind (fun i m => load8 m x = if decide (d <= x < d + i) then load8 src (a + (x - d)) else load8 dst x)
    0 n _ dst Hn _ _).
  - by rewrite decide_False by lia.
  - intros i m Hi IH. rewrite load8_store8, IH. destruct (decide (x = d + i)) as [-> | Hx].
    + rewrite decide_True by lia. rewrite u8_small by apply load8_range. f_equal. lia.
    + repeat case_decide; done || lia.
Qed.
