(* ===== verification/Interfaces.v ===== *)
(** * Interfaces between components

    What one component promises to the ones that call it, as type classes:
    the clients' definitions and theorems are stated against these classes
    and the implementing component gives the instance. *)

From S2P Require Import Prelude Memory.

(** ** Page frames

    Implemented by the physical memory manager; used by paging and by the
    ELF loader.  Frames are named by their page number; the operations
    speak in byte addresses, 0 standing for "no memory". *)

Class FrameAllocator (F : Type) : Type := {
  frame_alloc : F -> Z * F;
  frame_free : F -> Z -> F;
  frames : F -> gset Z;          (* the page numbers that can be handed out *)
  frames_ok : F -> Prop          (* the implementation's own invariant *)
}.

Class FrameAllocatorLaws (F : Type) `{FrameAllocator F} : Prop := {
  frames_range s p : frames_ok s -> p ∈ frames s -> 0 < p < 2 ^ 20;
  frame_alloc_none s : frames_ok s -> frames s = ∅ -> frame_alloc s = (0, s);
  frame_alloc_some s :
    frames_ok s -> frames s ≠ ∅ ->
    exists p s', frame_alloc s = (p * 4096, s') /\ p ∈ frames s /\
      (forall q, q ∈ frames s -> p <= q) /\
      frames s' = frames s ∖ {[p]} /\ frames_ok s';
  frame_free_spec s p :
    frames_ok s -> 0 < p < 2 ^ 20 ->
    frames (frame_free s (p * 4096)) = frames s ∪ {[p]} /\
    frames_ok (frame_free s (p * 4096))
}.

(** ** Heap blocks

    Implemented by the kernel heap; used by the ELF loader and by the tasks.
    [heap_blocks] maps each pointer handed out and not yet freed to the size
    that was asked for. *)

Class HeapAllocator (H : Type) : Type := {
  heap_malloc : H -> Z -> outcome (Z * H);
  heap_free : H -> Z -> outcome H;
  heap_blocks : H -> gmap Z Z;
  heap_ok : H -> Prop
}.

Class HeapAllocatorLaws (H : Type) `{HeapAllocator H} : Prop := {
  heap_malloc_ok h n :
    heap_ok h -> 0 < n <= 2 ^ 31 ->
    exists p h', heap_malloc h n = Ret (p, h') /\ heap_ok h' /\
      ((p = 0 /\ heap_blocks h' = heap_blocks h) \/
       (0 < p /\ heap_blocks h' = <[p := n]> (heap_blocks h) /\ heap_blocks h !! p = None));
  heap_free_ok h p n :
    heap_ok h -> heap_blocks h !! p = Some n ->
    exists h', heap_free h p = Ret h' /\ heap_ok h' /\ heap_blocks h' = delete p (heap_blocks h);
  heap_block_range h p n : heap_ok h -> heap_blocks h !! p = Some n -> 0 < p /\ p + n < 2 ^ 32;
  heap_blocks_apart h p q n k :
    heap_ok h -> heap_blocks h !! p = Some n -> heap_blocks h !! q = Some k -> p ≠ q ->
    p + n <= q \/ q + k <= p
}.

(** ** Memory of processes

    Implemented by the ELF loader together with the kernel heap; used by the
    scheduler, which takes the task structures and the stacks from the heap
    and gives back whole images.  [proc_images] maps the loaded images to
    their entry points; the image structures are heap blocks too.
    [proc_returns m m'] says what giving memory back leaves alone of [m], in
    terms of the implementation. *)

Class ProcessMemory (M : Type) : Type := {
  proc_malloc : M -> Z -> outcome (Z * M);
  proc_free : M -> Z -> outcome M;
  proc_unload : M -> Z -> outcome M;
  proc_blocks : M -> gmap Z Z;
  proc_images : M -> gmap Z Z;
  proc_ok : M -> Prop;
  proc_returns : M -> M -> Prop
}.

Class ProcessMemoryLaws (M : Type) `{ProcessMemory M} : Prop := {
  proc_malloc_ok m n :
    proc_ok m -> 0 < n <= 2 ^ 31 ->
    exists p m', proc_malloc m n = Ret (p, m') /\ proc_ok m' /\ proc_images m' = proc_images m /\
      ((p = 0 /\ proc_blocks m' = proc_blocks m) \/
       (0 < p /\ proc_blocks m' = <[p := n]> (proc_blocks m) /\ proc_blocks m !! p = None));
  proc_free_ok m p n :
    proc_ok m -> proc_blocks m !! p = Some n -> proc_images m !! p = None ->
    exists m', proc_free m p = Ret m' /\ proc_ok m' /\ proc_images m' = proc_images m /\
      proc_blocks m' = delete p (proc_blocks m);
  proc_unload_ok m p e :
    proc_ok m -> proc_images m !! p = Some e ->
    exists m', proc_unload m p = Ret m' /\ proc_ok m' /\
      proc_images m' = delete p (proc_images m) /\ proc_blocks m' = delete p (proc_blocks m);
  proc_image_block m p e :
    proc_ok m -> proc_images m !! p = Some e -> 0 < p /\ is_Some (proc_blocks m !! p);
  proc_block_range m p n : proc_ok m -> proc_blocks m !! p = Some n -> 0 < p /\ p + n < 2 ^ 32;
  proc_blocks_apart m p q n k :
    proc_ok m -> proc_blocks m !! p = Some n -> proc_blocks m !! q = Some k -> p ≠ q ->
    p + n <= q \/ q + k <= p;
  proc_returns_refl m : proc_ok m -> proc_returns m m;
  proc_returns_trans m1 m2 m3 : proc_returns m1 m2 -> proc_returns m2 m3 -> proc_returns m1 m3;
  proc_free_returns m p n m' :
    proc_ok m -> proc_blocks m !! p = Some n -> proc_images m !! p = None -> proc_free m p = Ret m' ->
    proc_returns m m';
  proc_unload_returns m p e m' :
    proc_ok m -> proc_images m !! p = Some e -> proc_unload m p = Ret m' -> proc_returns m m'
}.

(** ** Block devices

    Implemented by the ATA driver; used by the FAT32 file system.  A read or
    write moves [count] sectors of 512 bytes between the device and the start
    of a buffer; its result is C's [int], negative on failure, when the buffer
    (for a read) or the device (for a write) may be partly changed. *)

Class BlockDevice (D : Type) : Type := {
  ata_read : D -> Z -> Z -> Z -> mem -> outcome (Z * mem * D);  (* drive lba count buf *)
  ata_write : D -> Z -> Z -> Z -> mem -> outcome (Z * D);
  disk : D -> Z -> mem;          (* the bytes of a drive *)
  capacity : D -> Z -> Z;        (* sectors of a drive *)
  dev_ok : D -> Prop             (* the device answers and reports no error *)
}.

Class BlockDeviceLaws (D : Type) `{BlockDevice D} : Prop := {
  capacity_lba28 d drive : dev_ok d -> 0 <= capacity d drive <= 2 ^ 28;
  ata_read_ok d drive lba count buf :
    dev_ok d -> 0 <= lba -> 0 < count < 256 -> lba + count <= capacity d drive ->
    exists buf' d', ata_read d drive lba count buf = Ret (0, buf', d') /\ dev_ok d' /\
      (forall i, load8 buf' i =
         if decide (0 <= i < 512 * count) then load8 (disk d drive) (512 * lba + i)
         else load8 buf i) /\
      (forall dr, capacity d' dr = capacity d dr) /\
      (forall dr x, load8 (disk d' dr) x = load8 (disk d dr) x);
  ata_write_ok d drive lba count buf :
    dev_ok d -> 0 <= lba -> 0 < count < 256 -> lba + count <= capacity d drive ->
    exists d', ata_write d drive lba count buf = Ret (0, d') /\ dev_ok d' /\
      (forall dr, capacity d' dr = capacity d dr) /\
      (forall dr x, load8 (disk d' dr) x =
         if decide (dr = drive /\ 512 * lba <= x < 512 * lba + 512 * count)
         then load8 buf (x - 512 * lba) else load8 (disk d dr) x)
}.
