(* ===== verification/Pmm.v ===== *)
(** * The physical memory manager (src/mem/pmm.c)

    A bitmap with one bit per 4 KB page of the 4 GB physical address space
    (bit set = page in use), and the counters the shell reports.  The state
    is the file's three [static] variables; the operations are its static
    helpers and its public API.

    The abstract view is the set of free page numbers ([free_set]).  The file
    proves the representation invariant, gives the exact effect of every
    operation on that set, and shows that the allocator implements the
    [FrameAllocator] interface its clients (paging, the ELF loader) use. *)

From S2P Require Import Prelude Memory Interfaces.

(** ** Definitions *)

Definition PAGE_SIZE : Z := 4096.
Definition TOTAL_PAGES : Z := Z.shiftl 1 20.
Definition BITMAP_WORDS : Z := TOTAL_PAGES / 32.

Record pmm : Type := Pmm {
  bitmap : list Z;
  free_count : Z;
  total_count : Z
}.

(** [bitmap[w]] as an rvalue and as an lvalue. *)
Definition bm_get (s : pmm) (w : Z) : Z := default 0 (bitmap s !! Z.to_nat w).
Definition bm_set (s : pmm) (w v : Z) : pmm :=
  Pmm (<[Z.to_nat w := v]> (bitmap s)) (free_count s) (total_count s).

(** [1u << (p & 31)]. *)
Definition page_bit (p : Z) : Z := u32 (Z.shiftl 1 (Z.land p 31)).

Definition page_set_used (s : pmm) (p : Z) : pmm :=
  bm_set s (Z.shiftr p 5) (Z.lor (bm_get s (Z.shiftr p 5)) (page_bit p)).

Definition page_set_free (s : pmm) (p : Z) : pmm :=
  bm_set s (Z.shiftr p 5) (Z.land (bm_get s (Z.shiftr p 5)) (not32 (page_bit p))).

Definition page_is_free (s : pmm) (p : Z) : bool :=
  negb (truth (Z.land (bm_get s (Z.shiftr p 5)) (page_bit p))).

Definition add_free (s : pmm) (d : Z) : pmm :=
  Pmm (bitmap s) (u32 (free_count s + d)) (total_count s).
Definition add_total (s : pmm) (d : Z) : pmm :=
  Pmm (bitmap s) (free_count s) (u32 (total_count s + d)).

(** The page range a region covers: the casts to [uint32_t] happen before
    the clamp to [TOTAL_PAGES]. *)
Definition clamp_pages (last : Z) : Z :=
  if TOTAL_PAGES <? last then TOTAL_PAGES else last.

Definition free_first (base : Z) : Z := u32 (base / PAGE_SIZE).
Definition free_last (base len : Z) : Z :=
  clamp_pages (u32 (u64 (base + len) / PAGE_SIZE)).

Definition region_free (s : pmm) (base len : Z) : pmm :=
  let first := free_first base in
  let last := free_last base len in
  for_range first last
    (fun s p =>
       if page_is_free s p then s
       else add_total (add_free (page_set_free s p) 1) 1) s.

Definition region_reserve (s : pmm) (base len : Z) : pmm :=
  let first := u32 (base / PAGE_SIZE) in
  let last := clamp_pages (u32 (u64 (base + len + PAGE_SIZE - 1) / PAGE_SIZE)) in
  for_range first last
    (fun s p =>
       if page_is_free s p then add_free (page_set_used s p) (-1) else s) s.

(** The e820 map the boot loader left at 0x500: a [uint16_t] count, then
    packed 20-byte entries. *)
Definition E820_COUNT : Z := 0x500.
Definition E820_TABLE : Z := 0x502.
Definition E820_USABLE : Z := 1.

Record e820_entry : Type := E820 { e_base : Z; e_length : Z; e_type : Z }.

Definition e820_table (m : mem) (i : Z) : e820_entry :=
  let a := E820_TABLE + 20 * i in
  E820 (load64 m a) (load64 m (a + 8)) (load32 m (a + 16)).

Definition pmm_init (m : mem) : pmm :=
  let s := Pmm (replicate (Z.to_nat BITMAP_WORDS) 0xFFFFFFFF) 0 0 in
  let count := load16 m E820_COUNT in
  let s := for_range 0 count
    (fun s i =>
       let e := e820_table m i in
       if e_type e =? E820_USABLE then region_free s (e_base e) (e_length e) else s) s in
  region_reserve s 0 0x100000.

(** The inner loop of [pmm_alloc] over the bits of one word, and the outer
    loop over the words; [None] means the loop ran to its end. *)
Fixpoint alloc_bits (s : pmm) (w : Z) (bs : list Z) : option (Z * pmm) :=
  match bs with
  | [] => None
  | b :: bs' =>
      let p := u32 (w * 32 + b) in
      if page_is_free s p then
        Some (u32 (p * PAGE_SIZE), add_free (page_set_used s p) (-1))
      else alloc_bits s w bs'
  end.

Fixpoint alloc_words (n : nat) (s : pmm) (w : Z) : option (Z * pmm) :=
  match n with
  | O => None
  | S n' =>
      if bm_get s w =? 0xFFFFFFFF then alloc_words n' s (w + 1)
      else
        match alloc_bits s w (seqZ 0 32) with
        | Some r => Some r
        | None => alloc_words n' s (w + 1)
        end
  end.

Definition pmm_alloc (s : pmm) : Z * pmm :=
  match alloc_words (Z.to_nat BITMAP_WORDS) s 0 with
  | Some r => r
  | None => (0, s)
  end.

Definition pmm_free (s : pmm) (addr : Z) : pmm :=
  let p := u32 addr / PAGE_SIZE in
  if (TOTAL_PAGES <=? p) || page_is_free s p then s
  else add_free (page_set_free s p) 1.

Definition pmm_free_pages (s : pmm) : Z := free_count s.
Definition pmm_total_pages (s : pmm) : Z := total_count s.

(** ** The abstract view *)

Definition free_set (s : pmm) : gset Z :=
  list_to_set (filter (fun p => page_is_free s p = true) (seqZ 0 TOTAL_PAGES)).

Record pmm_wf (s : pmm) : Prop := {
  wf_len : length (bitmap s) = Z.to_nat BITMAP_WORDS;
  wf_words : Forall is_u32 (bitmap s);
  wf_count : free_count s = Z.of_nat (size (free_set s))
}.

Lemma TOTAL_PAGES_eq : TOTAL_PAGES = 1048576.
Proof. reflexivity. Qed.

Lemma BITMAP_WORDS_eq : BITMAP_WORDS = 32768.
Proof. reflexivity. Qed.

(** These constants are large: keep [simpl] and unification away from them. *)
#[global] Opaque TOTAL_PAGES BITMAP_WORDS.

Ltac pages := rewrite ?TOTAL_PAGES_eq, ?BITMAP_WORDS_eq in *.

Lemma elem_of_free_set s p :
  p ∈ free_set s <-> 0 <= p < TOTAL_PAGES /\ page_is_free s p = true.
Proof.
  unfold free_set. rewrite elem_of_list_to_set, list_elem_of_filter, elem_of_seqZ.
  pages. intuition lia.
Qed.

(** From here on [free_set] is only used through [elem_of_free_set]. *)
#[global] Opaque free_set.

(** ** Bits *)

Lemma page_bit_testbit p n : 0 <= n < 32 -> Z.testbit (page_bit p) n = (n =? p mod 32).
Proof.
  intros Hn. unfold page_bit. rewrite testbit_u32, land_31 by lia.
  apply testbit_shiftl_1. apply Z.mod_pos_bound. lia.
Qed.

Lemma page_bit_range p : is_u32 (page_bit p).
Proof. apply u32_range. Qed.
#[export] Hint Resolve page_bit_range : cint.

Lemma not32_testbit z n : 0 <= n < 32 -> Z.testbit (not32 z) n = negb (Z.testbit z n).
Proof. intros. unfold not32. rewrite testbit_u32, Z.lnot_spec; lia || done. Qed.

(** The test the code makes is the test of one bit. *)
Lemma page_is_free_testbit s p :
  page_is_free s p = negb (Z.testbit (bm_get s (p / 32)) (p mod 32)).
Proof.
  unfold page_is_free, truth. rewrite shiftr_div by lia. change (2 ^ 5) with 32.
  set (w := bm_get s (p / 32)). rewrite negb_involutive.
  assert (0 <= p mod 32 < 32) as Hm by (apply Z.mod_pos_bound; lia).
  destruct (Z.testbit w (p mod 32)) eqn:E; simpl.
  - apply Z.eqb_neq. intros H. apply (f_equal (fun z => Z.testbit z (p mod 32))) in H.
    rewrite Z.land_spec, E, page_bit_testbit, Z.eqb_refl, Z.bits_0 in H by lia. done.
  - apply Z.eqb_eq. apply u32_bits_eq; auto with cint; [unfold is_u32; lia |].
    intros n Hn. rewrite Z.land_spec, page_bit_testbit, Z.bits_0 by lia.
    destruct (Z.eqb_spec n (p mod 32)) as [-> | ?]; [by rewrite E | by rewrite andb_false_r].
Qed.

(** ** One bit at a time

    [bm_ok] is the part of the invariant the bit operations need; the
    counters play no role in it. *)

Definition bm_ok (s : pmm) : Prop :=
  length (bitmap s) = Z.to_nat BITMAP_WORDS /\ Forall is_u32 (bitmap s).

Lemma bm_ok_get s w : bm_ok s -> is_u32 (bm_get s w).
Proof.
  intros [_ HF]. unfold bm_get. destruct (bitmap s !! Z.to_nat w) eqn:E; simpl.
  - by eapply Forall_lookup_1.
  - unfold is_u32; lia.
Qed.

Lemma bm_ok_set s w v : bm_ok s -> is_u32 v -> bm_ok (bm_set s w v).
Proof.
  intros [HL HF] Hv. split; simpl; [by rewrite length_insert |].
  by apply Forall_insert.
Qed.

Lemma bm_get_set s w v x :
  bm_ok s -> 0 <= w < BITMAP_WORDS -> 0 <= x ->
  bm_get (bm_set s w v) x = if decide (x = w) then v else bm_get s x.
Proof.
  intros [HL _] Hw Hx. unfold bm_get. simpl. pages. case_decide as E.
  - subst. rewrite list_lookup_insert_eq; [done |]. rewrite HL. lia.
  - rewrite list_lookup_insert_ne; [done |]. lia.
Qed.

(** Membership of another page only changes when it is the page operated on. *)
Lemma set_bit_is_free s p q v f :
  bm_ok s -> 0 <= p < TOTAL_PAGES -> 0 <= q ->
  (forall n, 0 <= n < 32 ->
     Z.testbit v n = f (Z.testbit (bm_get s (p / 32)) n) (n =? p mod 32)) ->
  (forall b, f b false = b) ->
  page_is_free (bm_set s (Z.shiftr p 5) v) q =
  if decide (q = p) then negb (f (Z.testbit (bm_get s (p / 32)) (p mod 32)) true)
  else page_is_free s q.
Proof.
  intros Hok Hp Hq Hv Hf. rewrite !page_is_free_testbit, shiftr_div by lia.
  change (2 ^ 5) with 32. pages.
  assert (0 <= q mod 32 < 32) by (apply Z.mod_pos_bound; lia).
  rewrite bm_get_set by (pages; auto; zdm).
  case_decide as E1; case_decide as E2; subst.
  - rewrite Hv, Z.eqb_refl by lia. done.
  - rewrite Hv by lia. destruct (Z.eqb_spec (q mod 32) (p mod 32)); [zdm |].
    by rewrite Hf, E1.
  - congruence.
  - done.
Qed.

Lemma page_set_used_is_free s p q :
  bm_ok s -> 0 <= p < TOTAL_PAGES -> 0 <= q ->
  page_is_free (page_set_used s p) q = if decide (q = p) then false else page_is_free s q.
Proof.
  intros Hok Hp Hq. unfold page_set_used.
  rewrite (set_bit_is_free s p q _ orb); auto; try by intros [].
  - case_decide; [by rewrite orb_true_r | done].
  - intros n Hn. rewrite Z.lor_spec, page_bit_testbit, shiftr_div by lia. done.
Qed.

Lemma page_set_free_is_free s p q :
  bm_ok s -> 0 <= p < TOTAL_PAGES -> 0 <= q ->
  page_is_free (page_set_free s p) q = if decide (q = p) then true else page_is_free s q.
Proof.
  intros Hok Hp Hq. unfold page_set_free.
  rewrite (set_bit_is_free s p q _ (fun b c => b && negb c)); auto; try by intros [].
  - case_decide; [by rewrite andb_false_r | done].
  - intros n Hn. rewrite Z.land_spec, not32_testbit, page_bit_testbit, shiftr_div by lia. done.
Qed.

Lemma page_set_used_ok s p : bm_ok s -> bm_ok (page_set_used s p).
Proof. intros. apply bm_ok_set; auto using bm_ok_get with cint. Qed.

Lemma page_set_free_ok s p : bm_ok s -> bm_ok (page_set_free s p).
Proof. intros. apply bm_ok_set; auto using bm_ok_get with cint. Qed.

(** Counter updates do not touch the bitmap. *)
Lemma page_is_free_bitmap s s' p :
  bitmap s = bitmap s' -> page_is_free s p = page_is_free s' p.
Proof. unfold page_is_free, bm_get. by intros ->. Qed.

Lemma free_set_bitmap s s' : bitmap s = bitmap s' -> free_set s = free_set s'.
Proof.
  intros E. apply set_eq. intros p.
  by rewrite !elem_of_free_set, (page_is_free_bitmap s s').
Qed.

Lemma free_set_used s p :
  bm_ok s -> 0 <= p < TOTAL_PAGES ->
  free_set (page_set_used s p) = free_set s ∖ {[p]}.
Proof.
  intros Hok Hp. apply set_eq. intros q.
  rewrite elem_of_difference, elem_of_singleton, !elem_of_free_set.
  destruct (decide (0 <= q < TOTAL_PAGES)) as [Hq | Hq]; [| intuition (subst; tauto)].
  rewrite page_set_used_is_free by (auto; lia). case_decide; intuition congruence.
Qed.

Lemma free_set_free s p :
  bm_ok s -> 0 <= p < TOTAL_PAGES ->
  free_set (page_set_free s p) = free_set s ∪ {[p]}.
Proof.
  intros Hok Hp. apply set_eq. intros q.
  rewrite elem_of_union, elem_of_singleton, !elem_of_free_set.
  destruct (decide (0 <= q < TOTAL_PAGES)) as [Hq | Hq]; [| intuition (subst; tauto)].
  rewrite page_set_free_is_free by (auto; lia). case_decide; intuition congruence.
Qed.

Lemma free_set_size s : Z.of_nat (size (free_set s)) <= TOTAL_PAGES.
Proof.
  assert (free_set s ⊆ list_to_set (seqZ 0 TOTAL_PAGES)) as H%subseteq_size.
  { intros p. rewrite elem_of_free_set, elem_of_list_to_set, elem_of_seqZ. pages. lia. }
  rewrite size_list_to_set, length_seqZ in H by apply NoDup_seqZ. pages. lia.
Qed.

(** ** One page at a time, with its counter

    [take_page] and [give_page] are the two transitions every operation of
    the file is made of: mark a free page used and decrement the counter,
    mark a used page free and increment it. *)

Definition take_page (s : pmm) (p : Z) : pmm := add_free (page_set_used s p) (-1).
Definition give_page (s : pmm) (p : Z) : pmm := add_free (page_set_free s p) 1.

Lemma pmm_wf_ok s : pmm_wf s -> bm_ok s.
Proof. intros []. by split. Qed.
#[export] Hint Resolve pmm_wf_ok : cint.

Lemma free_set_take s p :
  pmm_wf s -> 0 <= p < TOTAL_PAGES -> free_set (take_page s p) = free_set s ∖ {[p]}.
Proof.
  intros Hwf Hp. rewrite (free_set_bitmap _ (page_set_used s p)) by done.
  apply free_set_used; auto with cint.
Qed.

Lemma free_set_give s p :
  pmm_wf s -> 0 <= p < TOTAL_PAGES -> free_set (give_page s p) = free_set s ∪ {[p]}.
Proof.
  intros Hwf Hp. rewrite (free_set_bitmap _ (page_set_free s p)) by done.
  apply free_set_free; auto with cint.
Qed.

Lemma take_page_wf s p : pmm_wf s -> p ∈ free_set s -> pmm_wf (take_page s p).
Proof.
  intros Hwf Hp. pose proof Hp as [Hr _]%elem_of_free_set.
  destruct (page_set_used_ok s p) as [HL HF]; [auto with cint |].
  split; [done | done |]. rewrite free_set_take by done. simpl.
  destruct Hwf as [_ _ HC]. pose proof (free_set_size s). pages.
  rewrite HC, size_difference by set_solver.
  assert (size {[p]} <= size (free_set s))%nat by (apply subseteq_size; set_solver).
  rewrite size_singleton in *. rewrite u32_small by lia. lia.
Qed.

Lemma give_page_wf s p :
  pmm_wf s -> 0 <= p < TOTAL_PAGES -> p ∉ free_set s -> pmm_wf (give_page s p).
Proof.
  intros Hwf Hr Hp.
  destruct (page_set_free_ok s p) as [HL HF]; [auto with cint |].
  split; [done | done |]. rewrite free_set_give by done. simpl.
  destruct Hwf as [_ _ HC]. pose proof (free_set_size s). pages.
  rewrite HC, size_union, size_singleton by set_solver.
  rewrite u32_small by lia. lia.
Qed.

(** ** Regions *)

Definition page_range (a b : Z) : gset Z := list_to_set (seqZ a (b - a)).

Lemma elem_of_page_range a b p : p ∈ page_range a b <-> a <= p < b.
Proof. unfold page_range. rewrite elem_of_list_to_set, elem_of_seqZ. lia. Qed.
#[global] Opaque page_range.

Lemma page_range_step a b : a <= b -> page_range a (b + 1) = page_range a b ∪ {[b]}.
Proof.
  intros. apply set_eq. intros p.
  rewrite elem_of_union, elem_of_singleton, !elem_of_page_range. lia.
Qed.

Lemma page_range_empty a b : b <= a -> page_range a b = ∅.
Proof.
  intros. apply set_eq. intros p. rewrite elem_of_page_range.
  split; [lia | set_solver].
Qed.

Lemma clamp_pages_le z : clamp_pages z <= TOTAL_PAGES.
Proof. unfold clamp_pages. case_ltb; lia. Qed.

(** The counters agree before [region_reserve] runs. *)
Definition counts_agree (s : pmm) : Prop := total_count s = free_count s.

Lemma region_free_spec s base len :
  pmm_wf s ->
  pmm_wf (region_free s base len) /\
  free_set (region_free s base len) =
    free_set s ∪ page_range (free_first base) (free_last base len) /\
  (counts_agree s -> counts_agree (region_free s base len)).
Proof.
  intros Hwf. unfold region_free.
  set (first := free_first base). set (last := free_last base len).
  assert (0 <= first) by apply u32_range.
  assert (last <= TOTAL_PAGES) by apply clamp_pages_le.
  destruct (decide (last <= first)) as [Hle | Hlt].
  { rewrite for_range_empty, page_range_empty, union_empty_r_L by lia. done. }
  refine (for_range_ind (fun i s' => pmm_wf s' /\
    free_set s' = free_set s ∪ page_range first i /\
    (counts_agree s -> counts_agree s')) first last _ s _ _ _); [lia | |].
  { rewrite page_range_empty, union_empty_r_L by lia. done. }
  intros i s' Hi (Hwf' & Hset & Hag).
  rewrite page_range_step by lia. rewrite (assoc_L (∪)), <- Hset.
  destruct (page_is_free s' i) eqn:E.
  - assert (i ∈ free_set s') by (apply elem_of_free_set; split; [lia | done]).
    split_and!; [done | set_solver | done].
  - assert (i ∉ free_set s') by (rewrite elem_of_free_set; rewrite E; intros [_ [=]]).
    change (add_free (page_set_free s' i) 1) with (give_page s' i).
    assert (pmm_wf (give_page s' i)) as [? ? Hc] by (apply give_page_wf; auto; lia).
    split_and!.
    + split; [done | done |]. simpl. rewrite (free_set_bitmap _ (give_page s' i)); done.
    + rewrite (free_set_bitmap _ (give_page s' i)) by done. apply free_set_give; auto; lia.
    + intros Hs%Hag. unfold counts_agree in *. simpl. by rewrite Hs.
Qed.

Lemma region_reserve_spec s base len :
  pmm_wf s ->
  let first := u32 (base / PAGE_SIZE) in
  let last := clamp_pages (u32 (u64 (base + len + PAGE_SIZE - 1) / PAGE_SIZE)) in
  pmm_wf (region_reserve s base len) /\
  free_set (region_reserve s base len) = free_set s ∖ page_range first last /\
  total_count (region_reserve s base len) = total_count s.
Proof.
  intros Hwf first last. unfold region_reserve. fold first last.
  assert (0 <= first) by apply u32_range.
  assert (last <= TOTAL_PAGES) by apply clamp_pages_le.
  destruct (decide (last <= first)) as [Hle | Hlt].
  { rewrite for_range_empty, page_range_empty, difference_empty_L by lia. done. }
  refine (for_range_ind (fun i s' => pmm_wf s' /\
    free_set s' = free_set s ∖ page_range first i /\
    total_count s' = total_count s) first last _ s _ _ _); [lia | |].
  { rewrite page_range_empty, difference_empty_L by lia. done. }
  intros i s' Hi (Hwf' & Hset & Htot).
  rewrite page_range_step, <- difference_difference_l_L, <- Hset by lia.
  destruct (page_is_free s' i) eqn:E.
  - assert (i ∈ free_set s') by (apply elem_of_free_set; split; [lia | done]).
    change (add_free (page_set_used s' i) (-1)) with (take_page s' i).
    split_and!; [by apply take_page_wf | apply free_set_take; auto; lia | done].
  - assert (i ∉ free_set s') by (rewrite elem_of_free_set; rewrite E; intros [_ [=]]).
    split_and!; [done | set_solver | done].
Qed.

(** ** Initialisation *)

Definition all_used : pmm := Pmm (replicate (Z.to_nat BITMAP_WORDS) 0xFFFFFFFF) 0 0.

Lemma all_used_free_set : free_set all_used = ∅.
Proof.
  apply set_eq. intros p. rewrite elem_of_free_set. split; [| set_solver].
  intros [Hp Hf]. exfalso. revert Hf. rewrite page_is_free_testbit.
  unfold bm_get. simpl. pages. rewrite lookup_replicate_2 by zdm. simpl.
  change 0xFFFFFFFF with (Z.ones 32).
  assert (0 <= p mod 32 < 32) by (apply Z.mod_pos_bound; lia).
  rewrite Z.ones_spec_low by lia. done.
Qed.

Lemma all_used_wf : pmm_wf all_used.
Proof.
  split.
  - simpl. by rewrite length_replicate.
  - simpl. apply Forall_replicate. unfold is_u32. lia.
  - rewrite all_used_free_set, size_empty. done.
Qed.

(** The pages entry [i] of the e820 map contributes. *)
Definition e820_pages (m : mem) (i : Z) : gset Z :=
  let e := e820_table m i in
  if e_type e =? E820_USABLE
  then page_range (free_first (e_base e)) (free_last (e_base e) (e_length e)) else ∅.

Definition e820_usable (m : mem) (n : Z) : gset Z :=
  ⋃ (e820_pages m <$> seqZ 0 n).

Lemma e820_usable_step m n :
  0 <= n -> e820_usable m (n + 1) = e820_usable m n ∪ e820_pages m n.
Proof.
  intros. unfold e820_usable. rewrite seqZ_app by lia.
  rewrite fmap_app, union_list_app_L. simpl. by rewrite union_empty_r_L.
Qed.

(** The state after the e820 loop, before the first megabyte is reserved. *)
Definition e820_loop (m : mem) (n : Z) : pmm :=
  for_range 0 n
    (fun s i =>
       let e := e820_table m i in
       if e_type e =? E820_USABLE then region_free s (e_base e) (e_length e) else s)
    all_used.

Lemma e820_loop_spec m n :
  0 <= n ->
  pmm_wf (e820_loop m n) /\ free_set (e820_loop m n) = e820_usable m n /\
  counts_agree (e820_loop m n).
Proof.
  intros Hn. unfold e820_loop.
  refine (for_range_ind (fun i s => pmm_wf s /\ free_set s = e820_usable m i /\
    counts_agree s) 0 n _ all_used Hn _ _).
  - split_and!; [apply all_used_wf | apply all_used_free_set | done].
  - intros i s Hi (Hwf & Hset & Hag). cbv zeta.
    rewrite e820_usable_step by lia. unfold e820_pages.
    destruct (e_type (e820_table m i) =? E820_USABLE).
    + destruct (region_free_spec s (e_base (e820_table m i)) (e_length (e820_table m i)) Hwf)
        as (? & Hs & ?).
      rewrite Hs, Hset. auto.
    + rewrite union_empty_r_L. auto.
Qed.

Lemma pmm_init_unfold m :
  pmm_init m = region_reserve (e820_loop m (load16 m E820_COUNT)) 0 0x100000.
Proof. reflexivity. Qed.

Lemma elem_of_e820_usable m n p :
  p ∈ e820_usable m n <->
  exists i, 0 <= i < n /\ e_type (e820_table m i) = E820_USABLE /\
    free_first (e_base (e820_table m i)) <= p
      < free_last (e_base (e820_table m i)) (e_length (e820_table m i)).
Proof.
  assert (forall i, p ∈ e820_pages m i <->
    e_type (e820_table m i) = E820_USABLE /\
    free_first (e_base (e820_table m i)) <= p
      < free_last (e_base (e820_table m i)) (e_length (e820_table m i))) as Hi.
  { intros i. unfold e820_pages. cbv zeta.
    destruct (Z.eqb_spec (e_type (e820_table m i)) E820_USABLE).
    - rewrite elem_of_page_range. tauto.
    - split; [set_solver | tauto]. }
  unfold e820_usable. rewrite elem_of_union_list. split.
  - intros (X & (i & -> & Hr%elem_of_seqZ)%list_elem_of_fmap & Hp%Hi).
    exists i. split; [lia | done].
  - intros (i & Hr & Hp%Hi). exists (e820_pages m i). split; [| done].
    apply list_elem_of_fmap. exists i. rewrite elem_of_seqZ. split; [done | lia].
Qed.

Lemma pmm_init_facts m :
  pmm_wf (pmm_init m) /\
  free_set (pmm_init m) = e820_usable m (load16 m E820_COUNT) ∖ page_range 0 0x100 /\
  total_count (pmm_init m) = Z.of_nat (size (e820_usable m (load16 m E820_COUNT))).
Proof.
  rewrite pmm_init_unfold. set (n := load16 m E820_COUNT).
  assert (0 <= n) by apply (load_le_range 2).
  destruct (e820_loop_spec m n) as (Hwf & Hset & Hag); [done |].
  destruct (region_reserve_spec (e820_loop m n) 0 0x100000 Hwf) as (Hwf' & Hset' & Htot).
  split_and!; [done | by rewrite Hset', Hset |].
  rewrite Htot, Hag, <- Hset. apply Hwf.
Qed.

(** ** Allocation

    The reference search: the first free page of a list of candidates.  The
    code finds the same page while skipping full words. *)

Definition find_free (s : pmm) (ps : list Z) : option Z :=
  head (filter (fun p => page_is_free s p = true) ps).

Definition pmm_alloc_ref (s : pmm) : Z * pmm :=
  match find_free s (seqZ 0 TOTAL_PAGES) with
  | Some p => (p * PAGE_SIZE, take_page s p)
  | None => (0, s)
  end.

Lemma find_free_app s l1 l2 :
  find_free s (l1 ++ l2) =
  match find_free s l1 with Some p => Some p | None => find_free s l2 end.
Proof. unfold find_free. rewrite filter_app. by destruct (filter _ l1). Qed.

Lemma find_free_cons s p l :
  find_free s (p :: l) = if page_is_free s p then Some p else find_free s l.
Proof.
  unfold find_free. rewrite filter_cons. destruct (page_is_free s p) eqn:E.
  - by rewrite decide_True.
  - by rewrite decide_False by congruence.
Qed.

Lemma find_free_none s l :
  (forall p, p ∈ l -> page_is_free s p = false) -> find_free s l = None.
Proof.
  induction l as [|p l IH]; [done |]. intros H. rewrite find_free_cons, H by left.
  apply IH. intros q Hq. apply H. by right.
Qed.

(** What the search returns for a whole range of pages. *)
Lemma find_free_Some s a b p :
  find_free s (seqZ a (b - a)) = Some p ->
  a <= p < b /\ page_is_free s p = true /\
  forall q, a <= q < p -> page_is_free s q = false.
Proof.
  remember (Z.to_nat (b - a)) as n eqn:En. revert a En.
  induction n as [|n IH]; intros a En Hf.
  { rewrite seqZ_nil in Hf by lia. done. }
  rewrite seqZ_cons, find_free_cons in Hf by lia.
  destruct (page_is_free s a) eqn:E.
  - injection Hf as <-. split_and!; [lia | lia | done | lia].
  - replace (Z.pred (b - a)) with (b - Z.succ a) in Hf by lia.
    apply IH in Hf as (? & ? & Hq); [| lia].
    split_and!; [lia | lia | done |]. intros q Hqr.
    destruct (decide (q = a)) as [-> | ?]; [done | apply Hq; lia].
Qed.

Lemma find_free_set s p :
  find_free s (seqZ 0 TOTAL_PAGES) = Some p ->
  p ∈ free_set s /\ forall q, q ∈ free_set s -> p <= q.
Proof.
  replace TOTAL_PAGES with (TOTAL_PAGES - 0) by lia.
  intros (Hr & Hf & Hmin)%find_free_Some. split.
  - apply elem_of_free_set. split; [lia | done].
  - intros q [Hq Hfq]%elem_of_free_set. destruct (decide (p <= q)); [done |].
    rewrite Hmin in Hfq by lia. done.
Qed.

Lemma find_free_set_none s :
  find_free s (seqZ 0 TOTAL_PAGES) = None <-> free_set s = ∅.
Proof.
  split.
  - unfold find_free. intros H%head_None. apply set_eq. intros p.
    rewrite elem_of_free_set. split; [| set_solver]. intros [Hp Hf].
    assert (p ∈ filter (fun p => page_is_free s p = true) (seqZ 0 TOTAL_PAGES)) as Hin.
    { apply list_elem_of_filter. rewrite elem_of_seqZ. split; [done | lia]. }
    rewrite H in Hin. set_solver.
  - intros H. apply find_free_none. intros p Hp%elem_of_seqZ.
    destruct (page_is_free s p) eqn:E; [| done].
    assert (p ∈ free_set s) by (apply elem_of_free_set; split; [lia | done]). set_solver.
Qed.

(** What both loops return for the page they stop at. *)
Definition taken (s : pmm) (p : Z) : Z * pmm :=
  (u32 (p * PAGE_SIZE), add_free (page_set_used s p) (-1)).

Lemma alloc_bits_find s w b n :
  0 <= w < BITMAP_WORDS -> 0 <= b -> b + Z.of_nat n <= 32 ->
  alloc_bits s w (seqZ b (Z.of_nat n)) =
  taken s <$> find_free s (seqZ (w * 32 + b) (Z.of_nat n)).
Proof.
  intros Hw. revert b. induction n as [|n IH]; intros b Hb Hn; [done |].
  rewrite !(seqZ_cons _ (Z.of_nat (S n))), find_free_cons by lia. cbn [alloc_bits].
  pages. rewrite u32_small by lia.
  destruct (page_is_free s (w * 32 + b)); [done |].
  replace (Z.pred (Z.of_nat (S n))) with (Z.of_nat n) by lia.
  replace (Z.succ (w * 32 + b)) with (w * 32 + Z.succ b) by lia.
  apply IH; lia.
Qed.

(** A full word has no free page: the [continue] loses nothing. *)
Lemma full_word_no_free s w :
  0 <= w -> bm_get s w = 0xFFFFFFFF -> find_free s (seqZ (w * 32) 32) = None.
Proof.
  intros Hw H. apply find_free_none. intros p Hp%elem_of_seqZ.
  rewrite page_is_free_testbit. replace (p / 32) with w by zdm. rewrite H.
  change 0xFFFFFFFF with (Z.ones 32). rewrite Z.ones_spec_low by zdm. done.
Qed.

Lemma alloc_words_find s w n :
  0 <= w -> w + Z.of_nat n <= BITMAP_WORDS ->
  alloc_words n s w =
  taken s <$> find_free s (seqZ (w * 32) (32 * Z.of_nat n)).
Proof.
  revert w. induction n as [|n IH]; intros w Hw Hn; [done |].
  replace (32 * Z.of_nat (S n)) with (32 + 32 * Z.of_nat n) by lia.
  rewrite seqZ_app, find_free_app by lia. cbn [alloc_words].
  replace (w * 32 + 32) with ((w + 1) * 32) by lia.
  destruct (Z.eqb_spec (bm_get s w) 0xFFFFFFFF) as [E | E].
  - rewrite full_word_no_free by done. apply IH; lia.
  - pose proof (alloc_bits_find s w 0 32 ltac:(lia) ltac:(lia) ltac:(lia)) as Hb.
    rewrite Z.add_0_r in Hb. change (Z.of_nat 32) with 32 in Hb. rewrite Hb.
    destruct (find_free s (seqZ (w * 32) 32)); [done |]. apply IH; lia.
Qed.

Lemma pmm_alloc_find s : pmm_alloc s = pmm_alloc_ref s.
Proof.
  unfold pmm_alloc, pmm_alloc_ref.
  pose proof (alloc_words_find s 0 (Z.to_nat BITMAP_WORDS) ltac:(lia)) as H.
  pages. rewrite Z2Nat.id in H by lia.
  rewrite H by lia. change (32 * 32768) with 1048576. rewrite Z.mul_0_l.
  destruct (find_free s (seqZ 0 1048576)) as [p|] eqn:E; [| done].
  pose proof (find_free_Some s 0 1048576 p E) as [Hr _].
  simpl. unfold taken, take_page, PAGE_SIZE. rewrite u32_small by lia. done.
Qed.

(** ** Deallocation *)

(** An address always names one of the [TOTAL_PAGES] pages, so the range
    test of [pmm_free] never fires. *)
Lemma addr_page_range addr : 0 <= u32 addr / PAGE_SIZE < TOTAL_PAGES.
Proof. pose proof (u32_range addr). unfold is_u32, PAGE_SIZE in *. pages. zdm. Qed.

Lemma pmm_free_cases s addr :
  pmm_free s addr =
  if page_is_free s (u32 addr / PAGE_SIZE) then s
  else give_page s (u32 addr / PAGE_SIZE).
Proof.
  unfold pmm_free. pose proof (addr_page_range addr).
  destruct (Z.leb_spec TOTAL_PAGES (u32 addr / PAGE_SIZE)); [lia |]. done.
Qed.

Lemma pmm_free_set s addr :
  pmm_wf s ->
  pmm_wf (pmm_free s addr) /\
  free_set (pmm_free s addr) = free_set s ∪ {[u32 addr / PAGE_SIZE]}.
Proof.
  intros Hwf. rewrite pmm_free_cases. set (p := u32 addr / PAGE_SIZE).
  pose proof (addr_page_range addr) as Hr. fold p in Hr.
  destruct (page_is_free s p) eqn:E.
  - split; [done |].
    assert ({[p]} ⊆ free_set s); [| set_solver].
    apply singleton_subseteq_l, elem_of_free_set. done.
  - assert (p ∉ free_set s) by (rewrite elem_of_free_set, E; intros [_ [=]]).
    split; [by apply give_page_wf | by apply free_set_give].
Qed.

Lemma page_addr p : 0 <= p < TOTAL_PAGES -> u32 (p * PAGE_SIZE) / PAGE_SIZE = p.
Proof. intros. unfold PAGE_SIZE. pages. rewrite u32_small by lia. zdm. Qed.

(** Setting a clear bit and clearing it again is the identity on a word. *)
Lemma clear_set_bit v p :
  is_u32 v -> Z.testbit v (p mod 32) = false ->
  Z.land (Z.lor v (page_bit p)) (not32 (page_bit p)) = v.
Proof.
  intros Hv Hb. apply u32_bits_eq; auto with cint. intros n Hn.
  rewrite Z.land_spec, Z.lor_spec, not32_testbit, page_bit_testbit by lia.
  destruct (Z.eqb_spec n (p mod 32)) as [-> | ?].
  - by rewrite andb_false_r, Hb.
  - by rewrite orb_false_r, andb_true_r.
Qed.

(** Taking a page and giving it back restores the state. *)
Lemma give_take s p : pmm_wf s -> p ∈ free_set s -> give_page (take_page s p) p = s.
Proof.
  intros Hwf Hp. pose proof Hp as [Hr Hf]%elem_of_free_set.
  pose proof (take_page_wf s p Hwf Hp) as [_ _ HC'].
  pose proof Hwf as [HL HF HC]. pose proof (free_set_size s) as Hs.
  assert (0 <= p / 32 < BITMAP_WORDS) as Hw by (pages; zdm).
  destruct (lookup_lt_is_Some_2 (bitmap s) (Z.to_nat (p / 32))) as [v Hv]; [rewrite HL; lia |].
  assert (is_u32 v) as Hv32 by (by eapply Forall_lookup_1).
  rewrite page_is_free_testbit in Hf. apply negb_true_iff in Hf.
  unfold bm_get in Hf. rewrite Hv in Hf. simpl in Hf.
  assert (free_count (take_page s p) + 1 = free_count s) as Hc.
  { rewrite HC', HC, free_set_take, size_difference by (auto; set_solver).
    assert (size {[p]} <= size (free_set s))%nat by (apply subseteq_size; set_solver).
    rewrite size_singleton in *. lia. }
  unfold give_page, add_free.
  change (free_count (page_set_free (take_page s p) p)) with (free_count (take_page s p)).
  rewrite Hc, HC. unfold page_set_free, bm_set, bm_get.
  cbn [take_page add_free page_set_used bm_set bitmap free_count total_count].
  unfold bm_get. rewrite !shiftr_div by lia. change (2 ^ 5) with 32.
  rewrite Hv, list_lookup_insert_eq by (rewrite HL; lia). simpl.
  rewrite list_insert_insert_eq, clear_set_bit, list_insert_id by done.
  pages. rewrite u32_small by lia. rewrite <- HC. by destruct s.
Qed.

(** ** Allocation, on every branch *)

Lemma pmm_alloc_empty s : free_set s = ∅ -> pmm_alloc s = (0, s).
Proof.
  intros H. rewrite pmm_alloc_find. unfold pmm_alloc_ref.
  apply find_free_set_none in H. by rewrite H.
Qed.

Lemma pmm_alloc_nonempty s :
  pmm_wf s -> free_set s ≠ ∅ ->
  exists p, pmm_alloc s = (p * PAGE_SIZE, take_page s p) /\ p ∈ free_set s /\
    (forall q, q ∈ free_set s -> p <= q) /\ pmm_wf (take_page s p) /\
    free_set (take_page s p) = free_set s ∖ {[p]}.
Proof.
  intros Hwf Hne. rewrite pmm_alloc_find. unfold pmm_alloc_ref.
  destruct (find_free s (seqZ 0 TOTAL_PAGES)) as [p|] eqn:E.
  - apply find_free_set in E as [Hp Hmin]. pose proof Hp as [Hr _]%elem_of_free_set.
    exists p. split_and!; auto using take_page_wf, free_set_take.
  - apply find_free_set_none in E. done.
Qed.

(** The interface for clients, with page 0 kept out of circulation so that
    the address 0 means failure and nothing else. *)
#[export] Instance pmm_frame_allocator : FrameAllocator pmm := {
  frame_alloc := pmm_alloc;
  frame_free := pmm_free;
  frames := free_set;
  frames_ok s := pmm_wf s /\ 0 ∉ free_set s
}.

#[export] Instance pmm_laws : FrameAllocatorLaws pmm.
Proof.
  split.
  - intros s p [_ H0] Hp. pose proof Hp as [Hr _]%elem_of_free_set. pages.
    assert (p ≠ 0) by (intros ->; done). lia.
  - intros s _ H. by apply pmm_alloc_empty.
  - intros s [Hwf H0] Hne.
    destruct (pmm_alloc_nonempty s Hwf Hne) as (p & Ha & Hp & Hmin & Hwf' & Hs).
    exists p, (take_page s p). simpl. split_and!; auto. rewrite Hs. set_solver.
  - intros s p [Hwf H0] Hp. simpl.
    destruct (pmm_free_set s (p * 4096) Hwf) as [Hwf' Hs].
    change 4096 with PAGE_SIZE in Hs. rewrite page_addr in Hs by (pages; lia).
    change 4096 with PAGE_SIZE. split_and!; auto. rewrite Hs.
    rewrite elem_of_union, elem_of_singleton. intros [?|?]; [done | lia].
Qed.

(** ** Properties *)

(** After [pmm_init] a page is free exactly when it lies above the first
    megabyte and inside the page range of a usable e820 entry; the counters
    are the number of free pages and the number of usable pages. *)
Theorem pmm_init_spec (m : mem) :
  let s := pmm_init m in
  let n := load16 m E820_COUNT in
  pmm_wf s /\
  (forall p, p ∈ free_set s <->
     0x100 <= p /\ exists i, 0 <= i < n /\
       e_type (e820_table m i) = E820_USABLE /\
       free_first (e_base (e820_table m i)) <= p
         < free_last (e_base (e820_table m i)) (e_length (e820_table m i))) /\
  pmm_free_pages s = Z.of_nat (size (free_set s)) /\
  pmm_total_pages s = Z.of_nat (size (e820_usable m n)).
Proof.
  intros s n. destruct (pmm_init_facts m) as (Hwf & Hset & Htot).
  split_and!; [done | | apply Hwf | done].
  intros p. unfold s. rewrite Hset, elem_of_difference, elem_of_page_range.
  fold n. rewrite elem_of_e820_usable.
  split.
  - intros [(i & Hi & Ht & Hp) Hlow].
    assert (0 <= free_first (e_base (e820_table m i))) by apply u32_range.
    split; [lia | eauto].
  - intros [Hlow H]. split; [done | lia].
Qed.

(** C26 [pmm_alloc], which skips words that are all ones, returns what a scan
    of every page in increasing order returns: the lowest free page and the
    state with that page taken, or 0 and the state unchanged. *)
Theorem pmm_alloc_equiv (s : pmm) :
  pmm_alloc s =
  match find_free s (seqZ 0 TOTAL_PAGES) with
  | Some p => (p * PAGE_SIZE, take_page s p)
  | None => (0, s)
  end.
Proof. apply pmm_alloc_find. Qed.

(** C25 The allocator implements the frame interface: it hands out the lowest
    free frame and removes it from the free set, returns 0 only when the set
    is empty, and a freed frame joins the set; its invariant (bitmap length,
    word range, counter = number of clear bits) is preserved throughout. *)
Theorem pmm_frame_laws : FrameAllocatorLaws pmm.
Proof. apply pmm_laws. Qed.

(** Freeing the page just allocated restores the allocator's state: every
    bitmap word and both counters. *)
Theorem pmm_alloc_free_roundtrip (s : pmm) :
  pmm_wf s -> free_set s ≠ ∅ ->
  let (addr, s') := pmm_alloc s in pmm_free s' addr = s.
Proof.
  intros Hwf Hne.
  destruct (pmm_alloc_nonempty s Hwf Hne) as (p & -> & Hp & _ & Hwf' & Hs).
  pose proof Hp as [Hr _]%elem_of_free_set.
  assert (u32 (p * PAGE_SIZE) / PAGE_SIZE = p) as Ha by by apply page_addr.
  rewrite pmm_free_cases, Ha.
  destruct (page_is_free (take_page s p) p) eqn:E; [| by apply give_take].
  assert (p ∈ free_set (take_page s p)) as Hin by (by apply elem_of_free_set).
  rewrite Hs in Hin. set_solver.
Qed.

(** A boot memory with two usable e820 entries, used to evaluate the model:
    [0, 0x9FC00) and [0x100000, 0x110000). *)
Definition boot_mem : mem :=
  let m := store_le 2 ∅ E820_COUNT 2 in
  let m := store_le 8 (store_le 8 (store32 m 0x512 1) 0x502 0) 0x50A 0x9FC00 in
  store_le 8 (store_le 8 (store32 m 0x526 1) 0x516 0x100000) 0x51E 0x10000.

Lemma boot_pmm_wf : pmm_wf (pmm_init boot_mem).
Proof. apply pmm_init_facts. Qed.

(** ** Every run of the allocator

    The states of the allocator together with the set of pages its clients
    hold: a client may free only a page it holds. *)

Inductive pmm_step : pmm * gset Z -> pmm * gset Z -> Prop :=
  | step_alloc s held addr s' :
      pmm_alloc s = (addr, s') -> addr ≠ 0 ->
      pmm_step (s, held) (s', {[addr / PAGE_SIZE]} ∪ held)
  | step_oom s held s' :
      pmm_alloc s = (0, s') -> pmm_step (s, held) (s', held)
  | step_free s held p :
      p ∈ held -> pmm_step (s, held) (pmm_free s (p * PAGE_SIZE), held ∖ {[p]}).

(** Moving one page between two disjoint sets keeps their union. *)
Lemma move_page (X Y : gset Z) p :
  p ∈ Y -> X ## Y ->
  {[p]} ∪ X ## Y ∖ {[p]} /\ ({[p]} ∪ X) ∪ Y ∖ {[p]} = X ∪ Y.
Proof.
  intros Hp Hd. split; [set_solver |].
  apply set_eq. intros q. destruct (decide (q = p)); set_solver.
Qed.

Lemma move_page_back (X Y : gset Z) p :
  p ∈ X -> X ## Y ->
  X ∖ {[p]} ## Y ∪ {[p]} /\ X ∖ {[p]} ∪ (Y ∪ {[p]}) = X ∪ Y.
Proof.
  intros Hp Hd. split; [set_solver |].
  apply set_eq. intros q. destruct (decide (q = p)); set_solver.
Qed.

(** What one call of [pmm_alloc] can do. *)
Lemma pmm_alloc_cases s addr s' :
  pmm_wf s -> pmm_alloc s = (addr, s') ->
  (addr = 0 /\ s' = s /\ free_set s = ∅) \/
  exists p, addr = p * PAGE_SIZE /\ p ∈ free_set s /\ pmm_wf s' /\
    free_set s' = free_set s ∖ {[p]}.
Proof.
  intros Hwf Ha. destruct (decide (free_set s = ∅)) as [He | Hne].
  - rewrite pmm_alloc_empty in Ha by done. injection Ha as <- <-. by left.
  - destruct (pmm_alloc_nonempty s Hwf Hne) as (p & Hal & Hp & _ & Hwf' & Hs).
    rewrite Hal in Ha. injection Ha as <- <-. right. exists p. auto.
Qed.

Definition pmm_run_inv (s0 : pmm) (st : pmm * gset Z) : Prop :=
  pmm_wf st.1 /\ st.2 ## free_set st.1 /\ st.2 ∪ free_set st.1 = free_set s0.

Lemma pmm_step_inv s0 st st' :
  0 ∉ free_set s0 -> pmm_run_inv s0 st -> pmm_step st st' -> pmm_run_inv s0 st'.
Proof.
  intros H0 (Hwf & Hd & Hu) Hstep. unfold pmm_run_inv.
  destruct Hstep as [s held addr s' Ha Hnz | s held s' Ha | s held p Hp]; simpl in *.
  - apply pmm_alloc_cases in Ha as [(? & _) | (p & -> & Hp & Hwf' & Hs)]; [done | | done].
    unfold PAGE_SIZE. rewrite Z.div_mul, Hs by lia.
    destruct (move_page held (free_set s) p Hp Hd) as [? ->]. done.
  - apply pmm_alloc_cases in Ha as [(_ & -> & _) | (p & Ha & Hp & _)]; [done | | done].
    unfold PAGE_SIZE in Ha. assert (p = 0) as -> by lia.
    destruct H0. rewrite <- Hu. by apply elem_of_union_r.
  - assert (p ∈ free_set s0) as [Hr _]%elem_of_free_set
      by (rewrite <- Hu; by apply elem_of_union_l).
    destruct (pmm_free_set s (p * PAGE_SIZE) Hwf) as [Hwf' Hs].
    rewrite page_addr in Hs by done. rewrite Hs.
    destruct (move_page_back held (free_set s) p Hp Hd) as [? ->]. done.
Qed.

Lemma pmm_init_0 m : 0 ∉ free_set (pmm_init m).
Proof.
  destruct (pmm_init_facts m) as (_ & -> & _).
  rewrite elem_of_difference, elem_of_page_range. lia.
Qed.

(** C14 In every run from boot in which clients free only pages they hold, the
    pages held and the pages free are disjoint and together are the pages
    that were free after [pmm_init]: no page is handed out twice and none is
    lost; the counter reports exactly the pages not held. *)
Theorem pmm_no_double_alloc (m : mem) (s : pmm) (held : gset Z) :
  rtc pmm_step (pmm_init m, ∅) (s, held) ->
  held ## free_set s /\ held ∪ free_set s = free_set (pmm_init m) /\
  pmm_free_pages s = Z.of_nat (size (free_set (pmm_init m))) - Z.of_nat (size held) /\
  (forall addr s', pmm_alloc s = (addr, s') -> addr ≠ 0 -> addr / PAGE_SIZE ∉ held).
Proof.
  intros Hrun.
  assert (pmm_run_inv (pmm_init m) (s, held)) as (Hwf & Hd & Hu).
  { refine (rtc_ind_r (pmm_run_inv (pmm_init m)) _ _ _ _ Hrun).
    - split_and!; simpl; [apply pmm_init_facts | set_solver | set_solver].
    - intros. eapply pmm_step_inv; eauto using pmm_init_0. }
  simpl in *. split_and!; [done | done | |].
  - rewrite <- Hu, size_union by done. unfold pmm_free_pages. rewrite (wf_count s Hwf). lia.
  - intros addr s' Ha Hnz.
    apply pmm_alloc_cases in Ha as [(? & _) | (p & -> & Hp & _)]; [done | | done].
    unfold PAGE_SIZE. rewrite Z.div_mul by lia. intros Hh. by apply (Hd p).
Qed.

(** Page 0 is not free after boot, but [pmm_free(0)] (the shell's
    [page free 0]) puts it in circulation, and the next [pmm_alloc] then
    takes it and returns 0, the value that means "out of memory", although
    other pages are free. *)
Theorem pmm_free_null_page (s : pmm) :
  pmm_wf s -> 0 ∉ free_set s -> free_set s ≠ ∅ ->
  exists s', pmm_alloc (pmm_free s 0) = (0, s') /\ free_set s' = free_set s.
Proof.
  intros Hwf H0 Hne. destruct (pmm_free_set s 0 Hwf) as [Hwf' Hs].
  change (u32 0 / PAGE_SIZE) with 0 in Hs.
  destruct (pmm_alloc_nonempty (pmm_free s 0) Hwf') as (p & -> & Hp & Hmin & _ & Hf);
    [rewrite Hs; set_solver |].
  assert (p = 0) as ->.
  { assert (p <= 0) by (apply Hmin; rewrite Hs; set_solver).
    apply elem_of_free_set in Hp. lia. }
  eexists. split; [reflexivity |]. rewrite Hf, Hs. set_solver.
Qed.

(** A usable e820 entry above 1 MB whose base is not page aligned makes
    the page its base falls in available, including the bytes of that page
    below the base, which the entry does not cover. *)
Theorem pmm_init_rounds_base_down (m : mem) (i : Z) :
  let e := e820_table m i in
  0 <= i < load16 m E820_COUNT -> e_type e = E820_USABLE ->
  e_base e mod PAGE_SIZE ≠ 0 -> 0x100000 <= e_base e ->
  e_base e + PAGE_SIZE <= e_base e + e_length e < 2 ^ 32 ->
  exists p addr, p ∈ free_set (pmm_init m) /\
    p * PAGE_SIZE <= addr < p * PAGE_SIZE + PAGE_SIZE /\ addr < e_base e.
Proof.
  intros e Hi Ht Hmis Hlow Hend. unfold PAGE_SIZE in *.
  exists (e_base e / 4096), (e_base e / 4096 * 4096). split; [| zdm].
  destruct (pmm_init_facts m) as (_ & -> & _).
  rewrite elem_of_difference, elem_of_page_range, elem_of_e820_usable.
  split; [| zdm]. exists i. fold e. split_and!; [lia | lia | done | |].
  - unfold free_first, PAGE_SIZE. rewrite u32_small by zdm. lia.
  - unfold free_last, clamp_pages, PAGE_SIZE. rewrite u64_small by lia.
    rewrite u32_small by zdm. pages. case_ltb; zdm.
Qed.

(** ** Witnesses *)

#[local] Opaque pmm_init pmm_alloc pmm_free.

Lemma boot_page_free p :
  0 <= p < TOTAL_PAGES -> page_is_free (pmm_init boot_mem) p = true ->
  p ∈ free_set (pmm_init boot_mem).
Proof. intros Hr Hf. apply elem_of_free_set. exact (conj Hr Hf). Qed.

Lemma boot_free_nonempty : free_set (pmm_init boot_mem) ≠ ∅.
Proof.
  intros H. assert (0x100 ∈ free_set (pmm_init boot_mem)) as Hin.
  { apply boot_page_free; [pages; lia | vm_compute; reflexivity]. }
  rewrite H in Hin. exact (not_elem_of_empty _ Hin).
Qed.

Lemma pmm_alloc_free_roundtrip_witness :
  (let (addr, s') := pmm_alloc (pmm_init boot_mem) in pmm_free s' addr) = pmm_init boot_mem /\
  fst (pmm_alloc (pmm_init boot_mem)) = 0x100000.
Proof.
  split.
  - pose proof (pmm_alloc_free_roundtrip (pmm_init boot_mem) boot_pmm_wf boot_free_nonempty) as H.
    destruct (pmm_alloc (pmm_init boot_mem)). exact H.
  - vm_compute. reflexivity.
Defined.

Lemma pmm_no_double_alloc_witness :
  let s1 := snd (pmm_alloc (pmm_init boot_mem)) in
  ({[0x100]} : gset Z) ## free_set s1 /\ fst (pmm_alloc s1) = 0x101000.
Proof.
  intros s1. split.
  - apply (pmm_no_double_alloc boot_mem s1 {[0x100]}).
    apply rtc_once.
    assert (pmm_alloc (pmm_init boot_mem) = (0x100000, s1)) as Ha.
    { assert (fst (pmm_alloc (pmm_init boot_mem)) = 0x100000) as <-
        by (vm_compute; reflexivity).
      apply surjective_pairing. }
    pose proof (step_alloc (pmm_init boot_mem) ∅ 0x100000 s1 Ha ltac:(lia)) as Hs.
    rewrite union_empty_r_L in Hs. change (0x100000 / PAGE_SIZE) with 0x100 in Hs. exact Hs.
  - vm_compute. reflexivity.
Defined.

Lemma pmm_free_null_page_witness :
  exists s', pmm_alloc (pmm_free (pmm_init boot_mem) 0) = (0, s') /\
    free_set s' = free_set (pmm_init boot_mem).
Proof.
  exact (pmm_free_null_page (pmm_init boot_mem) boot_pmm_wf
           (pmm_init_0 boot_mem) boot_free_nonempty).
Defined.

(** One usable entry, 0x100800 to 0x104000. *)
Definition unaligned_mem : mem :=
  store_le 8 (store_le 8 (store32 (store_le 2 ∅ E820_COUNT 1) 0x512 1) 0x502 0x100800)
    0x50A 0x3800.

Lemma pmm_init_rounds_base_down_witness :
  exists p addr, p ∈ free_set (pmm_init unaligned_mem) /\
    p * PAGE_SIZE <= addr < p * PAGE_SIZE + PAGE_SIZE /\
    addr < e_base (e820_table unaligned_mem 0).
Proof.
  apply (pmm_init_rounds_base_down unaligned_mem 0); vm_compute;
    first [reflexivity | discriminate | split; first [reflexivity | discriminate]].
Defined.
