(* ===== verification/Kheap.v ===== *)
(** * The kernel heap (src/mem/kheap.c)

    A first-fit allocator on a 256 KB slab.  Every block, used or free,
    starts with a 20-byte header that lives in the slab itself and links it
    to its neighbours in memory order; [kmalloc] splits, [kfree] merges with
    both neighbours.

    The model works on the bytes of the slab: a header field is a
    little-endian 32-bit load at its offset in [kheap_block_t].  The abstract
    view is the list of blocks in address order ([heap_inv]); the theorems
    give the effect of every operation on that list, and that no operation
    touches a byte of a block some client holds. *)

From S2P Require Import Prelude Memory Interfaces.

(** ** Definitions *)

Definition KHEAP_SIZE_KB : Z := 256.
Definition KHEAP_SIZE : Z := KHEAP_SIZE_KB * 1024.
Definition KHEAP_MAGIC : Z := 0xC0FFEE42.
Definition KHEAP_ALIGN : Z := 8.
Definition HDR_SIZE : Z := 20.

(** The address the linker gives [heap_storage], [aligned(8)]. *)
Class HeapLayout : Type := {
  heap_storage : Z;
  heap_storage_aligned : heap_storage mod 8 = 0;
  heap_storage_range : 0 < heap_storage /\ heap_storage + KHEAP_SIZE < 2 ^ 32
}.

(** The fields of [kheap_block_t] at a block address. *)
Definition b_magic (m : mem) (b : Z) : Z := load32 m b.
Definition b_size (m : mem) (b : Z) : Z := load32 m (b + 4).
Definition b_used (m : mem) (b : Z) : Z := load32 m (b + 8).
Definition b_prev (m : mem) (b : Z) : Z := load32 m (b + 12).
Definition b_next (m : mem) (b : Z) : Z := load32 m (b + 16).
Definition set_magic (m : mem) (b v : Z) : mem := store32 m b v.
Definition set_size (m : mem) (b v : Z) : mem := store32 m (b + 4) v.
Definition set_used (m : mem) (b v : Z) : mem := store32 m (b + 8) v.
Definition set_prev (m : mem) (b v : Z) : mem := store32 m (b + 12) v.
Definition set_next (m : mem) (b v : Z) : mem := store32 m (b + 16) v.

(** The heap's state: the memory and the [head] pointer. *)
Record kheap : Type := Kheap { hmem : mem; head : Z }.

Definition align_up (v a : Z) : Z :=
  Z.land (u32 (v + a - 1)) (not32 (u32 (a - 1))).

Definition kheap_init `{HeapLayout} (h : kheap) : kheap :=
  let head := heap_storage in
  let m := hmem h in
  let m := set_magic m head KHEAP_MAGIC in
  let m := set_size m head (KHEAP_SIZE - HDR_SIZE) in
  let m := set_used m head 0 in
  let m := set_prev m head 0 in
  let m := set_next m head 0 in
  Kheap m head.

(** The split of [kmalloc]: carve a free block out of the tail of [b]. *)
Definition split_block (m : mem) (b size leftover : Z) : mem :=
  let n := u32 (b + HDR_SIZE + size) in
  let m := set_magic m n KHEAP_MAGIC in
  let m := set_size m n (leftover - HDR_SIZE) in
  let m := set_used m n 0 in
  let m := set_prev m n b in
  let m := set_next m n (b_next m b) in
  let m := if truth (b_next m b) then set_prev m (b_next m b) n else m in
  let m := set_next m b n in
  set_size m b size.

(** What [kmalloc] does to the block it settles on. *)
Definition take_block (m : mem) (b size : Z) : mem :=
  let leftover := u32 (b_size m b - size) in
  let m := if HDR_SIZE + KHEAP_ALIGN <=? leftover
           then split_block m b size leftover else m in
  set_used m b 1.

(** The search loop of [kmalloc]; [fuel] bounds its iterations. *)
Fixpoint kmalloc_loop (fuel : nat) (m : mem) (b size : Z) : outcome (Z * mem) :=
  match fuel with
  | O => OutOfFuel
  | S fuel' =>
      if negb (truth b) then Ret (0, m)
      else if negb (b_magic m b =? KHEAP_MAGIC) then Halt (HeapPanic "corrupted block")
      else if truth (b_used m b) then kmalloc_loop fuel' m (b_next m b) size
      else if b_size m b <? size then kmalloc_loop fuel' m (b_next m b) size
      else Ret (u32 (b + HDR_SIZE), take_block m b size)
  end.

(** No more blocks than headers fit in the slab, and one more iteration to
    see the null pointer. *)
Definition MAX_BLOCKS : nat := Z.to_nat (KHEAP_SIZE / HDR_SIZE).
Definition heap_fuel : nat := S MAX_BLOCKS.

Definition kmalloc (h : kheap) (size : Z) : outcome (Z * kheap) :=
  if size =? 0 then Ret (0, h)
  else
    let size := align_up size KHEAP_ALIGN in
    do! (p, m) := kmalloc_loop heap_fuel (hmem h) (head h) size in
    Ret (p, Kheap m (head h)).

Definition kcalloc (h : kheap) (n size : Z) : outcome (Z * kheap) :=
  let total := u32 (n * size) in
  do! (p, h) := kmalloc h total in
  if negb (truth p) then Ret (p, h)
  else Ret (p, Kheap (mem_fill (hmem h) p 0 total) (head h)).

(** The body both merges of [kfree] share: block [p] absorbs its successor
    [n], whose header is invalidated. *)
Definition absorb (m : mem) (p n : Z) : mem :=
  let m := set_size m p (b_size m p + (HDR_SIZE + b_size m n)) in
  let m := set_next m p (b_next m n) in
  let m := if truth (b_next m n) then set_prev m (b_next m n) p else m in
  set_magic m n 0.

Definition merge_next (m : mem) (b : Z) : mem :=
  if truth (b_next m b) && negb (truth (b_used m (b_next m b)))
  then absorb m b (b_next m b) else m.

Definition merge_prev (m : mem) (b : Z) : mem :=
  if truth (b_prev m b) && negb (truth (b_used m (b_prev m b)))
  then absorb m (b_prev m b) b else m.

Definition kfree (h : kheap) (ptr : Z) : outcome kheap :=
  if negb (truth ptr) then Ret h
  else
    let b := u32 (ptr - HDR_SIZE) in
    let m := hmem h in
    if negb (b_magic m b =? KHEAP_MAGIC) then Halt (HeapPanic "kfree: bad pointer")
    else if negb (truth (b_used m b)) then Halt (HeapPanic "kfree: double free")
    else
      let m := set_used m b 0 in
      let m := merge_next m b in
      let m := merge_prev m b in
      Ret (Kheap m (head h)).

(** Statistics for the shell's [heap] command. *)
Record kheap_stats : Type := Stats {
  total_bytes : Z; used_bytes : Z; free_bytes : Z;
  blocks_total : Z; blocks_used : Z; blocks_free : Z; largest_free : Z
}.

Fixpoint stats_loop (fuel : nat) (m : mem) (b : Z) (s : kheap_stats) : outcome kheap_stats :=
  match fuel with
  | O => OutOfFuel
  | S fuel' =>
      if negb (truth b) then Ret s
      else if negb (b_magic m b =? KHEAP_MAGIC) then Halt (HeapPanic "stats: corruption")
      else
        let s' :=
          if truth (b_used m b) then
            Stats (total_bytes s) (u32 (used_bytes s + b_size m b)) (free_bytes s)
              (u32 (blocks_total s + 1)) (u32 (blocks_used s + 1)) (blocks_free s)
              (largest_free s)
          else
            Stats (total_bytes s) (used_bytes s) (u32 (free_bytes s + b_size m b))
              (u32 (blocks_total s + 1)) (blocks_used s) (u32 (blocks_free s + 1))
              (if largest_free s <? b_size m b then b_size m b else largest_free s) in
        stats_loop fuel' m (b_next m b) s'
  end.

Definition kheap_get_stats (h : kheap) : outcome kheap_stats :=
  stats_loop heap_fuel (hmem h) (head h) (Stats KHEAP_SIZE 0 0 0 0 0 0).

(** ** The abstract view: blocks in address order *)

Record blk : Type := Blk { addr : Z; bsize : Z; used : bool }.

#[global] Instance blk_eq_dec : EqDecision blk.
Proof. solve_decision. Defined.

Definition bend (b : blk) : Z := addr b + HDR_SIZE + bsize b.
Definition payload (b : blk) : Z := addr b + HDR_SIZE.

(** The header at [addr b] describes [b], with these link fields. *)
Record hdr (m : mem) (b : blk) (pp nn : Z) : Prop := Hdr {
  h_magic : b_magic m (addr b) = KHEAP_MAGIC;
  h_size : b_size m (addr b) = bsize b;
  h_used : b_used m (addr b) = Z.b2z (used b);
  h_prev : b_prev m (addr b) = pp;
  h_next : b_next m (addr b) = nn
}.

(** [seg m pp p bl q qn]: from [p], the headers of [bl] are linked in order;
    the first points back to [pp], the last is [q] and points on to [qn]. *)
Fixpoint seg (m : mem) (pp p : Z) (bl : list blk) (q qn : Z) : Prop :=
  match bl with
  | [] => p = qn /\ pp = q
  | b :: bl' => addr b = p /\ exists r, hdr m b pp r /\ seg m p r bl' q qn
  end.

(** Blocks tile the range [[a, e)]. *)
Fixpoint contig (a : Z) (bl : list blk) (e : Z) : Prop :=
  match bl with
  | [] => a = e
  | b :: bl' => addr b = a /\ 0 <= bsize b /\ bsize b mod 4 = 0 /\ contig (bend b) bl' e
  end.

(** No free block directly follows a free block; [pf] tells whether the
    block before the list is free. *)
Fixpoint no_adj (pf : bool) (bl : list blk) : Prop :=
  match bl with
  | [] => True
  | b :: bl' => (pf && negb (used b)) = false /\ no_adj (negb (used b)) bl'
  end.

Record linked `{HeapLayout} (m : mem) (bl : list blk) : Prop := Linked {
  lk_seg : exists q, seg m 0 heap_storage bl q 0;
  lk_contig : contig heap_storage bl (heap_storage + KHEAP_SIZE)
}.

Record heap_inv `{HeapLayout} (h : kheap) (bl : list blk) : Prop := HeapInv {
  hi_head : head h = heap_storage;
  hi_linked : linked (hmem h) bl;
  hi_no_adj : no_adj false bl
}.

(** ** Structure lemmas *)

Lemma seg_app m pp p l1 l2 q qn :
  seg m pp p (l1 ++ l2) q qn <->
  exists j jn, seg m pp p l1 j jn /\ seg m j jn l2 q qn.
Proof.
  revert pp p. induction l1 as [|b l1 IH]; intros pp p; simpl.
  - split; [eauto | by intros (j & jn & [-> ->] & ?)].
  - setoid_rewrite IH. naive_solver.
Qed.

Lemma contig_app a l1 l2 e :
  contig a (l1 ++ l2) e <-> exists j, contig a l1 j /\ contig j l2 e.
Proof.
  revert a. induction l1 as [|b l1 IH]; intros a; simpl.
  - split; [eauto | by intros (j & -> & ?)].
  - setoid_rewrite IH. naive_solver.
Qed.

Definition last_free (pf : bool) (l : list blk) : bool :=
  match last l with Some b => negb (used b) | None => pf end.

Lemma last_free_cons pf b l : last_free pf (b :: l) = last_free (negb (used b)) l.
Proof. unfold last_free. rewrite last_cons. by destruct (last l). Qed.

Lemma no_adj_app pf l1 l2 :
  no_adj pf (l1 ++ l2) <-> no_adj pf l1 /\ no_adj (last_free pf l1) l2.
Proof.
  revert pf. induction l1 as [|b l1 IH]; intros pf; simpl; [tauto |].
  rewrite IH, last_free_cons. tauto.
Qed.

Lemma contig_le a l e : contig a l e -> a <= e.
Proof.
  revert a. induction l as [|b l IH]; simpl; intros a; [lia |].
  intros (<- & ? & _ & Hc%IH). unfold bend, HDR_SIZE in Hc. lia.
Qed.

(** A block of a tiled range lies inside it. *)
Lemma contig_in a l e b :
  contig a l e -> b ∈ l ->
  a <= addr b /\ bend b <= e /\ 0 <= bsize b /\ bsize b mod 4 = 0.
Proof.
  revert a. induction l as [|c l IH]; simpl; intros a Hc Hb; [by apply not_elem_of_nil in Hb |].
  destruct Hc as (<- & ? & ? & Hc). pose proof (contig_le _ _ _ Hc).
  apply elem_of_cons in Hb as [-> | Hb]; [auto with lia |].
  destruct (IH _ Hc Hb) as (? & ? & ? & ?). unfold bend, HDR_SIZE in *. auto with lia.
Qed.

Lemma contig_mod4 a l e : contig a l e -> a mod 4 = 0 -> e mod 4 = 0.
Proof.
  revert a. induction l as [|b l IH]; simpl; intros a; [congruence |].
  intros (<- & ? & ? & Hc) Ha. apply (IH _ Hc). unfold bend, HDR_SIZE. zdm.
Qed.

Lemma contig_count a l e : contig a l e -> HDR_SIZE * Z.of_nat (length l) <= e - a.
Proof.
  revert a. induction l as [|b l IH]; simpl; intros a; [lia |].
  intros (<- & ? & ? & Hc%IH). unfold bend, HDR_SIZE in *. lia.
Qed.

(** ** Frames *)

Definition same_bytes (m m' : mem) (a e : Z) : Prop :=
  forall x, a <= x < e -> load8 m' x = load8 m x.

Lemma same_load32 m m' a e x :
  same_bytes m m' a e -> a <= x -> x + 4 <= e -> load32 m' x = load32 m x.
Proof. intros H ? ?. apply load32_frame. intros y Hy. apply H. lia. Qed.

Lemma hdr_frame m m' b pp nn :
  same_bytes m m' (addr b) (addr b + HDR_SIZE) -> hdr m b pp nn -> hdr m' b pp nn.
Proof.
  unfold HDR_SIZE. intros H [].
  split; unfold b_magic, b_size, b_used, b_prev, b_next in *;
    rewrite (same_load32 m m' _ _ _ H) by lia; done.
Qed.

Lemma seg_frame m m' pp p l q qn a e :
  contig a l e -> same_bytes m m' a e -> seg m pp p l q qn -> seg m' pp p l q qn.
Proof.
  revert pp p a. induction l as [|b l IH]; simpl; intros pp p a; [done |].
  intros (Hab & ? & ? & Hc) Hs (Hp & r & Hh & Hseg).
  pose proof (contig_le _ _ _ Hc). unfold bend, HDR_SIZE in *.
  split; [done |]. exists r. split.
  - eapply hdr_frame; [| done]. intros x Hx. apply Hs. unfold HDR_SIZE in *. lia.
  - eapply IH; [done | | done]. intros x Hx. apply Hs. lia.
Qed.

(** A segment whose first header got a new [prev] field. *)
Lemma seg_new_prev m m' pp pp' p b l q qn a e :
  contig a (b :: l) e -> seg m pp p (b :: l) q qn ->
  same_bytes m m' a (a + 12) -> b_prev m' a = pp' -> same_bytes m m' (a + 16) e ->
  seg m' pp' p (b :: l) q qn.
Proof.
  simpl. intros (Hab & ? & ? & Hc) (Hp & r & [] & Hseg) Hs1 Hprev Hs2.
  pose proof (contig_le _ _ _ Hc). unfold bend, HDR_SIZE in *.
  split; [done |]. exists r. split.
  - split; unfold b_magic, b_size, b_used, b_prev, b_next in *; subst.
    + by rewrite (same_load32 m m' _ _ _ Hs1) by lia.
    + by rewrite (same_load32 m m' _ _ _ Hs1) by lia.
    + by rewrite (same_load32 m m' _ _ _ Hs1) by lia.
    + done.
    + by rewrite (same_load32 m m' _ _ _ Hs2) by lia.
  - eapply seg_frame; [done | | done]. intros x Hx. apply Hs2. lia.
Qed.

(** Address facts a block of a linked heap enjoys. *)
Lemma linked_in `{HeapLayout} m bl b :
  linked m bl -> b ∈ bl ->
  0 < addr b /\ heap_storage <= addr b /\ 0 <= bsize b /\ bsize b mod 4 = 0 /\
  addr b + HDR_SIZE + bsize b <= heap_storage + KHEAP_SIZE /\
  heap_storage + KHEAP_SIZE < 2 ^ 32.
Proof.
  intros [_ Hc] Hb. destruct (contig_in _ _ _ _ Hc Hb) as (? & Hbe & ? & ?).
  pose proof heap_storage_range. unfold bend in Hbe. auto with lia.
Qed.

Lemma linked_length `{HeapLayout} m bl : linked m bl -> (length bl <= MAX_BLOCKS)%nat.
Proof.
  intros [_ Hc%contig_count]. unfold MAX_BLOCKS, KHEAP_SIZE, KHEAP_SIZE_KB, HDR_SIZE in *.
  apply Nat2Z.inj_le. rewrite Z2Nat.id by zdm. zdm.
Qed.

(** Cut a linked heap at a block, and put it together again. *)
Lemma linked_cut `{HeapLayout} m l1 b l2 :
  linked m (l1 ++ b :: l2) ->
  exists j r q,
    seg m 0 heap_storage l1 j (addr b) /\ hdr m b j r /\ seg m (addr b) r l2 q 0 /\
    contig heap_storage l1 (addr b) /\ contig (bend b) l2 (heap_storage + KHEAP_SIZE) /\
    r = match l2 with [] => 0 | _ => bend b end.
Proof.
  intros [[q Hseg] Hc].
  apply seg_app in Hseg as (j & jn & H1 & H2). simpl in H2.
  destruct H2 as (Hb & r & Hh & H2).
  apply contig_app in Hc as (jc & Hc1 & Hc2). simpl in Hc2.
  destruct Hc2 as (Hb' & _ & _ & Hc2). subst jn jc.
  exists j, r, q. split_and!; auto.
  destruct l2 as [|c l2]; simpl in H2; [by destruct H2 |].
  destruct H2 as (Hcr & _). simpl in Hc2. destruct Hc2 as (? & _). congruence.
Qed.

Lemma linked_glue `{HeapLayout} m l1 mid l2 j a jm r q e :
  seg m 0 heap_storage l1 j a -> seg m j a mid jm r -> seg m jm r l2 q 0 ->
  contig heap_storage l1 a -> contig a mid e -> contig e l2 (heap_storage + KHEAP_SIZE) ->
  linked m (l1 ++ mid ++ l2).
Proof.
  intros. split.
  - exists q. apply seg_app. exists j, a. split; [done |]. apply seg_app. eauto.
  - apply contig_app. exists a. split; [done |]. apply contig_app. eauto.
Qed.

(** Unfold header accesses down to loads and stores. *)
Ltac fields :=
  unfold b_magic, b_size, b_used, b_prev, b_next,
    set_magic, set_size, set_used, set_prev, set_next in *.

Lemma truth_b2z u : truth (Z.b2z u) = u.
Proof. by destruct u. Qed.

(** ** [kmalloc]: the search *)

Fixpoint find_fit (size : Z) (bl : list blk) : option blk :=
  match bl with
  | [] => None
  | b :: bl' =>
      if negb (used b) && (size <=? bsize b) then Some b else find_fit size bl'
  end.

Lemma find_fit_Some size bl b :
  find_fit size bl = Some b ->
  exists l1 l2, bl = l1 ++ b :: l2 /\ used b = false /\ size <= bsize b /\
    forall c, c ∈ l1 -> used c = true \/ bsize c < size.
Proof.
  induction bl as [|c bl IH]; simpl; [done |].
  destruct (negb (used c) && (size <=? bsize c)) eqn:E.
  - intros [= ->]. apply andb_true_iff in E as [Hu%negb_true_iff Hs%Z.leb_le].
    exists [], bl. split_and!; auto. intros ? []%not_elem_of_nil.
  - intros (l1 & l2 & -> & ? & ? & Hl1)%IH. exists (c :: l1), l2.
    split_and!; auto. intros d [-> | Hd]%elem_of_cons; [| auto].
    apply andb_false_iff in E as [Hu%negb_false_iff | Hs%Z.leb_gt]; auto.
Qed.

Lemma find_fit_None size bl :
  find_fit size bl = None <-> forall b, b ∈ bl -> used b = true \/ bsize b < size.
Proof.
  induction bl as [|c bl IH]; simpl.
  - split; [intros _ b []%not_elem_of_nil | done].
  - destruct (negb (used c) && (size <=? bsize c)) eqn:E.
    + split; [done |]. intros Hb.
      apply andb_true_iff in E as [Hu%negb_true_iff Hs%Z.leb_le].
      destruct (Hb c) as [? | ?]; [left | congruence | lia].
    + rewrite IH. setoid_rewrite elem_of_cons. split; [| eauto].
      intros Hb b [-> | ?]; [| eauto].
      apply andb_false_iff in E as [Hu%negb_false_iff | Hs%Z.leb_gt]; auto.
Qed.

Lemma kmalloc_loop_spec fuel m pp p bl q size :
  seg m pp p bl q 0 -> (forall b, b ∈ bl -> 0 < addr b) -> (length bl < fuel)%nat ->
  kmalloc_loop fuel m p size =
  Ret match find_fit size bl with
      | None => (0, m)
      | Some b => (u32 (addr b + HDR_SIZE), take_block m (addr b) size)
      end.
Proof.
  revert pp p bl. induction fuel as [|fuel IH]; intros pp p bl Hseg Hpos Hf; [lia |].
  destruct bl as [|b bl]; simpl in Hseg.
  { destruct Hseg as [-> _]. done. }
  destruct Hseg as (Hp & r & [Hm Hs Hu _ Hn] & Hseg). subst p.
  assert (0 < addr b) by (apply Hpos; left).
  simpl in Hf. cbn [kmalloc_loop find_fit].
  rewrite (truth_nz (addr b)), Hm, Z.eqb_refl, Hu, truth_b2z, Hs, Hn by lia. simpl.
  rewrite (IH (addr b) r bl Hseg) by (lia || (intros; apply Hpos; by right)).
  destruct (used b); simpl; [done |].
  destruct (Z.ltb_spec (bsize b) size), (Z.leb_spec size (bsize b)); done || lia.
Qed.

(** ** [kmalloc]: the update *)

(** The block or blocks that replace [b] when [size] bytes of it are taken. *)
Definition taken_blocks (b : blk) (size : Z) : list blk :=
  if HDR_SIZE + KHEAP_ALIGN <=? bsize b - size
  then [Blk (addr b) size true;
        Blk (addr b + HDR_SIZE + size) (bsize b - size - HDR_SIZE) false]
  else [Blk (addr b) (bsize b) true].

(** Bytes an operation on the block range [[a, e)] may change: the range
    itself and the [prev] field of the header that follows it. *)
Definition touches (m m' : mem) (a e : Z) : Prop :=
  forall x, x < a \/ e <= x < e + 12 \/ e + 16 <= x -> load8 m' x = load8 m x.

Lemma take_block_touches m b j r size :
  hdr m b j r -> 0 < addr b -> 0 <= size <= bsize b -> bend b < 2 ^ 32 ->
  r = 0 \/ r = bend b ->
  touches m (take_block m (addr b) size) (addr b) (bend b).
Proof.
  intros [_ Hs _ _ Hn] Hpos Hsz Hend Hr x Hx. unfold bend, HDR_SIZE, KHEAP_ALIGN in *.
  unfold take_block, split_block, HDR_SIZE, KHEAP_ALIGN. fields. rewrite Hs.
  rewrite (u32_small (bsize b - size)) by lia.
  destruct (Z.leb_spec (20 + 8) (bsize b - size)); [| by mem_simpl].
  rewrite (u32_small (addr b + 20 + size)) by lia.
  rewrite (load32_store32_out _ _ _ (addr b + 16)) by lia. mem_simpl. rewrite Hn.
  destruct Hr as [-> | ->].
  - rewrite truth_0. by mem_simpl.
  - rewrite truth_nz by lia. by mem_simpl.
Qed.

(** The address of the last block of [taken_blocks], the new predecessor of
    the block that follows. *)
Definition taken_last (b : blk) (size : Z) : Z :=
  if HDR_SIZE + KHEAP_ALIGN <=? bsize b - size
  then addr b + HDR_SIZE + size else addr b.

Lemma take_block_headers m b j r size :
  hdr m b j r -> 0 < addr b -> 0 <= size <= bsize b -> bend b < 2 ^ 32 ->
  r = 0 \/ (r = bend b /\ b_prev m r = addr b) ->
  let m' := take_block m (addr b) size in
  seg m' j (addr b) (taken_blocks b size) (taken_last b size) r /\
  (r ≠ 0 -> b_prev m' r = taken_last b size).
Proof.
  intros [Hm Hs Hu Hp Hn] Hpos Hsz Hend Hr m'.
  assert (is_u32 r) as Hr32 by (rewrite <- Hn; apply load32_range).
  unfold m', taken_blocks, taken_last, take_block, split_block.
  unfold bend, HDR_SIZE, KHEAP_ALIGN in *. fields. rewrite Hs.
  rewrite (u32_small (bsize b - size)) by lia.
  destruct (Z.leb_spec (20 + 8) (bsize b - size)).
  - rewrite (u32_small (addr b + 20 + size)) by lia.
    rewrite !(load32_store32_out _ _ _ (addr b + 16)) by lia. mem_simpl. rewrite Hn.
    destruct Hr as [-> | [-> Hrp]]; [rewrite truth_0 | rewrite truth_nz by lia].
    + split; [| done]. simpl. split; [done |].
      exists (addr b + 20 + size). split; [| split; [done |]; exists 0; split; [| done]].
      * split; simpl; fields; mem_simpl; rewrite ?u32_small by (unfold is_u32 in *; lia); auto.
      * split; simpl; fields; mem_simpl; rewrite ?u32_small by (unfold is_u32 in *; lia); auto.
    + split; [| intros _; mem_simpl; apply u32_small; lia]. simpl. split; [done |].
      exists (addr b + 20 + size). split; [| split; [done |]; eexists; split; [| done]].
      * split; simpl; fields; mem_simpl; rewrite ?u32_small by (unfold is_u32 in *; lia); auto.
      * split; simpl; fields; mem_simpl; rewrite ?u32_small by (unfold is_u32 in *; lia); auto.
  - split.
    + simpl. split; [done |]. exists r. split; [| done].
      split; simpl; fields; mem_simpl; auto.
    + intros Hnz. destruct Hr as [-> | [-> Hrp]]; [done |]. by mem_simpl.
Qed.

Lemma taken_contig b size :
  0 <= size <= bsize b -> size mod 4 = 0 -> bsize b mod 4 = 0 ->
  contig (addr b) (taken_blocks b size) (bend b).
Proof.
  intros Hs H4 Hb4. unfold taken_blocks.
  destruct (Z.leb_spec (HDR_SIZE + KHEAP_ALIGN) (bsize b - size));
    unfold bend, HDR_SIZE, KHEAP_ALIGN in *; simpl; unfold bend, HDR_SIZE; simpl;
    split_and!; done || zdm.
Qed.

(** The rest of the list after the range [[a, e)] was rewritten. *)
Lemma rest_after `{HeapLayout} m m' a e j j' r l2 q :
  touches m m' a e -> a <= e ->
  seg m j r l2 q 0 -> contig e l2 (heap_storage + KHEAP_SIZE) ->
  r = match l2 with [] => 0 | _ => e end ->
  (r ≠ 0 -> b_prev m' r = j') -> 0 < e ->
  exists q', seg m' j' r l2 q' 0.
Proof.
  intros Ht Hae Hseg Hc Hr Hp He. destruct l2 as [|c l2].
  - exists j'. by subst.
  - exists q. subst r. eapply seg_new_prev; [exact Hc | exact Hseg | | auto with lia |];
      intros x Hx; apply Ht; lia.
Qed.

Lemma take_block_linked `{HeapLayout} m l1 b l2 size :
  linked m (l1 ++ b :: l2) -> 0 <= size <= bsize b -> size mod 4 = 0 ->
  linked (take_block m (addr b) size) (l1 ++ taken_blocks b size ++ l2) /\
  touches m (take_block m (addr b) size) (addr b) (bend b).
Proof.
  intros Hl Hs H4.
  pose proof (linked_in m _ b Hl) as (Hpos & Hlo & Hb & Hb4 & Hhi & Htop);
    [apply elem_of_app; right; left |].
  destruct (linked_cut _ _ _ _ Hl) as (j & r & q & H1 & Hh & H2 & Hc1 & Hc2 & Hr).
  assert (r = 0 \/ (r = bend b /\ b_prev m r = addr b)) as Hr'.
  { destruct l2 as [|c l2]; [by left |]. right. split; [done |].
    simpl in H2. destruct H2 as (<- & r' & [] & _). done. }
  assert (bend b < 2 ^ 32) by (unfold bend; lia).
  assert (touches m (take_block m (addr b) size) (addr b) (bend b)) as Ht.
  { eapply take_block_touches; eauto. naive_solver. }
  split; [| done].
  destruct (take_block_headers m b j r size) as [Hmid Hpr]; auto.
  assert (addr b <= bend b) by (unfold bend, HDR_SIZE; lia).
  destruct (rest_after m (take_block m (addr b) size) (addr b) (bend b) (addr b)
              (taken_last b size) r l2 q) as [q' H2']; auto; [lia |].
  eapply linked_glue; eauto using taken_contig.
  eapply seg_frame; [exact Hc1 | | exact H1]. intros x Hx. apply Ht. lia.
Qed.

Lemma align_up_8 v : is_u32 v -> align_up v KHEAP_ALIGN = u32 (v + 7) - u32 (v + 7) mod 8.
Proof.
  intros Hv. unfold align_up, KHEAP_ALIGN. replace (v + 8 - 1) with (v + 7) by lia.
  change (not32 (u32 (8 - 1))) with (2 ^ 32 - 2 ^ 3).
  apply land_clear_low; [apply u32_range | lia].
Qed.

Lemma align_up_range v :
  is_u32 v -> 0 <= align_up v KHEAP_ALIGN < 2 ^ 32 /\ align_up v KHEAP_ALIGN mod 8 = 0.
Proof.
  intros Hv. rewrite align_up_8 by done. pose proof (u32_range (v + 7)) as Hr.
  unfold is_u32 in *. split; zdm.
Qed.

(** ** [kfree]: the merges *)

Definition merged (p n : blk) : blk :=
  Blk (addr p) (bsize p + (HDR_SIZE + bsize n)) (used p).

Lemma bend_merged p n : addr n = bend p -> bend (merged p n) = bend n.
Proof. unfold bend, merged, HDR_SIZE. simpl. lia. Qed.

Lemma absorb_spec m p n j r :
  hdr m p j (addr n) -> hdr m n (addr p) r ->
  0 < addr p -> 0 <= bsize p -> 0 <= bsize n -> addr n = bend p -> bend n < 2 ^ 32 ->
  r = 0 \/ r = bend n ->
  let m' := absorb m (addr p) (addr n) in
  touches m m' (addr p) (bend n) /\ hdr m' (merged p n) j r /\
  (r ≠ 0 -> b_prev m' r = addr p).
Proof.
  intros [Hm Hs Hu Hp Hn] [Hm' Hs' Hu' Hp' Hn'] Hpos Hb Hb' Han Hend Hr m'.
  assert (is_u32 r) as Hr32 by (rewrite <- Hn'; apply load32_range).
  unfold bend, merged, m', absorb, HDR_SIZE in *. fields.
  rewrite !(load32_store32_out _ _ _ (addr n + 16)), Hn' by lia.
  rewrite Hs, Hs'.
  destruct Hr as [-> | ->]; [rewrite truth_0 | rewrite truth_nz by lia]; split_and!.
  - intros x Hx. mem_simpl. done.
  - split; simpl; fields; mem_simpl; rewrite ?u32_small by (unfold is_u32 in *; lia); auto.
  - done.
  - intros x Hx. mem_simpl. done.
  - split; simpl; fields; mem_simpl; rewrite ?u32_small by (unfold is_u32 in *; lia); auto.
  - intros _. mem_simpl. apply u32_small. lia.
Qed.

Lemma absorb_linked `{HeapLayout} m l1 p n l2 :
  linked m (l1 ++ p :: n :: l2) ->
  linked (absorb m (addr p) (addr n)) (l1 ++ merged p n :: l2) /\
  touches m (absorb m (addr p) (addr n)) (addr p) (bend n).
Proof.
  intros Hl.
  pose proof (linked_in m _ p Hl) as (Hpos & ? & Hb & Hb4 & ? & ?);
    [apply elem_of_app; right; left |].
  pose proof (linked_in m _ n Hl) as (? & ? & Hb' & Hb4' & ? & ?);
    [apply elem_of_app; right; right; left |].
  destruct (linked_cut _ _ _ _ Hl) as (j & r & q & Hs1 & Hh & Hs2 & Hc1 & Hc2 & ->).
  simpl in Hs2, Hc2. destruct Hs2 as (Han & r & Hh' & Hs2).
  destruct Hc2 as (_ & _ & _ & Hc2). rewrite <- Han in Hh, Hs2.
  assert (r = match l2 with [] => 0 | _ => bend n end) as Hr.
  { destruct l2 as [|c l2]; simpl in Hs2, Hc2; [by destruct Hs2 |]. naive_solver congruence. }
  destruct (absorb_spec m p n j r) as (Ht & Hm & Hpr); auto.
  { unfold bend; lia. }
  { destruct l2; auto. }
  assert (addr p <= bend n) by (unfold bend, HDR_SIZE in *; lia).
  destruct (rest_after m (absorb m (addr p) (addr n)) (addr p) (bend n) (addr n)
              (addr p) r l2 q) as [q' Hs2']; auto; [lia |].
  split; [| done].
  change (merged p n :: l2) with ([merged p n] ++ l2).
  eapply (linked_glue _ l1 [merged p n] l2 j (addr p) (addr p) r q' (bend n)); auto.
  - eapply seg_frame; [exact Hc1 | | exact Hs1]. intros x Hx. apply Ht. lia.
  - simpl. split; [done |]. eauto.
  - simpl. unfold merged, bend, HDR_SIZE in *. simpl. split_and!; lia || zdm.
Qed.

(** Clearing the [used] flag. *)
Definition freed (b : blk) : blk := Blk (addr b) (bsize b) false.

Lemma set_used_linked `{HeapLayout} m l1 b l2 :
  linked m (l1 ++ b :: l2) ->
  linked (set_used m (addr b) 0) (l1 ++ freed b :: l2) /\
  touches m (set_used m (addr b) 0) (addr b) (bend b).
Proof.
  intros Hl.
  pose proof (linked_in m _ b Hl) as (Hpos & ? & Hb & Hb4 & ? & ?);
    [apply elem_of_app; right; left |].
  destruct (linked_cut _ _ _ _ Hl) as (j & r & q & Hs1 & Hh & Hs2 & Hc1 & Hc2 & Hr).
  assert (touches m (set_used m (addr b) 0) (addr b) (bend b)) as Ht.
  { intros x Hx. unfold bend, HDR_SIZE in *. fields. by mem_simpl. }
  split; [| done]. change (freed b :: l2) with ([freed b] ++ l2).
  assert (addr b <= bend b) by (unfold bend, HDR_SIZE; lia).
  destruct (rest_after m (set_used m (addr b) 0) (addr b) (bend b) (addr b) (addr b) r l2 q)
    as [q' Hs2']; auto; [| lia |].
  { intros Hnz. destruct l2 as [|c l2]; [done |]. simpl in Hs2.
    destruct Hs2 as (Hcr & r' & [] & _). rewrite Hcr in *.
    unfold bend, HDR_SIZE in *. fields. by mem_simpl. }
  eapply (linked_glue _ l1 [freed b] l2 j (addr b) (addr b) r q' (bend b)); auto.
  - eapply seg_frame; [exact Hc1 | | exact Hs1]. intros x Hx. apply Ht. lia.
  - simpl. split; [done |]. exists r. split; [| done].
    destruct Hh. split; simpl; unfold bend, HDR_SIZE in *; fields; mem_simpl; auto.
  - simpl. unfold freed, bend. simpl. auto.
Qed.

(** Bytes of blocks outside the rewritten range are kept. *)
Lemma touches_payload m m' (l1 l2 : list blk) a e lo hi c :
  contig lo l1 a -> contig e l2 hi -> touches m m' a e -> c ∈ l1 ++ l2 ->
  same_bytes m m' (payload c) (bend c).
Proof.
  intros Hc1 Hc2 Ht [Hc | Hc]%elem_of_app x Hx; unfold payload, HDR_SIZE in *.
  - destruct (contig_in _ _ _ _ Hc1 Hc) as (? & ? & ?). apply Ht. lia.
  - destruct (contig_in _ _ _ _ Hc2 Hc) as (? & ? & ?). apply Ht. lia.
Qed.

Definition absorb_next (b : blk) (l2 : list blk) : blk * list blk :=
  match l2 with
  | n :: l2' => if used n then (b, l2) else (merged b n, l2')
  | [] => (b, l2)
  end.

Definition absorb_prev (l1 : list blk) (b : blk) : list blk * blk :=
  match last l1 with
  | Some p => if used p then (l1, b) else (removelast l1, merged p b)
  | None => (l1, b)
  end.

Lemma linked_contig `{HeapLayout} m l1 b l2 :
  linked m (l1 ++ b :: l2) ->
  contig heap_storage l1 (addr b) /\ contig (bend b) l2 (heap_storage + KHEAP_SIZE).
Proof. intros (j & r & q & _ & _ & _ & ? & ? & _)%linked_cut. done. Qed.

Lemma same_bytes_refl m a e : same_bytes m m a e.
Proof. by intros x Hx. Qed.

Lemma merge_next_linked `{HeapLayout} m l1 b l2 :
  linked m (l1 ++ b :: l2) ->
  let '(b', l2') := absorb_next b l2 in
  addr b' = addr b /\ used b' = used b /\
  linked (merge_next m (addr b)) (l1 ++ b' :: l2') /\
  forall c, c ∈ l1 ++ l2' -> same_bytes m (merge_next m (addr b)) (payload c) (bend c).
Proof.
  intros Hl. destruct (linked_cut _ _ _ _ Hl) as (j & r & q & _ & [] & Hs2 & Hc1 & Hc2 & Hr).
  unfold merge_next. rewrite h_next0.
  destruct l2 as [|n l2]; simpl; [rewrite Hr; simpl; auto using same_bytes_refl |].
  simpl in Hs2. destruct Hs2 as (Hnr & r' & Hhn & _).
  assert (0 < addr n).
  { destruct (linked_in m _ n Hl) as (? & _); [| done]. apply elem_of_app. right. right. left. }
  rewrite <- Hnr, truth_nz, (h_used _ _ _ _ Hhn), truth_b2z by lia. simpl.
  destruct (used n); simpl; [auto using same_bytes_refl |].
  destruct (absorb_linked m l1 b n l2 Hl) as [Hl' Ht].
  split_and!; auto. intros c Hc. simpl in Hc2. destruct Hc2 as (_ & _ & _ & Hc2).
  by apply (touches_payload _ _ l1 l2 _ _ _ _ c Hc1 Hc2 Ht).
Qed.

Lemma merge_prev_linked `{HeapLayout} m l1 b l2 :
  linked m (l1 ++ b :: l2) ->
  let '(l1', b') := absorb_prev l1 b in
  linked (merge_prev m (addr b)) (l1' ++ b' :: l2) /\
  forall c, c ∈ l1' ++ l2 -> same_bytes m (merge_prev m (addr b)) (payload c) (bend c).
Proof.
  intros Hl. destruct (linked_cut _ _ _ _ Hl) as (j & r & q & Hs1 & [] & _ & Hc1 & Hc2 & Hr).
  unfold merge_prev, absorb_prev. rewrite h_prev0.
  destruct l1 as [|p l1 _] using rev_ind; simpl.
  { destruct Hs1 as [_ <-]. simpl. auto using same_bytes_refl. }
  rewrite last_snoc, removelast_last.
  apply seg_app in Hs1 as (k & kn & _ & (Hp & r' & Hhp & [Hr' <-])). subst kn.
  rewrite <- app_assoc in Hl. simpl in Hl.
  assert (0 < addr p).
  { destruct (linked_in m _ p Hl) as (? & _); [| done]. apply elem_of_app. right. left. }
  rewrite truth_nz, (h_used _ _ _ _ Hhp), truth_b2z by lia. simpl.
  destruct (used p); simpl.
  { rewrite <- app_assoc. simpl. auto using same_bytes_refl. }
  destruct (absorb_linked m l1 p b l2 Hl) as [Hl' Ht].
  split; [done |]. intros c Hc.
  destruct (linked_contig _ _ _ _ Hl) as [Hc1' _].
  by apply (touches_payload _ _ l1 l2 _ _ _ _ c Hc1' Hc2 Ht).
Qed.

(** ** Free neighbours *)

(** In a list without adjacent free blocks, the neighbours of a free block
    are used, and a used block may be replaced by a used one. *)
Lemma no_adj_cut pf l1 b l2 :
  no_adj pf (l1 ++ b :: l2) <->
  no_adj pf l1 /\ (last_free pf l1 && negb (used b)) = false /\ no_adj (negb (used b)) l2.
Proof. rewrite no_adj_app. simpl. tauto. Qed.

Lemma no_adj_weaken pf l : no_adj pf l -> no_adj false l.
Proof. destruct l as [|b l]; simpl; [done |]. by intros [_ ?]. Qed.

Lemma no_adj_taken b size l1 l2 :
  used b = false -> no_adj false (l1 ++ b :: l2) ->
  no_adj false (l1 ++ taken_blocks b size ++ l2).
Proof.
  intros Hu (H1 & Hb & H2)%no_adj_cut. rewrite Hu in *. simpl in *.
  rewrite no_adj_app. split; [done |]. unfold taken_blocks.
  destruct (_ <=? _); simpl; rewrite andb_false_r; split_and!; auto.
  by eapply no_adj_weaken.
Qed.

(** Where a freed block ends up: merged with its free neighbours. *)
Definition coalesce (l1 : list blk) (b : blk) (l2 : list blk)
    : list blk * blk * list blk :=
  let '(b1, l2') := absorb_next b l2 in
  let '(l1', b2) := absorb_prev l1 b1 in
  (l1', b2, l2').

Lemma no_adj_coalesce l1 b l2 :
  used b = true -> no_adj false (l1 ++ b :: l2) ->
  let '(l1', b', l2') := coalesce l1 (freed b) l2 in
  used b' = false /\ no_adj false (l1' ++ b' :: l2').
Proof.
  intros Hu (H1 & _ & H2)%no_adj_cut. rewrite Hu in H2. simpl in H2.
  unfold coalesce.
  assert (let '(b1, l2') := absorb_next (freed b) l2 in
          used b1 = false /\ no_adj true l2') as Hn.
  { unfold absorb_next. destruct l2 as [|n l2]; [done |].
    simpl in H2. destruct H2 as [_ H2].
    destruct (used n) eqn:En; simpl; rewrite ?En; auto. }
  destruct (absorb_next (freed b) l2) as [b1 l2']. destruct Hn as [Hu1 Hn].
  unfold absorb_prev. destruct l1 as [|p l1 _] using rev_ind.
  { simpl. by rewrite Hu1. }
  rewrite last_snoc, removelast_last. apply no_adj_app in H1 as [H1 Hp]. simpl in Hp.
  destruct (used p) eqn:Ep.
  - split; [done |]. rewrite no_adj_cut, Hu1. simpl. split_and!; [| | done].
    + rewrite no_adj_app. simpl. by rewrite Ep, andb_false_r.
    + unfold last_free. by rewrite last_snoc, Ep.
  - simpl. rewrite Ep. split; [done |]. rewrite no_adj_cut. simpl. rewrite Ep.
    split_and!; [done | apply Hp | done].
Qed.

(** A used block other than the one freed keeps its place. *)
Lemma coalesce_keeps l1 b l2 c :
  c ∈ l1 ++ l2 -> used c = true ->
  let '(l1', _, l2') := coalesce l1 b l2 in c ∈ l1' ++ l2'.
Proof.
  intros Hc Hu. unfold coalesce, absorb_next, absorb_prev.
  destruct l2 as [|n l2]; [| destruct (used n) eqn:En];
    (destruct l1 as [|p l1 _] using rev_ind;
     [| rewrite last_snoc, removelast_last; destruct (used p) eqn:Ep]);
    simpl in *; rewrite ?elem_of_app, ?elem_of_cons, ?list_elem_of_singleton, ?elem_of_nil in *;
    intuition congruence.
Qed.

(** ** The operations on a well-formed heap *)

Lemma heap_inv_in `{HeapLayout} h bl b :
  heap_inv h bl -> b ∈ bl ->
  0 < addr b /\ heap_storage <= addr b /\ 0 <= bsize b /\ bsize b mod 4 = 0 /\
  addr b + HDR_SIZE + bsize b <= heap_storage + KHEAP_SIZE /\
  heap_storage + KHEAP_SIZE < 2 ^ 32.
Proof. intros [_ Hl _] Hb. by eapply linked_in. Qed.

(** Every used block's bytes, except those of [except], are the same in both
    memories. *)
Definition keeps_used (bl : list blk) (except : Z) (m m' : mem) : Prop :=
  forall c, c ∈ bl -> used c = true -> addr c ≠ except ->
    same_bytes m m' (payload c) (bend c).

Lemma kmalloc_none `{HeapLayout} h bl size :
  heap_inv h bl -> size ≠ 0 -> find_fit (align_up size KHEAP_ALIGN) bl = None ->
  kmalloc h size = Ret (0, h).
Proof.
  intros [Hh Hl Hn] Hnz Hf. unfold kmalloc. rewrite (proj2 (Z.eqb_neq size 0) Hnz).
  pose proof (linked_length _ _ Hl). destruct (lk_seg _ _ Hl) as [q Hseg].
  rewrite Hh. rewrite (kmalloc_loop_spec _ _ _ _ bl q _ Hseg).
  - rewrite Hf. simpl. rewrite <- Hh. by destruct h.
  - intros b Hb. by apply (linked_in _ _ _ Hl).
  - unfold heap_fuel. lia.
Qed.

Lemma kmalloc_some `{HeapLayout} h bl size b :
  heap_inv h bl -> is_u32 size -> size ≠ 0 ->
  find_fit (align_up size KHEAP_ALIGN) bl = Some b ->
  exists l1 l2 h', bl = l1 ++ b :: l2 /\ used b = false /\
    (forall c, c ∈ l1 -> used c = true \/ bsize c < align_up size KHEAP_ALIGN) /\
    align_up size KHEAP_ALIGN <= bsize b /\
    kmalloc h size = Ret (payload b, h') /\
    heap_inv h' (l1 ++ taken_blocks b (align_up size KHEAP_ALIGN) ++ l2) /\
    keeps_used bl 0 (hmem h) (hmem h').
Proof.
  intros [Hh Hl Hn] H32 Hnz Hf. unfold kmalloc. rewrite (proj2 (Z.eqb_neq size 0) Hnz).
  pose proof (linked_length _ _ Hl). pose proof (lk_seg _ _ Hl) as [q Hseg].
  destruct (find_fit_Some _ _ _ Hf) as (l1 & l2 & Hbl & Hu & Hfit & Hfirst).
  destruct (linked_in _ _ b Hl) as (? & ? & ? & ? & ? & ?);
    [rewrite Hbl; apply elem_of_app; right; left |].
  destruct (align_up_range size H32) as [Ha Ha8].
  rewrite Hh. rewrite (kmalloc_loop_spec _ _ _ _ bl q _ Hseg), Hf;
    [| intros c Hc; by apply (linked_in _ _ _ Hl) | unfold heap_fuel; lia].
  rewrite Hbl in Hl, Hn.
  destruct (take_block_linked _ l1 b l2 (align_up size KHEAP_ALIGN) Hl) as [Hl' Ht];
    [lia | zdm |].
  eexists l1, l2, _. split_and!; [done | done | done | done | | |].
  - unfold payload. rewrite u32_small by (unfold HDR_SIZE in *; lia). reflexivity.
  - split; [done | done |]. simpl. by apply no_adj_taken.
  - intros c Hc Huc _. simpl. destruct (linked_contig _ _ _ _ Hl) as [Hc1 Hc2].
    apply (touches_payload _ _ l1 l2 _ _ _ _ c Hc1 Hc2 Ht).
    subst bl. set_unfold. intuition congruence.
Qed.

Lemma kfree_ok `{HeapLayout} h l1 b l2 :
  heap_inv h (l1 ++ b :: l2) -> used b = true ->
  exists h', kfree h (payload b) = Ret h' /\
    (let '(l1', b', l2') := coalesce l1 (freed b) l2 in heap_inv h' (l1' ++ b' :: l2')) /\
    keeps_used (l1 ++ b :: l2) (addr b) (hmem h) (hmem h').
Proof.
  intros Hinv Hu. pose proof Hinv as [Hh Hl Hn].
  destruct (heap_inv_in _ _ b Hinv) as (? & ? & ? & ? & ? & ?); [set_solver |].
  destruct (linked_cut _ _ _ _ Hl) as (j & r & q & _ & [Hm _ Hus _ _] & _).
  unfold kfree, payload. unfold HDR_SIZE in *.
  rewrite truth_nz, (Z.add_simpl_r (addr b) 20), u32_small, Hm, Z.eqb_refl, Hus, Hu by lia.
  simpl. eexists. split; [reflexivity |].
  destruct (set_used_linked _ _ _ _ Hl) as [Hl1 Ht1].
  set (m1 := set_used (hmem h) (addr b) 0) in *.
  pose proof (no_adj_coalesce l1 b l2 Hu Hn) as Hna.
  pose proof (fun c => coalesce_keeps l1 (freed b) l2 c) as Hkeep.
  pose proof (merge_next_linked m1 l1 (freed b) l2 Hl1) as Hnext.
  change (addr (freed b)) with (addr b) in Hnext.
  unfold coalesce in *. destruct (absorb_next (freed b) l2) as [b1 l2'] eqn:En.
  destruct Hnext as (Hb1 & _ & Hl2 & Hk2).
  pose proof (merge_prev_linked _ l1 b1 l2' Hl2) as Hprev. rewrite Hb1 in Hprev.
  change (addr (freed b)) with (addr b) in Hprev.
  destruct (absorb_prev l1 b1) as [l1' b2] eqn:Ep. destruct Hprev as [Hl3 Hk3].
  split; [split; simpl; [done | done | apply Hna] |].
  intros c Hc Huc Hne x Hx. simpl.
  assert (c ∈ l1 ++ l2) as Hc12 by (set_unfold; intuition congruence).
  specialize (Hkeep c Hc12 Huc). rewrite (Hk3 c Hkeep x Hx).
  assert (c ∈ l1 ++ l2') as Hc2.
  { unfold absorb_prev in Ep. destruct l1 as [|p l1 _] using rev_ind;
      [injection Ep as <- _; done |].
    rewrite last_snoc, removelast_last in Ep.
    destruct (used p); injection Ep as <- _; set_solver. }
  rewrite (Hk2 c Hc2 x Hx).
  destruct (linked_contig _ _ _ _ Hl) as [Hc1 Hc2'].
  by apply (touches_payload _ _ l1 l2 _ _ _ _ c Hc1 Hc2' Ht1).
Qed.

(** ** Statistics *)

Fixpoint sum_sizes (u : bool) (bl : list blk) : Z :=
  match bl with
  | [] => 0
  | b :: bl' => (if Bool.eqb (used b) u then bsize b else 0) + sum_sizes u bl'
  end.

Fixpoint count_blocks (u : bool) (bl : list blk) : Z :=
  match bl with
  | [] => 0
  | b :: bl' => (if Bool.eqb (used b) u then 1 else 0) + count_blocks u bl'
  end.

Fixpoint max_free (bl : list blk) : Z :=
  match bl with
  | [] => 0
  | b :: bl' => Z.max (if used b then 0 else bsize b) (max_free bl')
  end.

Lemma contig_sums a bl e :
  contig a bl e ->
  0 <= sum_sizes true bl /\ 0 <= sum_sizes false bl /\ 0 <= max_free bl /\
  0 <= count_blocks true bl /\ 0 <= count_blocks false bl /\
  sum_sizes true bl + sum_sizes false bl
    + HDR_SIZE * (count_blocks true bl + count_blocks false bl) = e - a.
Proof.
  revert a. induction bl as [|b bl IH]; simpl; intros a; [unfold HDR_SIZE; lia |].
  intros (Ha & ? & ? & Hc%IH). unfold bend, HDR_SIZE in *.
  destruct (used b); simpl; lia.
Qed.

Lemma stats_loop_spec fuel m pp p bl q a e s :
  seg m pp p bl q 0 -> contig a bl e -> 0 < a -> (length bl < fuel)%nat ->
  0 <= used_bytes s -> 0 <= free_bytes s -> 0 <= largest_free s ->
  0 <= blocks_used s -> 0 <= blocks_free s ->
  blocks_total s = blocks_used s + blocks_free s ->
  used_bytes s + free_bytes s + blocks_total s + (e - a) < 2 ^ 32 ->
  stats_loop fuel m p s =
  Ret (Stats (total_bytes s)
        (used_bytes s + sum_sizes true bl) (free_bytes s + sum_sizes false bl)
        (blocks_total s + count_blocks true bl + count_blocks false bl)
        (blocks_used s + count_blocks true bl) (blocks_free s + count_blocks false bl)
        (Z.max (largest_free s) (max_free bl))).
Proof.
  revert pp p bl a s. induction fuel as [|fuel IH]; intros pp p bl a s Hseg Hc Ha Hf; [lia |].
  destruct bl as [|b bl]; simpl in Hseg, Hc.
  { intros. destruct Hseg as [-> _]. simpl. rewrite !Z.add_0_r, Z.max_l by lia.
    by destruct s. }
  destruct Hseg as (<- & r & [Hm Hs Hu _ Hn] & Hseg). destruct Hc as (<- & ? & ? & Hc).
  intros. simpl in Hf. cbn [stats_loop].
  pose proof (contig_sums _ _ _ Hc) as Hsum. unfold bend, HDR_SIZE in *.
  rewrite (truth_nz (addr b)), Hm, Z.eqb_refl, Hu, truth_b2z, Hs, Hn by lia. cbn -[u32].
  pose proof (contig_le _ _ _ Hc).
  destruct (used b); cbn -[u32]; rewrite !u32_small by lia;
    [| destruct (Z.ltb_spec (largest_free s) (bsize b))];
    (rewrite (IH (addr b) r bl _ _ Hseg Hc); simpl; [f_equal; f_equal; lia | lia ..]).
Qed.

Definition init_block `{HeapLayout} : blk :=
  Blk heap_storage (KHEAP_SIZE - HDR_SIZE) false.

Lemma kheap_init_inv `{HeapLayout} h : heap_inv (kheap_init h) [init_block].
Proof.
  pose proof heap_storage_range. unfold KHEAP_SIZE, KHEAP_SIZE_KB in *.
  split; [done | | done]. split.
  - exists heap_storage. simpl. split; [done |]. exists 0. split; [| done].
    unfold kheap_init, init_block, KHEAP_SIZE, KHEAP_SIZE_KB, HDR_SIZE, KHEAP_MAGIC.
    split; simpl; fields; mem_simpl; reflexivity.
  - unfold init_block, KHEAP_SIZE, KHEAP_SIZE_KB, HDR_SIZE. simpl.
    unfold bend, HDR_SIZE. simpl. split_and!; first [lia | reflexivity].
Qed.

(** Freeing a block that is not merged with its predecessor leaves its header
    in place, marked unused; a merged one loses its magic number. *)
Lemma absorb_magic m p n :
  addr p + HDR_SIZE <= addr n -> b_magic (absorb m (addr p) (addr n)) (addr n) = 0.
Proof. intros. unfold absorb. fields. by rewrite load32_store32_same. Qed.

Lemma kfree_twice_aux `{HeapLayout} h h' l1 b l2 :
  heap_inv h (l1 ++ b :: l2) -> used b = true -> kfree h (payload b) = Ret h' ->
  b_magic (hmem h') (addr b) = 0 \/ b_used (hmem h') (addr b) = 0.
Proof.
  intros Hinv Hu Hf. pose proof Hinv as [_ Hl _].
  destruct (kfree_ok h l1 b l2 Hinv Hu) as (h2 & Hf2 & Hinv' & _).
  rewrite Hf in Hf2. injection Hf2 as <-.
  destruct (set_used_linked _ _ _ _ Hl) as [Hl1 _].
  pose proof (merge_next_linked _ l1 (freed b) l2 Hl1) as Hnext.
  unfold coalesce in Hinv'. destruct (absorb_next (freed b) l2) as [b1 l2'].
  destruct Hnext as (Hb1 & Hu1 & Hl2 & _). simpl in Hb1, Hu1.
  destruct (absorb_prev l1 b1) as [l1' b2] eqn:Ep. unfold absorb_prev in Ep.
  destruct (heap_inv_in _ _ b Hinv) as (? & ? & ? & ? & ? & ?); [set_solver |].
  destruct l1 as [|p l1 _] using rev_ind.
  - injection Ep as <- <-. right. destruct Hinv' as [_ Hl' _].
    destruct (linked_cut _ [] _ _ Hl') as (? & ? & ? & _ & [_ _ Hus _ _] & _).
    by rewrite <- Hb1, Hus, Hu1.
  - rewrite last_snoc in Ep. destruct (used p) eqn:Eu.
    + injection Ep as <- <-. right. destruct Hinv' as [_ Hl' _].
      destruct (linked_cut _ (l1 ++ [p]) _ _ Hl') as (? & ? & ? & _ & [_ _ Hus _ _] & _).
      by rewrite <- Hb1, Hus, Hu1.
    + left. clear Hinv'. unfold kfree, payload in Hf.
      destruct (linked_cut _ _ _ _ Hl) as (j & r & q & Hs1 & [Hm _ Hus Hpr _] & _).
      unfold HDR_SIZE in *.
      rewrite truth_nz, (Z.add_simpl_r (addr b) 20), u32_small, Hm, Z.eqb_refl, Hus, Hu
        in Hf by lia. simpl in Hf. injection Hf as <-. simpl.
      change (addr (freed b)) with (addr b) in Hl2.
      destruct (linked_cut _ _ _ _ Hl2) as (j2 & r2 & q2 & Hs2 & [_ _ _ Hpr2 _] & _ & Hc2 & _).
      apply seg_app in Hs2 as (k & kn & _ & (Hp & r' & Hhp & [Hr' <-])). subst kn.
      apply contig_app in Hc2 as (e & _ & Hcp). simpl in Hcp. destruct Hcp as (_ & ? & _ & Hbe).
      assert (0 < addr p).
      { destruct (linked_in _ _ p Hl) as (? & _); [set_solver | done]. }
      rewrite Hb1 in *. unfold merge_prev.
      rewrite Hpr2, truth_nz, (h_used _ _ _ _ Hhp), Eu by lia.
      simpl. apply absorb_magic. unfold bend, HDR_SIZE in *. lia.
Qed.

(** The block [kmalloc] hands out: at the same address, in use, and with less
    than a header and 8 bytes more than asked for. *)
Lemma taken_head b size :
  exists c rest, taken_blocks b size = c :: rest /\ used c = true /\
    payload c = payload b /\ bsize c < size + HDR_SIZE + KHEAP_ALIGN.
Proof.
  unfold taken_blocks. destruct (Z.leb_spec (HDR_SIZE + KHEAP_ALIGN) (bsize b - size));
    eexists _, _; (split; [reflexivity |]; split; [reflexivity |]; split; [reflexivity |]);
    simpl; unfold HDR_SIZE, KHEAP_ALIGN in *; lia.
Qed.

(** ** Clients *)

(** Distinct blocks of a tiled range do not overlap. *)
Lemma contig_disjoint a l e b c :
  contig a l e -> b ∈ l -> c ∈ l -> b ≠ c -> bend b <= addr c \/ bend c <= addr b.
Proof.
  revert a. induction l as [|d l IH]; simpl; intros a Hc Hb Hc' Hne;
    [by apply not_elem_of_nil in Hb |].
  destruct Hc as (_ & ? & _ & Hc).
  apply elem_of_cons in Hb as [-> | Hb]; apply elem_of_cons in Hc' as [-> | Hc'].
  - done.
  - left. by apply (contig_in _ _ _ _ Hc Hc').
  - right. by apply (contig_in _ _ _ _ Hc Hb).
  - by eapply IH.
Qed.

Lemma contig_addr_inj a l e b c :
  contig a l e -> b ∈ l -> c ∈ l -> addr b = addr c -> b = c.
Proof.
  intros Hc Hb Hc' Heq. destruct (decide (b = c)) as [| Hne]; [done |].
  destruct (contig_in _ _ _ _ Hc Hb) as (_ & _ & ? & _).
  destruct (contig_in _ _ _ _ Hc Hc') as (_ & _ & ? & _).
  destruct (contig_disjoint _ _ _ _ _ Hc Hb Hc' Hne); unfold bend, HDR_SIZE in *; lia.
Qed.

(** A store inside the payload of a block leaves every header alone. *)
Lemma store_payload_seg m pp p bl q qn a e b x v :
  contig a bl e -> b ∈ bl -> payload b <= x < bend b ->
  seg m pp p bl q qn -> seg (store8 m x v) pp p bl q qn.
Proof.
  revert pp p a. induction bl as [|c bl IH]; simpl; intros pp p a Hc Hb Hx Hs; [done |].
  destruct Hs as (Hp & r & Hh & Hs). destruct Hc as (Ha & ? & ? & Hc).
  apply elem_of_cons in Hb as Hb'. split; [done |]. exists r. split.
  - eapply hdr_frame; [| done]. intros y Hy. apply load8_store8_ne.
    unfold payload in Hx. destruct Hb' as [-> | Hb']; [lia |].
    destruct (contig_in _ _ _ _ Hc Hb') as (? & _). unfold bend, HDR_SIZE in *. lia.
  - destruct Hb' as [-> | Hb']; [| by eapply IH; eauto].
    eapply seg_frame; [exact Hc | | exact Hs]. intros y Hy. apply load8_store8_ne. lia.
Qed.

Lemma heap_inv_store `{HeapLayout} h bl b x v :
  heap_inv h bl -> b ∈ bl -> payload b <= x < bend b ->
  heap_inv (Kheap (store8 (hmem h) x v) (head h)) bl.
Proof.
  intros [Hh [[q Hs] Hc] Hn] Hb Hx. split; [done | | done]. split; [| done].
  exists q. eapply store_payload_seg; eauto.
Qed.

(** How many bytes of a block its owner may use: what it asked for.  Past
    [2^32 - 8] the rounding of [kmalloc] wraps around to 0, and a block that
    was asked for then has no byte its owner can count on. *)
Definition usable (size : Z) : Z := if size <=? 2 ^ 32 - 8 then size else 0.

(** What the rest of the kernel may do with the heap: allocate any number of
    bytes, write into what it holds, and free what it holds.  [held] maps each
    pointer the clients own to the bytes of it that they may use. *)
Inductive heap_step : kheap * gmap Z Z -> kheap * gmap Z Z -> Prop :=
| hs_alloc h h' held size p :
    is_u32 size -> kmalloc h size = Ret (p, h') -> p ≠ 0 ->
    heap_step (h, held) (h', <[p := usable size]> held)
| hs_alloc_null h h' held size :
    is_u32 size -> kmalloc h size = Ret (0, h') -> heap_step (h, held) (h', held)
| hs_write h held p n x v :
    held !! p = Some n -> p <= x < p + n ->
    heap_step (h, held) (Kheap (store8 (hmem h) x v) (head h), held)
| hs_free h h' held p n :
    held !! p = Some n -> kfree h p = Ret h' -> heap_step (h, held) (h', delete p held).

Inductive heap_reach `{HeapLayout} : kheap * gmap Z Z -> Prop :=
| hr_init h : heap_reach (kheap_init h, ∅)
| hr_step s s' : heap_reach s -> heap_step s s' -> heap_reach s'.

(** Every held pointer is the payload of a used block that is large enough. *)
Definition held_ok (bl : list blk) (held : gmap Z Z) : Prop :=
  forall p n, held !! p = Some n ->
    exists b, b ∈ bl /\ used b = true /\ payload b = p /\ 0 <= n <= bsize b.

Lemma align_up_ge v : 0 <= v <= 2 ^ 32 - 8 -> v <= align_up v KHEAP_ALIGN.
Proof.
  intros Hv. rewrite align_up_8 by (unfold is_u32; lia).
  rewrite u32_small by lia. zdm.
Qed.

Lemma usable_small size : 0 <= size <= 2 ^ 32 - 8 -> usable size = size.
Proof. intros Hs. unfold usable. by rewrite (proj2 (Z.leb_le _ _)) by lia. Qed.

Lemma usable_fits size : is_u32 size -> 0 <= usable size <= align_up size KHEAP_ALIGN.
Proof.
  intros Hs. pose proof (align_up_range size Hs) as [? _]. unfold usable, is_u32 in *.
  destruct (Z.leb_spec size (2 ^ 32 - 8)); [| lia]. pose proof (align_up_ge size). lia.
Qed.

Lemma kmalloc_zero h : kmalloc h 0 = Ret (0, h).
Proof. reflexivity. Qed.

(** What any allocation does to a heap with clients. *)
Lemma kmalloc_held `{HeapLayout} h bl held size :
  heap_inv h bl -> held_ok bl held -> is_u32 size ->
  exists p h' bl', kmalloc h size = Ret (p, h') /\ heap_inv h' bl' /\ held_ok bl' held /\
    (p ≠ 0 -> exists b, b ∈ bl' /\ used b = true /\ payload b = p /\
       align_up size KHEAP_ALIGN <= bsize b /\ held !! p = None /\
       (forall c, c ∈ bl -> used c = true -> bend c <= addr b \/ bend b <= addr c)).
Proof.
  intros Hinv Hok H32. destruct (decide (size = 0)) as [-> | Hnz].
  { exists 0, h, bl. rewrite kmalloc_zero. split_and!; done. }
  destruct (find_fit (align_up size KHEAP_ALIGN) bl) as [b|] eqn:Hf.
  2: { exists 0, h, bl. rewrite (kmalloc_none h bl size) by done. split_and!; done. }
  destruct (kmalloc_some h bl size b Hinv H32 Hnz Hf)
    as (l1 & l2 & h' & Hbl & Hu & _ & Hfit & Hk & Hinv' & _).
  exists (payload b), h', (l1 ++ taken_blocks b (align_up size KHEAP_ALIGN) ++ l2).
  assert (forall c, c ∈ bl -> used c = true ->
    c ∈ l1 ++ taken_blocks b (align_up size KHEAP_ALIGN) ++ l2) as Hstay.
  { intros c Hc Huc. subst bl. rewrite !elem_of_app, elem_of_cons in *. intuition congruence. }
  split_and!; [done | done | |].
  { intros p n (c & Hc & Huc & Hrest)%Hok. eauto. }
  intros _. unfold taken_blocks. destruct Hinv as [_ [_ Hc] _].
  assert (b ∈ bl) as Hb by (subst bl; apply elem_of_app; right; left).
  eexists (Blk (addr b) (if HDR_SIZE + KHEAP_ALIGN <=? bsize b - align_up size KHEAP_ALIGN
             then align_up size KHEAP_ALIGN else bsize b) true).
  assert (forall c, c ∈ bl -> used c = true -> bend c <= addr b \/
    addr b + HDR_SIZE + (if HDR_SIZE + KHEAP_ALIGN <=? bsize b - align_up size KHEAP_ALIGN
             then align_up size KHEAP_ALIGN else bsize b) <= addr c) as Hdis.
  { intros c Hcin Huc. destruct (contig_disjoint _ _ _ c b Hc Hcin Hb) as [?|?]; [congruence | by left |].
    right. unfold bend in *. case_ltb; lia. }
  split_and!; [| done | done | simpl; case_ltb; lia | | exact Hdis].
  - apply elem_of_app. right. apply elem_of_app. left.
    destruct (_ <=? _); apply elem_of_cons; by left.
  - apply eq_None_not_Some. intros [k E]. destruct (Hok _ _ E) as (c & Hcin & Huc & E' & ?).
    pose proof (align_up_range size H32). unfold payload in *.
    destruct (Hdis c Hcin Huc) as [Hd | Hd]; revert Hd; unfold bend, HDR_SIZE; [lia |]. case_ltb; lia.
Qed.

Lemma kfree_held `{HeapLayout} h bl held p n :
  heap_inv h bl -> held_ok bl held -> held !! p = Some n ->
  exists h' bl', kfree h p = Ret h' /\ heap_inv h' bl' /\ held_ok bl' (delete p held).
Proof.
  intros Hinv Hok Hp. destruct (Hok p n Hp) as (b & Hb & Hu & <- & _).
  apply list_elem_of_split in Hb as (l1 & l2 & ->).
  destruct (kfree_ok h l1 b l2 Hinv Hu) as (h' & Hk & Hinv' & _).
  pose proof (coalesce_keeps l1 (freed b) l2) as Hkeep.
  destruct (coalesce l1 (freed b) l2) as [[l1' b'] l2'].
  exists h', (l1' ++ b' :: l2'). split_and!; [done | done |].
  intros q k Hq. apply lookup_delete_Some in Hq as [Hne Hq].
  destruct (Hok q k Hq) as (c & Hc & Huc & Hpay & Hk').
  exists c. split_and!; [| done | done | lia | lia].
  assert (c ∈ l1 ++ l2) as Hc12.
  { rewrite elem_of_app, elem_of_cons in *. intuition congruence. }
  specialize (Hkeep c Hc12 Huc). rewrite elem_of_app, elem_of_cons in *. tauto.
Qed.

Lemma heap_reach_inv `{HeapLayout} s :
  heap_reach s -> exists bl, heap_inv s.1 bl /\ held_ok bl s.2.
Proof.
  induction 1 as [h | s s' _ (bl & Hinv & Hok) Hstep].
  { exists [init_block]. split; [apply kheap_init_inv |]. intros p n Hp.
    simpl in Hp. by rewrite lookup_empty in Hp. }
  destruct Hstep as [h h' held size p Hsz Hk Hp | h h' held size H32 Hk
                    | h held p n x v Hp Hx | h h' held p n Hp Hk]; simpl in *.
  - destruct (kmalloc_held h bl held size Hinv Hok Hsz) as (p' & h2 & bl' & Hk' & Hinv' & Hok' & Hb).
    rewrite Hk in Hk'. injection Hk' as <- <-. exists bl'. split; [done |].
    destruct (Hb Hp) as (b & Hb' & Hu & Hpay & Hsize & _).
    intros q k. rewrite lookup_insert. destruct (decide (p = q)) as [<- | _]; [| apply Hok'].
    intros [= <-]. pose proof (usable_fits size Hsz). exists b. split_and!; auto; lia.
  - destruct (kmalloc_held h bl held size Hinv Hok H32) as (p' & h2 & bl' & Hk' & ? & ? & _).
    rewrite Hk in Hk'. injection Hk' as _ <-. eauto.
  - destruct (Hok p n Hp) as (b & Hb & _ & Hpay & Hn). exists bl. split; [| done].
    eapply heap_inv_store; [done | exact Hb |]. unfold payload, bend in *. lia.
  - destruct (kfree_held h bl held p n Hinv Hok Hp) as (h2 & bl' & Hk' & ? & ?).
    rewrite Hk in Hk'. injection Hk' as <-. eauto.
Qed.

(** Filling part of a payload keeps the heap and every other block. *)
Lemma heap_inv_fill `{HeapLayout} h bl b v n :
  heap_inv h bl -> b ∈ bl -> 0 <= n <= bsize b ->
  heap_inv (Kheap (mem_fill (hmem h) (payload b) v n) (head h)) bl.
Proof.
  intros Hinv Hb Hn. unfold mem_fill.
  refine (for_range_ind (fun _ m => heap_inv (Kheap m (head h)) bl) 0 n _ _ _ _ _);
    [lia | by destruct h |].
  intros i m Hi Hm. apply (heap_inv_store (Kheap m (head h)) bl b); [done | done |].
  unfold payload, bend. lia.
Qed.

(** ** The heap as an allocator

    The state of the interface: the heap, and the blocks its clients hold. *)

Record held_heap : Type := HeldHeap { the_heap : kheap; held : gmap Z Z }.

#[export] Instance kheap_allocator `{HeapLayout} : HeapAllocator held_heap := {
  heap_malloc h n :=
    do! (p, k) := kmalloc (the_heap h) n in
    Ret (p, HeldHeap k (if p =? 0 then held h else <[p := usable n]> (held h)));
  heap_free h p :=
    do! k := kfree (the_heap h) p in Ret (HeldHeap k (delete p (held h)));
  heap_blocks := held;
  heap_ok h := exists bl, heap_inv (the_heap h) bl /\ held_ok bl (held h)
}.

(** Any number of bytes may be asked for. *)
Lemma held_malloc_ok `{HeapLayout} (h : held_heap) n :
  heap_ok h -> is_u32 n ->
  exists p h', heap_malloc h n = Ret (p, h') /\ heap_ok h' /\
    ((p = 0 /\ heap_blocks h' = heap_blocks h) \/
     (0 < p < 2 ^ 32 /\ heap_blocks h' = <[p := usable n]> (heap_blocks h) /\ heap_blocks h !! p = None)).
Proof.
  destruct h as [h held]. intros (bl & Hinv & Hok) Hn. cbn [heap_malloc heap_blocks heap_ok kheap_allocator] in *.
  cbn [the_heap Kheap.held] in *.
  destruct (kmalloc_held h bl held n Hinv Hok Hn) as (p & h' & bl' & -> & Hinv' & Hok' & Hb).
  cbn [obind]. eexists _, _. split; [reflexivity |]. cbn [the_heap Kheap.held].
  destruct (Z.eqb_spec p 0) as [-> | Hp]; [split; [by exists bl' | by left] |].
  destruct (Hb Hp) as (b & Hbin & Hu & Hpay & Hsz & Hnew & _). pose proof (usable_fits n Hn) as Hge.
  destruct (heap_inv_in _ _ b Hinv' Hbin) as (Hr0 & _ & _ & _ & Hr3 & Hr4). split.
  - exists bl'. split; [done |]. intros q k. rewrite lookup_insert.
    destruct (decide (p = q)) as [<- | _]; [| apply Hok']. intros [= <-]. exists b. split_and!; auto; lia.
  - right. unfold payload, HDR_SIZE in *. split_and!; [lia | lia | done | exact Hnew].
Qed.

#[export] Instance kheap_laws `{HeapLayout} : HeapAllocatorLaws held_heap.
Proof.
  split; [| simpl ..].
  - intros h n Hok Hn. destruct (held_malloc_ok h n Hok) as (p & h' & E & Hok' & Hc); [unfold is_u32; lia |].
    rewrite usable_small in Hc by lia. exists p, h'. split; [done |]. split; [done |].
    destruct Hc as [? | (? & ? & ?)]; [by left | right]. split_and!; [lia | done | done].
  - intros [h held] p n (bl & Hinv & Hok) Hp. simpl in *.
    destruct (kfree_held h bl held p n Hinv Hok Hp) as (h' & bl' & -> & Hinv' & Hok').
    cbn [obind]. eexists. split; [reflexivity |]. split; [by exists bl' | done].
  - intros [h held] p n (bl & Hinv & Hok) Hp. destruct (Hok p n Hp) as (b & Hb & _ & <- & Hn).
    destruct (heap_inv_in _ _ b Hinv Hb) as (? & _ & _ & _ & ? & ?). unfold payload, HDR_SIZE in *. lia.
  - intros [h held] p q n k (bl & Hinv & Hok) Hp Hq Hne.
    destruct (Hok p n Hp) as (b & Hb & _ & <- & Hn), (Hok q k Hq) as (c & Hc & _ & <- & Hk).
    destruct (hi_linked _ _ Hinv) as [_ Hcon].
    destruct (contig_disjoint _ _ _ b c Hcon Hb Hc) as [? | ?]; [congruence | |];
      unfold payload, bend, HDR_SIZE in *; lia.
Qed.

(** ** Properties *)

(** C27 [kmalloc] of a non-zero size is first fit on the 8-byte-rounded size:
    with no free block large enough it returns NULL and changes nothing;
    otherwise it returns the payload of the first such block, which is
    split when at least a header and 8 bytes are left over; the invariant is
    kept and no byte of a block in use changes. *)
Theorem kmalloc_spec `{HeapLayout} (h : kheap) (bl : list blk) (size : Z) :
  heap_inv h bl -> is_u32 size -> size ≠ 0 ->
  let asz := align_up size KHEAP_ALIGN in
  match find_fit asz bl with
  | None => kmalloc h size = Ret (0, h)
  | Some b =>
      exists l1 l2 h', bl = l1 ++ b :: l2 /\ kmalloc h size = Ret (payload b, h') /\
        (forall c, c ∈ l1 -> used c = true \/ bsize c < asz) /\
        heap_inv h' (l1 ++ taken_blocks b asz ++ l2) /\
        keeps_used bl 0 (hmem h) (hmem h')
  end.
Proof.
  intros Hinv H32 Hnz asz. destruct (find_fit asz bl) as [b|] eqn:Hf.
  - destruct (kmalloc_some h bl size b Hinv H32 Hnz Hf)
      as (l1 & l2 & h' & Hbl & _ & Hfirst & _ & Hk & Hinv' & Hkeep).
    exists l1, l2, h'. auto.
  - by eapply kmalloc_none.
Qed.

(** C28 [kfree] of a pointer [kmalloc] returned succeeds: the block becomes free
    and is merged with its free neighbours on both sides, so that no two free
    blocks are ever adjacent; no byte of another block in use changes. *)
Theorem kfree_spec `{HeapLayout} (h : kheap) (l1 l2 : list blk) (b : blk) :
  heap_inv h (l1 ++ b :: l2) -> used b = true ->
  exists h', kfree h (payload b) = Ret h' /\
    (let '(l1', b', l2') := coalesce l1 (freed b) l2 in
     heap_inv h' (l1' ++ b' :: l2') /\ used b' = false) /\
    keeps_used (l1 ++ b :: l2) (addr b) (hmem h) (hmem h').
Proof.
  intros Hinv Hu. destruct (kfree_ok h l1 b l2 Hinv Hu) as (h' & Hk & Hinv' & Hkeep).
  exists h'. split_and!; [done | | done].
  pose proof (no_adj_coalesce l1 b l2 Hu (hi_no_adj _ _ Hinv)) as Hn.
  destruct (coalesce l1 (freed b) l2) as [[l1' b'] l2']. split; [done | apply Hn].
Qed.

(** Freeing what was just allocated restores the block list: the split is
    undone by the merge. *)
Theorem kmalloc_kfree_roundtrip `{HeapLayout} (h h' : kheap) (bl : list blk) (size p : Z) :
  heap_inv h bl -> is_u32 size -> kmalloc h size = Ret (p, h') -> p ≠ 0 ->
  exists h'', kfree h' p = Ret h'' /\ heap_inv h'' bl.
Proof.
  intros Hinv H32 Hk Hp.
  assert (size ≠ 0) as Hnz.
  { intros ->. unfold kmalloc in Hk. simpl in Hk. congruence. }
  destruct (find_fit (align_up size KHEAP_ALIGN) bl) as [b|] eqn:Hf;
    [| rewrite (kmalloc_none h bl size Hinv Hnz Hf) in Hk; congruence].
  destruct (kmalloc_some h bl size b Hinv H32 Hnz Hf)
    as (l1 & l2 & h2 & -> & Hu & _ & Hfit & Hk2 & Hinv' & _).
  rewrite Hk in Hk2. injection Hk2 as -> ->.
  pose proof (hi_no_adj _ _ Hinv) as Hn. apply no_adj_cut in Hn as (_ & Hl1 & Hl2).
  rewrite Hu in Hl1, Hl2. simpl in Hl1, Hl2. rewrite andb_true_r in Hl1.
  destruct (align_up_range size H32) as [Ha _]. set (asz := align_up size KHEAP_ALIGN) in *.
  assert (forall b', absorb_prev l1 b' = (l1, b')) as Hprev.
  { intros b'. unfold absorb_prev. unfold last_free in Hl1.
    destruct (last l1) as [c|]; [| done]. by apply negb_false_iff in Hl1 as ->. }
  assert (exists b' l2', l1 ++ taken_blocks b asz ++ l2 = l1 ++ b' :: l2' /\
    used b' = true /\ payload b' = payload b /\
    absorb_next (freed b') l2' = (b, l2)) as (b' & l2' & Heq & Hu' & Hpay & Hnext).
  { unfold taken_blocks. destruct (_ <=? _).
    - eexists _, _. split_and!; [reflexivity | done | done |].
      simpl. unfold merged, freed, HDR_SIZE. simpl. f_equal.
      destruct b as [a sz u]; simpl in *. subst u. f_equal. lia.
    - eexists _, _. split_and!; [reflexivity | done | done |].
      unfold absorb_next, freed. simpl. destruct b as [a sz u]; simpl in *. subst u.
      destruct l2 as [|n l2]; [done |]. simpl in Hl2. destruct Hl2 as [Hn _].
      by apply negb_false_iff in Hn as ->. }
  rewrite Heq in Hinv'. destruct (kfree_ok h2 l1 b' l2' Hinv' Hu') as (h'' & Hfree & Hi & _).
  exists h''. rewrite <- Hpay. split; [done |].
  unfold coalesce in Hi. by rewrite Hnext, Hprev in Hi.
Qed.

(** Freeing the same pointer twice stops the machine with a panic, whether
    or not the block was merged into its predecessor by the first call;
    [kfree(NULL)] does nothing. *)
Theorem kfree_double_free `{HeapLayout} (h : kheap) (l1 l2 : list blk) (b : blk) :
  heap_inv h (l1 ++ b :: l2) -> used b = true ->
  kfree h 0 = Ret h /\
  exists h' msg, kfree h (payload b) = Ret h' /\
    kfree h' (payload b) = Halt (HeapPanic msg).
Proof.
  intros Hinv Hu. split; [done |].
  destruct (kfree_ok h l1 b l2 Hinv Hu) as (h' & Hk & _ & _). exists h'.
  destruct (heap_inv_in _ _ b Hinv) as (? & ? & ? & ? & ? & ?); [set_solver |].
  pose proof (kfree_twice_aux h h' l1 b l2 Hinv Hu Hk) as Hz.
  unfold kfree at 2, payload. unfold HDR_SIZE in *.
  rewrite (truth_nz (addr b + 20)), (Z.add_simpl_r (addr b) 20), (u32_small (addr b)) by lia.
  simpl. destruct (Z.eqb_spec (b_magic (hmem h') (addr b)) KHEAP_MAGIC) as [E|E]; simpl.
  - destruct Hz as [Hz | ->]; [rewrite Hz in E; discriminate E |]. simpl. eauto.
  - eauto.
Qed.

Lemma get_stats_ok `{HeapLayout} (h : kheap) (bl : list blk) : heap_inv h bl ->
  kheap_get_stats h = Ret (Stats KHEAP_SIZE (sum_sizes true bl) (sum_sizes false bl)
    (count_blocks true bl + count_blocks false bl) (count_blocks true bl) (count_blocks false bl) (max_free bl)).
Proof.
  intros [Hh Hl _]. destruct (lk_seg _ _ Hl) as [q Hseg].
  pose proof (lk_contig _ _ Hl) as Hc. pose proof (contig_sums _ _ _ Hc) as Hs.
  pose proof heap_storage_range. pose proof (linked_length _ _ Hl).
  unfold kheap_get_stats. rewrite Hh. unfold KHEAP_SIZE, KHEAP_SIZE_KB in *.
  rewrite (stats_loop_spec _ _ _ _ bl q heap_storage _ _ Hseg Hc);
    simpl; try lia; [| unfold heap_fuel; lia]. do 2 f_equal; lia.
Qed.

Lemma max_free_sum a bl e : contig a bl e -> max_free bl <= sum_sizes false bl.
Proof.
  revert a. induction bl as [|b bl IH]; cbn [max_free sum_sizes contig]; intros a; [lia |].
  intros (_ & ? & ? & Hc). specialize (IH _ Hc). pose proof (contig_sums _ _ _ Hc). destruct (used b); cbn; lia.
Qed.

(** No number of the report is larger than the arena. *)
Lemma stats_bounded `{HeapLayout} (h : kheap) (bl : list blk) s : heap_inv h bl -> kheap_get_stats h = Ret s ->
  Forall (fun n => 0 <= n <= KHEAP_SIZE)
    [total_bytes s; used_bytes s; free_bytes s; blocks_used s; blocks_free s; largest_free s].
Proof.
  intros Hinv E. rewrite (get_stats_ok h bl Hinv) in E. injection E as <-. destruct Hinv as [_ Hl _].
  pose proof (contig_sums _ _ _ (lk_contig _ _ Hl)). pose proof (max_free_sum _ _ _ (lk_contig _ _ Hl)).
  unfold HDR_SIZE, KHEAP_SIZE, KHEAP_SIZE_KB in *. repeat constructor; cbn; lia.
Qed.

(** [kheap_get_stats] reports the sums over the block list, and they account
    for every byte of the arena: payloads in use, free payloads and one
    20-byte header per block. *)
Theorem kheap_stats_spec `{HeapLayout} (h : kheap) (bl : list blk) :
  heap_inv h bl ->
  exists s, kheap_get_stats h = Ret s /\
    used_bytes s = sum_sizes true bl /\ free_bytes s = sum_sizes false bl /\
    blocks_used s = count_blocks true bl /\ blocks_free s = count_blocks false bl /\
    blocks_total s = blocks_used s + blocks_free s /\ largest_free s = max_free bl /\
    used_bytes s + free_bytes s + HDR_SIZE * blocks_total s = total_bytes s.
Proof.
  intros Hinv. rewrite (get_stats_ok h bl Hinv). destruct Hinv as [_ Hl _].
  pose proof (contig_sums _ _ _ (lk_contig _ _ Hl)). eexists. split; [reflexivity |]. cbn.
  unfold KHEAP_SIZE, KHEAP_SIZE_KB in *. split_and!; lia.
Qed.

(** A request of more than 2^32 - 8 bytes overflows in [align_up] and is
    treated as a request for 0 bytes: with any free block, [kmalloc] returns
    a non-NULL pointer to a block with less than 28 bytes of payload. *)
Theorem kmalloc_size_overflow `{HeapLayout} (h : kheap) (bl : list blk) (size : Z) :
  heap_inv h bl -> 2 ^ 32 - 8 < size < 2 ^ 32 ->
  (exists b, b ∈ bl /\ used b = false) ->
  exists p h' bl' c, kmalloc h size = Ret (p, h') /\ p ≠ 0 /\ heap_inv h' bl' /\
    c ∈ bl' /\ used c = true /\ payload c = p /\ bsize c < 28 < size.
Proof.
  intros Hinv Hsz (b0 & Hb0 & Hu0).
  assert (is_u32 size) as H32 by (unfold is_u32; lia).
  assert (align_up size KHEAP_ALIGN = 0) as Hal.
  { rewrite align_up_8 by done.
    assert (u32 (size + 7) < 8) as Hlt by (unfold u32; zdm).
    pose proof (u32_range (size + 7)) as Hr. unfold is_u32 in Hr.
    rewrite Z.mod_small; lia. }
  destruct (find_fit (align_up size KHEAP_ALIGN) bl) as [b|] eqn:Hf.
  2: { destruct (heap_inv_in _ _ b0 Hinv Hb0) as (_ & _ & ? & _).
       rewrite Hal in Hf. destruct (proj1 (find_fit_None _ _) Hf b0 Hb0); [congruence | lia]. }
  destruct (kmalloc_some h bl size b Hinv H32 ltac:(lia) Hf)
    as (l1 & l2 & h' & -> & Hu & _ & Hfit & Hk & Hinv' & _).
  destruct (heap_inv_in _ _ b Hinv) as (? & _ & ? & _); [set_solver |].
  destruct (taken_head b (align_up size KHEAP_ALIGN)) as (c & rest & Ht & Hc & Hp & Hcs).
  rewrite Ht in Hinv'. rewrite Hal in Hcs. unfold HDR_SIZE, KHEAP_ALIGN in Hcs.
  exists (payload b), h', (l1 ++ (c :: rest) ++ l2), c.
  split_and!; [exact Hk | | exact Hinv' | | exact Hc | exact Hp | | lia].
  - unfold payload, HDR_SIZE. lia.
  - apply elem_of_app. right. apply elem_of_cons. by left.
  - lia.
Qed.

(** The pointers [kmalloc] returns are not 8-byte aligned in general: on a
    fresh heap every satisfiable request gets the address
    [heap_storage + 20], which is 4 modulo 8. *)
Theorem kmalloc_misaligned `{HeapLayout} (h : kheap) (size : Z) :
  0 < size <= KHEAP_SIZE - 64 ->
  exists h', kmalloc (kheap_init h) size = Ret (heap_storage + HDR_SIZE, h') /\
    (heap_storage + HDR_SIZE) mod 8 = 4.
Proof.
  intros Hsz. unfold KHEAP_SIZE, KHEAP_SIZE_KB in *.
  assert (is_u32 size) as H32 by (unfold is_u32; lia).
  assert (align_up size KHEAP_ALIGN <= size + 7) as Hal.
  { rewrite align_up_8 by done. rewrite u32_small by (unfold is_u32 in *; lia). zdm. }
  assert (find_fit (align_up size KHEAP_ALIGN) [init_block] = Some init_block) as Hf.
  { simpl. unfold KHEAP_SIZE, KHEAP_SIZE_KB, HDR_SIZE. rewrite (proj2 (Z.leb_le _ _)); [done | lia]. }
  destruct (kmalloc_some _ _ size init_block (kheap_init_inv h) H32 ltac:(lia) Hf)
    as (l1 & l2 & h' & _ & _ & _ & _ & Hk & _ & _).
  exists h'. split; [exact Hk |].
  pose proof heap_storage_aligned. unfold HDR_SIZE. zdm.
Qed.

(** C2 Whatever sequence of allocations, of any size, writes into held memory
    and frees the kernel performs after [kheap_init], the heap never panics on
    it: every further [kmalloc] of any 32-bit size returns NULL or a pointer
    nobody holds, whose usable bytes -- all that were asked for up to
    [2^32 - 8], none for the seven larger sizes, for which the rounding of
    the code wraps around -- overlap none that are held, and every [kfree]
    of a held pointer returns. *)
Theorem kheap_safe `{HeapLayout} (h : kheap) (held : gmap Z Z) :
  heap_reach (h, held) ->
  (forall size, is_u32 size ->
     exists p h', kmalloc h size = Ret (p, h') /\
       (p ≠ 0 -> held !! p = None /\
          forall q n, held !! q = Some n -> q + n <= p \/ p + usable size <= q)) /\
  (forall size, 0 <= size <= 2 ^ 32 - 8 -> usable size = size) /\
  (forall p n, held !! p = Some n -> exists h', kfree h p = Ret h').
Proof.
  intros (bl & Hinv & Hok)%heap_reach_inv. simpl in *. split_and!.
  - intros size Hsz.
    destruct (kmalloc_held h bl held size Hinv Hok Hsz) as (p & h' & bl' & Hk & _ & _ & Hb).
    exists p, h'. split; [done |]. intros Hp.
    destruct (Hb Hp) as (b & _ & _ & <- & Hs & Hnew & Hdis). split; [exact Hnew |]. intros q n Hq.
    pose proof (usable_fits size Hsz). destruct (Hok q n Hq) as (c & Hc & Hu & <- & Hn).
    unfold payload. destruct (Hdis c Hc Hu); unfold bend, HDR_SIZE in *; lia.
  - exact usable_small.
  - intros p n Hp. destruct (kfree_held h bl held p n Hinv Hok Hp) as (h' & _ & Hk & _). eauto.
Qed.

(** [kcalloc] of a product that fits returns NULL or a block of [n * size]
    zero bytes, keeps the invariant and leaves the bytes of the blocks in use
    alone. *)
Theorem kcalloc_spec `{HeapLayout} (h : kheap) (bl : list blk) (n size : Z) :
  heap_inv h bl -> 0 <= n -> 0 <= size -> 0 < n * size <= 2 ^ 32 - 8 ->
  exists p h', kcalloc h n size = Ret (p, h') /\
    ((p = 0 /\ h' = h) \/
     (exists bl' b, heap_inv h' bl' /\ b ∈ bl' /\ used b = true /\ payload b = p /\
        n * size <= bsize b /\
        (forall x, p <= x < p + n * size -> load8 (hmem h') x = 0) /\
        keeps_used bl 0 (hmem h) (hmem h'))).
Proof.
  intros Hinv Hn Hs Hns. unfold kcalloc. rewrite u32_small by lia.
  assert (is_u32 (n * size)) as H32 by (unfold is_u32; lia).
  destruct (find_fit (align_up (n * size) KHEAP_ALIGN) bl) as [b|] eqn:Hf.
  2: { rewrite (kmalloc_none h bl (n * size) Hinv ltac:(lia) Hf). exists 0, h. auto. }
  destruct (kmalloc_some h bl (n * size) b Hinv H32 ltac:(lia) Hf)
    as (l1 & l2 & h' & Hbl & Hu & _ & Hfit & Hk & Hinv' & Hkeep).
  pose proof (align_up_ge (n * size) ltac:(lia)) as Hge.
  assert (b ∈ bl) as Hb by (subst bl; apply elem_of_app; right; left).
  destruct (heap_inv_in _ _ b Hinv Hb) as (? & _). rewrite Hk. simpl.
  rewrite truth_nz by (unfold payload, HDR_SIZE; lia). simpl.
  eexists _, _. split; [reflexivity |]. right.
  destruct (taken_head b (align_up (n * size) KHEAP_ALIGN)) as (c & rest & Ht & Huc & Hp & _).
  assert (align_up (n * size) KHEAP_ALIGN <= bsize c <= bsize b) as Hcs.
  { revert Ht. unfold taken_blocks. case_ltb; intros [= <- _]; simpl; lia. }
  rewrite Ht in Hinv'. exists (l1 ++ (c :: rest) ++ l2), c.
  assert (c ∈ l1 ++ (c :: rest) ++ l2) by (rewrite !elem_of_app, elem_of_cons; auto).
  rewrite <- Hp in *. split_and!; [| done | done | done | lia | |].
  - apply heap_inv_fill; [done | done | lia].
  - intros x Hx. cbn [hmem]. rewrite load8_mem_fill by lia. by rewrite decide_True.
  - intros d Hd Hud Hne x Hx. cbn [hmem]. rewrite load8_mem_fill by lia.
    rewrite decide_False; [by apply (Hkeep d) |].
    destruct Hinv as [_ [_ Hc] _].
    destruct (contig_disjoint _ _ _ d b Hc Hd Hb); [congruence | |];
      unfold payload, bend, HDR_SIZE in *; lia.
Qed.

(** ** Witnesses *)

#[local] Instance wit_layout : HeapLayout.
Proof.
  refine {| heap_storage := 0x40000 |}; [reflexivity |].
  unfold KHEAP_SIZE, KHEAP_SIZE_KB. lia.
Defined.

Definition wit_h0 : kheap := kheap_init (Kheap ∅ 0).
Definition wit_h1 : kheap :=
  match kmalloc wit_h0 13 with Ret (_, h) => h | _ => wit_h0 end.
Definition wit_b : blk := Blk 0x40000 16 true.
Definition wit_rest : blk := Blk (0x40000 + 36) (KHEAP_SIZE - 56) false.

Lemma wit_h0_inv : heap_inv wit_h0 [init_block].
Proof. apply kheap_init_inv. Qed.

Lemma wit_h1_inv : heap_inv wit_h1 [wit_b; wit_rest].
Proof.
  destruct (kmalloc_some wit_h0 [init_block] 13 init_block wit_h0_inv)
    as (l1 & l2 & h' & Hbl & _ & _ & _ & Hk & Hinv & _);
    [unfold is_u32; lia | lia | reflexivity |].
  destruct l1 as [|? l1]; [| apply (f_equal length) in Hbl; simpl in Hbl;
    rewrite length_app in Hbl; simpl in Hbl; lia].
  injection Hbl as <-. unfold wit_h1. rewrite Hk. exact Hinv.
Qed.

Lemma wit_h1_alloc : kmalloc wit_h0 13 = Ret (0x40000 + 20, wit_h1).
Proof. vm_compute. reflexivity. Qed.

Lemma kmalloc_spec_witness :
  exists l1 l2 h', [init_block] = l1 ++ init_block :: l2 /\
    kmalloc wit_h0 13 = Ret (0x40014, h').
Proof.
  destruct (kmalloc_spec wit_h0 [init_block] 13 wit_h0_inv
              ltac:(unfold is_u32; lia) ltac:(lia)) as (l1 & l2 & h' & Hbl & Hk & _).
  exists l1, l2, h'. split; [exact Hbl | exact Hk].
Defined.

Lemma kfree_spec_witness : exists h', kfree wit_h1 0x40014 = Ret h'.
Proof.
  destruct (kfree_spec wit_h1 [] [wit_rest] wit_b wit_h1_inv eq_refl) as (h' & Hk & _).
  exists h'. exact Hk.
Defined.

Lemma kmalloc_kfree_roundtrip_witness :
  exists h'', kfree wit_h1 0x40014 = Ret h'' /\ heap_inv h'' [init_block].
Proof.
  apply (kmalloc_kfree_roundtrip wit_h0 wit_h1 [init_block] 13 0x40014 wit_h0_inv).
  - unfold is_u32. lia.
  - exact wit_h1_alloc.
  - lia.
Defined.

Lemma kfree_double_free_witness :
  exists h' msg, kfree wit_h1 0x40014 = Ret h' /\ kfree h' 0x40014 = Halt (HeapPanic msg).
Proof. exact (proj2 (kfree_double_free wit_h1 [] [wit_rest] wit_b wit_h1_inv eq_refl)). Defined.

Lemma kheap_stats_spec_witness :
  exists s, kheap_get_stats wit_h1 = Ret s /\ used_bytes s = 16 /\
    free_bytes s = KHEAP_SIZE - 56.
Proof.
  destruct (kheap_stats_spec wit_h1 [wit_b; wit_rest] wit_h1_inv) as (s & Hs & Hu & Hf & _).
  exists s. split; [exact Hs |]. split; [exact Hu | exact Hf].
Defined.

Lemma kmalloc_size_overflow_witness :
  exists p h', kmalloc wit_h0 0xFFFFFFF9 = Ret (p, h') /\ p ≠ 0.
Proof.
  destruct (kmalloc_size_overflow wit_h0 [init_block] 0xFFFFFFF9 wit_h0_inv)
    as (p & h' & bl' & c & Hk & Hp & _); [lia | |].
  - exists init_block. split; [left | reflexivity].
  - exists p, h'. split; [exact Hk | exact Hp].
Defined.

Lemma kmalloc_misaligned_witness :
  exists h', kmalloc wit_h0 64 = Ret (0x40014, h').
Proof.
  destruct (kmalloc_misaligned (Kheap ∅ 0) 64) as (h' & Hk & _);
    [unfold KHEAP_SIZE, KHEAP_SIZE_KB; lia |].
  exists h'. exact Hk.
Defined.

Lemma kheap_safe_witness :
  (exists p h', kmalloc wit_h1 100 = Ret (p, h') /\
     (p ≠ 0 -> 0x40014 + 13 <= p \/ p + 100 <= 0x40014)) /\
  exists h', kfree wit_h1 0x40014 = Ret h'.
Proof.
  destruct (kheap_safe wit_h1 (<[0x40014 := 13]> ∅)) as (Ha & _ & Hf).
  - eapply hr_step; [apply (hr_init (Kheap ∅ 0)) |].
    apply (hs_alloc wit_h0 wit_h1 ∅ 13 0x40014); [unfold is_u32; lia | exact wit_h1_alloc | lia].
  - split; [| apply (Hf _ 13), lookup_insert_eq].
    destruct (Ha 100 ltac:(unfold is_u32; lia)) as (p & h' & Hk & Hp). exists p, h'. split; [exact Hk |].
    intros Hnz. destruct (Hp Hnz) as [_ Hd]. apply (Hd _ 13), lookup_insert_eq.
Defined.

Lemma kcalloc_spec_witness :
  exists p h', kcalloc wit_h1 4 8 = Ret (p, h').
Proof.
  destruct (kcalloc_spec wit_h1 [wit_b; wit_rest] 4 8 wit_h1_inv) as (p & h' & Hk & _);
    [lia | lia | lia |].
  exists p, h'. exact Hk.
Defined.
