(* ===== verification/Paging.v ===== *)
(** * Paging (src/mem/paging.c)

    The page directory, the page tables and the TLB.  The kernel edits its
    own tables through the same MMU that walks them: every load and store of
    [paging.c] is translated (TLB first, then a two-level walk), fills the
    TLB, and stops the machine with a page fault when the page is not
    present.  The frames for new page tables come from a [FrameAllocator].

    The abstract view of an address space is the function [hw_walk] from
    addresses to page-table entries.  [vm_ok] is the representation
    invariant: the tables are disjoint low frames that are not free, the
    first 4 MB are mapped one to one, and the TLB agrees with the tables.

    Accessed and dirty bits, which the processor may set in an entry, are
    not modelled; no code reads them. *)

From S2P Require Import Prelude Memory Interfaces Pmm.

(** ** Definitions *)

Definition PAGE_PRESENT : Z := 0x001.
Definition PAGE_RW : Z := 0x002.
Definition PAGE_USER : Z := 0x004.

Definition PAGE_DIR_INDEX (v : Z) : Z := Z.land (Z.shiftr v 22) 0x3FF.
Definition PAGE_TBL_INDEX (v : Z) : Z := Z.land (Z.shiftr v 12) 0x3FF.
Definition PAGE_OFFSET (v : Z) : Z := Z.land v 0xFFF.

(** The first 4 MB, which [first_page_table] maps one to one. *)
Definition LOW_MEM : Z := 0x400000.

(** Where the linker puts the two bootstrap tables. *)
Class PagingLayout : Type := {
  page_directory : Z;
  first_page_table : Z;
  page_directory_aligned : page_directory mod 4096 = 0;
  first_page_table_aligned : first_page_table mod 4096 = 0;
  page_directory_low : 0 < page_directory < LOW_MEM;
  first_page_table_low : 0 < first_page_table < LOW_MEM;
  tables_differ : page_directory ≠ first_page_table
}.

(** The machine as paging sees it. *)
Record vm (F : Type) : Type := Vm {
  pmem : mem;              (* physical memory *)
  vframes : F;             (* the frame allocator *)
  tlb : gmap Z Z;          (* page number -> cached page-table entry *)
  cr3 : Z;
  pg : bool;               (* CR0.PG *)
  isr14 : bool             (* page_fault_handler is registered *)
}.
Arguments Vm {F}.
Arguments pmem {F}. Arguments vframes {F}. Arguments tlb {F}.
Arguments cr3 {F}. Arguments pg {F}. Arguments isr14 {F}.

Definition with_mem {F} (s : vm F) (m : mem) : vm F :=
  Vm m (vframes s) (tlb s) (cr3 s) (pg s) (isr14 s).
Definition with_frames {F} (s : vm F) (f : F) : vm F :=
  Vm (pmem s) f (tlb s) (cr3 s) (pg s) (isr14 s).
Definition with_tlb {F} (s : vm F) (t : gmap Z Z) : vm F :=
  Vm (pmem s) (vframes s) t (cr3 s) (pg s) (isr14 s).

Definition present (e : Z) : bool := truth (Z.land e PAGE_PRESENT).
Definition entry_frame (e : Z) : Z := Z.land e 0xFFFFF000.

(** The processor's walk: the present entry of the page of [va], if any. *)
Definition hw_walk (m : mem) (cr3 va : Z) : option Z :=
  let pde := load32 m (entry_frame cr3 + 4 * PAGE_DIR_INDEX va) in
  if present pde then
    let pte := load32 m (entry_frame pde + 4 * PAGE_TBL_INDEX va) in
    if present pte then Some pte else None
  else None.

Definition mmu_entry {F} (s : vm F) (va : Z) : option Z :=
  match tlb s !! (va / 4096) with
  | Some pte => Some pte
  | None => hw_walk (pmem s) (cr3 s) va
  end.

(** The physical address of a kernel-mode access (CR0.WP is clear, so the
    present bits alone decide) and the TLB entry it leaves behind. *)
Definition access {F} (s : vm F) (va : Z) : outcome (Z * vm F) :=
  if pg s then
    match mmu_entry s va with
    | Some pte => Ret (entry_frame pte + PAGE_OFFSET va,
                       with_tlb s (<[va / 4096 := pte]> (tlb s)))
    | None => Halt (if isr14 s then PageFault va else Exception 14)
    end
  else Ret (va, s).

Definition rd32 {F} (s : vm F) (va : Z) : outcome (Z * vm F) :=
  do! (pa, s) := access s va in Ret (load32 (pmem s) pa, s).
Definition wr32 {F} (s : vm F) (va v : Z) : outcome (vm F) :=
  do! (pa, s) := access s va in Ret (with_mem s (store32 (pmem s) pa v)).

Definition load_cr3 {F} (s : vm F) (pd_phys : Z) : vm F :=
  Vm (pmem s) (vframes s) ∅ pd_phys (pg s) (isr14 s).
Definition enable_paging {F} (s : vm F) : vm F :=
  Vm (pmem s) (vframes s) (tlb s) (cr3 s) true (isr14 s).
Definition invlpg {F} (s : vm F) (virt : Z) : vm F :=
  with_tlb s (delete (virt / 4096) (tlb s)).

(** [for (i = 0; i < 1024; i++) table[i] = f(i)]. *)
Definition fill_table {F} (s : vm F) (table : Z) (f : Z -> Z) : outcome (vm F) :=
  for_range 0 1024 (fun os i => do! s := os in wr32 s (table + 4 * i) (f i)) (Ret s).
Arguments fill_table : simpl never.

Section Operations.
  Context {F : Type} `{FrameAllocator F} `{PagingLayout}.

Definition get_pt (s : vm F) (virt : Z) (create : bool) : outcome (Z * vm F) :=
  let pdi := PAGE_DIR_INDEX virt in
  do! (pde, s) := rd32 s (page_directory + 4 * pdi) in
  if truth (Z.land pde PAGE_PRESENT) then Ret (Z.land pde 0xFFFFF000, s)
  else if negb create then Ret (0, s)
  else
    let '(pt, f) := frame_alloc (vframes s) in
    let s := with_frames s f in
    if negb (truth pt) then Ret (0, s)
    else
      do! s := fill_table s pt (fun _ => 0) in
      do! s := wr32 s (page_directory + 4 * pdi)
                 (Z.lor (Z.lor (Z.lor pt PAGE_PRESENT) PAGE_RW) PAGE_USER) in
      Ret (pt, s).

(** The result is C's [int]: 0 or -1. *)
Definition vmm_map (s : vm F) (virt phys flags : Z) : outcome (Z * vm F) :=
  if truth (Z.land (Z.lor virt phys) 0xFFF) then Ret (-1, s)
  else
    do! (pt, s) := get_pt s virt true in
    if negb (truth pt) then Ret (-1, s)
    else
      do! s := wr32 s (pt + 4 * PAGE_TBL_INDEX virt)
                 (Z.lor (Z.lor (Z.land phys 0xFFFFF000) (Z.land flags 0xFFF)) PAGE_PRESENT) in
      let s := invlpg s virt in
      Ret (0, s).

Definition vmm_unmap (s : vm F) (virt : Z) : outcome (vm F) :=
  do! (pt, s) := get_pt s virt false in
  if negb (truth pt) then Ret s
  else
    do! s := wr32 s (pt + 4 * PAGE_TBL_INDEX virt) 0 in
    Ret (invlpg s virt).

Definition vmm_get_phys (s : vm F) (virt : Z) : outcome (Z * vm F) :=
  do! (pt, s) := get_pt s virt false in
  if negb (truth pt) then Ret (0xFFFFFFFF, s)
  else
    do! (pte, s) := rd32 s (pt + 4 * PAGE_TBL_INDEX virt) in
    if negb (truth (Z.land pte PAGE_PRESENT)) then Ret (0xFFFFFFFF, s)
    else Ret (Z.lor (Z.land pte 0xFFFFF000) (PAGE_OFFSET virt), s).

Definition paging_init (s : vm F) : outcome (vm F) :=
  do! s := fill_table s page_directory (fun _ => 0) in
  do! s := fill_table s first_page_table
             (fun i => Z.lor (Z.lor (Z.lor (u32 (i * 0x1000)) PAGE_RW) PAGE_USER) PAGE_PRESENT) in
  do! s := wr32 s page_directory
             (Z.lor (Z.lor (Z.lor first_page_table PAGE_RW) PAGE_USER) PAGE_PRESENT) in
  let s := Vm (pmem s) (vframes s) (tlb s) (cr3 s) (pg s) true in
  let s := load_cr3 s page_directory in
  Ret (enable_paging s).

End Operations.

(** What [page_fault_handler] prints as the reason, from the error code. *)
Definition page_fault_reason (err : Z) : string :=
  String.concat "" [
    if truth (Z.land err 0x1) then "protection-violation" else "non-present-page";
    if truth (Z.land err 0x2) then " | write" else " | read";
    if truth (Z.land err 0x4) then " | user-mode" else " | kernel-mode";
    if truth (Z.land err 0x8) then " | reserved-bit-set" else "";
    if truth (Z.land err 0x10) then " | instruction-fetch" else ""].

(** ** Index arithmetic *)

Lemma dir_index_div v : is_u32 v -> PAGE_DIR_INDEX v = v / 4096 / 1024.
Proof.
  intros Hv. unfold PAGE_DIR_INDEX, is_u32 in *. rewrite shiftr_div by lia.
  change 0x3FF with (2 ^ 10 - 1). rewrite land_mask by lia. zdm.
Qed.

Lemma tbl_index_mod v : PAGE_TBL_INDEX v = (v / 4096) mod 1024.
Proof.
  unfold PAGE_TBL_INDEX. rewrite shiftr_div by lia.
  change 0x3FF with (2 ^ 10 - 1). by rewrite land_mask by lia.
Qed.

Lemma offset_mod v : PAGE_OFFSET v = v mod 4096.
Proof. apply land_fff. Qed.

Lemma dir_index_range v : 0 <= PAGE_DIR_INDEX v < 1024.
Proof.
  unfold PAGE_DIR_INDEX. change 0x3FF with (2 ^ 10 - 1). rewrite land_mask by lia. zdm.
Qed.

Lemma tbl_index_range v : 0 <= PAGE_TBL_INDEX v < 1024.
Proof. rewrite tbl_index_mod. zdm. Qed.

Lemma entry_frame_aligned a : is_u32 a -> a mod 4096 = 0 -> entry_frame a = a.
Proof. intros. unfold entry_frame. rewrite land_page_mask by done. lia. Qed.

(** An entry composed of an aligned frame and 12 bits of flags. *)
Lemma lor_flags f k : f mod 4096 = 0 -> 0 <= k < 4096 -> Z.lor f k = f + k.
Proof. intros. apply (lor_disjoint f k 12); [lia | assumption ..]. Qed.

Lemma entry_frame_add f k :
  0 <= f -> f + 4096 <= 2 ^ 32 -> f mod 4096 = 0 -> 0 <= k < 4096 -> entry_frame (f + k) = f.
Proof.
  intros. unfold entry_frame. rewrite land_page_mask by (unfold is_u32; lia). zdm.
Qed.

Lemma entry_frame_range e :
  is_u32 e -> 0 <= entry_frame e /\ entry_frame e + 4096 <= 2 ^ 32 /\ entry_frame e mod 4096 = 0.
Proof.
  intros He. unfold entry_frame. rewrite land_page_mask by done. unfold is_u32 in He. zdm.
Qed.

Lemma present_odd e : present e = Z.odd e.
Proof.
  unfold present, truth, PAGE_PRESENT. change 1 with (2 ^ 1 - 1). rewrite land_mask by lia.
  rewrite Zmod_odd. by destruct (Z.odd e).
Qed.

Lemma hw_walk_page m c va va' :
  is_u32 va -> is_u32 va' -> va / 4096 = va' / 4096 -> hw_walk m c va = hw_walk m c va'.
Proof.
  intros H1 H2 E. unfold hw_walk. rewrite !dir_index_div, !tbl_index_mod by done. by rewrite E.
Qed.

(** ** The representation invariant *)

Section Invariant.
  Context {F : Type} `{FrameAllocatorLaws F} `{PagingLayout}.

Definition pde (m : mem) (i : Z) : Z := load32 m (page_directory + 4 * i).
Definition pte (m : mem) (e j : Z) : Z := load32 m (entry_frame e + 4 * j).

Record tables_ok (m : mem) (fr : gset Z) : Prop := TablesOk {
  to_dir : page_directory / 4096 ∉ fr;
  to_pt i : 0 <= i < 1024 -> present (pde m i) = true ->
    pde m i mod 4096 = 7 /\ 0 < entry_frame (pde m i) < LOW_MEM /\
    entry_frame (pde m i) ≠ page_directory /\ entry_frame (pde m i) / 4096 ∉ fr;
  to_inj i j : 0 <= i < 1024 -> 0 <= j < 1024 ->
    present (pde m i) = true -> present (pde m j) = true ->
    entry_frame (pde m i) = entry_frame (pde m j) -> i = j;
  to_ident va : 0 <= va < LOW_MEM ->
    exists t, hw_walk m page_directory va = Some t /\ entry_frame t = va - va mod 4096
}.

Record vm_ok (s : vm F) : Prop := VmOk {
  vo_pg : pg s = true;
  vo_cr3 : cr3 s = page_directory;
  vo_isr : isr14 s = true;
  vo_frames : frames_ok (vframes s);
  vo_tables : tables_ok (pmem s) (frames (vframes s));
  vo_tlb p t : tlb s !! p = Some t ->
    0 <= p < 2 ^ 20 /\ hw_walk (pmem s) page_directory (p * 4096) = Some t
}.

(** The address space of a state. *)
Definition walk (s : vm F) (va : Z) : option Z := hw_walk (pmem s) page_directory va.

Lemma layout_u32 : is_u32 page_directory /\ is_u32 first_page_table.
Proof.
  pose proof page_directory_low. pose proof first_page_table_low.
  unfold LOW_MEM, is_u32 in *. lia.
Qed.

Lemma dir_frame : entry_frame page_directory = page_directory.
Proof. apply entry_frame_aligned; [apply layout_u32 | apply page_directory_aligned]. Qed.

Lemma hw_walk_unfold m va :
  hw_walk m page_directory va =
  let e := pde m (PAGE_DIR_INDEX va) in
  if present e then
    let t := pte m e (PAGE_TBL_INDEX va) in if present t then Some t else None
  else None.
Proof. unfold hw_walk, pde, pte. by rewrite dir_frame. Qed.

(** ** Kernel accesses below 4 MB *)

Lemma mmu_low s va :
  vm_ok s -> 0 <= va < LOW_MEM ->
  exists t, mmu_entry s va = Some t /\ walk s va = Some t /\ entry_frame t = va - va mod 4096.
Proof.
  intros Hok Hva. pose proof (vo_tables _ Hok) as Ht.
  destruct (to_ident _ _ Ht va Hva) as (t & Hw & Hf). exists t. split_and!; [| done | done].
  unfold mmu_entry. destruct (tlb s !! (va / 4096)) as [t'|] eqn:E.
  - destruct (vo_tlb _ Hok _ _ E) as [Hp Hw']. unfold LOW_MEM in *.
    rewrite <- Hw, <- Hw'. apply hw_walk_page; unfold is_u32; zdm.
  - by rewrite (vo_cr3 _ Hok).
Qed.

(** Filling the TLB from the tables keeps the invariant. *)
Lemma vm_ok_fill s va t :
  vm_ok s -> is_u32 va -> walk s va = Some t ->
  vm_ok (with_tlb s (<[va / 4096 := t]> (tlb s))).
Proof.
  intros [] Hva Hw. split; try done. simpl. intros p t'.
  rewrite lookup_insert. destruct (decide (va / 4096 = p)) as [<- | _]; [| auto].
  intros [= <-]. unfold is_u32 in Hva. split; [zdm |].
  rewrite <- Hw. apply hw_walk_page; unfold is_u32; zdm.
Qed.

Lemma access_low s va :
  vm_ok s -> 0 <= va < LOW_MEM ->
  exists tl, access s va = Ret (va, with_tlb s tl) /\ vm_ok (with_tlb s tl).
Proof.
  intros Hok Hva. destruct (mmu_low s va Hok Hva) as (t & Hm & Hw & Hf).
  unfold access. rewrite (vo_pg _ Hok), Hm, Hf, offset_mod.
  eexists. split; [f_equal; f_equal; lia |].
  apply vm_ok_fill; [done | unfold is_u32, LOW_MEM in *; lia | done].
Qed.

Lemma rd_low s va :
  vm_ok s -> 0 <= va < LOW_MEM ->
  exists tl, rd32 s va = Ret (load32 (pmem s) va, with_tlb s tl) /\ vm_ok (with_tlb s tl).
Proof.
  intros Hok Hva. destruct (access_low s va Hok Hva) as (tl & Ha & Hok').
  exists tl. split; [| done]. unfold rd32. by rewrite Ha.
Qed.

Lemma wr_low s va v :
  vm_ok s -> 0 <= va < LOW_MEM ->
  exists tl, wr32 s va v = Ret (with_mem (with_tlb s tl) (store32 (pmem s) va v)) /\
    vm_ok (with_tlb s tl).
Proof.
  intros Hok Hva. destruct (access_low s va Hok Hva) as (tl & Ha & Hok').
  exists tl. split; [| done]. unfold wr32. by rewrite Ha.
Qed.

(** ** Stores seen from the tables *)

(** Two memories with the same page directory and the same tables. *)
Definition same_tables (m m' : mem) : Prop :=
  (forall i, 0 <= i < 1024 -> pde m' i = pde m i) /\
  (forall i j, 0 <= i < 1024 -> 0 <= j < 1024 -> present (pde m i) = true ->
     pte m' (pde m i) j = pte m (pde m i) j).

Lemma same_tables_walk m m' va :
  same_tables m m' -> hw_walk m' page_directory va = hw_walk m page_directory va.
Proof.
  intros [Hd Ht]. rewrite !hw_walk_unfold. cbv zeta.
  pose proof (dir_index_range va). pose proof (tbl_index_range va).
  rewrite Hd by done. destruct (present (pde m _)) eqn:E; [| done]. by rewrite Ht.
Qed.

Lemma same_tables_ok m m' fr : same_tables m m' -> tables_ok m fr -> tables_ok m' fr.
Proof.
  intros Hs Ht. pose proof Hs as [Hd _]. split.
  - apply (to_dir _ _ Ht).
  - intros i Hi. rewrite Hd by done. by apply (to_pt _ _ Ht).
  - intros i j Hi Hj. rewrite !Hd by done. by apply (to_inj _ _ Ht).
  - intros va Hva. rewrite (same_tables_walk _ _ _ Hs). by apply (to_ident _ _ Ht).
Qed.

Lemma same_tables_refl m : same_tables m m.
Proof. split; done. Qed.

Lemma same_tables_trans m1 m2 m3 : same_tables m1 m2 -> same_tables m2 m3 -> same_tables m1 m3.
Proof.
  intros [D1 T1] [D2 T2]. split; [intros; rewrite D2, D1; auto |].
  intros i j Hi Hj Hp. rewrite <- T1 by done. rewrite <- D1 in Hp |- * by done. by apply T2.
Qed.

(** The frame of a page that is neither the directory nor a table. *)
Definition not_table (m : mem) (q : Z) : Prop :=
  q ≠ page_directory / 4096 /\
  forall i, 0 <= i < 1024 -> present (pde m i) = true -> entry_frame (pde m i) / 4096 ≠ q.

(** A change inside such a page changes no table. *)
Lemma same_tables_page m m' q : not_table m q -> (forall x, x / 4096 ≠ q -> load8 m' x = load8 m x) -> same_tables m m'.
Proof.
  intros [Hd Ht] Hm. pose proof page_directory_aligned. split; unfold pde, pte.
  - intros i Hi. apply load32_frame. intros x Hx. apply Hm. zdm.
  - intros i j Hi Hj Hp. specialize (Ht i Hi Hp). apply load32_frame. intros x Hx. apply Hm.
    pose proof (entry_frame_range (load32 m (page_directory + 4 * i)) (load32_range _ _)).
    unfold pde in Ht. zdm.
Qed.

Lemma store_other_page m q k v :
  not_table m q -> 0 <= k < 1024 -> same_tables m (store32 m (q * 4096 + 4 * k) v).
Proof. intros Hq Hk. apply (same_tables_page _ _ q Hq). intros x Hx. apply load8_store32_out. zdm. Qed.

Lemma not_table_same m m' q : same_tables m m' -> not_table m q -> not_table m' q.
Proof.
  intros [D _] [Hd Ht]. split; [done |]. intros i Hi. rewrite D by done. by apply Ht.
Qed.

Lemma free_not_table m fr q : tables_ok m fr -> q ∈ fr -> not_table m q.
Proof.
  intros Ht Hq. split.
  - intros ->. by apply (to_dir _ _ Ht) in Hq.
  - intros i Hi Hp E. destruct (to_pt _ _ Ht i Hi Hp) as (_ & _ & _ & Hn). by rewrite E in Hn.
Qed.

Lemma vm_ok_same_mem s m' : vm_ok s -> same_tables (pmem s) m' -> vm_ok (with_mem s m').
Proof.
  intros [] Hs. split; try done.
  - by eapply same_tables_ok.
  - intros p t Hp. simpl. rewrite (same_tables_walk _ _ _ Hs). auto.
Qed.

(** Filling a page that is not a table: the tables stay, the page holds [f]. *)
Lemma fill_other_page s q f :
  vm_ok s -> 0 < q < 1024 -> not_table (pmem s) q ->
  exists s', fill_table s (q * 4096) f = Ret s' /\ vm_ok s' /\
    vframes s' = vframes s /\ isr14 s' = isr14 s /\ same_tables (pmem s) (pmem s') /\
    forall j, 0 <= j < 1024 -> load32 (pmem s') (q * 4096 + 4 * j) = u32 (f j).
Proof.
  intros Hok Hq Hnt. unfold fill_table.
  assert (exists s', for_range 0 1024
      (fun os i => do! s := os in wr32 s (q * 4096 + 4 * i) (f i)) (Ret s) = Ret s' /\
    vm_ok s' /\ vframes s' = vframes s /\ isr14 s' = isr14 s /\
    same_tables (pmem s) (pmem s') /\
    forall j, 0 <= j < 1024 -> load32 (pmem s') (q * 4096 + 4 * j) = u32 (f j)) as Hx;
    [| exact Hx].
  refine (for_range_ind (fun i os => exists s', os = Ret s' /\
    vm_ok s' /\ vframes s' = vframes s /\ isr14 s' = isr14 s /\
    same_tables (pmem s) (pmem s') /\
    forall j, 0 <= j < i -> load32 (pmem s') (q * 4096 + 4 * j) = u32 (f j)) 0 1024 _ _ _ _ _);
    [lia | |].
  - exists s. split_and!; auto using same_tables_refl. lia.
  - intros i os Hi (s1 & -> & Hok1 & Hf1 & Hi1 & Hs1 & Hl1). simpl.
    destruct (wr_low s1 (q * 4096 + 4 * i) (f i) Hok1) as (tl & -> & Hok2);
      [unfold LOW_MEM; lia |].
    pose proof (store_other_page (pmem s1) q i (f i) (not_table_same _ _ _ Hs1 Hnt) Hi) as Hst.
    eexists. split; [reflexivity |]. simpl. split_and!; auto.
    + by apply (vm_ok_same_mem (with_tlb s1 tl)).
    + by eapply same_tables_trans.
    + intros j Hj. destruct (decide (j = i)) as [-> | Hne].
      * apply load32_store32_same.
      * rewrite load32_store32_out by lia. apply Hl1. lia.
Qed.

(** Hooking an empty table into a free directory slot changes no
    translation. *)
Lemma add_table m fr q i :
  tables_ok m fr -> 0 < q < 1024 -> q ∉ fr -> not_table m q -> 0 <= i < 1024 ->
  present (pde m i) = false ->
  (forall j, 0 <= j < 1024 -> load32 m (q * 4096 + 4 * j) = 0) ->
  let m' := store32 m (page_directory + 4 * i) (q * 4096 + 7) in
  tables_ok m' fr /\
  (forall va, hw_walk m' page_directory va = hw_walk m page_directory va) /\
  pde m' i = q * 4096 + 7.
Proof.
  intros Ht Hq Hqf [Hnd Hnt] Hi Hp Hz m'.
  pose proof page_directory_aligned as Hal. pose proof page_directory_low as Hlow.
  assert (forall k, 0 <= k < 1024 ->
    pde m' k = if decide (k = i) then q * 4096 + 7 else pde m k) as Hd.
  { intros k Hk. unfold m', pde. destruct (decide (k = i)) as [-> | Hne].
    - rewrite load32_store32_same. apply u32_small. lia.
    - apply load32_store32_out. lia. }
  assert (entry_frame (q * 4096 + 7) = q * 4096) as Hqe.
  { apply entry_frame_add; zdm. }
  assert (forall k j, 0 <= k < 1024 -> 0 <= j < 1024 -> present (pde m k) = true ->
    pte m' (pde m k) j = pte m (pde m k) j) as Hpt.
  { intros k j Hk Hj Hpk. unfold m', pte. destruct (to_pt _ _ Ht k Hk Hpk) as (_ & _ & Hne & _).
    pose proof (entry_frame_range (pde m k) (load32_range _ _)).
    apply load32_store32_out. zdm. }
  assert (forall va, hw_walk m' page_directory va = hw_walk m page_directory va) as Hw.
  { intros va. rewrite !hw_walk_unfold. cbv zeta.
    pose proof (dir_index_range va). pose proof (tbl_index_range va). rewrite Hd by done.
    destruct (decide (PAGE_DIR_INDEX va = i)) as [-> | Hne].
    - rewrite Hp. unfold pte. rewrite Hqe.
      replace (load32 m' _) with 0; [by destruct (present (q * 4096 + 7)) |].
      unfold m'. rewrite load32_store32_out by zdm. by rewrite Hz.
    - destruct (present (pde m (PAGE_DIR_INDEX va))) eqn:E; [| done]. by rewrite Hpt. }
  split_and!; [| done | by rewrite Hd, decide_True]. split.
  - apply (to_dir _ _ Ht).
  - intros k Hk. rewrite Hd by done. destruct (decide (k = i)) as [-> | Hne];
      [| by apply (to_pt _ _ Ht)].
    intros _. rewrite Hqe. unfold LOW_MEM. split_and!; [zdm | lia | lia | zdm |].
    by rewrite Z.div_mul.
  - intros k l Hk Hl. rewrite !Hd by done.
    destruct (decide (k = i)) as [-> | Hki], (decide (l = i)) as [-> | Hli]; try done.
    + intros _ Hpl E. rewrite Hqe in E. destruct (Hnt l Hl Hpl). by rewrite <- E, Z.div_mul.
    + intros Hpk _ E. rewrite Hqe in E. destruct (Hnt k Hk Hpk). by rewrite E, Z.div_mul.
    + by apply (to_inj _ _ Ht).
  - intros va Hva. rewrite Hw. by apply (to_ident _ _ Ht).
Qed.

(** Storing an entry in a table changes the translation of one page. *)
Definition entry_of (v : Z) : option Z := if present v then Some v else None.

Lemma store_entry m fr virt v :
  tables_ok m fr -> is_u32 virt -> is_u32 v ->
  present (pde m (PAGE_DIR_INDEX virt)) = true ->
  (virt < LOW_MEM -> present v = true /\ entry_frame v = virt - virt mod 4096) ->
  let m' := store32 m (entry_frame (pde m (PAGE_DIR_INDEX virt)) + 4 * PAGE_TBL_INDEX virt) v in
  tables_ok m' fr /\
  (forall va, is_u32 va -> hw_walk m' page_directory va =
     if decide (va / 4096 = virt / 4096) then entry_of v else hw_walk m page_directory va).
Proof.
  intros Ht Hvirt Hv Hp Hid m'. pose proof page_directory_aligned as Hal.
  pose proof (dir_index_range virt) as Hi. pose proof (tbl_index_range virt) as Hj.
  set (i := PAGE_DIR_INDEX virt) in *.
  destruct (to_pt _ _ Ht i Hi Hp) as (_ & _ & Hnd & _).
  pose proof (entry_frame_range (pde m i) (load32_range _ _)) as (? & ? & ?).
  assert (forall k, 0 <= k < 1024 -> pde m' k = pde m k) as Hd.
  { intros k Hk. unfold m'. unfold pde at 1. rewrite load32_store32_out by zdm. done. }
  assert (forall k j, 0 <= k < 1024 -> 0 <= j < 1024 -> present (pde m k) = true ->
    pte m' (pde m k) j = if decide (k = i /\ j = PAGE_TBL_INDEX virt) then v
                         else pte m (pde m k) j) as Hpt.
  { intros k j Hk Hjj Hpk. unfold m'. unfold pte at 1.
    destruct (decide (k = i /\ j = PAGE_TBL_INDEX virt)) as [[-> ->] | Hne].
    - rewrite load32_store32_same. by apply u32_small.
    - destruct (decide (k = i)) as [-> | Hki].
      + rewrite load32_store32_out; [done |]. lia.
      + assert (entry_frame (pde m k) ≠ entry_frame (pde m i)).
        { intros E. by apply Hki, (to_inj _ _ Ht). }
        pose proof (entry_frame_range (pde m k) (load32_range _ _)).
        rewrite load32_store32_out; [done |]. zdm. }
  assert (forall va, is_u32 va -> hw_walk m' page_directory va =
    if decide (va / 4096 = virt / 4096) then entry_of v else hw_walk m page_directory va) as Hw.
  { intros va Hva. rewrite !hw_walk_unfold. cbv zeta.
    pose proof (dir_index_range va). pose proof (tbl_index_range va). rewrite Hd by done.
    destruct (decide (va / 4096 = virt / 4096)) as [E | E].
    - assert (PAGE_DIR_INDEX va = i /\ PAGE_TBL_INDEX va = PAGE_TBL_INDEX virt) as [-> ->].
      { unfold i. rewrite !dir_index_div, !tbl_index_mod by done. by rewrite E. }
      rewrite Hp, Hpt, decide_True by done. done.
    - destruct (present (pde m (PAGE_DIR_INDEX va))) eqn:Ep; [| done].
      rewrite Hpt, decide_False; [done | | done ..]. intros [Ei Ej]. apply E.
      unfold i in Ei. rewrite !dir_index_div in Ei by done. rewrite !tbl_index_mod in Ej. zdm. }
  split; [| done]. split.
  - apply (to_dir _ _ Ht).
  - intros k Hk. rewrite Hd by done. by apply (to_pt _ _ Ht).
  - intros k l Hk Hl. rewrite !Hd by done. by apply (to_inj _ _ Ht).
  - intros va Hva. unfold LOW_MEM in *. rewrite Hw by (unfold is_u32; lia).
    destruct (decide (va / 4096 = virt / 4096)) as [E | _]; [| by apply (to_ident _ _ Ht)].
    destruct Hid as [Hpv Hfv]; [zdm |]. exists v. unfold entry_of. rewrite Hpv. split; [done |].
    rewrite Hfv. zdm.
Qed.

End Invariant.

(** ** The operations on a well-formed state *)

Section Operation_lemmas.
  Context {F : Type} `{FrameAllocatorLaws F} `{PagingLayout}.

(** The processor sees the tables: the TLB never disagrees. *)
Lemma mmu_walk s va : vm_ok s -> is_u32 va -> mmu_entry s va = walk s va.
Proof.
  intros Hok Hva. unfold mmu_entry. destruct (tlb s !! (va / 4096)) as [t|] eqn:E.
  - destruct (vo_tlb _ Hok _ _ E) as [Hp <-]. apply hw_walk_page; [.. |];
      unfold is_u32 in *; zdm.
  - by rewrite (vo_cr3 _ Hok).
Qed.

Lemma tables_ok_weaken m fr fr' : fr' ⊆ fr -> tables_ok m fr -> tables_ok m fr'.
Proof.
  intros Hsub Ht. split.
  - intros Hin. by apply (to_dir _ _ Ht), Hsub.
  - intros i Hi Hp. destruct (to_pt _ _ Ht i Hi Hp) as (? & ? & ? & Hn).
    split_and!; try done; try lia. intros Hin. by apply Hn, Hsub.
  - apply (to_inj _ _ Ht).
  - apply (to_ident _ _ Ht).
Qed.

Lemma dir_addr_low v : 0 <= page_directory + 4 * PAGE_DIR_INDEX v < LOW_MEM.
Proof.
  pose proof page_directory_low. pose proof page_directory_aligned.
  pose proof (dir_index_range v). unfold LOW_MEM in *. zdm.
Qed.

Lemma low_frame_addr e j :
  0 < entry_frame e < LOW_MEM -> is_u32 e -> 0 <= j < 1024 ->
  0 <= entry_frame e + 4 * j < LOW_MEM.
Proof. intros Hf He%entry_frame_range Hj. unfold LOW_MEM in *. zdm. Qed.

Lemma get_pt_present s virt c :
  vm_ok s -> present (pde (pmem s) (PAGE_DIR_INDEX virt)) = true ->
  exists tl, get_pt s virt c = Ret (entry_frame (pde (pmem s) (PAGE_DIR_INDEX virt)), with_tlb s tl)
    /\ vm_ok (with_tlb s tl).
Proof.
  intros Hok Hp. destruct (rd_low s _ Hok (dir_addr_low virt)) as (tl & Hr & Hok').
  exists tl. split; [| done]. unfold get_pt. rewrite Hr. cbn [obind].
  unfold present, pde in Hp. by rewrite Hp.
Qed.

Lemma get_pt_absent s virt :
  vm_ok s -> present (pde (pmem s) (PAGE_DIR_INDEX virt)) = false ->
  exists tl, get_pt s virt false = Ret (0, with_tlb s tl) /\ vm_ok (with_tlb s tl).
Proof.
  intros Hok Hp. destruct (rd_low s _ Hok (dir_addr_low virt)) as (tl & Hr & Hok').
  exists tl. split; [| done]. unfold get_pt. rewrite Hr. cbn [obind].
  unfold present, pde in Hp. by rewrite Hp.
Qed.

Lemma with_frames_ok s f :
  vm_ok s -> frames_ok f -> frames f ⊆ frames (vframes s) -> vm_ok (with_frames s f).
Proof.
  intros [] Hf Hsub. split; try done. by eapply tables_ok_weaken.
Qed.

(** Creating a page table: out of frames, or with a low frame. *)
Lemma get_pt_oom s virt :
  vm_ok s -> present (pde (pmem s) (PAGE_DIR_INDEX virt)) = false ->
  frames (vframes s) = ∅ ->
  exists tl, get_pt s virt true = Ret (0, with_tlb s tl) /\ vm_ok (with_tlb s tl).
Proof.
  intros Hok Hp Hf. destruct (rd_low s _ Hok (dir_addr_low virt)) as (tl & Hr & Hok').
  exists tl. split; [| done]. unfold get_pt. rewrite Hr. cbn [obind].
  unfold present, pde in Hp. rewrite Hp. cbn [negb vframes with_tlb].
  by rewrite (frame_alloc_none _ (vo_frames _ Hok) Hf).
Qed.

Lemma new_pde q :
  0 < q < 1024 ->
  Z.lor (Z.lor (Z.lor (q * 4096) PAGE_PRESENT) PAGE_RW) PAGE_USER = q * 4096 + 7.
Proof.
  intros. rewrite <- !Z.lor_assoc. apply (lor_flags (q * 4096) 7); zdm.
Qed.

Lemma get_pt_create s virt q :
  vm_ok s -> present (pde (pmem s) (PAGE_DIR_INDEX virt)) = false ->
  q ∈ frames (vframes s) -> q < 1024 ->
  exists p s', get_pt s virt true = Ret (entry_frame (pde (pmem s') (PAGE_DIR_INDEX virt)), s') /\
    vm_ok s' /\ present (pde (pmem s') (PAGE_DIR_INDEX virt)) = true /\
    (forall va, walk s' va = walk s va) /\ p ∈ frames (vframes s) /\
    frames (vframes s') = frames (vframes s) ∖ {[p]}.
Proof.
  intros Hok Hp Hq Hlow. destruct (rd_low s _ Hok (dir_addr_low virt)) as (tl & Hr & Hok1).
  pose proof (dir_index_range virt) as Hi.
  destruct (frame_alloc_some _ (vo_frames _ Hok)) as (p & f & Ha & Hpin & Hmin & Hfr & Hfok);
    [by apply (non_empty_inhabited_L q) |].
  assert (0 < p < 1024) as Hpr.
  { pose proof (frames_range _ _ (vo_frames _ Hok) Hpin). pose proof (Hmin q Hq). lia. }
  assert (vm_ok (with_frames (with_tlb s tl) f)) as Hok2.
  { apply with_frames_ok; [done | done |]. simpl. rewrite Hfr.
    intros x [Hx _]%elem_of_difference. done. }
  destruct (fill_other_page (with_frames (with_tlb s tl) f) p (fun _ => 0) Hok2 Hpr)
    as (s3 & Hfill & Hok3 & Hf3 & _ & Hsame & Hz).
  { eapply free_not_table; [apply (vo_tables _ Hok) | done]. }
  simpl in Hf3, Hsame.
  destruct (wr_low s3 (page_directory + 4 * PAGE_DIR_INDEX virt) (p * 4096 + 7) Hok3
              (dir_addr_low virt)) as (tl4 & Hw & Hok4).
  destruct (add_table (pmem s3) (frames f) p (PAGE_DIR_INDEX virt)) as (Ht5 & Hw5 & Hd5); auto.
  { rewrite <- Hf3. apply (vo_tables _ Hok3). }
  { rewrite Hfr. intros [_ Hx]%elem_of_difference. by apply Hx, elem_of_singleton. }
  { eapply not_table_same; [exact Hsame |]. eapply free_not_table; [apply (vo_tables _ Hok) | done]. }
  { destruct Hsame as [Hd _]. by rewrite Hd. }
  exists p, (with_mem (with_tlb s3 tl4)
    (store32 (pmem s3) (page_directory + 4 * PAGE_DIR_INDEX virt) (p * 4096 + 7))).
  cbn [pmem with_mem]. rewrite Hd5.
  split; [| split; [| split; [| split; [| split]]]].
  - unfold get_pt. rewrite Hr. cbn [obind]. unfold present, pde in Hp. rewrite Hp. cbn [negb].
    cbn [vframes with_tlb]. rewrite Ha. cbv zeta. rewrite truth_pos by lia. cbn [negb].
    rewrite Hfill. cbn [obind]. rewrite new_pde, Hw by done.
    cbn [obind]. rewrite entry_frame_add by zdm. reflexivity.
  - destruct Hok4 as [? ? ? ? _ Htlb]. split; simpl in *; auto.
    + by rewrite Hf3.
    + intros k t Hk. rewrite Hw5. auto.
  - rewrite present_odd, Z.odd_add, Z.odd_mul. by rewrite andb_false_r.
  - intros va. unfold walk. simpl. rewrite Hw5. by apply same_tables_walk.
  - done.
  - simpl. by rewrite Hf3.
Qed.

(** The entry [vmm_map] writes. *)
Definition new_pte (phys flags : Z) : Z :=
  Z.lor (Z.lor (Z.land phys 0xFFFFF000) (Z.land flags 0xFFF)) PAGE_PRESENT.

Lemma low_flags flags : 0 <= Z.lor (flags mod 4096) 1 < 4096.
Proof.
  assert (Z.lor (flags mod 4096) 1 = Z.lor (flags mod 4096) 1 mod 2 ^ 12) as ->;
    [| apply Z.mod_pos_bound; lia].
  rewrite <- Z.land_ones, Z.land_lor_distr_l, !Z.land_ones by lia. change (2 ^ 12) with 4096.
  by rewrite Z.mod_mod by lia.
Qed.

Lemma new_pte_spec phys flags :
  is_u32 phys -> phys mod 4096 = 0 ->
  new_pte phys flags = phys + Z.lor (flags mod 4096) 1 /\ is_u32 (new_pte phys flags) /\
  entry_frame (new_pte phys flags) = phys /\ present (new_pte phys flags) = true.
Proof.
  intros Hp Ha. pose proof (low_flags flags) as Hf.
  assert (new_pte phys flags = phys + Z.lor (flags mod 4096) 1) as E.
  { unfold new_pte. rewrite land_fff, land_page_mask, Ha, Z.sub_0_r, <- Z.lor_assoc by done.
    by apply lor_flags. }
  rewrite E. unfold is_u32 in *. split_and!; [done | zdm | zdm | |].
  - apply entry_frame_add; lia || zdm.
  - rewrite <- E. unfold present, new_pte, PAGE_PRESENT.
    rewrite Z.land_lor_distr_l. unfold truth. apply negb_true_iff, Z.eqb_neq.
    intros Hz%Z.lor_eq_0_iff. destruct Hz as [_ Hz]. discriminate Hz.
Qed.

(** A page table for [virt] exists or can be made from a low frame. *)
Definition pt_avail (s : vm F) (virt : Z) : Prop :=
  present (pde (pmem s) (PAGE_DIR_INDEX virt)) = true \/
  exists q, q ∈ frames (vframes s) /\ q < 1024.

Lemma get_pt_avail s virt :
  vm_ok s -> pt_avail s virt ->
  exists s', get_pt s virt true = Ret (entry_frame (pde (pmem s') (PAGE_DIR_INDEX virt)), s') /\
    vm_ok s' /\ present (pde (pmem s') (PAGE_DIR_INDEX virt)) = true /\
    (forall va, walk s' va = walk s va) /\ frames (vframes s') ⊆ frames (vframes s).
Proof.
  intros Hok Hav. destruct (present (pde (pmem s) (PAGE_DIR_INDEX virt))) eqn:Hp.
  - destruct (get_pt_present s virt true Hok Hp) as (tl & Hg & Hok').
    exists (with_tlb s tl). split_and!; done.
  - destruct Hav as [? | (q & Hq & Hl)]; [congruence |].
    destruct (get_pt_create s virt q Hok Hp Hq Hl) as (p & s' & Hg & Hok' & Hp' & Hw & _ & Hf).
    exists s'. split_and!; try done. rewrite Hf. intros x [Hx _]%elem_of_difference. done.
Qed.

(** Writing one entry through the MMU and invalidating its page. *)
Lemma write_entry s virt v :
  vm_ok s -> is_u32 virt -> is_u32 v ->
  present (pde (pmem s) (PAGE_DIR_INDEX virt)) = true ->
  (virt < LOW_MEM -> present v = true /\ entry_frame v = virt - virt mod 4096) ->
  exists s1, wr32 s (entry_frame (pde (pmem s) (PAGE_DIR_INDEX virt)) + 4 * PAGE_TBL_INDEX virt) v
      = Ret s1 /\ vframes s1 = vframes s /\
    vm_ok (invlpg s1 virt) /\
    forall va, is_u32 va -> walk (invlpg s1 virt) va =
      if decide (va / 4096 = virt / 4096) then entry_of v else walk s va.
Proof.
  intros Hok Hvirt Hv Hp Hid. pose proof (dir_index_range virt) as Hi.
  destruct (to_pt _ _ (vo_tables _ Hok) _ Hi Hp) as (_ & Hlow & _).
  destruct (wr_low s (entry_frame (pde (pmem s) (PAGE_DIR_INDEX virt)) + 4 * PAGE_TBL_INDEX virt) v
              Hok) as (tl & Hw & Hok1).
  { apply low_frame_addr; [done | apply load32_range | apply tbl_index_range]. }
  destruct (store_entry (pmem s) _ virt v (vo_tables _ Hok) Hvirt Hv Hp Hid) as [Ht Hwalk].
  eexists. split; [exact Hw |]. split; [done |]. split; [| exact Hwalk].
  destruct Hok1 as [? ? ? ? _ Htlb]. split; simpl in *; auto.
  intros p t Hpt. apply lookup_delete_Some in Hpt as [Hne Hpt].
  destruct (Htlb p t Hpt) as [Hr Hold]. split; [done |].
  rewrite Hwalk by (unfold is_u32; lia). rewrite Z.div_mul, decide_False by congruence. done.
Qed.

Lemma aligned_check virt phys :
  truth (Z.land (Z.lor virt phys) 0xFFF) = false <->
  virt mod 4096 = 0 /\ phys mod 4096 = 0.
Proof.
  unfold truth. rewrite negb_false_iff, Z.eqb_eq, Z.land_lor_distr_l, !land_fff.
  rewrite Z.lor_eq_0_iff. done.
Qed.

Lemma vmm_map_ok s virt phys flags :
  vm_ok s -> is_u32 virt -> is_u32 phys -> virt mod 4096 = 0 -> phys mod 4096 = 0 ->
  (virt < LOW_MEM -> phys = virt) -> pt_avail s virt ->
  exists s', vmm_map s virt phys flags = Ret (0, s') /\ vm_ok s' /\
    frames (vframes s') ⊆ frames (vframes s) /\
    forall va, is_u32 va -> walk s' va =
      if decide (va / 4096 = virt / 4096) then Some (new_pte phys flags) else walk s va.
Proof.
  intros Hok Hvirt Hphys Hva Hpa Hid Hav.
  destruct (get_pt_avail s virt Hok Hav) as (s1 & Hg & Hok1 & Hp1 & Hw1 & Hf1).
  destruct (new_pte_spec phys flags Hphys Hpa) as (_ & Hn32 & Hnf & Hnp).
  destruct (write_entry s1 virt (new_pte phys flags) Hok1 Hvirt Hn32 Hp1)
    as (s2 & Hwr & Hf2 & Hok2 & Hw2).
  { intros Hlow. split; [done |]. rewrite Hnf, Hid by done. lia. }
  exists (invlpg s2 virt). split_and!; [| done | by (simpl; rewrite Hf2) |].
  - unfold vmm_map. rewrite (proj2 (aligned_check virt phys)) by done.
    rewrite Hg. cbn [obind].
    destruct (to_pt _ _ (vo_tables _ Hok1) _ (dir_index_range virt) Hp1) as (_ & Hlow & _).
    rewrite truth_pos by lia. cbn [negb]. fold (new_pte phys flags). rewrite Hwr. done.
  - intros va Hva'. rewrite Hw2, Hw1 by done. unfold entry_of. by rewrite Hnp.
Qed.

Lemma vmm_unmap_ok s virt :
  vm_ok s -> is_u32 virt -> LOW_MEM <= virt ->
  exists s', vmm_unmap s virt = Ret s' /\ vm_ok s' /\ vframes s' = vframes s /\
    forall va, is_u32 va -> walk s' va =
      if decide (va / 4096 = virt / 4096) then None else walk s va.
Proof.
  intros Hok Hvirt Hhigh. unfold vmm_unmap.
  destruct (present (pde (pmem s) (PAGE_DIR_INDEX virt))) eqn:Hp.
  - destruct (get_pt_present s virt false Hok Hp) as (tl & -> & Hok1). cbn [obind].
    destruct (write_entry (with_tlb s tl) virt 0 Hok1 Hvirt) as (s2 & Hwr & Hf2 & Hok2 & Hw2);
      [unfold is_u32; lia | done | unfold LOW_MEM in *; lia |].
    destruct (to_pt _ _ (vo_tables _ Hok) _ (dir_index_range virt) Hp) as (_ & Hlow & _).
    rewrite truth_pos by lia. cbn [negb]. cbn [pmem with_tlb] in Hwr. rewrite Hwr. cbn [obind].
    exists (invlpg s2 virt). split_and!; [done | done | done |].
    intros va Hva. rewrite Hw2 by done. done.
  - destruct (get_pt_absent s virt Hok Hp) as (tl & -> & Hok1). cbn.
    exists (with_tlb s tl). split_and!; [done | done | done |]. intros va Hva.
    destruct (decide (va / 4096 = virt / 4096)) as [E|]; [| done].
    unfold walk. simpl. rewrite (hw_walk_page _ _ va virt), hw_walk_unfold by done.
    cbv zeta. by rewrite Hp.
Qed.

Lemma vmm_get_phys_ok s virt :
  vm_ok s -> is_u32 virt ->
  exists tl, vmm_get_phys s virt =
      Ret (match walk s virt with
           | Some t => entry_frame t + virt mod 4096
           | None => 0xFFFFFFFF
           end, with_tlb s tl) /\ vm_ok (with_tlb s tl).
Proof.
  intros Hok Hvirt. unfold vmm_get_phys, walk. rewrite hw_walk_unfold. cbv zeta.
  destruct (present (pde (pmem s) (PAGE_DIR_INDEX virt))) eqn:Hp.
  - destruct (get_pt_present s virt false Hok Hp) as (tl & -> & Hok1). cbn [obind].
    destruct (to_pt _ _ (vo_tables _ Hok) _ (dir_index_range virt) Hp) as (_ & Hlow & _).
    rewrite truth_pos by lia. cbn [negb].
    destruct (rd_low (with_tlb s tl)
      (entry_frame (pde (pmem s) (PAGE_DIR_INDEX virt)) + 4 * PAGE_TBL_INDEX virt) Hok1)
      as (tl2 & -> & Hok2).
    { apply low_frame_addr; [done | apply load32_range | apply tbl_index_range]. }
    cbn [obind pmem with_tlb]. unfold pte, present in *.
    set (t := load32 _ _). exists tl2. destruct (truth (Z.land t PAGE_PRESENT)); [| done].
    cbn [negb]. split; [| done]. f_equal. f_equal. rewrite offset_mod. fold (entry_frame t).
    apply lor_flags; [apply (entry_frame_range t (load32_range _ _)) | zdm].
  - destruct (get_pt_absent s virt Hok Hp) as (tl & -> & Hok1). cbn. eauto.
Qed.

(** A page table that would land above 4 MB: the kernel cannot reach it. *)
Lemma fill_table_halt (s : vm F) table f h :
  wr32 s (table + 4 * 0) (f 0) = Halt h -> fill_table s table f = Halt h.
Proof.
  intros Hw. unfold fill_table. rewrite for_range_step by lia. cbn [obind]. rewrite Hw.
  refine (for_range_ind (fun _ os => os = Halt h) (0 + 1) 1024 _ _ _ eq_refl _); [lia |].
  by intros i ? _ ->.
Qed.

Lemma vmm_map_high_pt s virt phys flags p :
  vm_ok s -> is_u32 virt -> virt mod 4096 = 0 -> phys mod 4096 = 0 ->
  present (pde (pmem s) (PAGE_DIR_INDEX virt)) = false ->
  p ∈ frames (vframes s) -> (forall q, q ∈ frames (vframes s) -> p <= q) ->
  walk s (p * 4096) = None ->
  vmm_map s virt phys flags = Halt (PageFault (p * 4096)).
Proof.
  intros Hok Hvirt Hva Hpa Hp Hpin Hmin Hnone. unfold vmm_map.
  rewrite (proj2 (aligned_check virt phys)) by done. unfold get_pt.
  destruct (rd_low s _ Hok (dir_addr_low virt)) as (tl & -> & Hok1). cbn [obind].
  unfold present, pde in Hp. rewrite Hp. cbn [negb vframes with_tlb].
  destruct (frame_alloc_some _ (vo_frames _ Hok)) as (p' & f & -> & Hpin' & Hmin' & _);
    [by apply (non_empty_inhabited_L p) |].
  assert (p' = p) as -> by (apply Z.le_antisymm; auto).
  pose proof (frames_range _ _ (vo_frames _ Hok) Hpin) as Hr.
  rewrite truth_pos by lia. cbn [negb].
  rewrite (fill_table_halt _ _ _ (PageFault (p * 4096))); [done |].
  assert (is_u32 (p * 4096)) as H32 by (unfold is_u32; lia).
  rewrite Z.mul_0_r, Z.add_0_r. unfold wr32, access. cbn [pg with_frames with_tlb].
  rewrite (vo_pg _ Hok).
  assert (mmu_entry (with_frames (with_tlb s tl) f) (p * 4096) = None) as ->.
  { change (mmu_entry (with_tlb s tl) (p * 4096) = None). by rewrite mmu_walk. }
  cbn [isr14 with_frames with_tlb obind]. by rewrite (vo_isr _ Hok).
Qed.

(** ** Initialisation *)

Lemma wr_unpaged (s : vm F) va v :
  pg s = false -> wr32 s va v = Ret (with_mem s (store32 (pmem s) va v)).
Proof. intros Hp. unfold wr32, access. by rewrite Hp. Qed.

Lemma fill_unpaged (s : vm F) table f :
  pg s = false ->
  exists m, fill_table s table f = Ret (with_mem s m) /\
    (forall j, 0 <= j < 1024 -> load32 m (table + 4 * j) = u32 (f j)) /\
    (forall x, x + 4 <= table \/ table + 4096 <= x -> load32 m x = load32 (pmem s) x).
Proof.
  intros Hp. unfold fill_table.
  refine (for_range_ind (fun i os => exists m, os = Ret (with_mem s m) /\
    (forall j, 0 <= j < i -> load32 m (table + 4 * j) = u32 (f j)) /\
    (forall x, x + 4 <= table \/ table + 4 * i <= x -> load32 m x = load32 (pmem s) x))
    0 1024 _ _ _ _ _); [lia | |].
  - exists (pmem s). split_and!; [by destruct s | lia | done].
  - intros i os Hi (m & -> & Hin & Hout). cbn [obind]. rewrite wr_unpaged by done.
    eexists. split; [reflexivity |]. cbn [pmem with_mem]. split.
    + intros j Hj. destruct (decide (j = i)) as [-> | Hne].
      * apply load32_store32_same.
      * rewrite load32_store32_out by lia. apply Hin. lia.
    + intros x Hx. rewrite load32_store32_out by lia. apply Hout. lia.
Qed.

Lemma paging_init_ok (s : vm F) :
  pg s = false -> frames_ok (vframes s) ->
  page_directory / 4096 ∉ frames (vframes s) ->
  first_page_table / 4096 ∉ frames (vframes s) ->
  exists s', paging_init s = Ret s' /\ vm_ok s' /\ vframes s' = vframes s /\
    (forall va, is_u32 va -> walk s' va =
      if decide (va < LOW_MEM) then Some (va - va mod 4096 + 7) else None) /\
    (forall i, 0 < i < 1024 -> pde (pmem s') i = 0).
Proof.
  intros Hpg Hfok Hpd Hfpt.
  pose proof page_directory_aligned. pose proof first_page_table_aligned.
  pose proof page_directory_low as Hdl. pose proof first_page_table_low as Hfl.
  pose proof tables_differ. unfold LOW_MEM in *.
  unfold paging_init.
  destruct (fill_unpaged s page_directory (fun _ => 0) Hpg) as (m1 & -> & Hin1 & _).
  cbn [obind].
  set (ent := fun i => Z.lor (Z.lor (Z.lor (u32 (i * 4096)) PAGE_RW) PAGE_USER) PAGE_PRESENT).
  destruct (fill_unpaged (with_mem s m1) first_page_table ent Hpg) as (m2 & -> & Hin2 & Hout2).
  cbn [obind]. rewrite wr_unpaged by done. cbn [obind pmem with_mem].
  set (m3 := store32 m2 page_directory _). eexists. split; [reflexivity |].
  assert (forall i, 0 <= i < 1024 -> pde m3 i = if decide (i = 0) then first_page_table + 7 else 0)
    as Hd.
  { intros i Hi. unfold pde, m3. destruct (decide (i = 0)) as [-> | Hne].
    - rewrite Z.mul_0_r, Z.add_0_r, load32_store32_same, <- !Z.lor_assoc.
      rewrite (lor_flags first_page_table 7) by (done || lia). apply u32_small. lia.
    - rewrite load32_store32_out by lia. rewrite Hout2 by zdm. cbn [pmem with_mem].
      by rewrite Hin1. }
  assert (forall j, 0 <= j < 1024 -> load32 m3 (first_page_table + 4 * j) = j * 4096 + 7) as Ht.
  { intros j Hj. unfold m3. rewrite load32_store32_out by zdm. rewrite Hin2 by done.
    unfold ent. cbv beta. rewrite <- !Z.lor_assoc, (u32_small (j * 4096)) by lia.
    change (Z.lor PAGE_RW (Z.lor PAGE_USER PAGE_PRESENT)) with 7.
    rewrite (lor_flags (j * 4096) 7) by zdm. apply u32_small. lia. }
  assert (entry_frame (first_page_table + 7) = first_page_table) as Hfe
    by (apply entry_frame_add; zdm).
  assert (forall k, present (k * 4096 + 7) = true) as Hpres.
  { intros k. rewrite present_odd, Z.odd_add, Z.odd_mul. by rewrite andb_false_r. }
  assert (present (first_page_table + 7) = true) as Hpf.
  { replace first_page_table with (first_page_table / 4096 * 4096) by zdm. apply Hpres. }
  assert (forall va, is_u32 va -> hw_walk m3 page_directory va =
    if decide (va < LOW_MEM) then Some (va - va mod 4096 + 7) else None) as Hw.
  { intros va Hva. rewrite hw_walk_unfold. cbv zeta. rewrite Hd by apply dir_index_range.
    rewrite dir_index_div by done. unfold is_u32, LOW_MEM in *.
    destruct (decide (va / 4096 / 1024 = 0)) as [E | E], (decide (va < 4194304)); try zdm.
    - rewrite Hpf. unfold pte. rewrite Hfe, Ht, Hpres by apply tbl_index_range.
      rewrite tbl_index_mod. f_equal. zdm.
    - done. }
  split_and!; [| done | exact Hw |].
  2: { intros i Hi. cbn [pmem load_cr3 enable_paging]. rewrite Hd, decide_False by lia. done. }
  split; try done.
  - split; [done | | |].
    + intros i Hi. cbn [pmem]. rewrite Hd by done. destruct (decide (i = 0)) as [-> | _]; [| done].
      intros _. rewrite Hfe. unfold LOW_MEM. split_and!; [zdm | lia | lia | lia | done].
    + intros i j Hi Hj. cbn [pmem]. rewrite !Hd by done.
      destruct (decide (i = 0)), (decide (j = 0)); try done. congruence.
    + intros va Hva. cbn [pmem]. rewrite Hw by (unfold is_u32, LOW_MEM in *; lia).
      rewrite decide_True by lia. eexists. split; [reflexivity |].
      unfold LOW_MEM in *. apply entry_frame_add; zdm.
Qed.

(** ** Every run *)

(** What the machine can do to the address space after [paging_init], if the
    callers keep to the contract of the page tables: nothing below 4 MB is
    mapped but to itself or unmapped (the code does not check it:
    [low_map_moves]), and when a table is missing the lowest free frame is
    below 4 MB or there is none.  Besides the operations these are the
    processor filling or dropping TLB entries, clients taking and returning
    frames, and stores into pages that hold no table. *)
Inductive vm_step : vm F -> vm F -> Prop :=
| vs_map s s' virt phys flags r :
    is_u32 virt -> is_u32 phys -> (virt < LOW_MEM -> phys = virt) ->
    pt_avail s virt \/ frames (vframes s) = ∅ ->
    vmm_map s virt phys flags = Ret (r, s') -> vm_step s s'
| vs_unmap s s' virt :
    is_u32 virt -> LOW_MEM <= virt -> vmm_unmap s virt = Ret s' -> vm_step s s'
| vs_get_phys s s' virt r :
    is_u32 virt -> vmm_get_phys s virt = Ret (r, s') -> vm_step s s'
| vs_tlb_fill s va t :
    is_u32 va -> walk s va = Some t ->
    vm_step s (with_tlb s (<[va / 4096 := t]> (tlb s)))
| vs_tlb_evict s p : vm_step s (with_tlb s (delete p (tlb s)))
| vs_frame_alloc s a f :
    frame_alloc (vframes s) = (a, f) -> vm_step s (with_frames s f)
| vs_frame_free s q :
    0 < q < 2 ^ 20 -> not_table (pmem s) q ->
    vm_step s (with_frames s (frame_free (vframes s) (q * 4096)))
| vs_store s q k v :
    not_table (pmem s) q -> 0 <= k < 1024 ->
    vm_step s (with_mem s (store32 (pmem s) (q * 4096 + 4 * k) v)).

Lemma vmm_map_oom s virt phys flags :
  vm_ok s -> is_u32 virt -> virt mod 4096 = 0 -> phys mod 4096 = 0 ->
  present (pde (pmem s) (PAGE_DIR_INDEX virt)) = false -> frames (vframes s) = ∅ ->
  exists tl, vmm_map s virt phys flags = Ret (-1, with_tlb s tl) /\ vm_ok (with_tlb s tl).
Proof.
  intros Hok Hvirt Hva Hpa Hp Hf.
  destruct (get_pt_oom s virt Hok Hp Hf) as (tl & Hg & Hok'). exists tl. split; [| done].
  unfold vmm_map. rewrite (proj2 (aligned_check virt phys)), Hg by done. done.
Qed.

Lemma with_frames_free_ok s q :
  vm_ok s -> 0 < q < 2 ^ 20 -> not_table (pmem s) q ->
  vm_ok (with_frames s (frame_free (vframes s) (q * 4096))).
Proof.
  intros [? ? ? Hf Ht ?] Hq [Hnd Hnt].
  destruct (frame_free_spec (vframes s) q Hf Hq) as [Hfr Hfok].
  split; try done. simpl. rewrite Hfr. split.
  - rewrite elem_of_union, elem_of_singleton. intros [Hin | E]; [| by destruct Hnd].
    by apply (to_dir _ _ Ht) in Hin.
  - intros i Hi Hp. destruct (to_pt _ _ Ht i Hi Hp) as (? & ? & ? & Hn).
    split_and!; try done; try lia. rewrite elem_of_union, elem_of_singleton.
    intros [Hin | E]; [done |]. by apply (Hnt i Hi Hp).
  - apply (to_inj _ _ Ht).
  - apply (to_ident _ _ Ht).
Qed.

Lemma with_frames_alloc_ok s a f :
  vm_ok s -> frame_alloc (vframes s) = (a, f) -> vm_ok (with_frames s f).
Proof.
  intros Hok Ha. destruct (decide (frames (vframes s) = ∅)) as [He | He].
  - rewrite (frame_alloc_none _ (vo_frames _ Hok) He) in Ha. injection Ha as _ <-.
    by destruct s.
  - destruct (frame_alloc_some _ (vo_frames _ Hok) He) as (p & f' & Ha' & _ & _ & Hfr & Hfok).
    rewrite Ha in Ha'. injection Ha' as _ <-. apply with_frames_ok; [done | done |].
    rewrite Hfr. intros x [Hx _]%elem_of_difference. done.
Qed.

Lemma vm_step_ok s s' : vm_ok s -> vm_step s s' -> vm_ok s'.
Proof.
  intros Hok Hstep.
  destruct Hstep as [s s' virt phys flags r Hv Hp Hid Hav Hm | s s' virt Hv Hl Hu
    | s s' virt r Hv Hg | s va t Hva Hw | s p | s a f Ha | s q Hq Hnt | s q k v Hnt Hk].
  - destruct (truth (Z.land (Z.lor virt phys) 0xFFF)) eqn:Ea.
    { unfold vmm_map in Hm. rewrite Ea in Hm. by injection Hm as _ <-. }
    apply aligned_check in Ea as [Ev Ep].
    destruct (present (pde (pmem s) (PAGE_DIR_INDEX virt))) eqn:Ed; [| destruct Hav as [Hav | Hav]].
    + destruct (vmm_map_ok s virt phys flags) as (s2 & Hm2 & Hok2 & _); auto; [by left |].
      rewrite Hm in Hm2. by injection Hm2 as _ ->.
    + destruct (vmm_map_ok s virt phys flags) as (s2 & Hm2 & Hok2 & _); auto.
      rewrite Hm in Hm2. by injection Hm2 as _ ->.
    + destruct (vmm_map_oom s virt phys flags) as (tl & Hm2 & Hok2); auto.
      rewrite Hm in Hm2. by injection Hm2 as _ ->.
  - destruct (vmm_unmap_ok s virt) as (s2 & Hm2 & Hok2 & _); auto.
    rewrite Hu in Hm2. by injection Hm2 as ->.
  - destruct (vmm_get_phys_ok s virt) as (tl & Hm2 & Hok2); auto.
    rewrite Hg in Hm2. by injection Hm2 as _ ->.
  - by apply vm_ok_fill.
  - destruct Hok as [? ? ? ? ? Htlb]. split; try done. simpl.
    intros k t [_ Hk]%lookup_delete_Some. auto.
  - by eapply with_frames_alloc_ok.
  - by apply with_frames_free_ok.
  - apply vm_ok_same_mem; [done |]. by apply store_other_page.
Qed.

Lemma vm_run_ok s s' : vm_ok s -> rtc vm_step s s' -> vm_ok s'.
Proof. intros Hok Hr. induction Hr; [done |]. eauto using vm_step_ok. Qed.

(** A state before [paging_init] in which the tables' pages are not free. *)
Definition pre_init (s : vm F) : Prop :=
  pg s = false /\ frames_ok (vframes s) /\
  page_directory / 4096 ∉ frames (vframes s) /\ first_page_table / 4096 ∉ frames (vframes s).

(** ** Properties *)

(** [paging_init] turns paging on with the first 4 MB mapped one to one,
    readable and writable from both rings, and nothing else mapped. *)
Theorem paging_init_spec (s : vm F) :
  pre_init s ->
  exists s', paging_init s = Ret s' /\ pg s' = true /\ cr3 s' = page_directory /\
    isr14 s' = true /\ vframes s' = vframes s /\
    forall va, is_u32 va -> mmu_entry s' va =
      if decide (va < LOW_MEM)
      then Some (va - va mod 4096 + (PAGE_PRESENT + PAGE_RW + PAGE_USER)) else None.
Proof.
  intros (Hpg & Hf & Hd & Ht).
  destruct (paging_init_ok s Hpg Hf Hd Ht) as (s' & Hi & Hok & Hfr & Hw & _).
  exists s'. split_and!; [exact Hi | apply Hok | apply Hok | apply Hok | exact Hfr |].
  intros va Hva. rewrite mmu_walk by done. by apply Hw.
Qed.

(** C9 As long as the callers of [vmm_map] and [vmm_unmap] leave the mapping
    of the first 4 MB one to one and new tables come from frames below 4 MB,
    then in every state reached from [paging_init] by them, [vmm_get_phys],
    TLB fills and evictions, frames coming and going and stores outside the
    tables, the TLB agrees with the tables -- no flush is missing --, no table
    is overwritten or handed out so that the kernel's own accesses below 4 MB
    still reach the same physical address, and [vmm_get_phys] returns exactly
    what the processor translates. *)
Theorem paging_coherent (s0 s1 s : vm F) (va : Z) :
  pre_init s0 -> paging_init s0 = Ret s1 -> rtc vm_step s1 s -> is_u32 va ->
  mmu_entry s va = hw_walk (pmem s) (cr3 s) va /\
  (va < LOW_MEM -> exists s', access s va = Ret (va, s')) /\
  exists s', vmm_get_phys s va = Ret
    (match mmu_entry s va with
     | Some t => entry_frame t + PAGE_OFFSET va
     | None => 0xFFFFFFFF
     end, s').
Proof.
  intros (Hpg & Hf & Hd & Ht) Hi Hr Hva.
  destruct (paging_init_ok s0 Hpg Hf Hd Ht) as (s1' & Hi' & Hok1 & _).
  rewrite Hi in Hi'. injection Hi' as <-.
  assert (vm_ok s) as Hok by (by eapply vm_run_ok).
  split_and!.
  - rewrite (vo_cr3 _ Hok). by apply mmu_walk.
  - intros Hlow. destruct (access_low s va Hok) as (tl & Ha & _); [unfold is_u32 in *; lia |].
    eauto.
  - destruct (vmm_get_phys_ok s va Hok Hva) as (tl & Hg & _).
    rewrite mmu_walk, offset_mod by done. eauto.
Qed.

(** C29 [vmm_map] of aligned addresses succeeds when the page table exists or a
    low frame can hold it; the processor then translates exactly that page
    to [phys] with the low 12 flag bits and the present bit, every other page
    as before, and [vmm_get_phys] of any address of the page returns the
    address in [phys]. *)
Theorem vmm_map_spec (s : vm F) (virt phys flags : Z) :
  vm_ok s -> is_u32 virt -> is_u32 phys -> virt mod 4096 = 0 -> phys mod 4096 = 0 ->
  (virt < LOW_MEM -> phys = virt) -> pt_avail s virt ->
  exists s', vmm_map s virt phys flags = Ret (0, s') /\ vm_ok s' /\
    (forall va, is_u32 va -> mmu_entry s' va =
       if decide (va / 4096 = virt / 4096)
       then Some (phys + Z.lor (flags mod 4096) PAGE_PRESENT) else mmu_entry s va) /\
    (forall off, 0 <= off < 4096 ->
       exists s'', vmm_get_phys s' (virt + off) = Ret (phys + off, s'')).
Proof.
  intros Hok Hvirt Hphys Hva Hpa Hid Hav.
  destruct (vmm_map_ok s virt phys flags) as (s' & Hm & Hok' & _ & Hw); auto.
  destruct (new_pte_spec phys flags Hphys Hpa) as (Hn & _ & Hnf & _).
  exists s'. split_and!; [done | done | |].
  - intros va Hva'. rewrite !mmu_walk, Hw, Hn by done. done.
  - intros off Hoff. assert (is_u32 (virt + off)) as H32 by (unfold is_u32 in *; zdm).
    destruct (vmm_get_phys_ok s' (virt + off) Hok' H32) as (tl & Hg & _).
    exists (with_tlb s' tl). rewrite Hg, Hw, decide_True, Hnf by (done || zdm).
    f_equal. f_equal. zdm.
Qed.

(** The failures of [vmm_map]: unaligned arguments give -1 and change
    nothing; with no page table and no free frame it gives -1 and translates
    every page as before; but when the lowest free frame is at or above 4 MB
    and unmapped, clearing the new table page-faults and stops the machine
    instead of returning -1. *)
Theorem vmm_map_errors (s : vm F) (virt phys flags : Z) :
  vm_ok s -> is_u32 virt -> is_u32 phys ->
  (virt mod 4096 ≠ 0 \/ phys mod 4096 ≠ 0 -> vmm_map s virt phys flags = Ret (-1, s)) /\
  (virt mod 4096 = 0 -> phys mod 4096 = 0 ->
   present (pde (pmem s) (PAGE_DIR_INDEX virt)) = false ->
   (frames (vframes s) = ∅ -> exists s', vmm_map s virt phys flags = Ret (-1, s') /\
      vm_ok s' /\ forall va, is_u32 va -> mmu_entry s' va = mmu_entry s va) /\
   (forall p, p ∈ frames (vframes s) -> (forall q, q ∈ frames (vframes s) -> p <= q) ->
      1024 <= p -> mmu_entry s (p * 4096) = None ->
      vmm_map s virt phys flags = Halt (PageFault (p * 4096)))).
Proof.
  intros Hok Hvirt Hphys. split.
  - intros Hna. unfold vmm_map.
    destruct (truth (Z.land (Z.lor virt phys) 0xFFF)) eqn:E; [done |].
    apply aligned_check in E. tauto.
  - intros Hva Hpa Hp. split.
    + intros Hf. destruct (vmm_map_oom s virt phys flags) as (tl & Hm & Hok'); auto.
      exists (with_tlb s tl). split_and!; [done | done |].
      intros va Hva'. by rewrite !mmu_walk.
    + intros p Hpin Hmin Hhigh Hnone. apply vmm_map_high_pt; auto.
      pose proof (frames_range _ _ (vo_frames _ Hok) Hpin).
      rewrite <- mmu_walk; [done | done | unfold is_u32; lia].
Qed.

(** [vmm_unmap] of a page above 4 MB makes the processor fault on exactly
    that page; unmapping what is not mapped changes no translation. *)
Theorem vmm_unmap_spec (s : vm F) (virt : Z) :
  vm_ok s -> is_u32 virt -> LOW_MEM <= virt ->
  exists s', vmm_unmap s virt = Ret s' /\ vm_ok s' /\ vframes s' = vframes s /\
    forall va, is_u32 va -> mmu_entry s' va =
      if decide (va / 4096 = virt / 4096) then None else mmu_entry s va.
Proof.
  intros Hok Hvirt Hl. destruct (vmm_unmap_ok s virt Hok Hvirt Hl) as (s' & Hu & Hok' & Hf & Hw).
  exists s'. split_and!; try done. intros va Hva. rewrite !mmu_walk by done. by apply Hw.
Qed.

End Operation_lemmas.

(** ** Witnesses: the physical memory manager under paging *)

#[local] Instance wit_paging : PagingLayout.
Proof.
  refine {| page_directory := 0x20000; first_page_table := 0x21000 |};
    unfold LOW_MEM; first [reflexivity | lia].
Defined.

(** One usable e820 entry, [0x400000, 0x410000). *)
Definition high_mem : mem :=
  store_le 8 (store_le 8 (store32 (store_le 2 ∅ E820_COUNT 1) 0x512 1) 0x502 0x400000)
    0x50A 0x10000.

Definition boot_vm (m : mem) : vm pmm := Vm m (pmm_init m) ∅ 0 false false.
Definition paged_vm (m : mem) : vm pmm :=
  match paging_init (boot_vm m) with Ret s => s | _ => boot_vm m end.

Lemma boot_vm_pre m : pre_init (boot_vm m).
Proof.
  destruct (pmm_init_facts m) as (Hwf & Hset & _).
  assert (forall p, 0 <= p < 0x100 -> p ∉ free_set (pmm_init m)) as Hlow.
  { intros p Hp Hin. rewrite Hset in Hin. apply elem_of_difference in Hin as [_ Hn].
    apply Hn, elem_of_page_range. lia. }
  split; [done |]. split; [split; [exact Hwf | apply Hlow; lia] |].
  split; apply Hlow; vm_compute; split; congruence.
Qed.

Lemma paged_vm_eq m : paging_init (boot_vm m) = Ret (paged_vm m).
Proof.
  destruct (boot_vm_pre m) as (Hpg & Hf & Hd & Ht). unfold paged_vm.
  by destruct (paging_init_ok (boot_vm m) Hpg Hf Hd Ht) as (s & -> & _).
Qed.

Lemma paged_vm_ok m :
  vm_ok (paged_vm m) /\ vframes (paged_vm m) = pmm_init m /\
  (forall va, is_u32 va -> walk (paged_vm m) va =
    if decide (va < LOW_MEM) then Some (va - va mod 4096 + 7) else None) /\
  (forall i, 0 < i < 1024 -> pde (pmem (paged_vm m)) i = 0).
Proof.
  destruct (boot_vm_pre m) as (Hpg & Hf & Hd & Ht).
  destruct (paging_init_ok (boot_vm m) Hpg Hf Hd Ht) as (s & Hi & Hok & Hfr & Hw & Hz).
  rewrite (paged_vm_eq m) in Hi. apply Ret_inj in Hi. rewrite Hi. auto.
Qed.
#[local] Opaque paged_vm.

Lemma boot_pt_avail virt : pt_avail (paged_vm boot_mem) virt.
Proof.
  right. exists 0x100. destruct (paged_vm_ok boot_mem) as (_ & -> & _). split; [| lia].
  apply boot_page_free; [pages; lia | vm_compute; reflexivity].
Qed.

Lemma paging_init_spec_witness :
  exists s', paging_init (boot_vm boot_mem) = Ret s' /\
    mmu_entry s' 0x12345 = Some 0x12007 /\ mmu_entry s' 0x400000 = None.
Proof.
  destruct (paging_init_spec (boot_vm boot_mem) (boot_vm_pre boot_mem))
    as (s' & Hi & _ & _ & _ & _ & Hm).
  exists s'. split; [exact Hi |]. split; rewrite Hm; unfold is_u32; (reflexivity || lia).
Defined.

(** After a user page is mapped and the processor has dropped what it knew. *)
Lemma paging_coherent_witness :
  exists s s', vmm_map (paged_vm boot_mem) 0x8048000 0x105000 6 = Ret (0, s) /\
    (exists s'', access s 0x12345 = Ret (0x12345, s'')) /\ vmm_get_phys s 0x8048123 = Ret (0x105123, s').
Proof.
  destruct (vmm_map_ok (paged_vm boot_mem) 0x8048000 0x105000 6) as (s & Hm & Hok & _ & Hw);
    [apply paged_vm_ok | unfold is_u32; lia | unfold is_u32; lia | reflexivity | reflexivity
    | unfold LOW_MEM; lia | apply boot_pt_avail |].
  assert (rtc vm_step (paged_vm boot_mem) s) as Hrun.
  { apply rtc_once. apply (vs_map _ _ 0x8048000 0x105000 6 0); [unfold is_u32; lia | unfold is_u32; lia
    | unfold LOW_MEM; lia | left; apply boot_pt_avail | exact Hm]. }
  destruct (paging_coherent (boot_vm boot_mem) (paged_vm boot_mem) s 0x12345
              (boot_vm_pre boot_mem) (paged_vm_eq boot_mem) Hrun) as (_ & Ha & _); [unfold is_u32; lia |].
  destruct (paging_coherent (boot_vm boot_mem) (paged_vm boot_mem) s 0x8048123
              (boot_vm_pre boot_mem) (paged_vm_eq boot_mem) Hrun) as (_ & _ & s' & Hg); [unfold is_u32; lia |].
  exists s, s'. split; [exact Hm |]. split; [apply Ha; unfold LOW_MEM; lia |]. rewrite Hg.
  rewrite mmu_walk, Hw by (exact Hok || (unfold is_u32; lia)). reflexivity.
Defined.

Lemma vmm_map_spec_witness :
  exists s', vmm_map (paged_vm boot_mem) 0x8048000 0x105000 6 = Ret (0, s') /\
    mmu_entry s' 0x8048FFF = Some 0x105007.
Proof.
  destruct (vmm_map_spec (paged_vm boot_mem) 0x8048000 0x105000 6)
    as (s' & Hm & _ & He & _);
    [apply paged_vm_ok | unfold is_u32; lia | unfold is_u32; lia | reflexivity | reflexivity
    | unfold LOW_MEM; lia | apply boot_pt_avail |].
  exists s'. split; [exact Hm |]. rewrite He by (unfold is_u32; lia). reflexivity.
Defined.

Lemma vmm_map_errors_witness :
  vmm_map (paged_vm boot_mem) 0x8048001 0 6 = Ret (-1, paged_vm boot_mem).
Proof.
  destruct (vmm_map_errors (paged_vm boot_mem) 0x8048001 0 6) as [He _];
    [apply paged_vm_ok | unfold is_u32; lia | unfold is_u32; lia |].
  apply He. left. vm_compute. congruence.
Defined.

(** The contract is the callers': [vmm_map] moves a page of the kernel when it
    is asked to. *)
Lemma low_map_moves :
  match vmm_map (paged_vm boot_mem) 0x1000 0x5000 3 with
  | Ret (r, s) => r = 0 /\ mmu_entry s 0x1000 = Some 0x5003
  | _ => False
  end.
Proof. vm_compute. by split. Qed.

(** With memory only above 4 MB the first [vmm_map] faults. *)
Lemma vmm_map_high_fault :
  vmm_map (paged_vm high_mem) 0x8048000 0x405000 6 = Halt (PageFault 0x400000).
Proof.
  destruct (paged_vm_ok high_mem) as (Hok & Hf & Hw & Hz).
  destruct (pmm_init_facts high_mem) as (_ & Hset & _).
  apply (vmm_map_high_pt _ 0x8048000 0x405000 6 0x400 Hok).
  - unfold is_u32. lia.
  - reflexivity.
  - reflexivity.
  - change (PAGE_DIR_INDEX 0x8048000) with 32. by rewrite Hz by lia.
  - rewrite Hf. apply elem_of_free_set. split; [pages; lia | vm_compute; reflexivity].
  - rewrite Hf. intros q Hq. simpl in Hq. rewrite Hset in Hq.
    apply elem_of_difference in Hq as [Hq _]. apply elem_of_e820_usable in Hq.
    destruct Hq as (i & Hi & _ & Hr). assert (i = 0) as ->.
    { assert (load16 high_mem E820_COUNT = 1) as E by (vm_compute; reflexivity). lia. }
    assert (free_first (e_base (e820_table high_mem 0)) = 0x400) as E by (vm_compute; reflexivity).
    lia.
  - rewrite Hw by (unfold is_u32; lia). reflexivity.
Qed.

Lemma vmm_unmap_spec_witness :
  exists s', vmm_unmap (paged_vm boot_mem) 0x8048000 = Ret s' /\ mmu_entry s' 0x8048123 = None.
Proof.
  destruct (vmm_unmap_spec (paged_vm boot_mem) 0x8048000) as (s' & Hu & _ & _ & He);
    [apply paged_vm_ok | unfold is_u32; lia | unfold LOW_MEM; lia |].
  exists s'. split; [exact Hu |]. rewrite He, decide_True by (reflexivity || (unfold is_u32; lia)).
  reflexivity.
Defined.
