(* ===== verification/PagingExt.v ===== *)
(** * Paging: what the operations leave alone

    The clients of the address space own page frames: the frames they took
    from the allocator and have not given back.  This file shows that the
    mapping operations keep the bytes of those frames, account for every
    frame they take (it becomes a page table), and that byte-wise writes to an
    owned frame below 4 MB reach exactly that frame. *)

From S2P Require Import Prelude Memory Interfaces Paging.

Section Extension.
  Context {F : Type} `{FrameAllocatorLaws F} `{PagingLayout}.
  Implicit Types s : vm F.

(** A frame that belongs to a client. *)
Definition owned (s : vm F) (q : Z) : Prop :=
  not_table (pmem s) q /\ q ∉ frames (vframes s).

(** [s'] comes from [s] by operations that only manage page tables. *)
Record vm_ext (s s' : vm F) : Prop := VmExt {
  vx_frames : frames (vframes s') ⊆ frames (vframes s);
  vx_kept q : q ∈ frames (vframes s) -> not_table (pmem s') q -> q ∈ frames (vframes s');
  vx_mono q : not_table (pmem s') q -> not_table (pmem s) q;
  vx_owned q : owned s q -> not_table (pmem s') q;
  vx_bytes x : owned s (x / 4096) -> load8 (pmem s') x = load8 (pmem s) x
}.

Lemma vm_ext_refl s : vm_ext s s.
Proof. split; (done || by intros ? []). Qed.

Lemma vm_ext_owned s s' q : vm_ext s s' -> owned s q -> owned s' q.
Proof. intros Hx [Hq Hf]. split; [by apply (vx_owned _ _ Hx) |]. intros Hin. by apply Hf, (vx_frames _ _ Hx). Qed.

Lemma vm_ext_trans s1 s2 s3 : vm_ext s1 s2 -> vm_ext s2 s3 -> vm_ext s1 s3.
Proof.
  intros H12 H23. split.
  - intros q Hq. by apply (vx_frames _ _ H12), (vx_frames _ _ H23).
  - intros q Hq Hn. apply (vx_kept _ _ H23); [| done].
    apply (vx_kept _ _ H12); [done |]. by apply (vx_mono _ _ H23).
  - intros q Hn. by apply (vx_mono _ _ H12), (vx_mono _ _ H23).
  - intros q Hq. apply (vx_owned _ _ H23). by eapply vm_ext_owned.
  - intros x Hq. rewrite (vx_bytes _ _ H23); [by apply (vx_bytes _ _ H12) |]. by eapply vm_ext_owned.
Qed.

(** TLB changes are invisible here. *)
Lemma vm_ext_tlb s tl : vm_ext s (with_tlb s tl).
Proof. split; (done || by intros ? []). Qed.

(** Same tables, same frames, same bytes outside one unowned page. *)
Lemma vm_ext_same s s' q0 :
  vframes s' = vframes s -> same_tables (pmem s) (pmem s') -> ~ owned s q0 ->
  (forall x, x / 4096 ≠ q0 -> load8 (pmem s') x = load8 (pmem s) x) -> vm_ext s s'.
Proof.
  intros Hf Hs Hq0 Hb. assert (same_tables (pmem s') (pmem s)) as Hs'.
  { destruct Hs as [D T]. split; [intros; by rewrite D |]. intros i j Hi Hj Hp.
    rewrite D in Hp |- * by done. by rewrite T. }
  split; rewrite ?Hf; try done.
  - intros q. by apply not_table_same.
  - intros q [Hq _]. by eapply not_table_same.
  - intros x Hx. apply Hb. intros E. by rewrite E in Hx.
Qed.

Lemma not_owned_table s q : (q = page_directory / 4096 \/ exists i, 0 <= i < 1024 /\
  present (pde (pmem s) i) = true /\ entry_frame (pde (pmem s) i) / 4096 = q) -> ~ owned s q.
Proof.
  intros Hq [[Hd Ht] _]. destruct Hq as [-> | (i & Hi & Hp & E)]; [done |]. by apply (Ht i).
Qed.

(** ** Byte stores *)

Lemma load32_store8_out m a v x : a < x \/ x + 4 <= a -> load32 (store8 m a v) x = load32 m x.
Proof. intros. apply load32_frame. intros y Hy. rewrite load8_store8, decide_False by lia. done. Qed.

Lemma store8_other_page m q j v :
  not_table m q -> 0 <= j < 4096 -> same_tables m (store8 m (q * 4096 + j) v).
Proof.
  intros [Hd Ht] Hj. pose proof page_directory_aligned. split; unfold pde, pte.
  - intros i Hi. apply load32_store8_out. zdm.
  - intros i k Hi Hk Hp. specialize (Ht i Hi Hp). apply load32_store8_out.
    pose proof (entry_frame_range (load32 m (page_directory + 4 * i)) (load32_range _ _)).
    unfold pde in Ht. zdm.
Qed.

(** A byte store through the MMU. *)
Definition wr8 (s : vm F) (va v : Z) : outcome (vm F) :=
  do! (pa, s) := access s va in Ret (with_mem s (store8 (pmem s) pa v)).

(** [for (i = 0; i < n; i++) dst[i] = g(i)]. *)
Definition write_bytes (s : vm F) (dst n : Z) (g : Z -> Z) : outcome (vm F) :=
  for_range 0 n (fun os i => do! s := os in wr8 s (u32 (dst + i)) (g i)) (Ret s).
#[global] Arguments write_bytes : simpl never.

Lemma with_mem_tlb_ext s tl m :
  vm_ok (with_tlb s tl) -> same_tables (pmem s) m -> vm_ok (with_mem (with_tlb s tl) m).
Proof. intros Hok Hs. by apply (vm_ok_same_mem (with_tlb s tl)). Qed.

(** Writing part of a page that holds no table: exactly those bytes change. *)
Lemma write_bytes_ok s q off n g :
  vm_ok s -> 0 < q < 1024 -> not_table (pmem s) q -> 0 <= off -> 0 <= n -> off + n <= 4096 ->
  exists s', write_bytes s (q * 4096 + off) n g = Ret s' /\ vm_ok s' /\ vframes s' = vframes s /\
    same_tables (pmem s) (pmem s') /\
    forall x, load8 (pmem s') x =
      if decide (q * 4096 + off <= x < q * 4096 + off + n) then u8 (g (x - (q * 4096 + off)))
      else load8 (pmem s) x.
Proof.
  intros Hok Hq Hnt Hoff Hn Hend. unfold write_bytes.
  refine (for_range_ind (fun i os => exists s', os = Ret s' /\ vm_ok s' /\ vframes s' = vframes s /\
    same_tables (pmem s) (pmem s') /\
    forall x, load8 (pmem s') x =
      if decide (q * 4096 + off <= x < q * 4096 + off + i) then u8 (g (x - (q * 4096 + off)))
      else load8 (pmem s) x) 0 n _ (Ret s) Hn _ _).
  - exists s. split_and!; [done | done | done | apply same_tables_refl |].
    intros x. rewrite decide_False by lia. done.
  - intros i os Hi (s1 & -> & Hok1 & Hf1 & Hs1 & Hb1). cbn [obind]. unfold wr8.
    rewrite u32_small by lia.
    destruct (access_low s1 (q * 4096 + off + i) Hok1) as (tl & -> & Hok2);
      [unfold LOW_MEM; lia |]. cbn [obind].
    assert (same_tables (pmem s1) (store8 (pmem s1) (q * 4096 + off + i) (g i))) as Hs2.
    { rewrite <- Z.add_assoc. apply store8_other_page; [by eapply not_table_same | lia]. }
    eexists. split; [reflexivity |]. split_and!.
    + by apply with_mem_tlb_ext.
    + done.
    + by eapply same_tables_trans.
    + intros x. cbn [pmem with_mem with_tlb]. rewrite load8_store8, Hb1.
      repeat case_decide; try lia; try done. f_equal. f_equal. lia.
Qed.

(** ** The mapping operations *)

(** Same directory and frames, same bytes outside one page of the tables. *)
Lemma vm_ext_pde s s' q0 :
  vframes s' = vframes s -> (forall i, 0 <= i < 1024 -> pde (pmem s') i = pde (pmem s) i) ->
  ~ owned s q0 -> (forall x, x / 4096 ≠ q0 -> load8 (pmem s') x = load8 (pmem s) x) -> vm_ext s s'.
Proof.
  intros Hf Hd Hq0 Hb.
  assert (forall q, not_table (pmem s') q <-> not_table (pmem s) q) as Hnt.
  { intros q. unfold not_table. split; intros [Hx Ht]; (split; [done |]); intros i Hi;
      [rewrite <- Hd by done | rewrite Hd by done]; by apply Ht. }
  split; rewrite ?Hf; try done.
  - intros q. by apply Hnt.
  - intros q [Hq _]. by apply Hnt.
  - intros x Hx. apply Hb. intros E. by rewrite E in Hx.
Qed.

Lemma load8_store32_page m a v x : a mod 4 = 0 -> x / 4096 ≠ a / 4096 -> load8 (store32 m a v) x = load8 m x.
Proof. intros Ha Hx. apply load8_store32_out. zdm. Qed.

(** A store into an entry of an existing page table. *)
Lemma store_pte_ext s tl i j v :
  vm_ok s -> 0 <= i < 1024 -> 0 <= j < 1024 -> present (pde (pmem s) i) = true ->
  vm_ext s (with_mem (with_tlb s tl) (store32 (pmem s) (entry_frame (pde (pmem s) i) + 4 * j) v)).
Proof.
  intros Hok Hi Hj Hp. pose proof page_directory_aligned.
  destruct (to_pt _ _ (vo_tables _ Hok) i Hi Hp) as (_ & Hlow & Hnd & _).
  pose proof (entry_frame_range (pde (pmem s) i) (load32_range _ _)) as (? & ? & ?).
  apply (vm_ext_pde _ _ (entry_frame (pde (pmem s) i) / 4096)); [done | | |].
  - intros k Hk. cbn [pmem with_mem]. unfold pde at 1. rewrite load32_store32_out by zdm. done.
  - apply not_owned_table. right. eauto.
  - intros x Hx. cbn [pmem with_mem]. apply load8_store32_page; zdm.
Qed.

Lemma vmm_get_phys_ext s virt r s' :
  vm_ok s -> is_u32 virt -> vmm_get_phys s virt = Ret (r, s') -> vm_ext s s'.
Proof.
  intros Hok Hv Hg. destruct (vmm_get_phys_ok s virt Hok Hv) as (tl & Hg' & _).
  rewrite Hg in Hg'. injection Hg' as _ ->. apply vm_ext_tlb.
Qed.

Lemma vmm_unmap_ext s virt s' :
  vm_ok s -> is_u32 virt -> vmm_unmap s virt = Ret s' -> vm_ext s s'.
Proof.
  intros Hok Hv. unfold vmm_unmap. pose proof (dir_index_range virt) as Hi.
  destruct (present (pde (pmem s) (PAGE_DIR_INDEX virt))) eqn:Hp.
  - destruct (get_pt_present s virt false Hok Hp) as (tl & -> & Hok1). cbn [obind].
    destruct (to_pt _ _ (vo_tables _ Hok) _ Hi Hp) as (_ & Hlow & _).
    rewrite truth_pos by lia. cbn [negb].
    destruct (wr_low (with_tlb s tl)
      (entry_frame (pde (pmem s) (PAGE_DIR_INDEX virt)) + 4 * PAGE_TBL_INDEX virt) 0 Hok1)
      as (tl2 & -> & _).
    { apply low_frame_addr; [done | apply load32_range | apply tbl_index_range]. }
    cbn [obind]. intros <-%Ret_inj. eapply vm_ext_trans; [| apply vm_ext_tlb].
    apply (store_pte_ext s tl2); [done | done | apply tbl_index_range | done].
  - destruct (get_pt_absent s virt Hok Hp) as (tl & -> & _). cbn. intros <-%Ret_inj. apply vm_ext_tlb.
Qed.

Lemma fill_table_bytes s q f s' :
  vm_ok s -> 0 < q < 1024 -> not_table (pmem s) q -> fill_table s (q * 4096) f = Ret s' ->
  forall x, x / 4096 ≠ q -> load8 (pmem s') x = load8 (pmem s) x.
Proof.
  intros Hok Hq Hnt Hf x Hx.
  assert (exists s'', fill_table s (q * 4096) f = Ret s'' /\ vm_ok s'' /\
    same_tables (pmem s) (pmem s'') /\ load8 (pmem s'') x = load8 (pmem s) x) as (s'' & E & _ & _ & Hb).
  { unfold fill_table.
    refine (for_range_ind (fun i os => exists s'', os = Ret s'' /\ vm_ok s'' /\
      same_tables (pmem s) (pmem s'') /\ load8 (pmem s'') x = load8 (pmem s) x) 0 1024 _ _ _ _ _);
      [lia | |].
    - exists s. split_and!; [done | done | apply same_tables_refl | done].
    - intros i os Hi (s1 & -> & Hok1 & Hs1 & Hb1). cbn [obind].
      destruct (wr_low s1 (q * 4096 + 4 * i) (f i) Hok1) as (tl & -> & Hok2); [unfold LOW_MEM; lia |].
      pose proof (store_other_page (pmem s1) q i (f i) (not_table_same _ _ _ Hs1 Hnt) Hi) as Hst.
      eexists. split; [reflexivity |]. split_and!.
      + by apply with_mem_tlb_ext.
      + by eapply same_tables_trans.
      + cbn [pmem with_mem]. rewrite load8_store32_page; [done | zdm | zdm]. }
  rewrite Hf in E. by apply Ret_inj in E as ->.
Qed.

Lemma get_pt_create_ext s virt pt s' q :
  vm_ok s -> present (pde (pmem s) (PAGE_DIR_INDEX virt)) = false ->
  q ∈ frames (vframes s) -> q < 1024 -> get_pt s virt true = Ret (pt, s') -> vm_ext s s'.
Proof.
  intros Hok Hp Hq Hlow. destruct (rd_low s _ Hok (dir_addr_low virt)) as (tl & Hr & Hok1).
  pose proof (dir_index_range virt) as Hi. pose proof page_directory_aligned.
  destruct (frame_alloc_some _ (vo_frames _ Hok)) as (p & f & Ha & Hpin & Hmin & Hfr & Hfok);
    [by apply (non_empty_inhabited_L q) |].
  assert (0 < p < 1024) as Hpr.
  { pose proof (frames_range _ _ (vo_frames _ Hok) Hpin). pose proof (Hmin q Hq). lia. }
  pose proof (free_not_table _ _ _ (vo_tables _ Hok) Hpin) as Hnt.
  assert (vm_ok (with_frames (with_tlb s tl) f)) as Hok2.
  { apply with_frames_ok; [done | done |]. simpl. rewrite Hfr.
    intros x [Hx _]%elem_of_difference. done. }
  destruct (fill_other_page (with_frames (with_tlb s tl) f) p (fun _ => 0) Hok2 Hpr Hnt)
    as (s3 & Hfill & Hok3 & Hf3 & _ & [Hdir _] & _). cbn [pmem with_frames with_tlb] in Hdir.
  pose proof (fill_table_bytes _ _ _ _ Hok2 Hpr Hnt Hfill) as Hb3.
  destruct (wr_low s3 (page_directory + 4 * PAGE_DIR_INDEX virt) (p * 4096 + 7) Hok3
              (dir_addr_low virt)) as (tl4 & Hw & _).
  unfold get_pt. rewrite Hr. cbn [obind]. unfold present, pde in Hp. rewrite Hp. cbn [negb].
  cbn [vframes with_tlb]. rewrite Ha. cbv zeta. rewrite truth_pos by lia. cbn [negb].
  rewrite Hfill. cbn [obind]. rewrite new_pde, Hw by done. cbn [obind].
  intros [= _ <-]. cbn [pmem with_mem vframes with_tlb] in *.
  set (m' := store32 _ _ _).
  assert (forall k, 0 <= k < 1024 ->
    pde m' k = if decide (k = PAGE_DIR_INDEX virt) then p * 4096 + 7 else pde (pmem s) k) as Hd.
  { intros k Hk. rewrite <- Hdir by done. unfold m', pde. case_decide as E.
    - rewrite E, load32_store32_same. apply u32_small. lia.
    - apply load32_store32_out. lia. }
  assert (entry_frame (p * 4096 + 7) / 4096 = p) as Hpe by (rewrite entry_frame_add; zdm).
  assert (present (p * 4096 + 7) = true) as Hpp
    by (rewrite present_odd, Z.odd_add, Z.odd_mul; by rewrite andb_false_r).
  split; cbn [vframes pmem with_mem with_tlb].
  - rewrite Hf3. cbn [vframes with_frames]. rewrite Hfr. by intros x [Hx _]%elem_of_difference.
  - intros x Hx [_ Ht]. rewrite Hf3. cbn [vframes with_frames]. rewrite Hfr.
    apply elem_of_difference. split; [done |]. intros ->%elem_of_singleton.
    apply (Ht (PAGE_DIR_INDEX virt) Hi); rewrite Hd, decide_True by done; done.
  - intros x [Hxd Ht]. split; [done |]. intros k Hk Hpk.
    assert (k ≠ PAGE_DIR_INDEX virt) as Hne by (intros ->; unfold present, pde in Hpk; congruence).
    specialize (Ht k Hk). rewrite Hd, decide_False in Ht by done. by apply Ht.
  - intros x [[Hxd Ht] Hx]. split; [done |]. intros k Hk. rewrite Hd by done. case_decide as E.
    + intros _. rewrite Hpe. intros ->. exact (Hx Hpin).
    + by apply Ht.
  - intros x [[Hxd _] Hx]. unfold m'. rewrite load8_store32_page by zdm. apply Hb3.
    intros E. rewrite E in Hx. exact (Hx Hpin).
Qed.

Lemma vmm_map_ext s virt phys flags s' :
  vm_ok s -> is_u32 virt -> virt mod 4096 = 0 -> phys mod 4096 = 0 -> pt_avail s virt ->
  vmm_map s virt phys flags = Ret (0, s') -> vm_ext s s'.
Proof.
  intros Hok Hv Hva Hpa Hav Hm. unfold vmm_map in Hm.
  rewrite (proj2 (aligned_check virt phys)) in Hm by done.
  destruct (get_pt_avail s virt Hok Hav) as (s1 & Hg & Hok1 & Hp1 & _). rewrite Hg in Hm.
  cbn [obind] in Hm. pose proof (dir_index_range virt) as Hi.
  assert (vm_ext s s1) as Hx1.
  { destruct (present (pde (pmem s) (PAGE_DIR_INDEX virt))) eqn:Hp.
    - destruct (get_pt_present s virt true Hok Hp) as (tl & Hg' & _). rewrite Hg in Hg'.
      injection Hg' as _ ->. apply vm_ext_tlb.
    - destruct Hav as [? | (q & Hq & Hl)]; [congruence |]. by eapply get_pt_create_ext. }
  destruct (to_pt _ _ (vo_tables _ Hok1) _ Hi Hp1) as (_ & Hlow & _).
  rewrite truth_pos in Hm by lia. cbn [negb] in Hm.
  destruct (wr_low s1 (entry_frame (pde (pmem s1) (PAGE_DIR_INDEX virt)) + 4 * PAGE_TBL_INDEX virt)
    (Z.lor (Z.lor (Z.land phys 0xFFFFF000) (Z.land flags 0xFFF)) PAGE_PRESENT) Hok1) as (tl2 & Hw & _).
  { apply low_frame_addr; [done | apply load32_range | apply tbl_index_range]. }
  rewrite Hw in Hm. cbn [obind] in Hm. injection Hm as <-.
  eapply vm_ext_trans; [exact Hx1 |]. eapply vm_ext_trans; [| apply vm_ext_tlb].
  apply (store_pte_ext s1 tl2); [done | done | apply tbl_index_range | done].
Qed.

End Extension.
