(* ===== verification/Elf.v ===== *)
(** * ELF loader

    [proc/elf.c]: an ELF32 executable in memory is checked, its PT_LOAD
    segments are mapped page by page into fresh frames and filled, and
    [elf_unload] undoes it.  The loader works on the address space and on any
    heap; the image structures live at the heap addresses [kmalloc] gave. *)

From S2P Require Import Prelude Memory Interfaces Paging PagingExt.

(** ** File format *)

Definition ELF_MAGIC0 : Z := 0x7F.
Definition ELF_MAGIC1 : Z := 69.
Definition ELF_MAGIC2 : Z := 76.
Definition ELF_MAGIC3 : Z := 70.
Definition ELFCLASS32 : Z := 1.
Definition ELFDATA2LSB : Z := 1.
Definition EM_386 : Z := 3.
Definition ET_EXEC : Z := 2.
Definition PT_LOAD : Z := 1.
Definition EHDR_SIZE : Z := 52.
Definition PHDR_SIZE : Z := 32.
Definition MAX_USER_SEGMENTS : Z := 8.

(** The fields of [elf32_ehdr_t] and [elf32_phdr_t] the code reads. *)
Record elf32_ehdr : Type := Ehdr {
  e_ident : list Z;
  e_type : Z;
  e_machine : Z;
  e_entry : Z;
  e_phoff : Z;
  e_phentsize : Z;
  e_phnum : Z
}.

Record elf32_phdr : Type := Phdr {
  p_type : Z;
  p_offset : Z;
  p_vaddr : Z;
  p_filesz : Z;
  p_memsz : Z
}.

Definition read_ehdr (m : mem) (a : Z) : elf32_ehdr :=
  Ehdr ((fun i => load8 m (a + i)) <$> seqZ 0 6) (load16 m (a + 16)) (load16 m (a + 18))
    (load32 m (a + 24)) (load32 m (a + 28)) (load16 m (a + 42)) (load16 m (a + 44)).

Definition read_phdr (m : mem) (a : Z) : elf32_phdr :=
  Phdr (load32 m a) (load32 m (a + 4)) (load32 m (a + 8)) (load32 m (a + 16)) (load32 m (a + 20)).

Definition ident (eh : elf32_ehdr) (i : nat) : Z := default 0 (e_ident eh !! i).

Definition validate_ehdr (eh : elf32_ehdr) (file_size : Z) : bool :=
  if file_size <? EHDR_SIZE then false
  else if negb (ident eh 0 =? ELF_MAGIC0) || negb (ident eh 1 =? ELF_MAGIC1)
          || negb (ident eh 2 =? ELF_MAGIC2) || negb (ident eh 3 =? ELF_MAGIC3) then false
  else if negb (ident eh 4 =? ELFCLASS32) then false
  else if negb (ident eh 5 =? ELFDATA2LSB) then false
  else if negb (e_machine eh =? EM_386) then false
  else if negb (e_type eh =? ET_EXEC) then false
  else if negb (e_phentsize eh =? PHDR_SIZE) then false
  else if file_size <? u32 (e_phoff eh + e_phnum eh * PHDR_SIZE) then false
  else true.

(** ** Images *)

Record user_seg : Type := Seg { vaddr : Z; pages : Z }.

(** The first [seg_count] elements of the array [segs], and [entry]. *)
Record user_image : Type := Image { segs : list user_seg; entry : Z }.

Definition seg_count (img : user_image) : Z := Z.of_nat (length (segs img)).
Definition IMAGE_SIZE : Z := 4 + 8 * MAX_USER_SEGMENTS + 4.      (* sizeof(user_image_t) *)

Record loader (F K : Type) : Type := Loader {
  lvm : vm F;
  lheap : K;
  limages : gmap Z user_image      (* the image structures, by address *)
}.
Arguments Loader {F K}. Arguments lvm {F K}. Arguments lheap {F K}. Arguments limages {F K}.

Section Operations.
  Context {F : Type} `{FrameAllocator F} `{PagingLayout} {K : Type} `{HeapAllocator K}.

(** ** Unloading *)

(** The inner loop of [elf_unload]: [n] pages from page [p] of the segment. *)
Fixpoint unload_pages (n : nat) (p v : Z) (s : vm F) : outcome (vm F) :=
  match n with
  | O => Ret s
  | S n' =>
      let va := u32 (v + u32 (p * 0x1000)) in
      do! (pa, s) := vmm_get_phys s va in
      do! s := vmm_unmap s va in
      let s := if negb (pa =? 0xFFFFFFFF)
               then with_frames s (frame_free (vframes s) (Z.land pa 0xFFFFF000)) else s in
      unload_pages n' (p + 1) v s
  end.

Fixpoint unload_segs (l : list user_seg) (s : vm F) : outcome (vm F) :=
  match l with
  | [] => Ret s
  | sg :: l' => do! s := unload_pages (Z.to_nat (pages sg)) 0 (vaddr sg) s in unload_segs l' s
  end.

Definition elf_unload (s : loader F K) (image : Z) : outcome (loader F K) :=
  if negb (truth image) then Ret s
  else
    match limages s !! image with
    | None => Halt (BadAccess image)
    | Some img =>
        do! v := unload_segs (segs img) (lvm s) in
        do! h := heap_free (lheap s) image in
        Ret (Loader v h (delete image (limages s)))
    end.

(** ** Loading *)

Definition uimemset (s : vm F) (dst v n : Z) : outcome (vm F) := write_bytes s dst n (fun _ => v).
Definition uimemcpy (s : vm F) (dst : Z) (m : mem) (src n : Z) : outcome (vm F) :=
  write_bytes s dst n (fun i => load8 m (u32 (src + i))).

(** The body of the loop of [load_segment] for the page at [v]; the file is
    at the address [file] of the memory [m]. *)
Definition load_page (m : mem) (file : Z) (ph : elf32_phdr) (v : Z) (s : vm F) : outcome (Z * vm F) :=
  let '(phy, f) := frame_alloc (vframes s) in
  let s := with_frames s f in
  if negb (truth phy) then Ret (-1, s)
  else
    let flags := Z.lor PAGE_RW PAGE_USER in
    do! (r, s) := vmm_map s v phy flags in
    if r <? 0 then Ret (-1, with_frames s (frame_free (vframes s) phy))
    else
      do! s := uimemset s phy 0 0x1000 in
      let page_v_end := u32 (v + 0x1000) in
      let file_v_end := u32 (p_vaddr ph + p_filesz ph) in
      let lo := if p_vaddr ph <? v then v else p_vaddr ph in
      let hi := if page_v_end <? file_v_end then page_v_end else file_v_end in
      if lo <? hi then
        let file_off := u32 (p_offset ph + u32 (lo - p_vaddr ph)) in
        do! s := uimemcpy s (u32 (phy + u32 (lo - v))) m (u32 (file + file_off)) (u32 (hi - lo)) in
        Ret (0, s)
      else Ret (0, s).

(** The loop: [n] pages from page [i] on; [seg->pages] so far is [count]. *)
Fixpoint load_pages (n : nat) (i : Z) (m : mem) (file : Z) (ph : elf32_phdr) (vstart count : Z)
    (s : vm F) : outcome (Z * Z * vm F) :=
  match n with
  | O => Ret (0, count, s)
  | S n' =>
      let v := u32 (vstart + u32 (i * 0x1000)) in
      do! (r, s) := load_page m file ph v s in
      if r <? 0 then Ret (-1, count, s)
      else load_pages n' (i + 1) m file ph vstart (u32 (count + 1)) s
  end.

Definition seg_start (ph : elf32_phdr) : Z := Z.land (p_vaddr ph) (not32 0xFFF).
Definition seg_end (ph : elf32_phdr) : Z :=
  Z.land (u32 (u32 (p_vaddr ph + p_memsz ph) + 0xFFF)) (not32 0xFFF).

Definition load_segment (m : mem) (file : Z) (ph : elf32_phdr) (img : user_image) (s : vm F)
    : outcome (Z * user_image * vm F) :=
  if MAX_USER_SEGMENTS <=? seg_count img then Ret (-1, img, s)
  else
    let vstart := seg_start ph in
    let vend := seg_end ph in
    if vend <=? vstart then Ret (-1, img, s)
    else
      let n := u32 (vend - vstart) / 0x1000 in
      do! (r, count, s) := load_pages (Z.to_nat n) 0 m file ph vstart 0 s in
      Ret (r, Image (segs img ++ [Seg vstart count]) (entry img), s).

(** The loop over the program headers: [n] of them from number [i] on. *)
Fixpoint load_phdrs (n : nat) (i : Z) (m : mem) (file file_size phoff : Z) (img : user_image)
    (s : vm F) : outcome (Z * user_image * vm F) :=
  match n with
  | O => Ret (0, img, s)
  | S n' =>
      let ph := read_phdr m (u32 (file + u32 (phoff + i * PHDR_SIZE))) in
      if negb (p_type ph =? PT_LOAD) then load_phdrs n' (i + 1) m file file_size phoff img s
      else if p_memsz ph =? 0 then load_phdrs n' (i + 1) m file file_size phoff img s
      else if file_size <? u32 (p_offset ph + p_filesz ph) then Ret (-4, img, s)
      else
        do! (r, img, s) := load_segment m file ph img s in
        if r <? 0 then Ret (-5, img, s)
        else load_phdrs n' (i + 1) m file file_size phoff img s
  end.

(** The result, and [*out_image]. *)
Definition elf_load (m : mem) (file file_size : Z) (s : loader F K)
    : outcome (Z * option Z * loader F K) :=
  if negb (truth file) then Ret (-1, None, s)
  else
    let eh := read_ehdr m file in
    if negb (validate_ehdr eh file_size) then Ret (-2, None, s)
    else
      do! (p, h) := heap_malloc (lheap s) IMAGE_SIZE in
      if negb (truth p) then Ret (-3, None, Loader (lvm s) h (limages s))
      else
        do! (r, img, v) := load_phdrs (Z.to_nat (e_phnum eh)) 0 m file file_size (e_phoff eh)
                             (Image [] (e_entry eh)) (lvm s) in
        let s := Loader v h (<[p := img]> (limages s)) in
        if r <? 0 then do! s := elf_unload s p in Ret (r, None, s)
        else Ret (0, Some p, s).

End Operations.
