(* ===== verification/ElfSpec.v ===== *)
(** * ELF loader: what it does to the address space

    A loader state is compared with the address space it started from: the
    pages it mapped, the frame behind each of them, and the bytes in those
    frames.  Loading a page either extends this relation or restores it;
    unloading shrinks it back to nothing. *)

From S2P Require Import Prelude Memory Interfaces Paging PagingExt Elf.

Section Loaded.
  Context {F : Type} `{FrameAllocatorLaws F} `{PagingLayout}.
  Implicit Types s : vm F.

(** The entry of a user page: writable, user, present. *)
Definition user_pte (f : Z) : Z := f * 4096 + 7.

(** [s] is [s0] with the pages of [pm] (page number to frame number) mapped. *)
Record loaded (s0 s : vm F) (pm : gmap Z Z) : Prop := Loaded {
  ld_ok : vm_ok s;
  ld_frames : frames (vframes s) ⊆ frames (vframes s0);
  ld_kept q : q ∈ frames (vframes s0) -> not_table (pmem s) q ->
    q ∈ frames (vframes s) \/ exists v, pm !! v = Some q;
  ld_mono q : not_table (pmem s) q -> not_table (pmem s0) q;
  ld_pm v f : pm !! v = Some f -> f ∈ frames (vframes s0) /\ owned s f /\ 0 < f < 1024 /\
    1024 <= v < 2 ^ 20 /\ walk s0 (v * 4096) = None;
  ld_inj v v' f : pm !! v = Some f -> pm !! v' = Some f -> v = v';
  ld_walk va : is_u32 va -> walk s va =
    match pm !! (va / 4096) with Some f => Some (user_pte f) | None => walk s0 va end;
  ld_owned q : owned s0 q -> owned s q;
  ld_bytes x : owned s0 (x / 4096) -> load8 (pmem s) x = load8 (pmem s0) x;
  ld_base : frames_ok (vframes s0)
}.

Lemma loaded_refl s : vm_ok s -> loaded s s ∅.
Proof.
  intros Hok. split; try done; [intros q Hq _; by left | apply (vo_frames _ Hok)].
Qed.

(** The frames of the pages are disjoint from what [s0] owned. *)
Lemma loaded_frame_fresh s0 s pm v f : loaded s0 s pm -> pm !! v = Some f -> ~ owned s0 f.
Proof. intros Hl Hv [_ Hn]. by destruct (ld_pm _ _ _ Hl v f Hv) as (? & _). Qed.

(** Page-table operations that change no translation of interest. *)
Lemma loaded_ext s0 s s' pm :
  loaded s0 s pm -> vm_ok s' -> vm_ext s s' ->
  (forall va, is_u32 va -> walk s' va = walk s va) -> loaded s0 s' pm.
Proof.
  intros Hl Hok Hx Hw. split.
  - done.
  - intros q Hq. by apply (ld_frames _ _ _ Hl), (vx_frames _ _ Hx).
  - intros q Hq Hn. destruct (ld_kept _ _ _ Hl q Hq) as [Hin | ?]; [by apply (vx_mono _ _ Hx) | | by right].
    left. by apply (vx_kept _ _ Hx).
  - intros q Hn. by apply (ld_mono _ _ _ Hl), (vx_mono _ _ Hx).
  - intros v f Hv. destruct (ld_pm _ _ _ Hl v f Hv) as (? & Ho & ? & ? & ?).
    split_and!; try done; try lia; by apply (vm_ext_owned _ _ _ Hx).
  - apply (ld_inj _ _ _ Hl).
  - intros va Hva. rewrite Hw by done. by apply (ld_walk _ _ _ Hl).
  - intros q Hq. by apply (vm_ext_owned _ _ _ Hx), (ld_owned _ _ _ Hl).
  - intros x Hq. rewrite (vx_bytes _ _ Hx); [by apply (ld_bytes _ _ _ Hl) |].
    by apply (ld_owned _ _ _ Hl).
  - apply (ld_base _ _ _ Hl).
Qed.

(** Writing inside the frames of the loaded pages. *)
Lemma loaded_write s0 s s' pm v f :
  loaded s0 s pm -> pm !! v = Some f -> vm_ok s' -> vframes s' = vframes s ->
  same_tables (pmem s) (pmem s') ->
  (forall x, x / 4096 ≠ f -> load8 (pmem s') x = load8 (pmem s) x) -> loaded s0 s' pm.
Proof.
  intros Hl Hv Hok Hf Hs Hb.
  assert (forall q, not_table (pmem s') q <-> not_table (pmem s) q) as Hnt.
  { intros q. destruct Hs as [D _]. unfold not_table. split; intros [Hd Ht]; (split; [done |]);
      intros i Hi; [rewrite <- D by done | rewrite D by done]; by apply Ht. }
  assert (forall q, owned s' q <-> owned s q) as Ho by (intros q; unfold owned; by rewrite Hnt, Hf).
  split; rewrite ?Hf.
  - done.
  - apply (ld_frames _ _ _ Hl).
  - intros q Hq Hn. apply (ld_kept _ _ _ Hl q Hq). by apply Hnt.
  - intros q Hn. by apply (ld_mono _ _ _ Hl), Hnt.
  - intros v' f' Hv'. destruct (ld_pm _ _ _ Hl v' f' Hv') as (? & Ho' & ? & ? & ?).
    split_and!; try done; try lia; by apply Ho.
  - apply (ld_inj _ _ _ Hl).
  - intros va Hva. unfold walk. rewrite (same_tables_walk _ _ _ Hs). by apply (ld_walk _ _ _ Hl).
  - intros q Hq. by apply Ho, (ld_owned _ _ _ Hl).
  - intros x Hq. rewrite Hb; [by apply (ld_bytes _ _ _ Hl) |].
    intros E. rewrite E in Hq. by apply (loaded_frame_fresh _ _ _ _ _ Hl Hv).
  - apply (ld_base _ _ _ Hl).
Qed.

(** ** Mapping one more page *)

Lemma frame_take s f0 p :
  vm_ok s -> frame_alloc (vframes s) = (p * 4096, f0) -> 0 < p ->
  p ∈ frames (vframes s) /\ frames f0 = frames (vframes s) ∖ {[p]} /\
  vm_ok (with_frames s f0) /\ p < 2 ^ 20.
Proof.
  intros Hok Ha Hp. destruct (decide (frames (vframes s) = ∅)) as [He | He].
  { rewrite (frame_alloc_none _ (vo_frames _ Hok) He) in Ha. injection Ha as E _. lia. }
  destruct (frame_alloc_some _ (vo_frames _ Hok) He) as (p' & f' & Ha' & Hin & _ & Hfr & Hfok).
  rewrite Ha in Ha'. injection Ha' as E <-. assert (p' = p) as -> by lia.
  split_and!; [done | done | |].
  - apply with_frames_ok; [done | done |]. rewrite Hfr. by intros x [Hx _]%elem_of_difference.
  - apply (frames_range _ _ (vo_frames _ Hok) Hin).
Qed.

(** The state after a page was mapped to a frame taken from the allocator,
    seen from the state before. *)
Lemma loaded_map s0 s pm v p f0 s2 :
  loaded s0 s pm -> 1024 <= v < 2 ^ 20 -> pm !! v = None -> walk s0 (v * 4096) = None ->
  frame_alloc (vframes s) = (p * 4096, f0) -> 0 < p < 1024 ->
  vm_ok s2 -> vm_ext (with_frames s f0) s2 ->
  (forall va, is_u32 va -> walk s2 va =
     if decide (va / 4096 = v) then Some (user_pte p) else walk s va) ->
  loaded s0 s2 (<[v := p]> pm).
Proof.
  intros Hl Hv Hnone Hw0 Ha Hp Hok2 Hx Hw.
  destruct (frame_take s f0 p (ld_ok _ _ _ Hl) Ha) as (Hpin & Hfr & Hok1 & _); [lia |].
  pose proof (vx_frames _ _ Hx) as Hxf. cbn [vframes with_frames] in Hxf. rewrite Hfr in Hxf.
  assert (owned (with_frames s f0) p) as Hop.
  { split; cbn [pmem vframes with_frames].
    - eapply free_not_table; [apply (vo_tables _ (ld_ok _ _ _ Hl)) | done].
    - rewrite Hfr. intros [_ Hn]%elem_of_difference. by apply Hn, elem_of_singleton. }
  assert (forall q, owned s q -> owned (with_frames s f0) q) as Hows.
  { intros q [Hn Hq]. split; [done |]. cbn [vframes with_frames]. rewrite Hfr.
    by intros [? _]%elem_of_difference. }
  assert (forall v', pm !! v' ≠ Some p) as Hfresh.
  { intros v' Hv'. destruct (ld_pm _ _ _ Hl v' p Hv') as (_ & [_ Hn] & _). done. }
  split.
  - done.
  - intros q Hq%Hxf. apply elem_of_difference in Hq as [Hq _]. by apply (ld_frames _ _ _ Hl).
  - intros q Hq Hn. destruct (decide (q = p)) as [-> | Hne].
    { right. exists v. apply lookup_insert_eq. }
    destruct (ld_kept _ _ _ Hl q Hq) as [Hin | (v' & Hv')]; [by apply (vx_mono _ _ Hx) | |].
    + left. apply (vx_kept _ _ Hx); [| done]. cbn [vframes with_frames]. rewrite Hfr.
      apply elem_of_difference. by rewrite elem_of_singleton.
    + right. exists v'. rewrite lookup_insert_ne; [done |]. congruence.
  - intros q Hn. by apply (ld_mono _ _ _ Hl), (vx_mono _ _ Hx).
  - intros v' f Hv'. apply lookup_insert_Some in Hv' as [[<- <-] | [Hne Hv']].
    + split_and!; try lia; [by apply (ld_frames _ _ _ Hl) | by apply (vm_ext_owned _ _ _ Hx) | done].
    + destruct (ld_pm _ _ _ Hl v' f Hv') as (? & Ho & ? & ? & ?).
      split_and!; try done; try lia; by apply (vm_ext_owned _ _ _ Hx), Hows.
  - intros v1 v2 f. rewrite !lookup_insert_Some.
    intros [[<- <-] | [? H1']] [[<- E] | [? H2']]; try done.
    + by destruct (Hfresh v2).
    + subst. by destruct (Hfresh v1).
    + by apply (ld_inj _ _ _ Hl v1 v2 f).
  - intros va Hva. rewrite Hw by done. rewrite lookup_insert. 
    destruct (decide (va / 4096 = v)) as [E | E], (decide (v = va / 4096)) as [E' | E']; try congruence.
    by apply (ld_walk _ _ _ Hl).
  - intros q Hq. by apply (vm_ext_owned _ _ _ Hx), Hows, (ld_owned _ _ _ Hl).
  - intros x Hq. rewrite (vx_bytes _ _ Hx).
    + by apply (ld_bytes _ _ _ Hl).
    + by apply Hows, (ld_owned _ _ _ Hl).
  - apply (ld_base _ _ _ Hl).
Qed.

(** Taking a frame and putting it back. *)
Lemma loaded_give_back s0 s pm p f0 s2 :
  loaded s0 s pm -> frame_alloc (vframes s) = (p * 4096, f0) -> 0 < p ->
  (exists tl, s2 = with_tlb (with_frames s f0) tl /\ vm_ok s2) ->
  let s3 := with_frames s2 (frame_free (vframes s2) (p * 4096)) in
  loaded s0 s3 pm /\ frames (vframes s3) = frames (vframes s).
Proof.
  intros Hl Ha Hp (tl & -> & Hok2). cbn [vframes with_tlb with_frames].
  destruct (frame_take s f0 p (ld_ok _ _ _ Hl) Ha Hp) as (Hpin & Hfr & Hok1 & Hp20).
  assert (frames_ok f0) as Hf0 by apply (vo_frames _ Hok1).
  destruct (frame_free_spec f0 p Hf0 ltac:(lia)) as [Hfree Hfok].
  assert (frames (frame_free f0 (p * 4096)) = frames (vframes s)) as Heq.
  { rewrite Hfree, Hfr. apply set_eq. intros x. rewrite elem_of_union, elem_of_difference, elem_of_singleton.
    split; [intros [[? _] | ->]; done |]. intros Hx. destruct (decide (x = p)); [by right | by left]. }
  split; [| done].
  assert (vm_ok (with_frames (with_tlb (with_frames s f0) tl) (frame_free f0 (p * 4096)))) as Hok3.
  { destruct Hok2 as [? ? ? ? _ ?]. split; try done. cbn [pmem vframes with_frames with_tlb].
    rewrite Heq. apply (vo_tables _ (ld_ok _ _ _ Hl)). }
  destruct Hl as [_ Hlf Hlk Hlm Hlp Hli Hlw Hlo Hlb Hlx].
  split; unfold owned; cbn [vframes pmem with_frames with_tlb]; rewrite ?Heq; done.
Qed.

(** A frame that somebody else takes: the loader's state is as if it had
    started without it. *)
Lemma loaded_take s0 s pm p f g :
  loaded s0 s pm -> p ∈ frames (vframes s) -> 0 <= p ->
  frames f = frames (vframes s) ∖ {[p]} -> frames_ok f -> frames g = frames (vframes s0) ∖ {[p]} -> frames_ok g ->
  exists s1, loaded s1 (with_frames s f) pm /\ vframes s1 = g.
Proof.
  intros Hl Hp Hp0 Hf Hfok Hg Hgok. pose proof (ld_ok _ _ _ Hl) as Hok.
  pose proof (free_not_table _ _ _ (vo_tables _ Hok) Hp) as Hnt. pose proof (ld_mono _ _ _ Hl p Hnt) as Hnt0.
  set (m0 := copy_bytes 4096 (pmem s) (p * 4096) (pmem s0) (p * 4096)).
  assert (forall x, load8 m0 x = if decide (x / 4096 = p) then load8 (pmem s) x else load8 (pmem s0) x) as Hm0.
  { intros x. unfold m0. rewrite load8_copy_bytes by lia. destruct (decide (x / 4096 = p)).
    - rewrite decide_True by zdm. f_equal. lia.
    - rewrite decide_False by zdm. done. }
  assert (same_tables (pmem s0) m0) as Hst.
  { apply (same_tables_page _ _ p Hnt0). intros x Hx. by rewrite Hm0, decide_False. }
  assert (forall q, not_table m0 q <-> not_table (pmem s0) q) as Hntq.
  { intros q. split; [| by apply not_table_same]. destruct Hst as [E _]. intros [Hd Ht]. split; [done |].
    intros i Hi. rewrite <- E by done. by apply Ht. }
  exists (with_frames (with_mem s0 m0) g). split; [| done]. unfold owned.
  split; cbn [vframes pmem with_frames with_mem]; rewrite ?Hf, ?Hg; unfold owned; cbn [vframes pmem with_frames with_mem]; rewrite ?Hf, ?Hg.
  - apply with_frames_ok; [done | done |]. rewrite Hf. by intros x [Hx _]%elem_of_difference.
  - intros q [Hq Hn]%elem_of_difference. apply elem_of_difference. split; [by apply (ld_frames _ _ _ Hl) | done].
  - intros q [Hq Hn]%elem_of_difference Hqt. destruct (ld_kept _ _ _ Hl q Hq Hqt) as [? | ?]; [left | by right].
    by apply elem_of_difference.
  - intros q Hq. by apply Hntq, (ld_mono _ _ _ Hl).
  - intros v q Hv. destruct (ld_pm _ _ _ Hl v q Hv) as (Hq & [Ho Hoq] & ? & ? & Hw). split_and!; try lia.
    + apply elem_of_difference. split; [done |]. intros ->%elem_of_singleton. done.
    + done.
    + by intros [? _]%elem_of_difference.
    + unfold walk. cbn [pmem with_frames with_mem]. by rewrite (same_tables_walk _ _ _ Hst).
  - apply (ld_inj _ _ _ Hl).
  - intros va Hva. change (walk (with_frames s f) va) with (walk s va). rewrite (ld_walk _ _ _ Hl va Hva).
    destruct (pm !! _); [done |]. unfold walk. cbn [pmem with_frames with_mem]. by rewrite (same_tables_walk _ _ _ Hst).
  - intros q [Hqt Hq]. apply Hntq in Hqt. rewrite elem_of_difference, elem_of_singleton in Hq. rewrite elem_of_difference, elem_of_singleton.
    destruct (decide (q = p)) as [-> | Hne]; [tauto |]. destruct (ld_owned _ _ _ Hl q) as [? ?]; [split; tauto | tauto].
  - intros x [Hqt Hq]. apply Hntq in Hqt. rewrite elem_of_difference, elem_of_singleton in Hq. rewrite Hm0.
    case_decide as E; [done |]. apply (ld_bytes _ _ _ Hl). split; tauto.
  - done.
Qed.

Lemma size_take (X : gset Z) p : (size X <= size (X ∖ {[p]}) + 1)%nat.
Proof.
  destruct (decide (p ∈ X)).
  - rewrite size_difference by (intros x ->%elem_of_singleton; done). rewrite size_singleton. lia.
  - replace (X ∖ {[p]}) with X; [lia |]. apply set_eq. intros x.
    rewrite elem_of_difference, elem_of_singleton. split; [| tauto]. intros Hx. split; [done |]. by intros ->.
Qed.

(** A mapping takes at most one frame, for a page table. *)
Lemma vmm_map_count s virt phys flags s' :
  vm_ok s -> is_u32 virt -> virt mod 4096 = 0 -> phys mod 4096 = 0 -> pt_avail s virt ->
  vmm_map s virt phys flags = Ret (0, s') ->
  (size (frames (vframes s)) <= size (frames (vframes s')) + 1)%nat.
Proof.
  intros Hok Hv Hva Hpa Hav Hm. unfold vmm_map in Hm.
  rewrite (proj2 (aligned_check virt phys)) in Hm by done.
  destruct (get_pt_avail s virt Hok Hav) as (s1 & Hg & Hok1 & Hp1 & _). rewrite Hg in Hm.
  cbn [obind] in Hm. pose proof (dir_index_range virt) as Hi.
  assert (size (frames (vframes s)) <= size (frames (vframes s1)) + 1)%nat as Hc.
  { destruct (present (pde (pmem s) (PAGE_DIR_INDEX virt))) eqn:Hp.
    - destruct (get_pt_present s virt true Hok Hp) as (tl & Hg' & _). rewrite Hg in Hg'.
      injection Hg' as _ ->. cbn [vframes with_tlb]. lia.
    - destruct Hav as [? | (q & Hq & Hl)]; [congruence |].
      destruct (get_pt_create s virt q Hok Hp Hq Hl) as (p & s2 & Hg' & _ & _ & _ & _ & Hf).
      rewrite Hg in Hg'. injection Hg' as _ ->. rewrite Hf. apply size_take. }
  destruct (to_pt _ _ (vo_tables _ Hok1) _ Hi Hp1) as (_ & Hlow & _).
  rewrite truth_pos in Hm by lia. cbn [negb] in Hm.
  destruct (wr_low s1 (entry_frame (pde (pmem s1) (PAGE_DIR_INDEX virt)) + 4 * PAGE_TBL_INDEX virt)
    (Z.lor (Z.lor (Z.land phys 0xFFFFF000) (Z.land flags 0xFFF)) PAGE_PRESENT) Hok1) as (tl2 & Hw & _).
  { apply low_frame_addr; [done | apply load32_range | apply tbl_index_range]. }
  rewrite Hw in Hm. cbn [obind] in Hm. injection Hm as <-. exact Hc.
Qed.

(** ** Loading a page *)

(** The kernel writes the frames through the identity mapping, so those it
    takes have to be below 4 MB: as long as fewer than [n] of the free frames
    were taken, one of the others is, if there is another. *)
Definition room s (n : Z) : Prop :=
  forall X, X ⊆ frames (vframes s) -> X ≠ ∅ -> Z.of_nat (size (frames (vframes s))) < Z.of_nat (size X) + n ->
    exists q, q ∈ X /\ q < 1024.

Lemma room_all s n : (forall q, q ∈ frames (vframes s) -> q < 1024) -> room s n.
Proof. intros Hlow X Hs Hne _. destruct (set_choose_L X Hne) as [q Hq]. exists q. split; [done | by apply Hlow, Hs]. Qed.

(** [n] free frames below 4 MB are enough. *)
Lemma room_enough s n Y : Y ⊆ frames (vframes s) -> (forall q, q ∈ Y -> q < 1024) -> n <= Z.of_nat (size Y) -> room s n.
Proof.
  intros HY Hlow Hn X HX _ Hsz. destruct (decide (Y ∩ X = ∅)) as [He | Hne].
  - exfalso. assert (Y ∪ X ⊆ frames (vframes s)) as Hu by set_solver. apply subseteq_size in Hu.
    rewrite size_union in Hu; [lia | set_solver].
  - destruct (set_choose_L _ Hne) as [q Hq%elem_of_intersection]. exists q. split; [tauto | by apply Hlow, Hq].
Qed.

Lemma room_first s n p : room s n -> 0 < n -> p ∈ frames (vframes s) -> (forall q, q ∈ frames (vframes s) -> p <= q) -> p < 1024.
Proof.
  intros Hr Hn Hp Hmin. destruct (Hr (frames (vframes s))) as (q & Hq & Hlow); [done | | lia |].
  { intros E. rewrite E in Hp. by apply not_elem_of_empty in Hp. }
  specialize (Hmin q Hq). lia.
Qed.

Lemma room_step s s' n k : room s n -> frames (vframes s') ⊆ frames (vframes s) ->
  Z.of_nat (size (frames (vframes s))) <= Z.of_nat (size (frames (vframes s'))) + k -> room s' (n - k).
Proof. intros Hr Hs Hk X HX Hne Hsz. apply Hr; [by etrans | done | lia]. Qed.

Lemma room_le s n m : room s n -> m <= n -> room s m.
Proof. intros Hr Hm X HX Hne Hsz. apply Hr; [done | done | lia]. Qed.

(** A segment inside the user part of the address space, inside the file. *)
Record user_phdr (ph : elf32_phdr) : Prop := UserPhdr {
  up_low : LOW_MEM <= p_vaddr ph;
  up_mem : 0 < p_memsz ph;
  up_top : p_vaddr ph + p_memsz ph <= 2 ^ 32 - 4096;
  up_file : 0 <= p_filesz ph <= p_memsz ph;
  up_off : 0 <= p_offset ph /\ p_offset ph + p_filesz ph < 2 ^ 32
}.

(** Byte [j] of page [v] as the segment describes it. *)
Definition page_byte (m : mem) (file : Z) (ph : elf32_phdr) (v j : Z) : Z :=
  let va := v * 4096 + j in
  if decide (p_vaddr ph <= va < p_vaddr ph + p_filesz ph)
  then load8 m (u32 (file + p_offset ph + (va - p_vaddr ph))) else 0.

Definition first_page (ph : elf32_phdr) : Z := p_vaddr ph / 4096.
Definition last_page (ph : elf32_phdr) : Z := (p_vaddr ph + p_memsz ph + 4095) / 4096.

(** Filling the frame [p] behind page [v]. *)
Lemma fill_page_ok m file ph v p s :
  user_phdr ph -> first_page ph <= v < last_page ph -> vm_ok s -> 0 < p < 1024 ->
  not_table (pmem s) p ->
  exists s', (do! s := uimemset s (p * 4096) 0 0x1000 in
      let page_v_end := u32 (v * 4096 + 0x1000) in
      let file_v_end := u32 (p_vaddr ph + p_filesz ph) in
      let lo := if p_vaddr ph <? v * 4096 then v * 4096 else p_vaddr ph in
      let hi := if page_v_end <? file_v_end then page_v_end else file_v_end in
      if lo <? hi then
        let file_off := u32 (p_offset ph + u32 (lo - p_vaddr ph)) in
        do! s := uimemcpy s (u32 (p * 4096 + u32 (lo - v * 4096))) m (u32 (file + file_off)) (u32 (hi - lo)) in
        Ret (0, s)
      else Ret (0, s)) = Ret (0, s') /\
    vm_ok s' /\ vframes s' = vframes s /\ same_tables (pmem s) (pmem s') /\
    (forall x, x / 4096 ≠ p -> load8 (pmem s') x = load8 (pmem s) x) /\
    forall j, 0 <= j < 4096 -> load8 (pmem s') (p * 4096 + j) = page_byte m file ph v j.
Proof.
  intros [Hlow Hmem Htop Hfile [Hoff Hofs]] Hv Hok Hp Hnt. unfold first_page, last_page, LOW_MEM in *.
  assert (0 <= v * 4096 /\ v * 4096 + 4096 <= 2 ^ 32 - 1) as [Hv0 Hv32] by zdm.
  unfold uimemset, uimemcpy.
  destruct (write_bytes_ok s p 0 0x1000 (fun _ => 0) Hok Hp Hnt) as (s1 & E1 & Hok1 & Hf1 & Hs1 & Hb1);
    [lia .. |].
  rewrite Z.add_0_r in E1, Hb1. rewrite E1. cbn [obind]. cbv zeta.
  rewrite (u32_small (v * 4096 + _)), (u32_small (p_vaddr ph + p_filesz ph)) by lia.
  set (lo := if p_vaddr ph <? v * 4096 then v * 4096 else p_vaddr ph).
  set (hi := if v * 4096 + 4096 <? _ then _ else _).
  assert (lo = Z.max (p_vaddr ph) (v * 4096)) as Elo by (unfold lo; case_ltb; lia).
  assert (hi = Z.min (v * 4096 + 4096) (p_vaddr ph + p_filesz ph)) as Ehi by (unfold hi; case_ltb; lia).
  clearbody lo hi.
  assert (forall j, 0 <= j < 4096 -> load8 (pmem s1) (p * 4096 + j) = 0) as Hz.
  { intros j Hj. rewrite Hb1, decide_True by lia. done. }
  assert (forall x, x / 4096 ≠ p -> load8 (pmem s1) x = load8 (pmem s) x) as Ho.
  { intros x Hx. rewrite Hb1, decide_False by zdm. done. }
  destruct (Z.ltb_spec lo hi) as [Hlt | Hge].
  - rewrite (u32_small (lo - p_vaddr ph)), (u32_small (p_offset ph + _)), (u32_small (lo - v * 4096)),
      (u32_small (p * 4096 + _)), (u32_small (hi - lo)) by lia.
    destruct (write_bytes_ok s1 p (lo - v * 4096) (hi - lo)
      (fun i => load8 m (u32 (u32 (file + (p_offset ph + (lo - p_vaddr ph))) + i))) Hok1 Hp
      (not_table_same _ _ _ Hs1 Hnt)) as (s2 & E2 & Hok2 & Hf2 & Hs2 & Hb2); [lia .. |].
    rewrite E2. cbn [obind]. exists s2.
    split_and!; [done | done | congruence | by eapply same_tables_trans | |].
    + intros x Hx. rewrite Hb2, decide_False by zdm. by apply Ho.
    + intros j Hj. rewrite Hb2. unfold page_byte. case_decide as E.
      * rewrite decide_True, u8_small by (apply load8_range || lia). f_equal.
        unfold u32. rewrite Zplus_mod_idemp_l. f_equal. lia.
      * rewrite decide_False by lia. by apply Hz.
  - exists s1. split_and!; [done | done | done | done | done |]. intros j Hj. rewrite Hz by done.
    unfold page_byte. rewrite decide_False by lia. done.
Qed.

Lemma user_pte_new p : 0 < p < 1024 -> new_pte (p * 4096) (Z.lor PAGE_RW PAGE_USER) = user_pte p.
Proof.
  intros Hp. destruct (new_pte_spec (p * 4096) (Z.lor PAGE_RW PAGE_USER)) as (-> & _);
    [unfold is_u32; lia | zdm | done].
Qed.

(** The bytes of the pages mapped so far. *)
Definition same_pages (pm : gmap Z Z) s s' : Prop :=
  forall v f j, pm !! v = Some f -> 0 <= j < 4096 ->
    load8 (pmem s') (f * 4096 + j) = load8 (pmem s) (f * 4096 + j).

Lemma same_pages_ext s0 s s' pm : loaded s0 s pm -> vm_ext s s' -> same_pages pm s s'.
Proof.
  intros Hl Hx v f j Hv Hj. apply (vx_bytes _ _ Hx).
  replace ((f * 4096 + j) / 4096) with f by zdm. apply (ld_pm _ _ _ Hl v f Hv).
Qed.

Lemma same_pages_trans pm s1 s2 s3 : same_pages pm s1 s2 -> same_pages pm s2 s3 -> same_pages pm s1 s3.
Proof. intros H12 H23 v f j Hv Hj. rewrite (H23 v) by done. by apply (H12 v). Qed.

Lemma same_pages_sub pm pm' s s' :
  (forall v f, pm !! v = Some f -> pm' !! v = Some f) -> same_pages pm' s s' -> same_pages pm s s'.
Proof. intros Hsub Hs v f j Hv Hj. by apply (Hs v f j (Hsub v f Hv)). Qed.

(** Nothing changed but a frame was tried: a failed step. *)
Definition load_failed s0 s s' pm : Prop :=
  loaded s0 s' pm /\ frames (vframes s') = frames (vframes s) /\
  (size (frames (vframes s')) <= 1)%nat /\ same_pages pm s s'.

(** Loading one page of a segment: it fails when the frames have run out and
    then changes nothing, or the page is mapped to a new frame that holds the
    bytes of the segment. *)
Lemma load_page_ok s0 s pm m file ph v :
  loaded s0 s pm -> room s 2 -> user_phdr ph -> first_page ph <= v < last_page ph ->
  pm !! v = None -> walk s0 (v * 4096) = None ->
  (exists s', load_page m file ph (v * 4096) s = Ret (-1, s') /\ load_failed s0 s s' pm) \/
  (exists s' f, load_page m file ph (v * 4096) s = Ret (0, s') /\ loaded s0 s' (<[v := f]> pm) /\
     same_pages pm s s' /\ frames (vframes s') ⊆ frames (vframes s) /\
     (size (frames (vframes s)) <= size (frames (vframes s')) + 2)%nat /\
     forall j, 0 <= j < 4096 -> load8 (pmem s') (f * 4096 + j) = page_byte m file ph v j).
Proof.
  intros Hl Hlow Hph Hv Hnone Hw0. pose proof (ld_ok _ _ _ Hl) as Hok.
  assert (1024 <= v < 2 ^ 20 - 1) as Hvr.
  { destruct Hph. unfold first_page, last_page, LOW_MEM in *. zdm. }
  unfold load_page. destruct (decide (frames (vframes s) = ∅)) as [He | He].
  { rewrite (frame_alloc_none _ (vo_frames _ Hok) He). left. cbn [truth negb Z.eqb].
    exists (with_frames s (vframes s)). split; [done |].
    assert (with_frames s (vframes s) = s) as -> by (by destruct s).
    split_and!; [done | done | rewrite He; rewrite size_empty; lia | done]. }
  destruct (frame_alloc_some _ (vo_frames _ Hok) He) as (p & f0 & Ha & Hpin & Hmin & Hfr & _).
  rewrite Ha. assert (0 < p < 1024) as Hp.
  { pose proof (frames_range _ _ (vo_frames _ Hok) Hpin). split; [lia |].
    by apply (room_first s 2 p Hlow). }
  destruct (frame_take s f0 p Hok Ha) as (_ & _ & Hok1 & _); [lia |].
  rewrite truth_pos by lia. cbn [negb]. set (s1 := with_frames s f0) in *.
  assert (is_u32 (v * 4096)) as Hv32 by (unfold is_u32; lia).
  assert (is_u32 (p * 4096)) as Hp32 by (unfold is_u32; lia).
  assert (v * 4096 mod 4096 = 0 /\ p * 4096 mod 4096 = 0) as [Hva Hpa] by (split; zdm).
  destruct (decide (pt_avail s1 (v * 4096) )) as [Hav | Hav].
  2: { left. assert (present (pde (pmem s1) (PAGE_DIR_INDEX (v * 4096))) = false) as Hpd.
       { destruct (present _) eqn:E; [| done]. destruct Hav. by left. }
       assert (frames (vframes s1) = ∅) as Hemp.
       { destruct (decide (frames (vframes s1) = ∅)) as [| Hne]; [done | exfalso]. apply Hav. right.
         apply Hlow; unfold s1 in *; cbn [vframes with_frames] in *; rewrite Hfr in *; [by intros q [Hq _]%elem_of_difference | done |].
         pose proof (size_take (frames (vframes s)) p). lia. }
       destruct (vmm_map_oom s1 (v * 4096) (p * 4096) (Z.lor PAGE_RW PAGE_USER) Hok1 Hv32 Hva Hpa Hpd Hemp)
         as (tl & E & Hok2). cbv zeta. rewrite E. cbn [obind]. change (-1 <? 0) with true. cbv iota.
       destruct (loaded_give_back s0 s pm p f0 (with_tlb s1 tl) Hl Ha) as [Hl3 Hf3]; [lia | eauto |].
       eexists. split; [reflexivity |]. split_and!; [exact Hl3 | exact Hf3 | | by intros ? ? ? ? ?].
       rewrite Hf3. pose proof (size_take (frames (vframes s)) p) as Hsz.
       unfold s1 in Hemp. cbn [vframes with_frames] in Hemp. rewrite <- Hfr, Hemp, size_empty in Hsz. lia. }
  right.
  destruct (vmm_map_ok s1 (v * 4096) (p * 4096) (Z.lor PAGE_RW PAGE_USER) Hok1 Hv32 Hp32 Hva Hpa)
    as (s2 & E & Hok2 & _ & Hw2); [unfold LOW_MEM; lia | done |].
  pose proof (vmm_map_ext _ _ _ _ _ Hok1 Hv32 Hva Hpa Hav E) as Hx2.
  pose proof (vmm_map_count _ _ _ _ _ Hok1 Hv32 Hva Hpa Hav E) as Hc2.
  cbv zeta. rewrite E. cbn [obind]. change (0 <? 0) with false. cbv iota.
  assert (loaded s0 s2 (<[v := p]> pm)) as Hl2.
  { eapply loaded_map; [exact Hl | lia | done | done | exact Ha | done | done | exact Hx2 |].
    intros va Hva'. rewrite Hw2, user_pte_new, Z.div_mul by done. done. }
  assert (not_table (pmem s2) p) as Hnt.
  { destruct (ld_pm _ _ _ Hl2 v p) as (_ & [? _] & _); [apply lookup_insert_eq | done]. }
  destruct (fill_page_ok m file ph v p s2 Hph Hv Hok2 Hp Hnt)
    as (s3 & E3 & Hok3 & Hf3 & Hs3 & Ho3 & Hb3).
  exists s3, p. split; [exact E3 |].
  assert (frames (vframes s3) ⊆ frames (vframes s)) as Hsub.
  { rewrite Hf3. pose proof (vx_frames _ _ Hx2) as Hx. unfold s1 in Hx. cbn [vframes with_frames] in Hx. rewrite Hfr in Hx.
    intros q [Hq _]%Hx%elem_of_difference. exact Hq. }
  split_and!.
  - eapply loaded_write; [exact Hl2 | apply lookup_insert_eq | done | done | done | done].
  - intros v' f' j Hv' Hj. assert (f' ≠ p) as Hne.
    { intros ->. destruct (ld_pm _ _ _ Hl v' p Hv') as (_ & [_ Hn] & _). exact (Hn Hpin). }
    rewrite Ho3 by zdm. apply (vx_bytes _ _ Hx2). replace ((f' * 4096 + j) / 4096) with f' by zdm.
    destruct (ld_pm _ _ _ Hl v' f' Hv') as (_ & [Hn Hq] & _). split; [done |].
    unfold s1. cbn [vframes with_frames]. rewrite Hfr.
    intros [Hin _]%elem_of_difference. exact (Hq Hin).
  - exact Hsub.
  - rewrite Hf3. pose proof (size_take (frames (vframes s)) p) as Hsz. rewrite <- Hfr in Hsz.
    unfold s1 in Hc2. cbn [vframes with_frames] in Hc2. lia.
  - done.
Qed.

(** ** Unloading a page *)

Lemma walk_page s va vb : is_u32 va -> is_u32 vb -> va / 4096 = vb / 4096 -> walk s va = walk s vb.
Proof. intros. by apply hw_walk_page. Qed.

(** One round of the loop of [elf_unload]. *)
Lemma unload_page_ok s0 s pm v f :
  loaded s0 s pm -> pm !! v = Some f ->
  exists s1 s2, vmm_get_phys s (v * 4096) = Ret (f * 4096, s1) /\ vmm_unmap s1 (v * 4096) = Ret s2 /\
    same_pages pm s (with_frames s2 (frame_free (vframes s2) (f * 4096))) /\
    loaded s0 (with_frames s2 (frame_free (vframes s2) (f * 4096))) (delete v pm).
Proof.
  intros Hl Hv. pose proof (ld_ok _ _ _ Hl) as Hok.
  destruct (ld_pm _ _ _ Hl v f Hv) as (Hfin & Hof & Hfr & Hvr & Hw0).
  assert (is_u32 (v * 4096)) as Hv32 by (unfold is_u32; lia).
  destruct (vmm_get_phys_ok s (v * 4096) Hok Hv32) as (tl & Eg & Hok1).
  rewrite (ld_walk _ _ _ Hl), Z.div_mul, Hv, Z.mod_mul, Z.add_0_r in Eg by done.
  unfold user_pte in Eg. rewrite entry_frame_add in Eg by zdm.
  set (s1 := with_tlb s tl) in *.
  destruct (vmm_unmap_ok s1 (v * 4096) Hok1 Hv32) as (s2 & Eu & Hok2 & Hf2 & Hw2);
    [unfold LOW_MEM; lia |].
  pose proof (vmm_unmap_ext _ _ _ Hok1 Hv32 Eu) as Hx12.
  pose proof (vm_ext_trans _ _ _ (vm_ext_tlb s tl) Hx12) as Hx2. fold s1 in Hx2.
  exists s1, s2. split; [done |]. split; [done |]. split.
  { apply (same_pages_ext s0 s s2 pm Hl Hx2). }
  cbn [vframes s1 with_tlb] in Hf2. change (vframes s2 = vframes s) in Hf2.
  pose proof (vm_ext_owned _ _ _ Hx2 Hof) as Hof2.
  destruct (frame_free_spec (vframes s2) f (vo_frames _ Hok2)) as [Hfree _]; [lia |].
  assert (forall q, owned s2 q -> q ≠ f ->
    owned (with_frames s2 (frame_free (vframes s2) (f * 4096))) q) as Hown.
  { intros q [Hn Hq] Hne. split; [done |]. cbn [vframes with_frames]. rewrite Hfree.
    intros [Hin | E%elem_of_singleton]%elem_of_union; [exact (Hq Hin) | exact (Hne E)]. }
  assert (forall q, owned s0 q -> q ≠ f) as Hne0 by (intros q [_ Hq] ->; exact (Hq Hfin)).
  split.
  - apply with_frames_free_ok; [done | lia | apply Hof2].
  - cbn [vframes with_frames]. rewrite Hfree, Hf2.
    intros q [Hq | ->%elem_of_singleton]%elem_of_union; [by apply (ld_frames _ _ _ Hl) | done].
  - intros q Hq Hn. cbn [vframes with_frames pmem] in *. rewrite Hfree, Hf2.
    destruct (decide (q = f)) as [-> | Hne]; [left; apply elem_of_union; right; by apply elem_of_singleton |].
    destruct (ld_kept _ _ _ Hl q Hq) as [Hin | (v' & Hv')]; [by apply (vx_mono _ _ Hx2) | |].
    + left. apply elem_of_union. by left.
    + right. exists v'. rewrite lookup_delete_ne; [done |]. congruence.
  - intros q Hn. by apply (ld_mono _ _ _ Hl), (vx_mono _ _ Hx2).
  - intros v' f' [Hne Hv']%lookup_delete_Some. destruct (ld_pm _ _ _ Hl v' f' Hv') as (? & Ho & ? & ? & ?).
    split_and!; try done; try lia. apply Hown; [by apply (vm_ext_owned _ _ _ Hx2) |].
    intros ->. apply Hne. by apply (ld_inj _ _ _ Hl v v' f).
  - intros v1 v2 f' [_ H1']%lookup_delete_Some [_ H2']%lookup_delete_Some.
    by apply (ld_inj _ _ _ Hl v1 v2 f').
  - intros va Hva. change (walk s2 va = match delete v pm !! (va / 4096) with
      Some f => Some (user_pte f) | None => walk s0 va end).
    rewrite Hw2, Z.div_mul, lookup_delete by done.
    destruct (decide (va / 4096 = v)) as [E | E], (decide (v = va / 4096)) as [E' | E']; try congruence.
    + rewrite <- Hw0. apply walk_page; [done | done |]. rewrite Z.div_mul; congruence.
    + by apply (ld_walk _ _ _ Hl).
  - intros q Hq. apply Hown; [| by apply Hne0]. by apply (vm_ext_owned _ _ _ Hx2), (ld_owned _ _ _ Hl).
  - intros x Hq. cbn [pmem with_frames]. rewrite (vx_bytes _ _ Hx2).
    + by apply (ld_bytes _ _ _ Hl).
    + by apply (ld_owned _ _ _ Hl).
  - apply (ld_base _ _ _ Hl).
Qed.

(** [pm] without the pages from [a] to [b]. *)
Definition drop_pages (a b : Z) (pm : gmap Z Z) : gmap Z Z := filter (fun kv => ~ (a <= kv.1 < b)) pm.

Lemma lookup_drop_pages a b pm v :
  drop_pages a b pm !! v = if decide (a <= v < b) then None else pm !! v.
Proof.
  unfold drop_pages. apply option_eq. intros f. rewrite map_lookup_filter_Some. cbn [fst].
  case_decide; split; try tauto; by intros.
Qed.

Lemma drop_pages_empty a pm : drop_pages a a pm = pm.
Proof. apply map_eq. intros v. rewrite lookup_drop_pages, decide_False by lia. done. Qed.

Lemma drop_pages_step a b pm : a < b -> drop_pages (a + 1) b (delete a pm) = drop_pages a b pm.
Proof.
  intros Hab. apply map_eq. intros v. rewrite !lookup_drop_pages, lookup_delete.
  repeat case_decide; done || lia.
Qed.

Lemma unload_pages_ok n p vp s0 s pm :
  loaded s0 s pm -> 0 <= p -> (forall v, vp + p <= v < vp + p + Z.of_nat n -> is_Some (pm !! v)) ->
  exists s', unload_pages n p (vp * 4096) s = Ret s' /\
    loaded s0 s' (drop_pages (vp + p) (vp + p + Z.of_nat n) pm) /\
    same_pages (drop_pages (vp + p) (vp + p + Z.of_nat n) pm) s s'.
Proof.
  revert p s pm. induction n as [|n IH]; intros p s pm Hl Hp Hin.
  { exists s. split; [done |]. rewrite Z.add_0_r. by rewrite drop_pages_empty. }
  cbn [unload_pages]. destruct (Hin (vp + p)) as [f Hv]; [lia |].
  destruct (ld_pm _ _ _ Hl _ _ Hv) as (_ & _ & Hfr & Hvr & _).
  assert (u32 (vp * 4096 + u32 (p * 4096)) = (vp + p) * 4096) as ->.
  { unfold u32. rewrite Zplus_mod_idemp_r. rewrite Z.mod_small by lia. lia. }
  destruct (unload_page_ok s0 s pm (vp + p) f Hl Hv) as (s1 & s2 & -> & E2 & Hsp & Hl'). cbn [obind].
  rewrite E2. cbn [obind]. rewrite (proj2 (Z.eqb_neq (f * 4096) _)) by lia. cbn [negb].
  rewrite land_page_mask, Z.mod_mul, Z.sub_0_r by (done || unfold is_u32; lia).
  destruct (IH (p + 1) _ _ Hl') as (s' & E & Hl2 & Hsp2); [lia | |].
  { intros v Hv'. rewrite lookup_delete_ne by lia. apply Hin. lia. }
  exists s'. split; [exact E |]. replace (vp + (p + 1)) with (vp + p + 1) in Hl2, Hsp2 by lia.
  rewrite drop_pages_step in Hl2, Hsp2 by lia.
  replace (vp + p + Z.of_nat (S n)) with (vp + p + 1 + Z.of_nat n) by lia. split; [done |].
  eapply same_pages_trans; [| exact Hsp2]. eapply same_pages_sub; [| exact Hsp].
  intros v f'. rewrite lookup_drop_pages. by case_decide.
Qed.

(** ** Loading the pages of a segment *)

(** Page [v] is mapped and holds the bytes of the segment. *)
Definition filled (m : mem) (file : Z) (ph : elf32_phdr) s (pm : gmap Z Z) (v : Z) : Prop :=
  exists f, pm !! v = Some f /\
    forall j, 0 <= j < 4096 -> load8 (pmem s) (f * 4096 + j) = page_byte m file ph v j.

Lemma filled_same m file ph s s' pm pm' v :
  filled m file ph s pm v -> pm' !! v = pm !! v -> same_pages pm s s' -> filled m file ph s' pm' v.
Proof.
  intros (f & Hv & Hb) E Hs. exists f. split; [congruence |]. intros j Hj.
  rewrite (Hs v f j Hv Hj). by apply Hb.
Qed.

Lemma load_pages_ok n i s0 s pm m file ph :
  loaded s0 s pm -> room s (2 * Z.of_nat n) -> user_phdr ph -> 0 <= i ->
  first_page ph + i + Z.of_nat n <= last_page ph ->
  (forall v, first_page ph + i <= v < first_page ph + i + Z.of_nat n ->
     pm !! v = None /\ walk s0 (v * 4096) = None) ->
  exists r c s' pm', load_pages n i m file ph (first_page ph * 4096) i s = Ret (r, c, s') /\
    loaded s0 s' pm' /\ same_pages pm s s' /\ frames (vframes s') ⊆ frames (vframes s) /\ i <= c /\
    (forall v, pm' !! v = pm !! v \/ first_page ph + i <= v < first_page ph + c /\ pm !! v = None) /\
    (forall v, first_page ph + i <= v < first_page ph + c -> filled m file ph s' pm' v) /\
    (Z.of_nat (size (frames (vframes s))) <= Z.of_nat (size (frames (vframes s'))) + 2 * (c - i)) /\
    (r = 0 /\ c = i + Z.of_nat n \/
     r = -1 /\ c < i + Z.of_nat n /\ (size (frames (vframes s')) <= 1)%nat).
Proof.
  revert i s pm. induction n as [|n IH]; intros i s pm Hl Hlow Hph Hi Hn Hfree.
  { exists 0, i, s, pm. split_and!; try done; try lia. by left. }
  assert (1024 <= first_page ph /\ last_page ph <= 2 ^ 20 - 1) as [Hfp Hlp].
  { destruct Hph. unfold first_page, last_page, LOW_MEM in *. zdm. }
  cbn [load_pages].
  assert (u32 (first_page ph * 4096 + u32 (i * 4096)) = (first_page ph + i) * 4096) as ->.
  { unfold u32. rewrite Zplus_mod_idemp_r, Z.mod_small by lia. lia. }
  destruct (Hfree (first_page ph + i)) as [Hnone Hw0]; [lia |].
  destruct (load_page_ok s0 s pm m file ph (first_page ph + i) Hl (room_le _ _ 2 Hlow ltac:(lia)) Hph) as
    [(s1 & -> & Hl1 & Hf1 & Hsz & Hsp) | (s1 & f & -> & Hl1 & Hsp & Hsub & Hsz & Hb)];
    [lia | done | done | |]; cbn [obind].
  { exists (-1), i, s1, pm. change (-1 <? 0) with true. cbv iota. rewrite Hf1 in *.
    split_and!; try done; try lia. by left. }
  change (0 <? 0) with false. cbv iota. rewrite u32_small by lia.
  destruct (IH (i + 1) s1 (<[first_page ph + i := f]> pm)) as
    (r & c & s2 & pm2 & E & Hl2 & Hsp2 & Hsub2 & Hc & Hpm2 & Hfill & Hsz2 & Hr); [done | | done | lia | lia | |].
  { apply (room_le _ (2 * Z.of_nat (S n) - 2)); [| lia]. apply (room_step s); [done | done | lia]. }
  { intros v Hv. rewrite lookup_insert_ne by lia. apply Hfree. lia. }
  exists r, c, s2, pm2. split; [exact E |]. split_and!.
  - done.
  - apply (same_pages_trans _ _ s1); [done |]. eapply same_pages_sub; [| exact Hsp2].
    intros v f' Hv. rewrite lookup_insert_ne; [done | congruence].
  - by etrans.
  - lia.
  - intros v. destruct (decide (v = first_page ph + i)) as [-> | Hne].
    + right. split; [lia | done].
    + destruct (Hpm2 v) as [-> | [? Hv]]; rewrite lookup_insert_ne in * by done; [by left | right].
      split; [lia | done].
  - intros v Hv. destruct (decide (v = first_page ph + i)) as [-> | Hne]; [| apply Hfill; lia].
    apply (filled_same _ _ _ s1 _ (<[first_page ph + i := f]> pm)); [| | done].
    + exists f. split; [apply lookup_insert_eq | done].
    + destruct (Hpm2 (first_page ph + i)) as [-> | [? _]]; [done | lia].
  - lia.
  - lia.
Qed.

(** ** The segments of an image and the pages they name *)

(** The segments of [l] name mapped pages, each once; [rest] is what remains
    of [pm] without them. *)
Fixpoint covers (l : list user_seg) (rest pm : gmap Z Z) : Prop :=
  match l with
  | [] => pm = rest
  | sg :: l' =>
      exists vp, vaddr sg = vp * 4096 /\ 0 <= pages sg /\
        (forall v, vp <= v < vp + pages sg -> is_Some (pm !! v)) /\
        covers l' rest (drop_pages vp (vp + pages sg) pm)
  end.

(** Page [v] belongs to one of the segments. *)
Definition in_segs (l : list user_seg) (v : Z) : Prop :=
  Exists (fun sg => vaddr sg / 4096 <= v < vaddr sg / 4096 + pages sg) l.

#[export] Instance in_segs_dec l v : Decision (in_segs l v).
Proof. unfold in_segs. apply _. Defined.

Lemma in_segs_cons vp n l v :
  in_segs (Seg (vp * 4096) n :: l) v <-> vp <= v < vp + n \/ in_segs l v.
Proof. unfold in_segs. rewrite Exists_cons. cbn [vaddr pages]. by rewrite Z.div_mul. Qed.

Lemma covers_rest l rest pm v :
  covers l rest pm -> rest !! v = if decide (in_segs l v) then None else pm !! v.
Proof.
  revert pm. induction l as [|[va n] l IH]; intros pm; cbn [covers].
  - intros ->. rewrite decide_False; [done |]. by intros ?%Exists_nil.
  - cbn [vaddr pages]. intros (vp & -> & _ & _ & Hc). rewrite (IH _ Hc), lookup_drop_pages.
    pose proof (in_segs_cons vp n l v). repeat case_decide; tauto.
Qed.

Lemma covers_in l rest pm v : covers l rest pm -> in_segs l v -> is_Some (pm !! v).
Proof.
  revert pm. induction l as [|[va n] l IH]; intros pm; cbn [covers].
  - by intros _ ?%Exists_nil.
  - cbn [vaddr pages]. intros (vp & -> & _ & Hin & Hc) [Hv | Hv]%in_segs_cons; [by apply Hin |].
    specialize (IH _ Hc Hv). rewrite lookup_drop_pages in IH. case_decide; [by destruct IH | done].
Qed.

(** What the segments name stays described when other pages come and go. *)
Lemma covers_other l rest pm pm' :
  covers l rest pm -> (forall v, in_segs l v -> pm' !! v = pm !! v) -> exists rest', covers l rest' pm'.
Proof.
  revert pm pm'. induction l as [|[va n] l IH]; intros pm pm'; cbn [covers].
  - by eauto.
  - cbn [vaddr pages]. intros (vp & -> & Hn & Hin & Hc) Heq.
    destruct (IH _ (drop_pages vp (vp + n) pm') Hc) as [rest' Hc'].
    + intros v Hv. rewrite !lookup_drop_pages. case_decide; [done |].
      apply Heq, in_segs_cons. by right.
    + exists rest', vp. split_and!; [done | done | | done]. intros v Hv. rewrite Heq; [by apply Hin |].
      apply in_segs_cons. by left.
Qed.

Lemma unload_segs_ok l s0 s rest pm :
  loaded s0 s pm -> covers l rest pm ->
  exists s', unload_segs l s = Ret s' /\ loaded s0 s' rest /\ same_pages rest s s'.
Proof.
  revert s pm. induction l as [|sg l IH]; intros s pm Hl Hc; cbn [covers unload_segs] in *.
  { subst pm. exists s. by split_and!. }
  destruct Hc as (vp & Hva & Hpg & Hin & Hc). rewrite Hva.
  destruct (unload_pages_ok (Z.to_nat (pages sg)) 0 vp s0 s pm Hl) as (s1 & E & Hl1 & Hsp1); [lia | |].
  { intros v Hv. apply Hin. lia. }
  rewrite E. cbn [obind]. rewrite Z.add_0_r, Z2Nat.id in Hl1, Hsp1 by done.
  destruct (IH s1 _ Hl1 Hc) as (s2 & E2 & Hl2 & Hsp2). exists s2. split_and!; [done | done |].
  apply (same_pages_trans _ _ s1); [| done]. eapply same_pages_sub; [| exact Hsp1].
  intros v f Hv. rewrite (covers_rest _ _ _ v Hc) in Hv. by case_decide.
Qed.

(** One more segment, whose pages were not mapped before. *)
Lemma covers_snoc l rest pm pm' vp c :
  covers l rest pm -> 0 <= c ->
  (forall v, ~ vp <= v < vp + c -> pm' !! v = pm !! v) ->
  (forall v, vp <= v < vp + c -> pm !! v = None /\ is_Some (pm' !! v)) ->
  covers (l ++ [Seg (vp * 4096) c]) rest pm'.
Proof.
  revert pm pm'. induction l as [|sg l IH]; intros pm pm' Hc Hc0 Hout Hin; cbn [covers app] in *.
  - subst rest. exists vp. split_and!; [done | done | by apply Hin |]. apply map_eq. intros v.
    rewrite lookup_drop_pages. case_decide as E; cbn [pages] in E; [| by rewrite Hout].
    symmetry. by apply Hin.
  - destruct Hc as (vp1 & Hva & Hpg & Hin1 & Hc). exists vp1.
    assert (forall v, vp1 <= v < vp1 + pages sg -> ~ vp <= v < vp + c) as Hdis.
    { intros v Hv1 Hv2. destruct (Hin1 v Hv1) as [f E]. destruct (Hin v Hv2). congruence. }
    split_and!; [done | done | |].
    + intros v Hv. rewrite Hout by (by apply Hdis). by apply Hin1.
    + apply (IH _ _ Hc Hc0); intros v Hv; rewrite !lookup_drop_pages.
      * case_decide; [done | by apply Hout].
      * rewrite !decide_False by (intros Hv1; by apply (Hdis v)). by apply Hin.
Qed.

(** ** Loading a segment *)

Lemma seg_start_page ph : user_phdr ph -> seg_start ph = first_page ph * 4096.
Proof.
  intros [? ? ? _ _]. unfold seg_start, first_page, LOW_MEM in *. change (not32 0xFFF) with 0xFFFFF000.
  rewrite land_page_mask by (unfold is_u32; lia). zdm.
Qed.

Lemma seg_end_page ph : user_phdr ph -> seg_end ph = last_page ph * 4096.
Proof.
  intros [? ? ? _ _]. unfold seg_end, last_page, LOW_MEM in *. change (not32 0xFFF) with 0xFFFFF000.
  rewrite !u32_small by (try rewrite u32_small; lia).
  rewrite land_page_mask by (unfold is_u32; lia). zdm.
Qed.

Lemma seg_nonempty ph : user_phdr ph -> 0 < first_page ph < last_page ph /\ last_page ph < 2 ^ 20.
Proof. intros [? ? ? _ _]. unfold first_page, last_page, LOW_MEM in *. zdm. Qed.

Definition seg_pages (ph : elf32_phdr) : Z := last_page ph - first_page ph.

(** No page of the segment is in use. *)
Definition pages_free s0 (pm : gmap Z Z) (ph : elf32_phdr) : Prop :=
  forall v, first_page ph <= v < last_page ph -> pm !! v = None /\ walk s0 (v * 4096) = None.

Definition segment_filled (m : mem) (file : Z) s (pm : gmap Z Z) (ph : elf32_phdr) : Prop :=
  forall v, first_page ph <= v < last_page ph -> filled m file ph s pm v.

Lemma load_segment_ok s0 s rest pm m file ph img :
  loaded s0 s pm -> room s (2 * seg_pages ph) -> user_phdr ph -> covers (segs img) rest pm -> pages_free s0 pm ph ->
  exists r img' s' pm', load_segment m file ph img s = Ret (r, img', s') /\
    loaded s0 s' pm' /\ covers (segs img') rest pm' /\ entry img' = entry img /\ same_pages pm s s' /\
    frames (vframes s') ⊆ frames (vframes s) /\
    (forall v, pm' !! v = pm !! v \/ first_page ph <= v < last_page ph /\ pm !! v = None) /\
    (r = 0 /\ segment_filled m file s' pm' ph /\ seg_count img' = seg_count img + 1 /\
       Z.of_nat (size (frames (vframes s))) <= Z.of_nat (size (frames (vframes s'))) + 2 * seg_pages ph \/
     r = -1 /\ (MAX_USER_SEGMENTS <= seg_count img \/
       Z.of_nat (size (frames (vframes s))) <= 2 * seg_pages ph)).
Proof.
  intros Hl Hlow Hph Hcov Hfree. pose proof (seg_nonempty ph Hph) as [Hne Htop].
  unfold load_segment, seg_pages. rewrite (seg_start_page ph Hph), (seg_end_page ph Hph).
  destruct (Z.leb_spec MAX_USER_SEGMENTS (seg_count img)) as [Hfull | Hroom].
  { exists (-1), img, s, pm. split_and!; try done; [by left | right; split; [done | by left]]. }
  rewrite (proj2 (Z.leb_gt _ _)) by lia. rewrite u32_small by lia.
  replace ((last_page ph * 4096 - first_page ph * 4096) / 4096) with (last_page ph - first_page ph) by zdm.
  destruct (load_pages_ok (Z.to_nat (last_page ph - first_page ph)) 0 s0 s pm m file ph Hl)
    as (r & c & s' & pm' & E & Hl' & Hsp & Hsub & Hc & Hpm & Hfill & Hsz & Hr); [| done | lia | lia | |].
  { apply (room_le _ _ _ Hlow). unfold seg_pages. lia. }
  { intros v Hv. apply Hfree. lia. }
  rewrite E. cbn [obind]. exists r, (Image (segs img ++ [Seg (first_page ph * 4096) c]) (entry img)), s', pm'.
  rewrite Z.add_0_r in *. split_and!; try done; cbn [segs].
  - apply (covers_snoc _ _ pm); [done | lia | |]; intros v Hv.
    + destruct (Hpm v) as [? | [? _]]; [done | lia].
    + split; [apply Hfree; lia |]. destruct (Hfill v) as (f & -> & _); [lia | done].
  - intros v. destruct (Hpm v) as [? | [? ?]]; [by left | right; split; [lia | done]].
  - destruct Hr as [[-> Ec] | (-> & Hlt & Hone)].
    + left. split_and!; try done; [| | lia].
      * intros v Hv. apply Hfill. lia.
      * unfold seg_count. cbn [segs]. rewrite length_app. cbn. lia.
    + right. split; [done |]. right. lia.
Qed.

(** ** Loading all segments *)

(** The program headers from number [i] on, and those [elf_load] loads. *)
Fixpoint headers (n : nat) (i : Z) (m : mem) (file phoff : Z) : list elf32_phdr :=
  match n with
  | O => []
  | S n' => read_phdr m (u32 (file + u32 (phoff + i * PHDR_SIZE))) :: headers n' (i + 1) m file phoff
  end.

Definition loads (ph : elf32_phdr) : bool := (p_type ph =? PT_LOAD) && negb (p_memsz ph =? 0).

Definition page_disjoint (ph ph' : elf32_phdr) : Prop :=
  last_page ph <= first_page ph' \/ last_page ph' <= first_page ph.

Definition total_pages (l : list elf32_phdr) : Z := foldr (fun ph a => seg_pages ph + a) 0 l.

(** Segments of the user part of the address space that share no page. *)
Record user_phdrs (l : list elf32_phdr) : Prop := UserPhdrs {
  us_user : Forall user_phdr l;
  us_disjoint : ForallOrdPairs page_disjoint l
}.

Lemma user_phdrs_cons ph l : user_phdrs (ph :: l) ->
  user_phdr ph /\ user_phdrs l /\ forall ph', ph' ∈ l -> page_disjoint ph ph'.
Proof.
  intros [Hu Hd]. inversion_clear Hu as [| ? ? Hph Hl]. inversion_clear Hd as [| ? ? Hpd Hl'].
  split_and!; [done | by split |]. intros ph' Hin. by eapply Forall_forall in Hpd.
Qed.

Lemma total_pages_nonneg l : Forall user_phdr l -> 0 <= total_pages l.
Proof.
  induction 1 as [| ph l Hph _ IH]; cbn [total_pages foldr]; [lia |].
  pose proof (seg_nonempty ph Hph). fold (total_pages l). unfold seg_pages. lia.
Qed.

Definition more_pages (pm pm' : gmap Z Z) (l : list elf32_phdr) : Prop :=
  forall v, pm' !! v = pm !! v \/
    pm !! v = None /\ exists ph, ph ∈ l /\ first_page ph <= v < last_page ph.

Lemma segment_filled_same m file s s' pm pm' ph :
  segment_filled m file s pm ph -> (forall v f, pm !! v = Some f -> pm' !! v = Some f) ->
  same_pages pm s s' -> segment_filled m file s' pm' ph.
Proof.
  intros Hf Hsub Hsp v Hv. destruct (Hf v Hv) as (f & E & Hb).
  apply (filled_same _ _ _ s _ pm); [by exists f | | done]. rewrite E. by apply Hsub.
Qed.

Lemma load_phdrs_ok n i s0 s rest pm m file file_size phoff img :
  let l := List.filter loads (headers n i m file phoff) in
  loaded s0 s pm -> room s (2 * total_pages l) -> covers (segs img) rest pm -> user_phdrs l ->
  (forall ph, ph ∈ l -> pages_free s0 pm ph) ->
  exists r img' s' pm', load_phdrs n i m file file_size phoff img s = Ret (r, img', s') /\
    loaded s0 s' pm' /\ covers (segs img') rest pm' /\ entry img' = entry img /\ same_pages pm s s' /\
    more_pages pm pm' l /\
    (r = 0 /\ (forall ph, ph ∈ l -> segment_filled m file s' pm' ph /\ p_offset ph + p_filesz ph <= file_size) \/
     r = -4 /\ (exists ph, ph ∈ l /\ file_size < p_offset ph + p_filesz ph) \/
     r = -5 /\ (MAX_USER_SEGMENTS < seg_count img + Z.of_nat (length l) \/
       Z.of_nat (size (frames (vframes s))) <= 2 * total_pages l)).
Proof.
  revert i s pm img. induction n as [|n IH]; intros i s pm img l Hl Hlow Hcov Hus Hfree; subst l;
    cbn [headers List.filter load_phdrs] in *.
  { exists 0, img, s, pm. split_and!; try done; [by left |]. left. split; [done |].
    by intros ph ?%not_elem_of_nil. }
  set (ph := read_phdr m _) in *. destruct (loads ph) eqn:El; unfold loads in El.
  2: { destruct (Z.eqb_spec (p_type ph) PT_LOAD), (Z.eqb_spec (p_memsz ph) 0); try discriminate El;
       cbn [negb]; by apply IH. }
  apply andb_true_iff in El as [-> ->%negb_true_iff]. cbn [negb].
  set (l := List.filter loads (headers n (i + 1) m file phoff)) in *.
  destruct (user_phdrs_cons _ _ Hus) as (Hph & Husl & Hdis).
  rewrite u32_small by (pose proof (up_off _ Hph); pose proof (up_file _ Hph); lia).
  destruct (Z.ltb_spec file_size (p_offset ph + p_filesz ph)) as [Hbad | Hgood].
  { exists (-4), img, s, pm. split_and!; try done; [by left |]. right. left. split; [done |].
    exists ph. split; [apply list_elem_of_here | done]. }
  pose proof (total_pages_nonneg l (us_user _ Husl)) as Hnn. cbn [total_pages foldr] in Hlow. fold (total_pages l) in Hlow.
  assert (room s (2 * seg_pages ph)) as Hroom by (apply (room_le _ _ _ Hlow); lia).
  destruct (load_segment_ok s0 s rest pm m file ph img Hl Hroom Hph Hcov) as
    (r & img1 & s1 & pm1 & -> & Hl1 & Hcov1 & He1 & Hsp1 & Hsub1' & Hpm1 & Hr);
    [apply Hfree, list_elem_of_here |]. cbn [obind].
  assert (forall v f, pm !! v = Some f -> pm1 !! v = Some f) as Hsub1.
  { intros v f Hv. destruct (Hpm1 v) as [-> | [_ ?]]; [done | congruence]. }
  pose proof (seg_nonempty ph Hph) as Hseg. pose proof (eq_refl (seg_pages ph)) as Esp.
  unfold seg_pages in Esp at 2.
  destruct Hr as [(-> & Hfill & Hcnt & Hsz) | (-> & Hwhy)].
  2: { change (-1 <? 0) with true. cbv iota. exists (-5), img1, s1, pm1. split_and!; try done.
       - intros v. destruct (Hpm1 v) as [? | [? ?]]; [by left | right]. split; [done |].
         exists ph. split; [apply list_elem_of_here | done].
       - right. right. split; [done |]. destruct Hwhy as [? | Hfew]; [left | right].
         + cbn [length]. lia.
         + cbn [total_pages foldr]. fold (total_pages l). lia. }
  change (0 <? 0) with false. cbv iota.
  destruct (IH (i + 1) s1 pm1 img1 Hl1) as
    (r & img2 & s2 & pm2 & E & Hl2 & Hcov2 & He2 & Hsp2 & Hpm2 & Hr); [| done | done | |].
  { fold l. apply (room_le _ (2 * (seg_pages ph + total_pages l) - 2 * seg_pages ph)); [| lia]. by apply (room_step s). }
  { intros ph' Hin v Hv. destruct (Hfree ph' (list_elem_of_further _ _ _ Hin) v Hv) as [Hnone Hw].
    split; [| done]. destruct (Hpm1 v) as [-> | [? _]]; [done |].
    destruct (Hdis ph' Hin); lia. }
  fold l in Hpm2, Hr. exists r, img2, s2, pm2. split_and!; [exact E | done | done | congruence | | |].
  - apply (same_pages_trans _ _ s1); [done |]. by apply (same_pages_sub _ pm1).
  - intros v. destruct (Hpm2 v) as [-> | [Hn (ph' & Hin & Hv)]].
    + destruct (Hpm1 v) as [? | [? ?]]; [by left | right]. split; [done |].
      exists ph. split; [apply list_elem_of_here | done].
    + right. split; [destruct (Hpm1 v) as [<- | [_ ?]]; done |].
      exists ph'. split; [by apply list_elem_of_further | done].
  - destruct Hr as [(-> & Hall) | [(-> & ph' & Hin & Hbad) | (-> & Hwhy)]].
    + left. split; [done |]. intros ph' [-> | Hin]%elem_of_cons; [| by apply Hall].
      split; [| done]. apply (segment_filled_same _ _ s1 _ pm1); [done | | done].
      intros v f Hv. destruct (Hpm2 v) as [-> | [? _]]; [done | congruence].
    + right. left. split; [done |]. exists ph'. split; [by apply list_elem_of_further | done].
    + right. right. split; [done |]. cbn [length total_pages foldr]. fold (total_pages l).
      destruct Hwhy; [left; lia | right; lia].
Qed.

End Loaded.
