(* ===== verification/ElfLoad.v ===== *)
(** * ELF loader: loading and unloading images

    The contract of [elf_load] and [elf_unload]: any number of images may be
    loaded at a time, each owns its pages and its heap block, and either of
    the two functions leaves the other images as they are. *)

From S2P Require Import Prelude Memory Interfaces Pmm Kheap Paging PagingExt Elf ElfSpec.

Section Images.
  Context {F : Type} `{FrameAllocatorLaws F} `{PagingLayout} {K : Type} `{HeapAllocatorLaws K}.
  Implicit Types (s : loader F K) (pm : gmap Z Z).

(** The loader, started from the address space [s0], with the pages [pm]
    mapped for the images it holds. *)
Record loader_inv (s0 : vm F) s pm : Prop := LoaderInv {
  li_vm : loaded s0 (lvm s) pm;
  li_heap : heap_ok (lheap s);
  li_image p img : limages s !! p = Some img ->
    0 < p /\ heap_blocks (lheap s) !! p = Some IMAGE_SIZE /\ exists rest, covers (segs img) rest pm;
  li_disjoint p q img img' v : limages s !! p = Some img -> limages s !! q = Some img' -> p ≠ q ->
    in_segs (segs img) v -> ~ in_segs (segs img') v
}.

(** The program headers of the executable at [file] that are loaded. *)
Definition load_list (m : mem) (file : Z) : list elf32_phdr :=
  List.filter loads (headers (Z.to_nat (e_phnum (read_ehdr m file))) 0 m file
    (e_phoff (read_ehdr m file))).

(** The executable whose headers are at [file]: the headers are sound and its
    segments lie in user space, share no page, and use none that is mapped. *)
Record loadable (s0 : vm F) pm (m : mem) (file : Z) : Prop := Loadable {
  lo_user : user_phdrs (load_list m file);
  lo_free ph : ph ∈ load_list m file -> pages_free s0 pm ph
}.

(** The frames the executable may need, two a page, are below 4 MB. *)
Definition load_room (s : vm F) (m : mem) (file : Z) : Prop := room s (2 * total_pages (load_list m file)).

(** The byte of the program at the user address [va] of the segment. *)
Definition program_byte (m : mem) (file : Z) (ph : elf32_phdr) (va : Z) : Z :=
  if va <? p_vaddr ph + p_filesz ph
  then load8 m (u32 (file + p_offset ph + (va - p_vaddr ph))) else 0.

(** The user address [va] translates to a user page that holds [b] there. *)
Definition user_byte (v : vm F) (va b : Z) : Prop :=
  exists f, walk v va = Some (user_pte f) /\ load8 (pmem v) (f * 4096 + va mod 4096) = b.

Lemma filled_byte m file ph (s0 : vm F) v pm va :
  loaded s0 v pm -> user_phdr ph -> segment_filled m file v pm ph ->
  p_vaddr ph <= va < p_vaddr ph + p_memsz ph -> user_byte v va (program_byte m file ph va).
Proof.
  intros Hl Hph Hf Hva. pose proof Hph as [Hlow ? Htop ? _]. unfold LOW_MEM in Hlow.
  destruct (Hf (va / 4096)) as (f & Hv & Hb); [unfold first_page, last_page; zdm |].
  exists f. rewrite (ld_walk _ _ _ Hl), Hv by (unfold is_u32; lia). split; [done |].
  rewrite Hb by zdm. unfold page_byte, program_byte.
  replace (va / 4096 * 4096 + va mod 4096) with va by zdm.
  destruct (Z.ltb_spec va (p_vaddr ph + p_filesz ph)).
  - rewrite decide_True by lia. done.
  - rewrite decide_False by lia. done.
Qed.

(** ** Unloading *)

Lemma unload_inv (s0 : vm F) s pm p img :
  loader_inv s0 s pm -> limages s !! p = Some img ->
  exists s' rest, elf_unload s p = Ret s' /\ covers (segs img) rest pm /\ loader_inv s0 s' rest /\
    limages s' = delete p (limages s) /\
    heap_blocks (lheap s') = delete p (heap_blocks (lheap s)) /\ same_pages rest (lvm s) (lvm s').
Proof.
  intros [Hl Hh Himg Hdis] Hp. destruct (Himg p img Hp) as (Hpos & Hblk & rest & Hcov).
  unfold elf_unload. rewrite truth_pos, Hp by lia. cbn [negb].
  destruct (unload_segs_ok _ _ _ _ _ Hl Hcov) as (v & -> & Hlv & Hsp). cbn [obind].
  destruct (heap_free_ok _ p _ Hh Hblk) as (h & -> & Hh' & Hb). cbn [obind].
  eexists _, rest. split; [reflexivity |]. cbn [limages lheap lvm]. split_and!; try done.
  split; cbn [limages lheap lvm]; [done | done | |].
  - intros q img' [Hne Hq]%lookup_delete_Some. destruct (Himg q img' Hq) as (? & Hbq & rest' & Hcq).
    split; [done |]. rewrite Hb, lookup_delete_ne by done. split; [done |].
    apply (covers_other _ rest' pm); [done |]. intros v' Hv'.
    rewrite (covers_rest _ _ _ v' Hcov), decide_False; [done |]. by apply (Hdis q p img' img).
  - intros q q' img1 img2 v' [_ H1']%lookup_delete_Some [_ H2']%lookup_delete_Some.
    by apply (Hdis q q').
Qed.

Lemma covers_unique l rest rest' pm : covers l rest pm -> covers l rest' pm -> rest = rest'.
Proof. intros H1' H2'. apply map_eq. intros v. by rewrite (covers_rest _ _ _ v H1'), (covers_rest _ _ _ v H2'). Qed.

(** ** Loading *)

(** A new image, with pages of its own. *)
Lemma add_image (s0 : vm F) s pm p h v pm' img :
  loader_inv s0 s pm -> 0 < p -> heap_ok h -> heap_blocks (lheap s) !! p = None ->
  heap_blocks h = <[p := IMAGE_SIZE]> (heap_blocks (lheap s)) ->
  loaded s0 v pm' -> covers (segs img) pm pm' ->
  limages s !! p = None /\ loader_inv s0 (Loader v h (<[p := img]> (limages s))) pm'.
Proof.
  intros [Hl Hh Himg Hdis] Hp Hh' Hfresh Hb Hlv Hcov.
  assert (limages s !! p = None) as Hnone.
  { apply eq_None_not_Some. intros [img' E]. destruct (Himg p img' E) as (_ & ? & _). congruence. }
  split; [done |].
  assert (forall q img' v', limages s !! q = Some img' -> in_segs (segs img') v' ->
    ~ in_segs (segs img) v' /\ pm' !! v' = pm !! v') as Hold.
  { intros q img' v' Hq Hin. destruct (Himg q img' Hq) as (_ & _ & rest & Hc).
    destruct (covers_in _ _ _ _ Hc Hin) as [f Hf]. pose proof (covers_rest _ _ _ v' Hcov) as E.
    case_decide; [congruence | done]. }
  split; cbn [lvm lheap limages]; [done | done | |].
  - intros q img' [[<- <-] | [Hne Hq]]%lookup_insert_Some; rewrite Hb.
    + rewrite lookup_insert_eq. eauto.
    + rewrite lookup_insert_ne by done. destruct (Himg q img' Hq) as (? & ? & rest & Hc).
      split_and!; [done | done |]. eapply covers_other; [exact Hc |]. intros v' Hv'.
      by apply (Hold q img').
  - intros q q' i1 i2 v' Hq Hq' Hne Hin. apply lookup_insert_Some in Hq, Hq'.
    destruct Hq as [[<- <-] | [_ Hq]], Hq' as [[<- <-] | [_ Hq']].
    + done.
    + intros Hin'. by destruct (Hold q' i2 v' Hq' Hin').
    + by destruct (Hold q i1 v' Hq Hin).
    + by apply (Hdis q q' i1 i2).
Qed.

(** Why [elf_load] may fail with the code [r]. *)
Definition load_error s (m : mem) (file file_size r : Z) : Prop :=
  let l := load_list m file in
  r = -2 /\ validate_ehdr (read_ehdr m file) file_size = false \/
  r = -3 /\ (exists h, heap_malloc (lheap s) IMAGE_SIZE = Ret (0, h)) \/
  r = -4 /\ (exists ph, ph ∈ l /\ file_size < p_offset ph + p_filesz ph) \/
  r = -5 /\ (MAX_USER_SEGMENTS < Z.of_nat (length l) \/
    Z.of_nat (size (frames (vframes (lvm s)))) <= 2 * total_pages l).

(** What a successful [elf_load] leaves behind. *)
Record image_loaded s s' pm pm' (m : mem) (file file_size p : Z) (img : user_image) : Prop := ImageLoaded {
  il_valid : validate_ehdr (read_ehdr m file) file_size = true;
  il_fresh : limages s !! p = None;
  il_images : limages s' = <[p := img]> (limages s);
  il_blocks : heap_blocks (lheap s') = <[p := IMAGE_SIZE]> (heap_blocks (lheap s));
  il_unheld : heap_blocks (lheap s) !! p = None;
  il_entry : entry img = e_entry (read_ehdr m file);
  il_covers : covers (segs img) pm pm';
  il_bytes ph va : ph ∈ load_list m file -> p_vaddr ph <= va < p_vaddr ph + p_memsz ph ->
    user_byte (lvm s') va (program_byte m file ph va);
  il_extent ph : ph ∈ load_list m file -> p_offset ph + p_filesz ph <= file_size
}.

Lemma load_inv (s0 : vm F) s pm m file file_size :
  loader_inv s0 s pm -> 0 < file -> loadable s0 pm m file -> load_room (lvm s) m file ->
  exists r out s' pm', elf_load m file file_size s = Ret (r, out, s') /\
    loader_inv s0 s' pm' /\ same_pages pm (lvm s) (lvm s') /\
    match out with
    | Some p => r = 0 /\ exists img, image_loaded s s' pm pm' m file file_size p img
    | None => load_error s m file file_size r /\ pm' = pm /\ limages s' = limages s /\
        heap_blocks (lheap s') = heap_blocks (lheap s)
    end.
Proof.
  intros Hinv Hfile [Huser Hfree] Hroom. pose proof Hinv as [Hl Hh Himg Hdis].
  unfold elf_load, load_error. rewrite truth_pos by done. cbn [negb]. cbv zeta.
  destruct (validate_ehdr (read_ehdr m file) file_size) eqn:Hval; cbn [negb].
  2: { exists (-2), None, s, pm. split_and!; try done. by left. }
  destruct (heap_malloc_ok (lheap s) IMAGE_SIZE Hh) as
    (p & h & Em & Hh' & [[-> Hb] | (Hp & Hb & Hfr)]); [done | |]; rewrite Em; cbn [obind].
  { cbn [truth negb Z.eqb]. exists (-3), None, (Loader (lvm s) h (limages s)), pm. split_and!; try done.
    - split; cbn [lvm lheap limages]; try done. intros q img Hq. rewrite Hb. by apply Himg.
    - right. left. eauto. }
  rewrite truth_pos by done. cbn [negb].
  destruct (load_phdrs_ok (Z.to_nat (e_phnum (read_ehdr m file))) 0 s0 (lvm s) pm pm m file file_size
      (e_phoff (read_ehdr m file)) (Image [] (e_entry (read_ehdr m file))) Hl Hroom eq_refl Huser Hfree)
    as (r & img & v & pm' & -> & Hlv & Hcov & He & Hsp & _ & Hr). cbn [obind]. fold (load_list m file) in Hr.
  destruct (add_image s0 s pm p h v pm' img Hinv Hp Hh' Hfr Hb Hlv Hcov) as [Hnone Hinv1].
  set (s1 := Loader v h _) in *.
  assert (r < 0 -> exists s2, elf_unload s1 p = Ret s2 /\ loader_inv s0 s2 pm /\ limages s2 = limages s /\
    heap_blocks (lheap s2) = heap_blocks (lheap s) /\ same_pages pm (lvm s) (lvm s2)) as Hundo.
  { intros _. destruct (unload_inv s0 s1 pm' p img Hinv1 (lookup_insert_eq _ _ _)) as
      (s2 & rest & E & Hc2 & Hi2 & Him2 & Hb2 & Hs2).
    assert (rest = pm) as -> by (by eapply covers_unique). exists s2. split_and!; try done.
    - rewrite Him2. cbn [limages s1]. by rewrite delete_insert_id.
    - rewrite Hb2. cbn [lheap s1]. by rewrite Hb, delete_insert_id.
    - by apply (same_pages_trans _ _ v). }
  destruct Hr as [(-> & Hall) | Hbad].
  - change (0 <? 0) with false. cbv iota. exists 0, (Some p), s1, pm'. split_and!; try done.
    exists img. split; try done.
    + intros ph va Hin Hva. apply (filled_byte _ _ _ s0 _ pm'); [done | | by apply Hall | done].
      by apply (proj1 (Forall_forall _ _) (us_user _ Huser)).
    + intros ph Hin. by apply Hall.
  - assert (r < 0) as Hneg by (destruct Hbad as [[-> _] | [-> _]]; lia).
    rewrite (proj2 (Z.ltb_lt r 0)) by done. destruct (Hundo Hneg) as (s2 & -> & Hi2 & Him2 & Hb2 & Hs2).
    cbn [obind]. exists r, None, s2, pm. split_and!; try done. right. right. exact Hbad.
Qed.

(** ** Properties *)

(** C12 [elf_load] of an executable whose segments lie in user space, share no
    page and use no mapped page, when the frames it may need are in the
    mapped part of memory, always returns, and keeps the images loaded
    before with all their bytes.  Either it returns 0 and a new image, and
    then every address of every segment translates to a user page holding
    the byte of the file, or zero past [p_filesz]; or it returns the code of
    one of its errors (bad header, no heap, segment outside the file, more
    than eight segments or not two frames per page), and then no image, no
    heap block and no user mapping was added. *)
Theorem elf_load_spec (s0 : vm F) s pm m file file_size :
  loader_inv s0 s pm -> 0 < file -> loadable s0 pm m file -> load_room (lvm s) m file ->
  exists r out s' pm', elf_load m file file_size s = Ret (r, out, s') /\
    loader_inv s0 s' pm' /\ same_pages pm (lvm s) (lvm s') /\
    match out with
    | Some p => r = 0 /\ exists img, image_loaded s s' pm pm' m file file_size p img
    | None => load_error s m file file_size r /\ pm' = pm /\ limages s' = limages s /\
        heap_blocks (lheap s') = heap_blocks (lheap s)
    end.
Proof. apply load_inv. Qed.

(** C16 Loading a program whose segments lie in user space, share no page and
    use no mapped page, when the frames it may need are in the mapped part of
    memory, and unloading it again restores the loader: the
    same pages are mapped to the same frames, the same images and heap
    blocks exist, the bytes of every other image are intact, and every frame
    that was free and did not become a page table is free again. *)
Theorem elf_load_unload (s0 : vm F) s pm m file file_size p s1 :
  loader_inv s0 s pm -> 0 < file -> loadable s0 pm m file -> load_room (lvm s) m file ->
  elf_load m file file_size s = Ret (0, Some p, s1) ->
  exists s2, elf_unload s1 p = Ret s2 /\ loader_inv s0 s2 pm /\
    limages s2 = limages s /\ heap_blocks (lheap s2) = heap_blocks (lheap s) /\
    (forall va, is_u32 va -> walk (lvm s2) va = walk (lvm s) va) /\
    same_pages pm (lvm s) (lvm s2) /\
    forall q, q ∈ frames (vframes (lvm s)) -> not_table (pmem (lvm s2)) q ->
      q ∈ frames (vframes (lvm s2)).
Proof.
  intros Hinv Hfile Hlo Hroom E.
  destruct (load_inv s0 s pm m file file_size Hinv Hfile Hlo Hroom) as (r & out & s' & pm' & E' & Hinv1 & Hsp & Hout).
  rewrite E in E'. injection E' as <- <- <-. destruct Hout as (_ & img & []).
  destruct (unload_inv s0 s1 pm' p img Hinv1) as (s2 & rest & E2 & Hc2 & Hi2 & Him2 & Hb2 & Hs2).
  { rewrite il_images0. apply lookup_insert_eq. }
  assert (rest = pm) as -> by (by eapply covers_unique).
  exists s2. split_and!; try done.
  - rewrite Him2, il_images0. by rewrite delete_insert_id.
  - rewrite Hb2, il_blocks0. by rewrite delete_insert_id.
  - intros va Hva. by rewrite (ld_walk _ _ _ (li_vm _ _ _ Hi2)), (ld_walk _ _ _ (li_vm _ _ _ Hinv)).
  - by apply (same_pages_trans _ _ (lvm s1)).
  - intros q Hq Hn. pose proof (li_vm _ _ _ Hinv) as Hl.
    destruct (ld_kept _ _ _ (li_vm _ _ _ Hi2) q) as [? | (v & Hv)]; [by apply (ld_frames _ _ _ Hl) | done | done |].
    destruct (ld_pm _ _ _ Hl v q Hv) as (_ & [_ Hnot] & _). by destruct (Hnot Hq).
Qed.

(** [elf_unload] of a loaded image never faults: it unmaps exactly the
    pages of that image, whose addresses translate again as they did before
    anything was loaded, removes the image and its heap block, and keeps the
    pages and the bytes of every other image. *)
Theorem elf_unload_spec (s0 : vm F) s pm p img :
  loader_inv s0 s pm -> limages s !! p = Some img ->
  exists s' pm', elf_unload s p = Ret s' /\ loader_inv s0 s' pm' /\
    limages s' = delete p (limages s) /\
    heap_blocks (lheap s') = delete p (heap_blocks (lheap s)) /\
    (forall v, pm' !! v = if decide (in_segs (segs img) v) then None else pm !! v) /\
    (forall va, is_u32 va -> walk (lvm s') va =
      if decide (in_segs (segs img) (va / 4096)) then walk s0 va else walk (lvm s) va) /\
    same_pages pm' (lvm s) (lvm s').
Proof.
  intros Hinv Hp. destruct (unload_inv s0 s pm p img Hinv Hp) as (s' & rest & E & Hc & Hi & Him & Hb & Hs).
  exists s', rest. split_and!; try done.
  - intros v. by apply covers_rest.
  - intros va Hva. rewrite (ld_walk _ _ _ (li_vm _ _ _ Hi)) by done.
    rewrite (covers_rest _ _ _ (va / 4096) Hc). case_decide; [done |].
    by rewrite (ld_walk _ _ _ (li_vm _ _ _ Hinv)).
Qed.

(** ** The loader as the memory of processes *)

(** Page [v] is of an image of [s] that is not in [s']. *)
Definition unloaded s s' (v : Z) : Prop :=
  exists p img, limages s !! p = Some img /\ limages s' !! p = None /\ in_segs (segs img) v.

(** [s'] is [s] with some images unloaded and blocks freed: their pages are
    gone, and the other pages are mapped to the same frames and hold the same
    bytes. *)
Record given_back s s' : Prop := GivenBack {
  gb_images : limages s' ⊆ limages s;
  gb_inv (s0 : vm F) pm : loader_inv s0 s pm -> exists pm', loader_inv s0 s' pm' /\ pm' ⊆ pm /\
    (forall v, unloaded s s' v -> pm' !! v = None) /\ (forall v, ~ unloaded s s' v -> pm' !! v = pm !! v) /\
    same_pages pm' (lvm s) (lvm s')
}.

Lemma given_back_trans s1 s2 s3 : given_back s1 s2 -> given_back s2 s3 -> given_back s1 s3.
Proof.
  intros [I1 G1] [I2 G2]. split; [by etrans |]. intros s0 pm Hinv.
  destruct (G1 s0 pm Hinv) as (pm1 & Hinv1 & Hs1 & U1 & K1 & B1). destruct (G2 s0 pm1 Hinv1) as (pm2 & Hinv2 & Hs2 & U2 & K2 & B2).
  exists pm2. split; [done |]. split; [by etrans |]. split_and!.
  - intros v (p & img & Hp & Hn & Hv). destruct (limages s2 !! p) as [img' |] eqn:Hp2.
    + pose proof (lookup_weaken _ _ _ _ Hp2 I1) as E. rewrite Hp in E. injection E as <-. apply U2. by exists p, img.
    + apply eq_None_not_Some. intros [f Hf]. apply (lookup_weaken _ _ _ _ Hf) in Hs2. rewrite U1 in Hs2; [done |]. by exists p, img.
  - intros v Hv. rewrite K2, K1; [done | |].
    + intros (p & img & Hp & Hn & Hin). apply Hv. exists p, img. split_and!; [done | | done].
      apply eq_None_not_Some. intros [img' Hp3]. apply (lookup_weaken _ _ _ _ Hp3) in I2. congruence.
    + intros (p & img & Hp & Hn & Hin). apply Hv. exists p, img. split_and!; [| done | done]. by apply (lookup_weaken _ _ _ _ Hp).
  - apply (same_pages_trans _ _ (lvm s2)); [| done]. apply (same_pages_sub _ pm1); [| done]. by apply map_subseteq_spec.
Qed.

(** Freeing a block that is no image. *)
Lemma given_back_heap s h : (forall p img, limages s !! p = Some img -> heap_blocks h !! p = Some IMAGE_SIZE) -> heap_ok h ->
  given_back s (Loader (lvm s) h (limages s)).
Proof.
  intros Hb Hh. split; [done |]. intros s0 pm [Hl _ Hi Hd]. exists pm. split_and!; try done.
  - split; cbn [lvm lheap limages]; try done. intros p img Hp. destruct (Hi p img Hp) as (? & _ & ?). split_and!; [done | by apply (Hb p img) | done].
  - intros v (p & img & Hp & Hn & _). cbn [limages] in Hn. congruence.
Qed.

Lemma given_back_unload s p img s' : (exists (s0 : vm F) pm, loader_inv s0 s pm) -> limages s !! p = Some img -> elf_unload s p = Ret s' -> given_back s s'.
Proof.
  intros (v0 & pm0 & Hinv0) Hp E. destruct (unload_inv v0 s pm0 p img Hinv0 Hp) as (s2 & r0 & E2 & _ & _ & Him & _).
  rewrite E in E2. injection E2 as <-. split; [rewrite Him; apply delete_subseteq |]. intros s0 pm Hinv.
  destruct (unload_inv s0 s pm p img Hinv Hp) as (s2 & rest & E2 & Hc & Hinv' & _ & _ & Hs).
  rewrite E in E2. injection E2 as <-. exists rest.
  assert (forall v, unloaded s s' v <-> in_segs (segs img) v) as Hu.
  { intros v. unfold unloaded. rewrite Him. split.
    - intros (q & img' & Hq & Hn & Hv). apply lookup_delete_None in Hn as [<- | Hn]; [| congruence].
      rewrite Hp in Hq. by injection Hq as <-.
    - intros Hv. exists p, img. by rewrite lookup_delete_eq. }
  split; [done |]. split_and!; [| | | done].
  - apply map_subseteq_spec. intros v f Hv. rewrite (covers_rest _ _ _ v Hc) in Hv. by case_decide.
  - intros v Hv%Hu. by rewrite (covers_rest _ _ _ v Hc), decide_True.
  - intros v Hv. rewrite Hu in Hv. by rewrite (covers_rest _ _ _ v Hc), decide_False.
Qed.

#[export] Instance loader_memory : ProcessMemory (loader F K) := {
  proc_malloc s n := do! (p, h) := heap_malloc (lheap s) n in Ret (p, Loader (lvm s) h (limages s));
  proc_free s p := do! h := heap_free (lheap s) p in Ret (Loader (lvm s) h (limages s));
  proc_unload := elf_unload;
  proc_blocks s := heap_blocks (lheap s);
  proc_images s := entry <$> limages s;
  proc_ok s := exists (s0 : vm F) pm, loader_inv s0 s pm;
  proc_returns := given_back
}.

#[export] Instance loader_memory_laws : ProcessMemoryLaws (loader F K).
Proof.
  split; cbn [proc_malloc proc_free proc_unload proc_blocks proc_images proc_ok proc_returns loader_memory].
  - intros s n (s0 & pm & [Hl Hh Himg Hdis]) Hn.
    destruct (heap_malloc_ok (lheap s) n Hh Hn) as (p & h & -> & Hh' & Hcase). cbn [obind].
    eexists _, _. split; [reflexivity |]. split; [| by split; [| exact Hcase]].
    exists s0, pm. split; try done. intros q img Hq. destruct (Himg q img Hq) as (? & Hb & ?).
    split_and!; [done | | done]. cbn [lheap]. destruct Hcase as [[_ ->] | (_ & -> & Hfr)]; [done |].
    rewrite lookup_insert_ne; [done |]. intros ->. congruence.
  - intros s p n (s0 & pm & [Hl Hh Himg Hdis]) Hp Hni.
    destruct (heap_free_ok (lheap s) p n Hh Hp) as (h & -> & Hh' & Hb). cbn [obind].
    eexists. split; [reflexivity |]. split; [| by split].
    exists s0, pm. split; try done. intros q img Hq. destruct (Himg q img Hq) as (? & ? & ?).
    split_and!; [done | | done]. cbn [lheap]. rewrite Hb, lookup_delete_ne; [done |].
    intros ->. cbn [limages] in Hq. by rewrite lookup_fmap, Hq in Hni.
  - intros s p e (s0 & pm & Hinv) Hp. rewrite lookup_fmap in Hp.
    destruct (limages s !! p) as [img |] eqn:Hi; [| done].
    destruct (unload_inv s0 s pm p img Hinv Hi) as (s' & rest & E & _ & Hinv' & Him & Hb & _).
    exists s'. rewrite Him, fmap_delete. split_and!; [done | by exists s0, rest | done | done].
  - intros s p e (s0 & pm & Hinv) Hp. rewrite lookup_fmap in Hp.
    destruct (limages s !! p) as [img |] eqn:Hi; [| done].
    destruct (li_image _ _ _ Hinv p img Hi) as (? & Hb & _). eauto.
  - intros s p n (s0 & pm & Hinv). apply heap_block_range, (li_heap _ _ _ Hinv).
  - intros s p q n k (s0 & pm & Hinv). apply heap_blocks_apart, (li_heap _ _ _ Hinv).
  - intros s (s0 & pm & [_ Hh Hi _]). split; [done |]. intros v0 pm0 Hinv. exists pm0. split_and!; try done.
    intros v (p & img & Hp & Hn & _). congruence.
  - apply given_back_trans.
  - intros s p n s' (s0 & pm & [_ Hh Himg _]) Hp Hni E.
    destruct (heap_free_ok (lheap s) p n Hh Hp) as (h & Eh & Hh' & Hb). rewrite Eh in E. injection E as <-.
    apply given_back_heap; [| done]. intros q img Hq. rewrite Hb, lookup_delete_ne; [by destruct (Himg q img Hq) as (_ & ? & _) |].
    intros ->. by rewrite lookup_fmap, Hq in Hni.
  - intros s p e s' Hok Hp E. rewrite lookup_fmap in Hp. destruct (limages s !! p) as [img |] eqn:Hi; [| done].
    by apply (given_back_unload s p img).
Qed.

End Images.

(** ** Witnesses

    The boot address space and the boot heap, and an executable at 0x10000
    with one segment of four file bytes and eight bytes of memory. *)

#[local] Existing Instance wit_paging.
#[local] Existing Instance wit_layout.

Definition wit_elf : mem :=
  let m := store_le 4 ∅ 0x10000 0x464C457F in             (* 0x7F 'E' 'L' 'F' *)
  let m := store_le 2 m 0x10004 0x0101 in                  (* 32 bits, little endian *)
  let m := store_le 2 (store_le 2 m 0x10010 ET_EXEC) 0x10012 EM_386 in
  let m := store32 (store32 m 0x10018 0x8048002) 0x1001C EHDR_SIZE in
  let m := store_le 2 (store_le 2 m 0x1002A PHDR_SIZE) 0x1002C 1 in
  let ph := 0x10000 + EHDR_SIZE in
  let m := store32 (store32 (store32 m ph PT_LOAD) (ph + 4) 84) (ph + 8) 0x8048002 in
  let m := store32 (store32 m (ph + 16) 4) (ph + 20) 8 in
  store_le 4 m (0x10000 + 84) 0x90C3EBFE.

Definition wit_vm : vm pmm := paged_vm boot_mem.
Definition wit_loader : loader pmm held_heap := Loader wit_vm (HeldHeap wit_h0 ∅) ∅.
Lemma wit_lvm : lvm wit_loader = wit_vm.
Proof. reflexivity. Qed.

Definition wit_phdr : elf32_phdr := Phdr PT_LOAD 84 0x8048002 4 8.

Lemma wit_elf_list : load_list wit_elf 0x10000 = [wit_phdr].
Proof. vm_compute. reflexivity. Qed.

Lemma wit_low_frames q : q ∈ frames (vframes wit_vm) -> q < 1024.
Proof.
  change (vframes wit_vm) with (vframes (paged_vm boot_mem)).
  destruct (paged_vm_ok boot_mem) as (_ & -> & _).
  change (frames (pmm_init boot_mem)) with (free_set (pmm_init boot_mem)).
  destruct (pmm_init_facts boot_mem) as (_ & -> & _). intros [Hq _]%elem_of_difference.
  apply elem_of_e820_usable in Hq as (i & Hi & _ & Hq).
  change (load16 boot_mem E820_COUNT) with 2 in Hi.
  eapply Z.lt_le_trans; [apply Hq |].
  assert (i = 0 \/ i = 1) as [-> | ->] by lia; vm_compute; congruence.
Qed.

Lemma wit_loader_inv : loader_inv wit_vm wit_loader ∅.
Proof.
  split; cbn [lvm lheap limages wit_loader].
  - apply loaded_refl, paged_vm_ok.
  - exists [init_block]. split; [apply wit_h0_inv |]. intros p n. cbn. by rewrite lookup_empty.
  - intros p img. by rewrite lookup_empty.
  - intros p q img img' v. by rewrite lookup_empty.
Qed.

Lemma wit_loadable : loadable wit_vm ∅ wit_elf 0x10000.
Proof.
  split; rewrite wit_elf_list.
  - split; repeat constructor; vm_compute; congruence.
  - intros ph ->%list_elem_of_singleton v Hv. split; [apply lookup_empty |].
    destruct (paged_vm_ok boot_mem) as (_ & _ & Hw & _).
    change (first_page wit_phdr) with 0x8048 in Hv. change (last_page wit_phdr) with 0x8049 in Hv.
    unfold wit_vm. rewrite Hw by (unfold is_u32; lia). rewrite decide_False; [done |].
    unfold LOW_MEM. lia.
Qed.

Lemma wit_room n : room wit_vm n.
Proof. apply room_all, wit_low_frames. Qed.

Lemma wit_enough_frames : (3 <= size (frames (vframes wit_vm)))%nat.
Proof.
  change (vframes wit_vm) with (vframes (paged_vm boot_mem)).
  destruct (paged_vm_ok boot_mem) as (_ & -> & _).
  change 3%nat with (size ({[0x100; 0x101; 0x102]} : gset Z)). apply subseteq_size.
  intros q [[->%elem_of_singleton | ->%elem_of_singleton]%elem_of_union | ->%elem_of_singleton]%elem_of_union;
    (apply boot_page_free; [pages; lia | vm_compute; reflexivity]).
Qed.

Lemma wit_heap_room :
  match heap_malloc (lheap wit_loader) IMAGE_SIZE with Ret (p, _) => p =? 0 | _ => true end = false.
Proof. vm_compute. reflexivity. Qed.

Lemma wit_valid : validate_ehdr (read_ehdr wit_elf 0x10000) 88 = true.
Proof. vm_compute. reflexivity. Qed.

Lemma wit_no_error r : ~ load_error wit_loader wit_elf 0x10000 88 r.
Proof.
  unfold load_error. rewrite wit_elf_list. intros [[_ E] | [(_ & h & E) | [(_ & ph & Hin & E) | (_ & E)]]].
  - by rewrite wit_valid in E.
  - pose proof wit_heap_room as Hroom. by rewrite E in Hroom.
  - apply list_elem_of_singleton in Hin as ->. by apply Z.lt_nge in E.
  - pose proof wit_enough_frames. rewrite wit_lvm in E.
    change (total_pages [wit_phdr]) with 1 in E. change (Z.of_nat (length [wit_phdr])) with 1 in E.
    unfold MAX_USER_SEGMENTS in E. lia.
Qed.

Lemma elf_load_spec_witness :
  exists p s', elf_load wit_elf 0x10000 88 wit_loader = Ret (0, Some p, s') /\
    user_byte (lvm s') 0x8048003 0xEB /\ user_byte (lvm s') 0x8048006 0.
Proof.
  destruct (elf_load_spec wit_vm wit_loader ∅ wit_elf 0x10000 88 wit_loader_inv ltac:(lia) wit_loadable (wit_room _))
    as (r & out & s' & pm' & E & _ & _ & Hout).
  destruct out as [p |]; [| destruct Hout as [He _]; by destruct (wit_no_error r)].
  destruct Hout as (-> & img & Hil). exists p, s'. split; [exact E |].
  assert (program_byte wit_elf 0x10000 wit_phdr 0x8048003 = 0xEB) as <- by (vm_compute; reflexivity).
  assert (program_byte wit_elf 0x10000 wit_phdr 0x8048006 = 0) as <- by (vm_compute; reflexivity).
  split; apply (il_bytes _ _ _ _ _ _ _ _ _ Hil wit_phdr);
    solve [rewrite wit_elf_list; apply list_elem_of_here | vm_compute; split; congruence].
Defined.

Lemma wit_load : exists p s1 img, elf_load wit_elf 0x10000 88 wit_loader = Ret (0, Some p, s1) /\
  limages s1 !! p = Some img /\ exists pm, loader_inv wit_vm s1 pm.
Proof.
  destruct (load_inv wit_vm wit_loader ∅ wit_elf 0x10000 88 wit_loader_inv ltac:(lia) wit_loadable (wit_room _))
    as (r & out & s' & pm' & E & Hinv & _ & Hout).
  destruct out as [p |]; [| destruct Hout as [He _]; by destruct (wit_no_error r)].
  destruct Hout as (-> & img & Hil). exists p, s', img. split; [exact E |]. split; [| eauto].
  rewrite (il_images _ _ _ _ _ _ _ _ _ Hil). apply lookup_insert_eq.
Qed.

Lemma elf_load_unload_witness :
  exists p s1 s2, elf_load wit_elf 0x10000 88 wit_loader = Ret (0, Some p, s1) /\
    elf_unload s1 p = Ret s2 /\ walk (lvm s2) 0x8048002 = walk (lvm wit_loader) 0x8048002.
Proof.
  destruct wit_load as (p & s1 & img & E & _).
  destruct (elf_load_unload wit_vm wit_loader ∅ wit_elf 0x10000 88 p s1 wit_loader_inv ltac:(lia)
              wit_loadable (wit_room _) E) as (s2 & E2 & _ & _ & _ & Hw & _).
  exists p, s1, s2. split; [exact E |]. split; [exact E2 |]. apply Hw. unfold is_u32. lia.
Defined.

Lemma elf_unload_spec_witness :
  exists p s1 s2, elf_load wit_elf 0x10000 88 wit_loader = Ret (0, Some p, s1) /\
    elf_unload s1 p = Ret s2 /\ limages s2 = delete p (limages s1).
Proof.
  destruct wit_load as (p & s1 & img & E & Hp & pm & Hinv).
  destruct (elf_unload_spec wit_vm s1 pm p img Hinv Hp) as (s2 & _ & E2 & _ & Him & _).
  exists p, s1, s2. split; [exact E |]. split; [exact E2 | exact Him].
Defined.
