(* ===== verification/Cpu.v ===== *)
(** * Processor tables and interrupt controller

    [cpu/gdt.c], [cpu/tss.c], [cpu/idt.c] and [cpu/pic.c] in the modules [Gdt],
    [Tss], [Idt] and [Pic]: the descriptor
    tables the kernel builds, as the records the source writes and as the
    processor reads them, and the mask registers of the two 8259 chips.  The
    addresses the linker assigns (the tables, the stubs) are parameters. *)

From S2P Require Import Prelude.

(** ** Segment descriptors *)

Module Gdt.

Definition GDT_ENTRIES : Z := 6.
Definition GDT_KCODE_SEL : Z := 0x08.
Definition GDT_KDATA_SEL : Z := 0x10.
Definition GDT_UCODE_SEL : Z := Z.lor 0x18 3.
Definition GDT_UDATA_SEL : Z := Z.lor 0x20 3.
Definition GDT_TSS_SEL : Z := 0x28.

Record gdt_entry : Type := GdtEntry {
  limit_low : Z; base_low : Z; base_mid : Z; access : Z; granularity : Z; base_high : Z
}.

Definition zero_gdt_entry : gdt_entry := GdtEntry 0 0 0 0 0 0.

(** The table, and the limit and base [lgdt] loaded. *)
Record gdt_state : Type := GdtState { gdt : list gdt_entry; gdt_ptr : option (Z * Z) }.

Definition set_entry (g : list gdt_entry) (i base limit acc gran : Z) : list gdt_entry :=
  <[Z.to_nat i := GdtEntry (Z.land limit 0xFFFF) (Z.land base 0xFFFF)
      (Z.land (Z.shiftr base 16) 0xFF) acc
      (Z.lor (Z.land (Z.shiftr limit 16) 0x0F) (Z.land gran 0xF0))
      (Z.land (Z.shiftr base 24) 0xFF)]> g.

Definition gdt_set_tss (g : gdt_state) (base limit : Z) : gdt_state :=
  GdtState (set_entry (gdt g) 5 base limit 0x89 0x00) (gdt_ptr g).

(** [addr] is the address of [gdt]. *)
Definition gdt_init (addr : Z) (g : gdt_state) : gdt_state :=
  let t := gdt g in
  let t := set_entry t 0 0 0 0x00 0x00 in
  let t := set_entry t 1 0 0xFFFFFFFF 0x9A 0xCF in
  let t := set_entry t 2 0 0xFFFFFFFF 0x92 0xCF in
  let t := set_entry t 3 0 0xFFFFFFFF 0xFA 0xCF in
  let t := set_entry t 4 0 0xFFFFFFFF 0xF2 0xCF in
  GdtState t (Some (8 * GDT_ENTRIES - 1, addr)).

(** The descriptor as the processor reads it. *)
Definition seg_base (e : gdt_entry) : Z :=
  base_low e + 2 ^ 16 * base_mid e + 2 ^ 24 * base_high e.
Definition seg_limit (e : gdt_entry) : Z :=
  let l := limit_low e + 2 ^ 16 * (granularity e mod 16) in
  if Z.testbit (granularity e) 7 then l * 4096 + 4095 else l.
Definition seg_present (e : gdt_entry) : bool := Z.testbit (access e) 7.
Definition seg_dpl (e : gdt_entry) : Z := (access e / 32) mod 4.
Definition seg_type (e : gdt_entry) : Z := access e mod 32.     (* S and the four type bits *)

End Gdt.

(** ** Task state segment *)

Module Tss.
Import Gdt.

Record tss_t : Type := Tss {
  prev_tss : Z; esp0 : Z; ss0 : Z; esp1 : Z; ss1 : Z; esp2 : Z; ss2 : Z; cr3 : Z; eip : Z; eflags : Z;
  eax : Z; ecx : Z; edx : Z; ebx : Z; esp : Z; ebp : Z; esi : Z; edi : Z;
  es : Z; cs : Z; ss : Z; ds : Z; fs : Z; gs : Z; ldt : Z; trap : Z; iomap_base : Z
}.
Definition TSS_SIZE : Z := 4 * 25 + 2 * 2.                       (* sizeof(kernel_tss) *)

(** [addr] is the address of [kernel_tss]; the result has the table, the
    segment and the selector [ltr] loaded. *)
Definition tss_init (addr : Z) (g : gdt_state) : tss_t * gdt_state * Z :=
  (Tss 0 0 GDT_KDATA_SEL 0 0 0 0 0 0 0 0 0 0 0 0 0 0 0
     GDT_KDATA_SEL GDT_KCODE_SEL GDT_KDATA_SEL GDT_KDATA_SEL GDT_KDATA_SEL GDT_KDATA_SEL
     0 0 TSS_SIZE,
   gdt_set_tss g addr (TSS_SIZE - 1), GDT_TSS_SEL).

Definition tss_set_esp0 (t : tss_t) (v : Z) : tss_t :=
  Tss (prev_tss t) v (ss0 t) (esp1 t) (ss1 t) (esp2 t) (ss2 t) (cr3 t) (eip t) (eflags t)
    (eax t) (ecx t) (edx t) (ebx t) (esp t) (ebp t) (esi t) (edi t)
    (es t) (cs t) (ss t) (ds t) (fs t) (gs t) (ldt t) (trap t) (iomap_base t).

End Tss.

(** ** Interrupt gates *)

Module Idt.

Definition IDT_ENTRIES : Z := 256.

Record idt_entry : Type := IdtEntry {
  offset_low : Z; selector : Z; zero : Z; type_attr : Z; offset_high : Z
}.

Definition zero_idt_entry : idt_entry := IdtEntry 0 0 0 0 0.
Definition idt_reset : list idt_entry := replicate (Z.to_nat IDT_ENTRIES) zero_idt_entry.

(** [num] is a [uint8_t], so it is always in the table. *)
Definition idt_set_gate (t : list idt_entry) (num handler sel flags : Z) : list idt_entry :=
  <[Z.to_nat num := IdtEntry (Z.land handler 0xFFFF) sel 0 flags
      (Z.land (Z.shiftr handler 16) 0xFFFF)]> t.

(** [isr_stub_table] and [isr128] are the stubs' addresses, [addr] is the
    address of [idt]; the result is the table and what [lidt] loaded. *)
Definition idt_init (isr_stub_table : Z -> Z) (isr128 addr : Z) (t : list idt_entry)
    : list idt_entry * (Z * Z) :=
  let t := for_range 0 32 (fun t i => idt_set_gate t (u8 i) (isr_stub_table i) 0x08 0x8E) t in
  let t := for_range 0 16
             (fun t i => idt_set_gate t (u8 (32 + i)) (isr_stub_table (32 + i)) 0x08 0x8E) t in
  (idt_set_gate t 128 isr128 0x08 0xEF, (8 * IDT_ENTRIES - 1, addr)).

(** The gate as the processor reads it. *)
Definition gate_offset (e : idt_entry) : Z := offset_low e + 2 ^ 16 * offset_high e.
Definition gate_present (e : idt_entry) : bool := Z.testbit (type_attr e) 7.
Definition gate_dpl (e : idt_entry) : Z := (type_attr e / 32) mod 4.
Definition gate_type (e : idt_entry) : Z := type_attr e mod 32.  (* 14 interrupt, 15 trap gate *)

(** A software interrupt [INT n] at privilege level [cpl] is let through when
    the gate is present and its DPL is not below [cpl]. *)
Definition int_allowed (t : list idt_entry) (n cpl : Z) : bool :=
  match t !! Z.to_nat n with
  | Some e => gate_present e && (cpl <=? gate_dpl e)
  | None => false
  end.

End Idt.

(** ** Interrupt controller *)

Module Pic.

Definition PIC1_CMD : Z := 0x20.
Definition PIC1_DATA : Z := 0x21.
Definition PIC2_CMD : Z := 0xA0.
Definition PIC2_DATA : Z := 0xA1.
Definition PIC_EOI : Z := 0x20.

Section Ports.
  (** The port space: a write, and a read with its value. *)
  Context {P : Type} (outb : P -> Z -> Z -> P) (inb : P -> Z -> Z * P).

Definition io_wait (p : P) : P := outb p 0x80 0.

Definition pic_init (p : P) : P :=
  let p := io_wait (outb p PIC1_CMD 0x11) in
  let p := io_wait (outb p PIC2_CMD 0x11) in
  let p := io_wait (outb p PIC1_DATA 0x20) in
  let p := io_wait (outb p PIC2_DATA 0x28) in
  let p := io_wait (outb p PIC1_DATA 0x04) in
  let p := io_wait (outb p PIC2_DATA 0x02) in
  let p := io_wait (outb p PIC1_DATA 0x01) in
  let p := io_wait (outb p PIC2_DATA 0x01) in
  let p := outb p PIC1_DATA 0x00 in
  outb p PIC2_DATA 0x00.

Definition pic_send_eoi (p : P) (irq : Z) : P :=
  let p := if 8 <=? irq then outb p PIC2_CMD PIC_EOI else p in
  outb p PIC1_CMD PIC_EOI.

Definition pic_mask_irq (p : P) (irq : Z) : P :=
  let port := if irq <? 8 then PIC1_DATA else PIC2_DATA in
  let bit := if irq <? 8 then irq else u8 (irq - 8) in
  let '(v, p) := inb p port in
  outb p port (u8 (Z.lor v (u32 (Z.shiftl 1 bit)))).

Definition pic_unmask_irq (p : P) (irq : Z) : P :=
  let port := if irq <? 8 then PIC1_DATA else PIC2_DATA in
  let bit := if irq <? 8 then irq else u8 (irq - 8) in
  let '(v, p) := inb p port in
  outb p port (u8 (Z.land v (not32 (u32 (Z.shiftl 1 bit))))).

End Ports.
End Pic.

(** ** Lemmas *)

Import Gdt Idt Pic.

Lemma land_ffff x : Z.land x 0xFFFF = x mod 2 ^ 16.
Proof. apply (land_mask x 16). lia. Qed.
Lemma land_ff x : Z.land x 0xFF = x mod 2 ^ 8.
Proof. apply (land_mask x 8). lia. Qed.
Lemma land_f x : Z.land x 0x0F = x mod 2 ^ 4.
Proof. apply (land_mask x 4). lia. Qed.

Lemma land_f0 g : is_u8 g -> Z.land g 0xF0 = 16 * (g / 16).
Proof.
  intros Hg. rewrite <- (u8_small g Hg) at 1. unfold u8, is_u8 in *.
  rewrite <- Z.land_ones, <- Z.land_assoc by lia. change (Z.land (Z.ones 8) 0xF0) with (2 ^ 8 - 2 ^ 4).
  change (2 ^ 8 - 2 ^ 4) with (Z.land 0xFF (2 ^ 32 - 2 ^ 4)).
  rewrite Z.land_assoc, land_ff, Z.mod_small, land_clear_low by (unfold is_u32; lia).
  zdm.
Qed.

Lemma gran_byte l g : 0 <= l < 16 -> is_u8 g ->
  Z.lor l (Z.land g 0xF0) = 16 * (g / 16) + l.
Proof.
  intros Hl Hg. rewrite land_f0, Z.lor_comm by done. apply (lor_disjoint _ _ 4); [lia | | lia].
  change (2 ^ 4) with 16. rewrite Z.mul_comm. apply Z.mod_mul. lia.
Qed.

(** What the processor reads back from an entry. *)
Record reads_as (e : gdt_entry) (base limit acc : Z) (pages : bool) : Prop := ReadsAs {
  ra_base : seg_base e = base;
  ra_limit : seg_limit e = if pages then limit * 4096 + 4095 else limit;
  ra_access : access e = acc
}.

Lemma set_entry_lookup g i base limit acc gran :
  (Z.to_nat i < length g)%nat -> is_u32 base -> 0 <= limit < 2 ^ 32 -> is_u8 gran ->
  exists e, set_entry g i base limit acc gran !! Z.to_nat i = Some e /\
    reads_as e base (limit mod 2 ^ 20) acc (Z.testbit gran 7).
Proof.
  intros Hi Hb Hl Hg. unfold set_entry. eexists. split; [by apply list_lookup_insert_eq |].
  unfold is_u32 in Hb. split; unfold seg_base, seg_limit; cbn [base_low base_mid base_high limit_low granularity access].
  - rewrite !shiftr_div, land_ffff, !land_ff by lia. zdm.
  - rewrite shiftr_div, land_f, land_ffff, gran_byte by (done || zdm).
    assert (Z.testbit (16 * (gran / 16) + (limit / 2 ^ 16) mod 2 ^ 4) 7 = Z.testbit gran 7) as ->.
    { rewrite !Z.testbit_odd, !shiftr_div by lia. f_equal. zdm. }
    assert (limit mod 2 ^ 16 + 2 ^ 16 * ((16 * (gran / 16) + (limit / 2 ^ 16) mod 2 ^ 4) mod 16) =
            limit mod 2 ^ 20) as -> by zdm. done.
  - done.
Qed.

Lemma set_entry_length g i base limit acc gran : length (set_entry g i base limit acc gran) = length g.
Proof. apply length_insert. Qed.

Lemma set_entry_other g i j base limit acc gran :
  i ≠ j -> 0 <= i -> 0 <= j -> set_entry g i base limit acc gran !! Z.to_nat j = g !! Z.to_nat j.
Proof. intros. apply list_lookup_insert_ne. lia. Qed.

Lemma set_gate_lookup t n h sel fl :
  (Z.to_nat n < length t)%nat -> is_u32 h ->
  exists e, idt_set_gate t n h sel fl !! Z.to_nat n = Some e /\ gate_offset e = h /\
    selector e = sel /\ type_attr e = fl /\ zero e = 0.
Proof.
  intros Hn Hh. unfold idt_set_gate. eexists. split; [by apply list_lookup_insert_eq |].
  unfold gate_offset. cbn. rewrite !land_ffff, shiftr_div by lia. split_and!; try done. unfold is_u32 in *. zdm.
Qed.

Lemma set_gate_length t n h sel fl : length (idt_set_gate t n h sel fl) = length t.
Proof. apply length_insert. Qed.

(** The loop that installs [n] gates from vector [base] on. *)
Lemma gates_loop (stub : Z -> Z) t base n :
  length t = 256%nat -> 0 <= base -> 0 <= n -> base + n <= 256 -> (forall i, is_u32 (stub i)) ->
  let t' := for_range 0 n (fun t i => idt_set_gate t (u8 (base + i)) (stub (base + i)) 0x08 0x8E) t in
  length t' = 256%nat /\
  forall v, 0 <= v < 256 -> 
    if decide (base <= v < base + n)
    then exists e, t' !! Z.to_nat v = Some e /\ gate_offset e = stub v /\ selector e = 0x08 /\
           type_attr e = 0x8E /\ zero e = 0
    else t' !! Z.to_nat v = t !! Z.to_nat v.
Proof.
  intros Hlen Hb Hn Hend Hstub. cbv zeta.
  refine (for_range_ind (fun i t' => length t' = 256%nat /\ forall v, 0 <= v < 256 ->
    if decide (base <= v < base + i)
    then exists e, t' !! Z.to_nat v = Some e /\ gate_offset e = stub v /\ selector e = 0x08 /\
           type_attr e = 0x8E /\ zero e = 0
    else t' !! Z.to_nat v = t !! Z.to_nat v) 0 n _ t Hn _ _).
  - split; [done |]. intros v Hv. rewrite decide_False by lia. done.
  - intros i t1 Hi [Hl Ht]. rewrite u8_small by (unfold is_u8; lia).
    split; [by rewrite set_gate_length |]. intros v Hv. specialize (Ht v Hv).
    destruct (decide (v = base + i)) as [-> | Hne].
    + rewrite decide_True by lia. apply set_gate_lookup; [lia | done].
    + unfold idt_set_gate. rewrite list_lookup_insert_ne by lia.
      repeat case_decide; (lia || done).
Qed.

(** The entries that [idt_init] leaves. *)
Lemma idt_filled (stub : Z -> Z) (isr128 addr : Z) :
  (forall i, is_u32 (stub i)) -> is_u32 isr128 ->
  let t := fst (idt_init stub isr128 addr idt_reset) in
  length t = 256%nat /\ forall v, 0 <= v < 256 -> exists e, t !! Z.to_nat v = Some e /\ zero e = 0 /\
     if decide (v < 48) then gate_offset e = stub v /\ selector e = 8 /\ type_attr e = 0x8E
     else if decide (v = 128) then gate_offset e = isr128 /\ selector e = 8 /\ type_attr e = 0xEF
     else type_attr e = 0.
Proof.
  intros Hstub H128 t.
  unfold t, idt_init. cbn [fst].
  destruct (gates_loop stub idt_reset 0 32) as [L1 T1]; [done | lia.. | done |].
  change (fun t i => idt_set_gate t (u8 (0 + i)) (stub (0 + i)) 8 0x8E) with
    (fun t i => idt_set_gate t (u8 i) (stub i) 8 0x8E) in L1, T1.
  set (t1 := for_range 0 32 _ _) in *.
  destruct (gates_loop stub t1 32 16) as [L2 T2]; [done | lia.. | done |].
  set (t2 := for_range 0 16 _ _) in *.
  split; [by rewrite set_gate_length |]. intros v Hv.
  destruct (decide (v = 128)) as [-> | Hne].
  { destruct (set_gate_lookup t2 128 isr128 8 0xEF) as (e & ? & ? & ? & ? & ?); [lia | done |].
    exists e. rewrite decide_False by lia. auto. }
  unfold idt_set_gate at 1. rewrite list_lookup_insert_ne by lia.
  specialize (T1 v Hv). specialize (T2 v Hv).
  destruct (decide (v < 48)) as [Hlt | Hge].
  - destruct (decide (32 <= v < 32 + 16)) as [_ | Hn2].
    + destruct T2 as (e & ? & ? & ? & ? & ?). exists e. auto.
    + rewrite decide_True in T1 by lia. destruct T1 as (e & ? & ? & ? & ? & ?).
      exists e. rewrite T2. auto.
  - rewrite decide_False in T1 by lia. rewrite decide_False in T2 by lia. rewrite T2, T1. exists zero_idt_entry.
    split; [unfold idt_reset, IDT_ENTRIES; apply lookup_replicate_2; lia |].
    done.
Qed.

Lemma idt_gates_ok (stub : Z -> Z) (isr128 addr : Z) :
  (forall i, is_u32 (stub i)) -> is_u32 isr128 ->
  let t := fst (idt_init stub isr128 addr idt_reset) in
  length t = 256%nat /\
  (forall v, 0 <= v < 256 -> exists e, t !! Z.to_nat v = Some e /\ zero e = 0 /\
     if decide (v < 48) then gate_present e = true /\ gate_offset e = stub v /\
       gate_type e = 14 /\ gate_dpl e = 0 /\ selector e = GDT_KCODE_SEL
     else if decide (v = 128) then gate_present e = true /\ gate_offset e = isr128 /\
       gate_type e = 15 /\ gate_dpl e = 3 /\ selector e = GDT_KCODE_SEL
     else gate_present e = false) /\
  forall v, 0 <= v < 256 -> int_allowed t v 3 = true <-> v = 128.
Proof.
  intros Hstub H128 t. destruct (idt_filled stub isr128 addr Hstub H128) as [Hlen Ht]. fold t in Hlen, Ht.
  assert (forall v, 0 <= v < 256 -> exists e, t !! Z.to_nat v = Some e /\ zero e = 0 /\
     if decide (v < 48) then gate_present e = true /\ gate_offset e = stub v /\
       gate_type e = 14 /\ gate_dpl e = 0 /\ selector e = GDT_KCODE_SEL
     else if decide (v = 128) then gate_present e = true /\ gate_offset e = isr128 /\
       gate_type e = 15 /\ gate_dpl e = 3 /\ selector e = GDT_KCODE_SEL
     else gate_present e = false) as Hg.
  { intros v Hv. destruct (Ht v Hv) as (e & He & Hz & Hc). exists e. split_and!; [done | done |].
    unfold gate_present, gate_type, gate_dpl.
    repeat case_decide; [destruct Hc as (-> & -> & ->); by split_and!.. | by rewrite Hc]. }
  split_and!; [done | done |]. intros v Hv. destruct (Hg v Hv) as (e & He & _ & Hc).
  unfold int_allowed. rewrite He. repeat case_decide.
  - destruct Hc as (-> & _ & _ & -> & _). split; [done | lia].
  - destruct Hc as (-> & _ & _ & -> & _). done.
  - rewrite Hc. done.
Qed.

(** ** Properties *)

(** Every descriptor [set_entry] writes reads back in the processor's
    layout: the base, the low 20 bits of the limit scaled by the granularity
    flag, the access byte; no other descriptor changes.  After [gdt_init] and
    [tss_init] the kernel and the user have flat 4 GB code and data segments
    of privilege 0 and 3 at the selectors the rest of the kernel uses, and
    the TSS descriptor spans [kernel_tss]. *)
Theorem gdt_descriptors (g : gdt_state) (gdt_addr tss_addr : Z) :
  length (gdt g) = 6%nat -> is_u32 tss_addr ->
  (forall t i base limit acc gran, length t = 6%nat -> 0 <= i < 6 -> is_u32 base -> is_u32 limit -> is_u8 gran ->
     (exists e, set_entry t i base limit acc gran !! Z.to_nat i = Some e /\
        reads_as e base (limit mod 2 ^ 20) acc (Z.testbit gran 7)) /\
     forall j, 0 <= j < 6 -> j ≠ i ->
       set_entry t i base limit acc gran !! Z.to_nat j = t !! Z.to_nat j) /\
  let '(ts, g', tr) := Tss.tss_init tss_addr (gdt_init gdt_addr g) in
  gdt_ptr g' = Some (47, gdt_addr) /\
  (forall sel dpl ty, (sel, dpl, ty) ∈ [(GDT_KCODE_SEL, 0, 0x1A); (GDT_KDATA_SEL, 0, 0x12);
                                        (GDT_UCODE_SEL, 3, 0x1A); (GDT_UDATA_SEL, 3, 0x12)] ->
     exists e, gdt g' !! Z.to_nat (sel / 8) = Some e /\ seg_present e = true /\ seg_dpl e = dpl /\
       seg_type e = ty /\ sel mod 4 = dpl /\ seg_base e = 0 /\ seg_limit e = 2 ^ 32 - 1) /\
  (exists e, gdt g' !! Z.to_nat (tr / 8) = Some e /\ seg_present e = true /\ seg_type e = 9 /\
     seg_base e = tss_addr /\ seg_limit e = Tss.TSS_SIZE - 1) /\
  Tss.ss0 ts = GDT_KDATA_SEL.
Proof.
  intros Hlen Ha. split.
  - intros t i base limit acc gran Ht Hi Hb Hl Hg. split; [apply set_entry_lookup; (lia || done) |].
    intros j Hj Hne. apply set_entry_other; lia.
  - unfold Tss.tss_init, gdt_set_tss, gdt_init. cbn [gdt gdt_ptr].
    destruct g as [[|e0 [|e1 [|e2 [|e3 [|e4 [|e5 [|]]]]]]] ptr]; try discriminate Hlen.
    split_and!; [done | | | done].
    + intros sel dpl ty Hin. repeat (apply elem_of_cons in Hin as [[= -> -> ->] | Hin];
        [eexists; split; [reflexivity |]; by vm_compute |]). by apply not_elem_of_nil in Hin.
    + match goal with |- context [set_entry ?t 5 ?b ?l ?a ?gr] =>
        destruct (set_entry_lookup t 5 b l a gr) as (e & He & [Hbase Hlim Hacc]) end;
        [rewrite !set_entry_length; cbn; lia | done | vm_compute; split; congruence | vm_compute; split; congruence |].
      exists e. split; [exact He |]. unfold seg_present, seg_type. rewrite Hbase, Hlim, Hacc. by split_and!.
Qed.

(** C35 After [idt_init] the first 32 vectors and the 16 interrupt lines have
    interrupt gates to their stubs, vector 128 has a trap gate to the system
    call stub, every gate runs kernel code, nothing else is present -- and so
    [INT n] from ring 3 is let through for [n = 128] only. *)
Theorem idt_gates (stub : Z -> Z) (isr128 addr : Z) :
  (forall i, is_u32 (stub i)) -> is_u32 isr128 ->
  let t := fst (idt_init stub isr128 addr idt_reset) in
  length t = 256%nat /\
  (forall v, 0 <= v < 256 -> exists e, t !! Z.to_nat v = Some e /\ zero e = 0 /\
     if decide (v < 48) then gate_present e = true /\ gate_offset e = stub v /\
       gate_type e = 14 /\ gate_dpl e = 0 /\ selector e = GDT_KCODE_SEL
     else if decide (v = 128) then gate_present e = true /\ gate_offset e = isr128 /\
       gate_type e = 15 /\ gate_dpl e = 3 /\ selector e = GDT_KCODE_SEL
     else gate_present e = false) /\
  forall v, 0 <= v < 256 -> int_allowed t v 3 = true <-> v = 128.
Proof. apply idt_gates_ok. Qed.

Lemma gdt_descriptors_witness :
  let g := snd (fst (Tss.tss_init 0x5000 (gdt_init 0x6000 (GdtState (replicate 6 zero_gdt_entry) None)))) in
  exists e, gdt g !! 5%nat = Some e /\ seg_base e = 0x5000 /\ seg_limit e = 103.
Proof.
  destruct (gdt_descriptors (GdtState (replicate 6 zero_gdt_entry) None) 0x6000 0x5000 eq_refl
              ltac:(unfold is_u32; lia)) as (_ & _ & _ & (e & He & _ & _ & Hb & Hl) & _).
  exists e. split; [exact He |]. split; [exact Hb | exact Hl].
Defined.

Lemma idt_gates_witness :
  let t := fst (idt_init (fun i => 0x9000 + 16 * (i mod 48)) 0xA000 0x7000 idt_reset) in
  int_allowed t 128 3 = true /\ int_allowed t 14 3 = false.
Proof.
  destruct (idt_gates (fun i => 0x9000 + 16 * (i mod 48)) 0xA000 0x7000) as (_ & _ & Hi).
  - intros i. unfold is_u32. zdm.
  - unfold is_u32. lia.
  - split; [apply Hi; lia |]. apply not_true_iff_false. intros E. apply Hi in E; lia.
Defined.
