(* ===== verification/Task.v ===== *)
(** * Tasks: data and operations

    [proc/task.c] and [proc/switch.asm]: the task structures, linked in a ring
    through their [next] pointers, the round-robin scheduler, the time slices
    and the register switch.  A task structure lives at the heap address
    [kmalloc] gave; using one that was freed is [BadAccess].  The kernel
    stacks are bytes of [kmem]. *)

From S2P Require Import Prelude Memory Interfaces Cpu.

Definition TASK_NAME_LEN : Z := 16.
Definition TASK_STACK_SIZE : Z := 0x4000.
Definition TASK_TIME_SLICE : Z := 5.

Inductive task_state : Type := TASK_READY | TASK_RUNNING | TASK_ZOMBIE.

#[export] Instance task_state_eq_dec : EqDecision task_state.
Proof. solve_decision. Defined.

(** [task_t].  Of [name] these are the bytes that were written, up to the
    terminating zero. *)
Record task : Type := Task {
  id : Z;
  name : list Z;
  state : task_state;
  esp : Z;
  stack_base : Z;
  stack_size : Z;
  kernel_stack_top : Z;
  is_user : Z;
  user_stack_base : Z;
  image : Z;
  ticks_run : Z;
  slice_left : Z;
  next : Z
}.
Definition TASK_SIZE : Z := 64.                                  (* sizeof(task_t) *)

Definition set_next (v : Z) (t : task) : task :=
  Task (id t) (name t) (state t) (esp t) (stack_base t) (stack_size t) (kernel_stack_top t)
    (is_user t) (user_stack_base t) (image t) (ticks_run t) (slice_left t) v.
Definition set_state (v : task_state) (t : task) : task :=
  Task (id t) (name t) v (esp t) (stack_base t) (stack_size t) (kernel_stack_top t)
    (is_user t) (user_stack_base t) (image t) (ticks_run t) (slice_left t) (next t).
Definition set_esp (v : Z) (t : task) : task :=
  Task (id t) (name t) (state t) v (stack_base t) (stack_size t) (kernel_stack_top t)
    (is_user t) (user_stack_base t) (image t) (ticks_run t) (slice_left t) (next t).
Definition set_image (v : Z) (t : task) : task :=
  Task (id t) (name t) (state t) (esp t) (stack_base t) (stack_size t) (kernel_stack_top t)
    (is_user t) (user_stack_base t) v (ticks_run t) (slice_left t) (next t).
Definition set_slice (v : Z) (t : task) : task :=
  Task (id t) (name t) (state t) (esp t) (stack_base t) (stack_size t) (kernel_stack_top t)
    (is_user t) (user_stack_base t) (image t) (ticks_run t) v (next t).
Definition set_ticks (v : Z) (t : task) : task :=
  Task (id t) (name t) (state t) (esp t) (stack_base t) (stack_size t) (kernel_stack_top t)
    (is_user t) (user_stack_base t) (image t) v (slice_left t) (next t).

(** The static variables of task.c, the interrupt flag, the kernel stacks,
    the TSS and the memory manager. *)
Record sched (M : Type) : Type := Sched {
  tasks : gmap Z task;
  g_current : Z;
  g_active : bool;
  g_need_resched : bool;
  g_next_id : Z;
  intr : bool;
  kmem : mem;
  tss : Tss.tss_t;
  pool : M
}.
Arguments Sched {M}. Arguments tasks {M}. Arguments g_current {M}. Arguments g_active {M}.
Arguments g_need_resched {M}. Arguments g_next_id {M}. Arguments intr {M}. Arguments kmem {M}.
Arguments tss {M}. Arguments pool {M}.

(** The registers [context_switch] saves and restores. *)
Record regs : Type := Regs { r_esp : Z; r_ebp : Z; r_ebx : Z; r_esi : Z; r_edi : Z; r_eip : Z }.

(** Where the linker puts the two trampolines of switch.asm. *)
Class TaskCode : Type := { task_start_trampoline : Z; user_iret_trampoline : Z }.

(** [*--sp = v], on a stack pointer and the memory. *)
Definition push32 (st : Z * mem) (v : Z) : Z * mem :=
  let sp := u32 (fst st - 4) in (sp, store32 (snd st) sp v).

(** [context_switch(&old, new_esp)] called with the registers [r], whose
    stack pointer is at the return address: the value stored in [old], the
    memory and the registers after [ret]. *)
Definition context_switch (m : mem) (r : regs) (new_esp : Z) : Z * mem * regs :=
  let st := push32 (r_esp r, m) (r_ebp r) in
  let st := push32 st (r_ebx r) in
  let st := push32 st (r_esi r) in
  let '(old, m) := push32 st (r_edi r) in
  (old, m,
   Regs (u32 (new_esp + 20)) (load32 m (u32 (new_esp + 12))) (load32 m (u32 (new_esp + 8)))
     (load32 m (u32 (new_esp + 4))) (load32 m new_esp) (load32 m (u32 (new_esp + 16)))).

(** The loop of [str_copy_n], with [max - 1 - i] characters to go; a string
    that ends without a zero byte is read as if one followed. *)
Fixpoint str_copy_loop (n : nat) (src : list Z) : list Z :=
  match n, src with
  | S n', c :: src' => if truth c then c :: str_copy_loop n' src' else [0]
  | _, _ => [0]
  end.
Definition str_copy_n (src : list Z) (max : Z) : list Z := str_copy_loop (Z.to_nat (max - 1)) src.

(** What [task_list_snapshot] writes for a task. *)
Record task_info : Type := TaskInfo {
  ti_id : Z; ti_name : list Z; ti_state : task_state; ti_ticks_run : Z; ti_is_current : bool
}.

Section Operations.
  Context {M : Type} `{ProcessMemory M} `{TaskCode}.
  Implicit Types s : sched M.

Definition with_tasks s (tk : gmap Z task) : sched M :=
  Sched tk (g_current s) (g_active s) (g_need_resched s) (g_next_id s) (intr s) (kmem s) (tss s) (pool s).
Definition with_current s (c : Z) (active : bool) : sched M :=
  Sched (tasks s) c active (g_need_resched s) (g_next_id s) (intr s) (kmem s) (tss s) (pool s).
Definition with_need s (b : bool) : sched M :=
  Sched (tasks s) (g_current s) (g_active s) b (g_next_id s) (intr s) (kmem s) (tss s) (pool s).
Definition with_next_id s (v : Z) : sched M :=
  Sched (tasks s) (g_current s) (g_active s) (g_need_resched s) v (intr s) (kmem s) (tss s) (pool s).
Definition with_kmem s (m : mem) : sched M :=
  Sched (tasks s) (g_current s) (g_active s) (g_need_resched s) (g_next_id s) (intr s) m (tss s) (pool s).
Definition with_tss s (t : Tss.tss_t) : sched M :=
  Sched (tasks s) (g_current s) (g_active s) (g_need_resched s) (g_next_id s) (intr s) (kmem s) t (pool s).
Definition with_pool s (m : M) : sched M :=
  Sched (tasks s) (g_current s) (g_active s) (g_need_resched s) (g_next_id s) (intr s) (kmem s) (tss s) m.

(** [cli] and [sti]. *)
Definition set_intr s (b : bool) : sched M :=
  Sched (tasks s) (g_current s) (g_active s) (g_need_resched s) (g_next_id s) b (kmem s) (tss s) (pool s).
Definition cli s : sched M := set_intr s false.
Definition sti s : sched M := set_intr s true.

(** A read and a write of a task structure through its pointer. *)
Definition get s (p : Z) : outcome task :=
  match tasks s !! p with Some t => Ret t | None => Halt (BadAccess p) end.
Definition upd s (p : Z) (f : task -> task) : outcome (sched M) :=
  do! t := get s p in Ret (with_tasks s (<[p := f t]> (tasks s))).

(** ** The ready queue *)

Definition ready_insert_after_current s (t : Z) : outcome (sched M) :=
  do! c := get s (g_current s) in
  do! s := upd s t (set_next (next c)) in
  upd s (g_current s) (set_next t).

(** [while (p->next != target) p = p->next; p->next = target->next]; there
    are no more rounds than tasks. *)
Fixpoint remove_loop (n : nat) s (target p : Z) : outcome (sched M) :=
  match n with
  | O => OutOfFuel
  | S n' =>
      do! t := get s p in
      if next t =? target then do! d := get s target in upd s p (set_next (next d))
      else remove_loop n' s target (next t)
  end.

Definition ready_remove s (target : Z) : outcome (sched M) :=
  do! d := get s target in remove_loop (size (tasks s)) s target (next d).

(** [if (p) kfree(p)]. *)
Definition free_if (m : M) (p : Z) : outcome M := if truth p then proc_free m p else Ret m.

Definition reap s (t : Z) : outcome (sched M) :=
  do! s := ready_remove s t in
  do! d := get s t in
  do! m := if truth (image d) then proc_unload (pool s) (image d) else Ret (pool s) in
  do! m := free_if m (stack_base d) in
  do! m := free_if m (user_stack_base d) in
  do! m := proc_free m t in
  Ret (with_tasks (with_pool s m) (delete t (tasks s))).

(** ** Start and creation *)

Definition tasking_init s : outcome (sched M) :=
  do! (boot, m) := proc_malloc (pool s) TASK_SIZE in
  if negb (truth boot) then Halt (TaskPanic "tasking_init: kmalloc failed")
  else
    let t := Task (g_next_id s) (str_copy_n [98; 111; 111; 116] TASK_NAME_LEN) TASK_RUNNING
               0 0 0 0 0 0 0 0 TASK_TIME_SLICE boot in
    let s := with_pool (with_next_id s (u32 (g_next_id s + 1))) m in
    Ret (with_current (with_tasks s (<[boot := t]> (tasks s))) boot true).

(** The end of the two creating functions: the new task is queued. *)
Definition enqueue s (t : Z) : outcome (sched M) :=
  let s := cli s in
  do! s := if negb (g_active s) then do! s := upd s t (set_next t) in Ret (with_current s t true)
           else ready_insert_after_current s t in
  Ret (sti s).

Definition task_create s (nm : list Z) (entry : Z) : outcome (Z * sched M) :=
  do! (t, m) := proc_malloc (pool s) TASK_SIZE in
  let s := with_pool s m in
  if negb (truth t) then Ret (0, s)
  else
    do! (stack, m) := proc_malloc (pool s) TASK_STACK_SIZE in
    let s := with_pool s m in
    if negb (truth stack) then do! m := proc_free (pool s) t in Ret (0, with_pool s m)
    else
      let st := (u32 (stack + TASK_STACK_SIZE), kmem s) in
      let st := push32 st entry in
      let st := push32 st task_start_trampoline in
      let st := push32 st 0 in
      let st := push32 st 0 in
      let st := push32 st 0 in
      let '(sp, km) := push32 st 0 in
      let d := Task (g_next_id s) (str_copy_n nm TASK_NAME_LEN) TASK_READY sp stack
                 TASK_STACK_SIZE (u32 (stack + TASK_STACK_SIZE)) 0 0 0 0 TASK_TIME_SLICE 0 in
      let s := with_kmem (with_next_id s (u32 (g_next_id s + 1))) km in
      do! s := enqueue (with_tasks s (<[t := d]> (tasks s))) t in
      Ret (t, s).

Definition task_create_user s (nm : list Z) (entry : Z) : outcome (Z * sched M) :=
  do! (t, m) := proc_malloc (pool s) TASK_SIZE in
  let s := with_pool s m in
  if negb (truth t) then Ret (0, s)
  else
    do! (kstack, m) := proc_malloc (pool s) TASK_STACK_SIZE in
    do! (ustack, m) := proc_malloc m TASK_STACK_SIZE in
    if negb (truth kstack) || negb (truth ustack) then
      do! m := free_if m kstack in
      do! m := free_if m ustack in
      do! m := proc_free m t in
      Ret (0, with_pool s m)
    else
      let s := with_pool s m in
      let kstack_top := u32 (kstack + TASK_STACK_SIZE) in
      let ustack_top := Z.land (u32 (ustack + TASK_STACK_SIZE)) (not32 0xF) in
      let st := (kstack_top, kmem s) in
      let st := push32 st Gdt.GDT_UDATA_SEL in
      let st := push32 st ustack_top in
      let st := push32 st 0x202 in
      let st := push32 st Gdt.GDT_UCODE_SEL in
      let st := push32 st entry in
      let st := push32 st user_iret_trampoline in
      let st := push32 st 0 in
      let st := push32 st 0 in
      let st := push32 st 0 in
      let '(sp, km) := push32 st 0 in
      let d := Task (g_next_id s) (str_copy_n nm TASK_NAME_LEN) TASK_READY sp kstack
                 TASK_STACK_SIZE kstack_top 1 ustack 0 0 TASK_TIME_SLICE 0 in
      let s := with_kmem (with_next_id s (u32 (g_next_id s + 1))) km in
      do! s := enqueue (with_tasks s (<[t := d]> (tasks s))) t in
      Ret (t, s).

Definition task_create_user_image s (nm : list Z) (img : Z) : outcome (Z * sched M) :=
  if negb (truth img) then Ret (0, s)
  else
    match proc_images (pool s) !! img with
    | None => Halt (BadAccess img)
    | Some entry =>
        do! (t, s) := task_create_user s nm entry in
        if negb (truth t) then Ret (0, s)
        else do! s := upd s t (set_image img) in Ret (t, s)
    end.

(** ** The scheduler *)

(** The loop of [pick_next]; there are no more rounds than tasks. *)
Fixpoint pick_loop (n : nat) s (from cand : Z) : outcome (Z * sched M) :=
  match n with
  | O => OutOfFuel
  | S n' =>
      if cand =? from then Ret (from, s)
      else
        do! c := get s cand in
        match state c with
        | TASK_ZOMBIE =>
            let dead := cand in
            let cand := next c in
            do! s := reap s dead in pick_loop n' s from cand
        | TASK_READY | TASK_RUNNING => Ret (cand, s)
        end
  end.

Definition pick_next s (from : Z) : outcome (Z * sched M) :=
  do! f := get s from in pick_loop (S (size (tasks s))) s from (next f).

(** [task_yield] of a task that would call [context_switch] with the
    registers [r].  [None]: it returned to its caller; [Some r']: the
    processor continues with the registers [r'], in the task that is now
    current, and the caller resumes when it is switched back to. *)
Definition task_yield (r : regs) s : outcome (option regs * sched M) :=
  if negb (g_active s) then Ret (None, s)
  else
    let s := cli s in
    let prev := g_current s in
    do! (nxt, s) := pick_next s prev in
    if nxt =? prev then
      do! p := get s prev in
      if negb (bool_decide (state p = TASK_ZOMBIE)) then Ret (None, sti s) else Halt NoRunnable
    else
      do! s := upd s prev (fun p => if bool_decide (state p = TASK_RUNNING) then set_state TASK_READY p else p) in
      do! s := upd s nxt (set_state TASK_RUNNING) in
      do! s := upd s prev (set_slice TASK_TIME_SLICE) in
      do! s := upd s nxt (set_slice TASK_TIME_SLICE) in
      let s := with_current s nxt (g_active s) in
      do! n := get s nxt in
      let s := if truth (kernel_stack_top n)
               then with_tss s (Tss.tss_set_esp0 (tss s) (kernel_stack_top n)) else s in
      let '(old, km, r') := context_switch (kmem s) r (esp n) in
      do! s := upd (with_kmem s km) prev (set_esp old) in
      Ret (Some r', s).

Definition task_exit (r : regs) s : outcome (regs * sched M) :=
  let s := cli s in
  do! s := upd s (g_current s) (set_state TASK_ZOMBIE) in
  let s := sti s in
  do! (o, s) := task_yield r s in
  match o with
  | Some r' => Ret (r', s)
  | None => Halt (TaskPanic "task_exit: returned from yield (ZOMBIE rescheduled)")
  end.

Definition task_tick s : outcome (sched M) :=
  if negb (g_active s) then Ret s
  else
    do! s := upd s (g_current s) (fun t => set_ticks (u32 (ticks_run t + 1)) t) in
    do! s := upd s (g_current s) (fun t => if 0 <? slice_left t then set_slice (slice_left t - 1) t else t) in
    do! c := get s (g_current s) in
    Ret (if slice_left c =? 0 then with_need s true else s).

Definition task_should_resched s : bool * sched M :=
  if negb (g_need_resched s) then (false, s) else (true, with_need s false).

(** ** Queries *)

Definition task_current s : Z := g_current s.
Definition tasking_active s : bool := g_active s.

(** The [do ... while] of the snapshot, with [n] entries written so far in
    [acc]; there are no more rounds than tasks. *)
Fixpoint snapshot_loop (fuel : nat) s (max t : Z) (acc : list task_info) : outcome (list task_info) :=
  match fuel with
  | O => OutOfFuel
  | S fuel' =>
      if max <=? Z.of_nat (length acc) then Ret acc
      else
        do! d := get s t in
        let acc := acc ++ [TaskInfo (id d) (name d) (state d) (ticks_run d) (t =? g_current s)] in
        if next d =? g_current s then Ret acc else snapshot_loop fuel' s max (next d) acc
  end.

(** The entries written to [out], whose number is the result. *)
Definition task_list_snapshot s (out max : Z) : outcome (list task_info * sched M) :=
  if negb (g_active s) || negb (truth out) || (max <=? 0) then Ret ([], s)
  else
    let s := cli s in
    do! l := snapshot_loop (size (tasks s)) s max (g_current s) [] in
    Ret (l, sti s).

End Operations.
