(* ===== verification/TaskRing.v ===== *)
(** * Tasks: the ring

    The [next] pointers of the task structures form one ring.  A ring is
    described by the list of its pointers from some task on; rotating the
    list describes the same ring from another task.  Insertion, removal and
    the search of the scheduler are given their effect on these lists. *)

From S2P Require Import Prelude Memory Interfaces Cpu Task.

(** ** Rings of pointers *)

Section Rings.
  Implicit Types (tk : gmap Z task) (l : list Z).

Definition nxt tk (p : Z) : option Z := next <$> tk !! p.

(** From [a] the pointers lead through [l] to [z]. *)
Fixpoint path tk (a : Z) l (z : Z) : Prop :=
  match l with
  | [] => nxt tk a = Some z
  | b :: l' => nxt tk a = Some b /\ path tk b l' z
  end.

Definition ring tk l : Prop :=
  match l with [] => False | a :: l' => path tk a l' a end.

Lemma path_app tk a l1 b l2 z : path tk a (l1 ++ b :: l2) z <-> path tk a l1 b /\ path tk b l2 z.
Proof.
  revert a. induction l1 as [|c l1 IH]; intros a; cbn [app path]; [done |].
  rewrite IH. tauto.
Qed.

Lemma path_frame tk tk' a l z :
  path tk a l z -> (forall p, p ∈ a :: l -> nxt tk' p = nxt tk p) -> path tk' a l z.
Proof.
  revert a. induction l as [|b l IH]; intros a; cbn [path].
  - intros <- Hf. apply Hf, list_elem_of_here.
  - intros [Ha Hp] Hf. split; [rewrite <- Ha; apply Hf, list_elem_of_here |].
    apply IH; [done |]. intros p Hin. apply Hf. by apply list_elem_of_further.
Qed.

Lemma ring_frame tk tk' l :
  ring tk l -> (forall p, p ∈ l -> nxt tk' p = nxt tk p) -> ring tk' l.
Proof. destruct l as [|a l]; [done |]. apply path_frame. Qed.

Lemma path_dom tk a l z p : path tk a l z -> p ∈ a :: l -> is_Some (tk !! p).
Proof.
  revert a. induction l as [|b l IH]; intros a; cbn [path].
  - intros Ha ->%list_elem_of_singleton. unfold nxt in Ha. by destruct (tk !! a).
  - intros [Ha Hp] [-> | Hin]%elem_of_cons; [unfold nxt in Ha; by destruct (tk !! a) | by apply (IH b)].
Qed.

Lemma ring_dom tk l p : ring tk l -> p ∈ l -> is_Some (tk !! p).
Proof. destruct l as [|a l]; [done |]. apply path_dom. Qed.

Lemma ring_rotate tk l1 l2 : ring tk (l1 ++ l2) -> ring tk (l2 ++ l1).
Proof.
  destruct l1 as [|a l1], l2 as [|b l2]; rewrite ?app_nil_r; try done.
  cbn [ring app]. rewrite path_app. intros [H1' H2']. apply path_app. tauto.
Qed.

(** The step from a task to the next one in the list. *)
Lemma ring_next tk a b l : ring tk (a :: b :: l) -> nxt tk a = Some b.
Proof. by intros [? _]. Qed.

Lemma ring_next_last tk l a : ring tk (l ++ [a]) -> nxt tk a = head (l ++ [a]).
Proof.
  destruct l as [|b l]; [done |]. cbn [app ring head]. by intros [_ ?]%path_app.
Qed.

Lemma nxt_insert tk p t q : nxt (<[p := t]> tk) q = if decide (p = q) then Some (next t) else nxt tk q.
Proof. unfold nxt. rewrite lookup_insert. by case_decide. Qed.

(** Insertion of a new task behind [a]. *)
Lemma ring_insert tk a l p ta tp :
  ring tk (a :: l) -> NoDup (a :: l) -> p ∉ a :: l -> nxt tk a = Some (next tp) -> next ta = p ->
  ring (<[a := ta]> (<[p := tp]> tk)) (a :: p :: l).
Proof.
  intros Hr [Hal _]%NoDup_cons [Hne Hp]%not_elem_of_cons Ha Hta. cbn [ring path] in *.
  rewrite nxt_insert, decide_True by done. split; [by rewrite Hta |].
  destruct l as [|b l]; cbn [path] in *; rewrite !nxt_insert, decide_False, decide_True by done.
  - congruence.
  - destruct Hr as [Hb Hr]. split; [congruence |]. apply (path_frame tk); [done |].
    intros q Hq. rewrite !nxt_insert, !decide_False; [done | by intros -> | by intros ->].
Qed.

(** Changing where the last task of a path points. *)
Lemma path_retarget tk a l z z' q t :
  path tk a l z -> NoDup (a :: l) -> last (a :: l) = Some q -> next t = z' ->
  path (<[q := t]> tk) a l z'.
Proof.
  revert a. induction l as [|b l IH]; intros a Hp Hn Hl Ht; cbn [path] in *.
  - injection Hl as ->. rewrite nxt_insert, decide_True by done. congruence.
  - destruct Hp as [Ha Hp]. apply NoDup_cons in Hn as [Hin Hn]. rewrite last_cons_cons in Hl.
    split; [| by apply IH]. rewrite nxt_insert, decide_False; [done |].
    intros ->. by apply Hin, last_Some_elem_of.
Qed.

Lemma ring_size tk l : ring tk l -> NoDup l -> (length l <= size tk)%nat.
Proof.
  intros Hr Hn. rewrite <- (size_list_to_set (C := gset Z) l Hn), <- size_dom.
  apply subseteq_size. intros p Hp%elem_of_list_to_set. apply elem_of_dom. by apply (ring_dom tk l).
Qed.

(** Equal but for the [next] pointers. *)
Definition same_tasks tk tk' : Prop :=
  forall p, set_next 0 <$> tk' !! p = set_next 0 <$> tk !! p.

Lemma same_tasks_refl tk : same_tasks tk tk.
Proof. done. Qed.

Lemma same_tasks_trans tk1 tk2 tk3 : same_tasks tk1 tk2 -> same_tasks tk2 tk3 -> same_tasks tk1 tk3.
Proof. intros H12 H23 p. by rewrite H23, H12. Qed.

Lemma same_tasks_next tk p t v : tk !! p = Some t -> same_tasks tk (<[p := set_next v t]> tk).
Proof.
  intros Hp q. rewrite lookup_insert. case_decide as E; [| done]. subst q. by rewrite Hp.
Qed.

(** A task of the second map, in the first. *)
Lemma same_tasks_some tk tk' p t' : same_tasks tk tk' -> tk' !! p = Some t' ->
  exists t, tk !! p = Some t /\ t' = set_next (next t') t.
Proof.
  intros Hs Hp. specialize (Hs p). rewrite Hp in Hs. destruct (tk !! p) as [t |]; [| done].
  exists t. split; [done |]. injection Hs as ???????????. destruct t, t'. cbn in *. by subst.
Qed.

Lemma same_tasks_sym tk tk' : same_tasks tk tk' -> same_tasks tk' tk.
Proof. intros Hs p. by rewrite Hs. Qed.

End Rings.

(** ** The queue operations *)

Section Queue.
  Context {M : Type} `{ProcessMemory M}.
  Implicit Types s : sched M.

Lemma get_some s p t : tasks s !! p = Some t -> get s p = Ret t.
Proof. unfold get. by intros ->. Qed.

Lemma upd_some s p t f : tasks s !! p = Some t -> upd s p f = Ret (with_tasks s (<[p := f t]> (tasks s))).
Proof. intros Hp. unfold upd. by rewrite (get_some s p t). Qed.

Lemma remove_loop_ok n s p l target d :
  path (tasks s) p l target -> target ∉ p :: l -> tasks s !! target = Some d ->
  (length (p :: l) <= n)%nat ->
  exists q t, last (p :: l) = Some q /\ tasks s !! q = Some t /\
    remove_loop n s target p = Ret (with_tasks s (<[q := set_next (next d) t]> (tasks s))).
Proof.
  revert p n. induction l as [|b l IH]; intros p n Hp Hnin Hd Hn;
    (destruct n as [|n]; [cbn in Hn; lia |]); cbn [path remove_loop length] in *.
  - unfold nxt in Hp. destruct (tasks s !! p) as [t |] eqn:Et; [| done]. injection Hp as <-.
    rewrite (get_some s p t) by done. cbn [obind]. rewrite Z.eqb_refl.
    rewrite (get_some s _ d) by done. cbn [obind]. rewrite (upd_some s p t) by done. by exists p, t.
  - destruct Hp as [Hpb Hp]. unfold nxt in Hpb. destruct (tasks s !! p) as [t |] eqn:Et; [| done].
    injection Hpb as <-. rewrite (get_some s p t) by done. cbn [obind].
    apply not_elem_of_cons in Hnin as [_ Hnin]. pose proof Hnin as [Hne _]%not_elem_of_cons.
    rewrite (proj2 (Z.eqb_neq (next t) target)) by done.
    destruct (IH (next t) n Hp Hnin Hd) as (q & t' & Hl & Hq & E); [lia |].
    exists q, t'. by rewrite last_cons_cons.
Qed.

Lemma ready_remove_ok s target a l :
  ring (tasks s) (target :: a :: l) -> NoDup (target :: a :: l) ->
  exists tk, ready_remove s target = Ret (with_tasks s tk) /\ ring tk (a :: l) /\
    same_tasks (tasks s) tk /\ tk !! target = tasks s !! target.
Proof.
  intros Hr Hn. pose proof (ring_size _ _ Hr Hn) as Hsz. cbn [length] in Hsz.
  destruct Hr as [Hta Hr]. unfold nxt in Hta. destruct (tasks s !! target) as [d |] eqn:Hd; [| done].
  injection Hta as <-. apply NoDup_cons in Hn as [Hnin Hn].
  unfold ready_remove. rewrite (get_some s _ d) by done. cbn [obind].
  destruct (remove_loop_ok (size (tasks s)) s (next d) l target d Hr Hnin Hd) as (q & t & Hl & Hq & E);
    [cbn; lia |].
  rewrite E. eexists. split; [reflexivity |]. split_and!.
  - cbn [ring]. by apply (path_retarget _ _ _ target (next d) q).
  - by apply same_tasks_next.
  - rewrite lookup_insert_ne; [done |]. intros ->. by apply Hnin, last_Some_elem_of.
Qed.

Lemma ready_insert_ok s a l p t :
  ring (tasks s) (a :: l) -> NoDup (a :: l) -> p ∉ a :: l -> g_current s = a ->
  let s1 := with_tasks s (<[p := t]> (tasks s)) in
  exists tk, ready_insert_after_current s1 p = Ret (with_tasks s tk) /\
    ring tk (a :: p :: l) /\ same_tasks (<[p := t]> (tasks s)) tk.
Proof.
  intros Hr Hn Hp Hc s1. unfold ready_insert_after_current.
  change (g_current s1) with (g_current s). rewrite Hc.
  destruct (ring_dom _ _ a Hr (list_elem_of_here _ _)) as [ta Ha].
  assert (p ≠ a) as Hne by (apply not_elem_of_cons in Hp; tauto).
  rewrite (get_some s1 a ta) by (cbn; by rewrite lookup_insert_ne). cbn [obind].
  rewrite (upd_some s1 p t) by apply lookup_insert_eq. cbn [obind].
  set (s2 := with_tasks s1 _).
  assert (tasks s2 = <[p := set_next (next ta) t]> (tasks s)) as E2 by apply insert_insert_eq.
  change (g_current s2) with (g_current s). rewrite Hc.
  rewrite (upd_some s2 a ta) by (rewrite E2; by rewrite lookup_insert_ne). rewrite E2.
  eexists. split; [reflexivity |]. split.
  - apply ring_insert; try done. unfold nxt. by rewrite Ha.
  - intros q. rewrite !lookup_insert. repeat case_decide; subst; rewrite ?Ha; done.
Qed.

End Queue.
