(* ===== verification/TaskSpec.v ===== *)
(** * Tasks: invariants and the scheduler's steps

    What every task owns in the heap, the invariant of the scheduler, and the
    effect of reaping, picking and switching on the ring seen as a list whose
    head is the current task. *)

From S2P Require Import Prelude Memory Interfaces Cpu Task TaskRing.

(** ** Ownership *)

Definition opt_ptr (p : Z) : list Z := if truth p then [p] else [].
Definition stacks (t : task) : list Z := opt_ptr (stack_base t) ++ opt_ptr (user_stack_base t).
Definition resources (p : Z) (t : task) : list Z := opt_ptr (image t) ++ stacks t ++ [p].

(** The pointers [resources] depends on. *)
Definition own (t : task) : Z * Z * Z := (stack_base t, user_stack_base t, image t).
Definition same_own (tk tk' : gmap Z task) : Prop := forall p, own <$> tk' !! p = own <$> tk !! p.

Lemma elem_of_opt_ptr q p : q ∈ opt_ptr p <-> q = p /\ p ≠ 0.
Proof.
  unfold opt_ptr, truth. destruct (Z.eqb_spec p 0) as [-> | Hp]; cbn.
  - split; [by intros ?%not_elem_of_nil | tauto].
  - rewrite list_elem_of_singleton. tauto.
Qed.

Lemma opt_ptr_pos p : 0 < p -> opt_ptr p = [p].
Proof. intros Hp. unfold opt_ptr. by rewrite truth_pos. Qed.

Lemma resources_own p t t' : own t' = own t -> resources p t' = resources p t.
Proof. unfold own, resources, stacks. by intros [= -> -> ->]. Qed.

Lemma stacks_own t t' : own t' = own t -> stacks t' = stacks t.
Proof. unfold own, stacks. by intros [= -> -> _]. Qed.

Lemma same_own_some tk tk' p t' : same_own tk tk' -> tk' !! p = Some t' ->
  exists t, tk !! p = Some t /\ own t' = own t.
Proof.
  intros Hs Hp. specialize (Hs p). rewrite Hp in Hs. destruct (tk !! p) as [t |]; [| done].
  exists t. split; [done |]. cbn in Hs. congruence.
Qed.

Lemma same_own_insert tk p t t' : tk !! p = Some t -> own t' = own t -> same_own tk (<[p := t']> tk).
Proof. intros Hp Ho q. rewrite lookup_insert. case_decide; subst; rewrite ?Hp; [cbn; congruence | done]. Qed.

Lemma same_own_trans tk1 tk2 tk3 : same_own tk1 tk2 -> same_own tk2 tk3 -> same_own tk1 tk3.
Proof. intros H12 H23 p. by rewrite H23, H12. Qed.

Lemma same_tasks_own tk tk' : same_tasks tk tk' -> same_own tk tk'.
Proof.
  intros Hs p. specialize (Hs p). destruct (tk !! p) as [t |], (tk' !! p) as [t' |]; try done.
  injection Hs as ???????????. unfold own. cbn. congruence.
Qed.

Section Ownership.
  Context {M : Type} `{ProcessMemoryLaws M}.
  Implicit Types m : M.

(** [m'] is [m] after the blocks of [l], images or not, were given back. *)
Record gone m (l : list Z) m' : Prop := Gone {
  go_ok : proc_ok m';
  go_blocks q : proc_blocks m' !! q = if decide (q ∈ l) then None else proc_blocks m !! q;
  go_images q : proc_images m' !! q = if decide (q ∈ l) then None else proc_images m !! q;
  go_returns : proc_returns m m'
}.

Lemma gone_nil m : proc_ok m -> gone m [] m.
Proof.
  intros Hok. split; [done | | | by apply proc_returns_refl]; intros q; rewrite decide_False; (done || apply not_elem_of_nil).
Qed.

Lemma gone_app m l1 m1 l2 m2 : gone m l1 m1 -> gone m1 l2 m2 -> gone m (l1 ++ l2) m2.
Proof.
  intros [_ B1 I1 R1] [Hok B2 I2 R2]. split; [done | | | by eapply proc_returns_trans]; intros q; rewrite ?B2, ?I2, ?B1, ?I1;
    pose proof (elem_of_app l1 l2 q); repeat case_decide; tauto.
Qed.

Lemma gone_free m l m1 q n :
  gone m l m1 -> q ∉ l -> proc_blocks m !! q = Some n -> proc_images m !! q = None ->
  exists m2, proc_free m1 q = Ret m2 /\ gone m (l ++ [q]) m2.
Proof.
  intros Hg Hq Hb Hi.
  assert (proc_blocks m1 !! q = Some n) as Hb1 by by rewrite (go_blocks _ _ _ Hg), decide_False.
  assert (proc_images m1 !! q = None) as Hi1 by by rewrite (go_images _ _ _ Hg), decide_False.
  destruct (proc_free_ok m1 q n) as (m2 & E & Hok & Hi2 & Hb2); [apply (go_ok _ _ _ Hg) | done | done |].
  - exists m2. split; [done |]. eapply gone_app; [exact Hg |].
    split; [done | | | by apply (proc_free_returns m1 q n); [apply (go_ok _ _ _ Hg) | | |]]; intros x.
    + rewrite Hb2, lookup_delete. pose proof (list_elem_of_singleton x q). repeat case_decide; naive_solver.
    + rewrite Hi2. case_decide as E'; [| done]. apply list_elem_of_singleton in E' as ->.
      by rewrite (go_images _ _ _ Hg), decide_False.
Qed.

Lemma gone_free_if m l m1 q n :
  gone m l m1 -> (forall x, x ∈ opt_ptr q -> x ∉ l /\ proc_blocks m !! x = Some n /\ proc_images m !! x = None) ->
  exists m2, free_if m1 q = Ret m2 /\ gone m (l ++ opt_ptr q) m2.
Proof.
  intros Hg Hq. unfold free_if, opt_ptr in *. destruct (truth q) eqn:E.
  - destruct (Hq q) as (? & ? & ?); [by apply list_elem_of_singleton |]. by eapply gone_free.
  - exists m1. by rewrite app_nil_r.
Qed.

(** What a task owns. *)
Record holds m (p : Z) (t : task) : Prop := Holds {
  ho_task : proc_blocks m !! p = Some TASK_SIZE;
  ho_stacks q : q ∈ stacks t -> proc_blocks m !! q = Some TASK_STACK_SIZE;
  ho_plain q : q ∈ stacks t ++ [p] -> proc_images m !! q = None;
  ho_image q : q ∈ opt_ptr (image t) -> is_Some (proc_images m !! q);
  ho_nodup : NoDup (resources p t)
}.

(** The end of [reap]: everything the task owns is given back. *)
Lemma release_ok m p t :
  proc_ok m -> holds m p t ->
  exists m', (do! m := if truth (image t) then proc_unload m (image t) else Ret m in
              do! m := free_if m (stack_base t) in
              do! m := free_if m (user_stack_base t) in
              proc_free m p) = Ret m' /\ gone m (resources p t) m'.
Proof.
  intros Hok [Ht Hs Hpl Him Hn]. unfold resources, stacks in *.
  assert (exists m1, (if truth (image t) then proc_unload m (image t) else Ret m) = Ret m1 /\
            gone m (opt_ptr (image t)) m1) as (m1 & -> & G1).
  { unfold opt_ptr in *. destruct (truth (image t)); [| exists m; split; [done | by apply gone_nil]].
    destruct (Him (image t)) as [e He]; [by apply list_elem_of_singleton |].
    destruct (proc_unload_ok m (image t) e Hok He) as (m1 & E & Hok1 & Hi1 & Hb1).
    exists m1. split; [done |]. split; [done | | | by apply (proc_unload_returns m (image t) e)];
      intros x; rewrite ?Hb1, ?Hi1, lookup_delete;
      pose proof (list_elem_of_singleton x (image t)); repeat case_decide; naive_solver. }
  cbn [obind]. apply NoDup_app in Hn as (_ & Hd1 & Hn). apply NoDup_app in Hn as (Hn & Hd2 & _).
  apply NoDup_app in Hn as (_ & Hd3 & _).
  assert (forall x, x ∈ opt_ptr (stack_base t) ++ opt_ptr (user_stack_base t) -> proc_images m !! x = None) as Hpl'.
  { intros x Hx. apply Hpl, elem_of_app. by left. }
  assert (forall x, x ∈ (opt_ptr (stack_base t) ++ opt_ptr (user_stack_base t)) ++ [p] ->
    x ∉ opt_ptr (image t)) as Hd1' by (intros x Hx Hi; exact (Hd1 x Hi Hx)).
  destruct (gone_free_if m _ m1 (stack_base t) TASK_STACK_SIZE G1) as (m2 & -> & G2).
  { intros x Hx. assert (x ∈ opt_ptr (stack_base t) ++ opt_ptr (user_stack_base t)) as Hx'
      by (apply elem_of_app; by left).
    split_and!; [| by apply Hs | by apply Hpl']. apply Hd1', elem_of_app. by left. }
  cbn [obind].
  destruct (gone_free_if m _ m2 (user_stack_base t) TASK_STACK_SIZE G2) as (m3 & -> & G3).
  { intros x Hx. assert (x ∈ opt_ptr (stack_base t) ++ opt_ptr (user_stack_base t)) as Hx'
      by (apply elem_of_app; by right).
    split_and!; [| by apply Hs | by apply Hpl'].
    rewrite elem_of_app. intros [Hi | Hst]; [apply (Hd1' x); [apply elem_of_app; by left | done] |].
    exact (Hd3 x Hst Hx). }
  cbn [obind].
  destruct (gone_free m _ m3 p TASK_SIZE G3) as (m4 & -> & G4).
  - rewrite !elem_of_app. intros [[Hi | Hst] | Hu].
    + apply (Hd1' p); [| done]. apply elem_of_app. right. by apply list_elem_of_singleton.
    + apply (Hd2 p); [apply elem_of_app; by left | by apply list_elem_of_singleton].
    + apply (Hd2 p); [apply elem_of_app; by right | by apply list_elem_of_singleton].
  - done.
  - apply Hpl, elem_of_app. right. by apply list_elem_of_singleton.
  - exists m4. split; [done |]. by rewrite <- !app_assoc in *.
Qed.

(** The tasks own pairwise different blocks. *)
Record tasks_mem (tk : gmap Z task) m : Prop := TasksMem {
  tm_ok : proc_ok m;
  tm_holds p t : tk !! p = Some t -> holds m p t;
  tm_apart p q t u x : tk !! p = Some t -> tk !! q = Some u -> p ≠ q ->
    x ∈ resources p t -> x ∉ resources q u
}.

Lemma holds_own m p t t' : holds m p t -> own t' = own t -> holds m p t'.
Proof.
  intros [? ? ? ? ?] Ho. pose proof (stacks_own _ _ Ho) as Hst.
  split; rewrite ?Hst; try done.
  - unfold own in Ho. injection Ho as _ _ ->. done.
  - by rewrite (resources_own _ _ _ Ho).
Qed.

Lemma tasks_mem_own tk tk' m : tasks_mem tk m -> same_own tk tk' -> tasks_mem tk' m.
Proof.
  intros [Hok Hh Ha] Hs. split; [done | |].
  - intros p t Hp. destruct (same_own_some _ _ _ _ Hs Hp) as (u & Hu & E).
    eapply holds_own; [by apply Hh | done].
  - intros p q t u x Hp Hq Hne. destruct (same_own_some _ _ _ _ Hs Hp) as (t' & Hp' & E1).
    destruct (same_own_some _ _ _ _ Hs Hq) as (u' & Hq' & E2).
    rewrite (resources_own _ _ _ E1), (resources_own _ _ _ E2). by apply Ha.
Qed.

Lemma tasks_mem_delete tk m p t m' :
  tasks_mem tk m -> tk !! p = Some t -> gone m (resources p t) m' -> tasks_mem (delete p tk) m'.
Proof.
  intros [Hok Hh Ha] Hp [Hok' Hb Hi]. split; [done | |].
  - intros q u [Hne Hq]%lookup_delete_Some. destruct (Hh q u Hq) as [? ? ? ? ?].
    assert (forall x, x ∈ resources q u -> x ∉ resources p t) as Hn by (intros x Hx; apply (Ha q p u t); auto).
    assert (forall x, x ∈ stacks u ++ [q] -> x ∈ resources q u) as Hsub.
    { intros x Hx. unfold resources. apply elem_of_app. by right. }
    split.
    + rewrite Hb, decide_False; [done |]. apply Hn, Hsub, elem_of_app. right. by apply list_elem_of_singleton.
    + intros x Hx. rewrite Hb, decide_False; [by auto |]. apply Hn, Hsub, elem_of_app. by left.
    + intros x Hx. rewrite Hi, decide_False; [by auto |]. by apply Hn, Hsub.
    + intros x Hx. rewrite Hi, decide_False; [by auto |]. apply Hn. unfold resources. apply elem_of_app. by left.
    + done.
  - intros q q' u u' x [_ Hq]%lookup_delete_Some [_ Hq']%lookup_delete_Some. by apply Ha.
Qed.

End Ownership.
