(* ===== verification/TaskSched.v ===== *)
(** * Tasks: the scheduler

    The invariant of the scheduler, and the effect of its steps on the ring
    written as a list whose head is the current task: [pick_next] skips and
    reaps zombies, [task_yield] rotates, creation inserts behind the head. *)

From S2P Require Import Prelude Memory Interfaces Cpu Task TaskRing TaskSpec.

Section Scheduler.
  Context {M : Type} `{ProcessMemoryLaws M}.
  Implicit Types s : sched M.

(** [l] lists the tasks in the order of the ring, the current one first. *)
Record ring_ok s (l : list Z) : Prop := RingOk {
  ro_ring : ring (tasks s) l;
  ro_nodup : NoDup l;
  ro_dom p : is_Some (tasks s !! p) -> p ∈ l;
  ro_current : head l = Some (g_current s);
  ro_active : g_active s = true;
  ro_mem : tasks_mem (tasks s) (pool s);
  ro_wait p t : p ∈ tail l -> tasks s !! p = Some t -> state t ≠ TASK_RUNNING
}.

Definition state_of s (p : Z) : option task_state := state <$> tasks s !! p.

(** What the tasks of [l] own. *)
Definition resources_of s (p : Z) : list Z :=
  match tasks s !! p with Some t => resources p t | None => [] end.

(** [s'] is [s] with other links and without the tasks [zs]. *)
Record reaped s (zs : list Z) s' : Prop := Reaped {
  re_tasks p : set_next 0 <$> tasks s' !! p = if decide (p ∈ zs) then None else set_next 0 <$> tasks s !! p;
  re_pool : gone (pool s) (concat (resources_of s <$> zs)) (pool s');
  re_rest : s' = with_tasks (with_pool s (pool s')) (tasks s')
}.

Lemma reaped_state s zs s' p : reaped s zs s' -> p ∉ zs -> state_of s' p = state_of s p.
Proof.
  intros [Ht _ _] Hp. specialize (Ht p). rewrite decide_False in Ht by done. unfold state_of.
  destruct (tasks s !! p), (tasks s' !! p); try done. injection Ht as ???????????. cbn. congruence.
Qed.

Lemma reaped_resources s zs s' p : reaped s zs s' -> p ∉ zs -> resources_of s' p = resources_of s p.
Proof.
  intros [Ht _ _] Hp. specialize (Ht p). rewrite decide_False in Ht by done. unfold resources_of.
  destruct (tasks s !! p) as [t |], (tasks s' !! p) as [t' |]; try done. injection Ht as ???????????.
  apply resources_own. unfold own. congruence.
Qed.

Lemma reaped_nil s : proc_ok (pool s) -> reaped s [] s.
Proof.
  intros Hok. split.
  - intros p. rewrite decide_False; [done | apply not_elem_of_nil].
  - by apply gone_nil.
  - by destruct s.
Qed.

Lemma reaped_cons s z s1 zs s2 :
  reaped s [z] s1 -> reaped s1 zs s2 -> z ∉ zs -> reaped s (z :: zs) s2.
Proof.
  intros R1 R2 Hz. pose proof R1 as [T1 G1 E1]. pose proof R2 as [T2 G2 E2]. split.
  - intros p. rewrite T2, T1. pose proof (list_elem_of_singleton p z). pose proof (elem_of_cons zs p z).
    repeat case_decide; tauto.
  - cbn [fmap list_fmap concat] in *. rewrite app_nil_r in G1. eapply gone_app; [exact G1 |].
    assert (resources_of s1 <$> zs = resources_of s <$> zs) as <-; [| done].
    apply list_fmap_ext. intros i p Hp. apply (reaped_resources s [z]); [done |].
    intros ->%list_elem_of_singleton. apply Hz. by eapply list_elem_of_lookup_2.
  - rewrite E2, E1. done.
Qed.

(** [reap] of a task that is not the current one. *)
Lemma reap_ok s c z l :
  ring_ok s (c :: z :: l) ->
  exists s', reap s z = Ret s' /\ ring_ok s' (c :: l) /\ reaped s [z] s'.
Proof.
  intros [Hr Hn Hd Hc Ha Hm Hw].
  assert (ring (tasks s) (z :: l ++ [c])) as Hr' by (apply (ring_rotate _ [c] (z :: l)); done).
  assert (z :: l ++ [c] ≡ₚ c :: z :: l) as Hperm.
  { rewrite (Permutation_app_comm l [c]). cbn. apply Permutation_swap. }
  assert (NoDup (z :: l ++ [c])) as Hn' by (by rewrite Hperm).
  destruct (ring_dom _ _ z Hr (list_elem_of_further _ _ _ (list_elem_of_here _ _))) as [t Hz].
  assert (exists b l', l ++ [c] = b :: l') as (b & l' & El) by (destruct l; eauto).
  rewrite El in Hr', Hn'.
  destruct (ready_remove_ok s z b l' Hr' Hn') as (tk & E & Hring & Hsame & Htz).
  rewrite <- El in Hring. rewrite Hz in Htz.
  pose proof (tasks_mem_own _ _ _ Hm (same_tasks_own _ _ Hsame)) as Hm'.
  destruct (release_ok (pool s) z t (tm_ok _ _ Hm') (tm_holds _ _ Hm' z t Htz)) as (m' & Er & Hg).
  unfold reap. rewrite E. cbn [obind]. rewrite (get_some (with_tasks s tk) z t) by done. cbn [obind].
  change (pool (with_tasks s tk)) with (pool s).
  assert (forall (A : Type) (k : M -> outcome A),
    (do! m := (if truth (image t) then proc_unload (pool s) (image t) else Ret (pool s)) in
     do! m := free_if m (stack_base t) in
     do! m := free_if m (user_stack_base t) in do! m := proc_free m z in k m) = k m') as ->.
  { intros A k. destruct (if truth (image t) then _ else _); try discriminate Er. cbn [obind] in *.
    destruct (free_if a (stack_base t)); try discriminate Er. cbn [obind] in *.
    destruct (free_if _ (user_stack_base t)); try discriminate Er. cbn [obind] in *. by rewrite Er. }
  eexists. split; [reflexivity |]. cbn [tasks with_tasks with_pool]. split; [split | split];
    cbn [tasks with_tasks with_pool pool g_current g_active tail].
  - apply (ring_rotate _ l [c]). apply (ring_frame tk); [done |]. intros p Hp.
    unfold nxt. rewrite lookup_delete_ne; [done |]. intros ->. rewrite <- El in Hn'.
    by apply NoDup_cons in Hn' as [? _].
  - apply NoDup_cons in Hn as [Hcn Hn]. apply NoDup_cons in Hn as [_ Hn]. apply NoDup_cons. split; [| done].
    intros Hin. by apply Hcn, list_elem_of_further.
  - intros p [u Hp]. apply lookup_delete_Some in Hp as [Hne Hp].
    destruct (same_tasks_some _ _ _ _ Hsame Hp) as (v & Hv & _).
    assert (p ∈ c :: z :: l) as Hin by (apply Hd; eauto).
    apply elem_of_cons in Hin as [-> | [-> | Hin]%elem_of_cons]; [apply list_elem_of_here | done |].
    by apply list_elem_of_further.
  - done.
  - done.
  - by eapply tasks_mem_delete.
  - intros p u Hp [_ Hu]%lookup_delete_Some. destruct (same_tasks_some _ _ _ _ Hsame Hu) as (v & Hv & ->).
    cbn [state set_next]. apply (Hw p v); [by apply list_elem_of_further | done].
  - intros p. destruct (decide (p = z)) as [-> | Hne].
    + by rewrite lookup_delete_eq, decide_True by (by apply list_elem_of_singleton).
    + rewrite lookup_delete_ne, decide_False by (rewrite ?list_elem_of_singleton; congruence). apply Hsame.
  - cbn [fmap list_fmap concat]. unfold resources_of. rewrite Hz, app_nil_r. done.
  - done.
Qed.

Lemma ring_head_next s c l : ring_ok s (c :: l) -> nxt (tasks s) c = head (l ++ [c]).
Proof.
  intros Hr. pose proof (ro_ring _ _ Hr) as Hg. apply (ring_rotate _ [c] l) in Hg.
  by apply ring_next_last in Hg.
Qed.

(** The loop of [pick_next] passes over the zombies [zs] and stops at the
    next task, or at the current one after a whole round. *)
Lemma pick_loop_ok n s c zs rest :
  ring_ok s (c :: zs ++ rest) -> Forall (fun p => state_of s p = Some TASK_ZOMBIE) zs ->
  (forall x, head rest = Some x -> state_of s x ≠ Some TASK_ZOMBIE) -> (length zs < n)%nat ->
  exists s', pick_loop n s c (default c (head (zs ++ rest))) = Ret (default c (head rest), s') /\
    ring_ok s' (c :: rest) /\ reaped s zs s'.
Proof.
  revert n s. induction zs as [|z zs IH]; intros n s Hr Hz Hx Hn; (destruct n as [|n]; [cbn in Hn; lia |]);
    cbn [app length pick_loop] in *.
  - exists s. split; [| split; [done | apply reaped_nil, (tm_ok _ _ (ro_mem _ _ Hr))]].
    destruct rest as [|x rest]; [change (default c (head [])) with c; by rewrite Z.eqb_refl |].
    change (default c (head (x :: rest))) with x.
    pose proof (ro_nodup _ _ Hr) as [Hne _]%NoDup_cons.
    rewrite (proj2 (Z.eqb_neq x c)) by (intros ->; by apply Hne, list_elem_of_here).
    specialize (Hx x eq_refl). unfold state_of in Hx.
    destruct (ring_dom _ _ x (ro_ring _ _ Hr)) as [t Ht]; [apply list_elem_of_further, list_elem_of_here |].
    rewrite (get_some s x t) by done. cbn [obind]. rewrite Ht in Hx. cbn in Hx. destruct (state t); (reflexivity || congruence).
  - pose proof (ro_nodup _ _ Hr) as [Hne Hnd]%NoDup_cons. apply NoDup_cons in Hnd as [Hzn _].
    change (default c (head (z :: zs ++ rest))) with z.
    rewrite (proj2 (Z.eqb_neq z c)) by (intros ->; by apply Hne, list_elem_of_here).
    apply Forall_cons in Hz as [Hz Hzs]. unfold state_of in Hz.
    destruct (tasks s !! z) as [t |] eqn:Ht; [| done]. injection Hz as Hz.
    rewrite (get_some s z t) by done. cbn [obind]. rewrite Hz.
    assert (next t = default c (head (zs ++ rest))) as ->.
    { pose proof (ro_ring _ _ Hr) as Hg. unfold ring in Hg. cbn [path] in Hg. destruct Hg as [_ Hg].
      destruct (zs ++ rest) as [|b l']; cbn [path head] in Hg |- *; unfold nxt in Hg; rewrite Ht in Hg;
        [| destruct Hg as [Hg _]]; by injection Hg. }
    destruct (reap_ok s c z (zs ++ rest) Hr) as (s1 & -> & Hr1 & R1). cbn [obind].
    assert (forall p, p ∈ zs ++ rest -> state_of s1 p = state_of s p) as Hst.
    { intros p Hp. apply (reaped_state _ _ _ _ R1). by intros ->%list_elem_of_singleton. }
    destruct (IH n s1 Hr1) as (s2 & E & Hr2 & R2); [| | lia |].
    + apply Forall_forall. intros p Hp. rewrite Hst by (apply elem_of_app; by left).
      by apply (proj1 (Forall_forall _ _) Hzs).
    + intros x Hx'. rewrite Hst; [by apply Hx |]. apply elem_of_app. right. by apply head_Some_elem_of.
    + exists s2. split; [exact E |]. split; [done |]. eapply reaped_cons; [done | done |].
      intros Hin. apply Hzn, elem_of_app. by left.
Qed.

(** The zombies at the front of a list, and the rest. *)
Fixpoint split_zombies s (l : list Z) : list Z * list Z :=
  match l with
  | [] => ([], [])
  | p :: l' =>
      if bool_decide (state_of s p = Some TASK_ZOMBIE)
      then let '(zs, rest) := split_zombies s l' in (p :: zs, rest) else ([], p :: l')
  end.

Lemma split_zombies_spec s l zs rest :
  split_zombies s l = (zs, rest) ->
  l = zs ++ rest /\ Forall (fun p => state_of s p = Some TASK_ZOMBIE) zs /\
  forall x, head rest = Some x -> state_of s x ≠ Some TASK_ZOMBIE.
Proof.
  revert zs rest. induction l as [|p l IH]; cbn [split_zombies]; intros zs rest; [by intros [= <- <-] |].
  case_bool_decide as E.
  - destruct (split_zombies s l) as [zs' rest'] eqn:El. intros [= <- <-].
    destruct (IH _ _ eq_refl) as (-> & ? & ?). split_and!; [done | by constructor | done].
  - intros [= <- <-]. split_and!; [done | done |]. by intros x [= <-].
Qed.

Lemma pick_next_ok s c l zs rest :
  ring_ok s (c :: l) -> split_zombies s l = (zs, rest) ->
  exists s', pick_next s c = Ret (default c (head rest), s') /\ ring_ok s' (c :: rest) /\ reaped s zs s'.
Proof.
  intros Hr Hs. destruct (split_zombies_spec s l zs rest Hs) as (-> & Hz & Hx).
  destruct (ring_dom _ _ c (ro_ring _ _ Hr) (list_elem_of_here _ _)) as [t Ht].
  pose proof (ring_head_next s c _ Hr) as Hn. unfold nxt in Hn. rewrite Ht in Hn. cbn in Hn.
  unfold pick_next. rewrite (get_some s c t) by done. cbn [obind].
  assert (next t = default c (head (zs ++ rest))) as ->.
  { destruct (zs ++ rest); cbn in Hn |- *; congruence. }
  apply pick_loop_ok; try done.
  pose proof (ring_size _ _ (ro_ring _ _ Hr) (ro_nodup _ _ Hr)) as Hsz. cbn [length] in Hsz.
  rewrite length_app in Hsz. lia.
Qed.

(** ** Steps that keep the links *)

(** Changes that keep links and ownership, seen from any task of the ring. *)
Lemma ring_ok_update s s' l1 l2 :
  ring_ok s (l1 ++ l2) ->
  (forall p, next <$> tasks s' !! p = next <$> tasks s !! p) -> same_own (tasks s) (tasks s') ->
  pool s' = pool s -> g_active s' = true -> head (l2 ++ l1) = Some (g_current s') ->
  (forall p t, p ∈ tail (l2 ++ l1) -> tasks s' !! p = Some t -> state t ≠ TASK_RUNNING) ->
  ring_ok s' (l2 ++ l1).
Proof.
  intros [Hr Hn Hd Hc Ha Hm Hw] Hnx Hown Hp Ha' Hc' Hw'. split; try done.
  - apply ring_rotate. apply (ring_frame (tasks s)); [done |]. intros p _. apply Hnx.
  - by rewrite Permutation_app_comm.
  - intros p [t Ht]. assert (p ∈ l1 ++ l2) as Hin.
    { apply Hd. specialize (Hnx p). rewrite Ht in Hnx. by destruct (tasks s !! p). }
    apply elem_of_app in Hin. apply elem_of_app. tauto.
  - rewrite Hp. by eapply tasks_mem_own.
Qed.

(** Same tasks, same pool. *)
Lemma ring_ok_ext s s' l :
  ring_ok s l -> tasks s' = tasks s -> pool s' = pool s -> g_current s' = g_current s ->
  g_active s' = g_active s -> ring_ok s' l.
Proof.
  intros Hr Ht Hp Hc Ha. pose proof Hr as [_ _ _ Hcr Hac _ Hw]. rewrite <- (app_nil_l l).
  apply (ring_ok_update s s' l []); rewrite ?app_nil_r, ?app_nil_l, ?Ht, ?Hc, ?Ha; try done.
Qed.

(** A change of the state of the current task. *)
Lemma ring_ok_current s c l t f :
  ring_ok s (c :: l) -> tasks s !! c = Some t -> own (f t) = own t -> next (f t) = next t ->
  ring_ok (with_tasks s (<[c := f t]> (tasks s))) (c :: l).
Proof.
  intros Hr Ht Ho Hnx. pose proof Hr as [_ Hn _ Hcr Hac _ Hw].
  rewrite <- (app_nil_l (c :: l)). apply (ring_ok_update s _ (c :: l) []); rewrite ?app_nil_r, ?app_nil_l; try done.
  - intros p. cbn [tasks with_tasks]. rewrite lookup_insert. case_decide; subst; rewrite ?Ht; [cbn; by rewrite Hnx | done].
  - by apply (same_own_insert _ _ t).
  - intros p u Hp. cbn [tasks with_tasks app tail] in *. rewrite lookup_insert_ne; [by apply Hw |].
    intros ->. apply NoDup_cons in Hn as [? _]. done.
Qed.

Definition demote (t : task) : task :=
  if bool_decide (state t = TASK_RUNNING) then set_state TASK_READY t else t.

(** What [task_yield] makes of the task [p] when it switches from [c] to [x]. *)
Definition switch_task (c x old p : Z) (t : task) : task :=
  if decide (p = c) then set_esp old (set_slice TASK_TIME_SLICE (demote t))
  else if decide (p = x) then set_slice TASK_TIME_SLICE (set_state TASK_RUNNING t) else t.

(** The state after a switch from [c] to [x], whose structure was [t], that
    reaped [zs]. *)
Record switched s (c x : Z) (t : task) (zs : list Z) (r r' : regs) s' : Prop := Switched {
  sw_regs : context_switch (kmem s) r (esp t) =
    (default 0 (esp <$> tasks s' !! c), kmem s', r');
  sw_tasks p : set_next 0 <$> tasks s' !! p =
    if decide (p ∈ zs) then None
    else (fun u => switch_task c x (default 0 (esp <$> tasks s' !! c)) p (set_next 0 u)) <$> tasks s !! p;
  sw_pool : gone (pool s) (concat (resources_of s <$> zs)) (pool s');
  sw_current : g_current s' = x;
  sw_tss : tss s' = if truth (kernel_stack_top t) then Tss.tss_set_esp0 (tss s) (kernel_stack_top t) else tss s;
  sw_intr : intr s' = false;
  sw_need : g_need_resched s' = g_need_resched s;
  sw_next_id : g_next_id s' = g_next_id s
}.

Lemma next_demote t : next (demote t) = next t.
Proof. unfold demote. by case_bool_decide. Qed.
Lemma own_demote t : own (demote t) = own t.
Proof. unfold demote. by case_bool_decide. Qed.
Lemma demote_waits t : state (demote t) ≠ TASK_RUNNING.
Proof. unfold demote. case_bool_decide; done. Qed.

Lemma next_switch c x old p t : next (switch_task c x old p t) = next t.
Proof. unfold switch_task. repeat case_decide; cbn; [apply next_demote | done | done]. Qed.
Lemma own_switch c x old p t : own (switch_task c x old p t) = own t.
Proof. unfold switch_task. repeat case_decide; cbn; [exact (own_demote t) | done | done]. Qed.
Lemma switch_set_next c x old p t v :
  set_next v (switch_task c x old p t) = switch_task c x old p (set_next v t).
Proof. unfold switch_task, demote. repeat case_decide; cbn; repeat case_bool_decide; done. Qed.

(** The tail of [task_yield], once the next task is chosen. *)
Lemma switch_ok (r : regs) s c x tc tx :
  c ≠ x -> tasks s !! c = Some tc -> tasks s !! x = Some tx ->
  exists old km r' s', context_switch (kmem s) r (esp tx) = (old, km, r') /\
    (do! s := upd s c (fun p => if bool_decide (state p = TASK_RUNNING) then set_state TASK_READY p else p) in
     do! s := upd s x (set_state TASK_RUNNING) in
     do! s := upd s c (set_slice TASK_TIME_SLICE) in
     do! s := upd s x (set_slice TASK_TIME_SLICE) in
     let s := with_current s x (g_active s) in
     do! n := get s x in
     let s := if truth (kernel_stack_top n)
              then with_tss s (Tss.tss_set_esp0 (tss s) (kernel_stack_top n)) else s in
     let '(old, km, r') := context_switch (kmem s) r (esp n) in
     do! s := upd (with_kmem s km) c (set_esp old) in
     Ret (Some r', s)) = Ret (Some r', s') /\
    (forall p, tasks s' !! p = switch_task c x old p <$> tasks s !! p) /\
    g_current s' = x /\ g_active s' = g_active s /\ g_need_resched s' = g_need_resched s /\
    g_next_id s' = g_next_id s /\ intr s' = intr s /\ kmem s' = km /\ pool s' = pool s /\
    tss s' = if truth (kernel_stack_top tx) then Tss.tss_set_esp0 (tss s) (kernel_stack_top tx) else tss s.
Proof.
  intros Hne Hc Hx. destruct (context_switch (kmem s) r (esp tx)) as [[old km] r'] eqn:Ecs.
  exists old, km, r'. fold demote.
  rewrite (upd_some s c tc) by done. cbn [obind].
  rewrite (upd_some _ x tx) by (cbn; by rewrite lookup_insert_ne). cbn [obind].
  rewrite (upd_some _ c (demote tc)) by (cbn; rewrite lookup_insert_ne by done; apply lookup_insert_eq).
  cbn [obind].
  rewrite (upd_some _ x (set_state TASK_RUNNING tx))
    by (cbn; rewrite lookup_insert_ne by done; apply lookup_insert_eq).
  cbn [obind]. cbv zeta.
  rewrite (get_some _ x (set_slice TASK_TIME_SLICE (set_state TASK_RUNNING tx))) by apply lookup_insert_eq.
  cbn [obind kernel_stack_top set_slice set_state esp].
  destruct (truth (kernel_stack_top tx)); cbn [kmem with_tss with_current with_tasks];
    rewrite Ecs;
    (rewrite (upd_some _ c (set_slice TASK_TIME_SLICE (demote tc)))
       by (cbn; rewrite lookup_insert_ne by done; apply lookup_insert_eq));
    cbn [obind]; eexists; (split; [done |]; split; [reflexivity |]; split; [| by split_and!]);
    intros p; cbn [tasks with_tasks with_kmem with_tss with_current];
    destruct (tasks s !! p) as [u |] eqn:Hu; cbn [fmap option_fmap option_map]; unfold switch_task;
    rewrite !lookup_insert; repeat case_decide; subst; congruence.
Qed.

Lemma yield_switch r s c x rest zs :
  ring_ok s (c :: zs ++ x :: rest) -> split_zombies s (zs ++ x :: rest) = (zs, x :: rest) ->
  exists t r' s', tasks s !! x = Some t /\ task_yield r s = Ret (Some r', s') /\
    ring_ok s' (x :: rest ++ [c]) /\ switched s c x t zs r r' s'.
Proof.
  intros Hr Hs. set (s0 := cli s).
  assert (ring_ok s0 (c :: zs ++ x :: rest)) as Hr0 by (by apply (ring_ok_ext s)).
  assert (split_zombies s0 (zs ++ x :: rest) = (zs, x :: rest)) as Hs0.
  { rewrite <- Hs. generalize (zs ++ x :: rest). induction l as [|p l IH]; [done |].
    cbn [split_zombies]. change (state_of s0 p) with (state_of s p). by rewrite IH. }
  destruct (pick_next_ok s0 c _ _ _ Hr0 Hs0) as (s1 & E1 & Hr1 & R1).
  change (default c (head (x :: rest))) with x in E1.
  pose proof Hr1 as [Hg Hn _ Hcur Hact Hmem Hwait].
  pose proof Hn as [Hcx _]%NoDup_cons. apply not_elem_of_cons in Hcx as [Hcx _].
  destruct (ring_dom _ _ c Hg (list_elem_of_here _ _)) as [tc Hc].
  destruct (ring_dom _ _ x Hg (list_elem_of_further _ _ _ (list_elem_of_here _ _))) as [tx Hx].
  destruct (switch_ok r s1 c x tc tx Hcx Hc Hx)
    as (old & km & r' & s' & Ecs & E & Ht & Hc' & Ha' & Hnr & Hid & Hi & Hk & Hp & Hts).
  unfold task_yield. rewrite (ro_active _ _ Hr). cbn [negb].
  pose proof (ro_current _ _ Hr) as Hcur0. injection Hcur0 as Hcur0.
  fold s0. cbv zeta. change (g_current s0) with (g_current s). rewrite <- Hcur0, E1. cbn [obind].
  rewrite (proj2 (Z.eqb_neq x c)) by done.
  assert (x ∉ zs) as Hxz.
  { pose proof (ro_nodup _ _ Hr) as [_ Hnd]%NoDup_cons. apply NoDup_app in Hnd as (_ & Hd & _).
    intros Hin. apply (Hd x Hin), list_elem_of_here. }
  assert (c ∉ zs) as Hcz.
  { pose proof (ro_nodup _ _ Hr) as [Hni _]%NoDup_cons. intros Hin. apply Hni, elem_of_app. by left. }
  pose proof (re_tasks _ _ _ R1) as Htk. change (tasks s0) with (tasks s) in Htk.
  pose proof (re_rest _ _ _ R1) as Erest.
  assert (exists t, tasks s !! x = Some t /\ esp tx = esp t /\ kernel_stack_top tx = kernel_stack_top t) as
    (t & Hxt & Eesp & Ekst).
  { specialize (Htk x). rewrite decide_False, Hx in Htk by done. destruct (tasks s !! x) as [t |]; [| done].
    exists t. injection Htk as ???????????. done. }
  exists t, r', s'. split; [done |]. split; [exact E |]. split.
  - apply (ring_ok_update s1 s' [c] (x :: rest)); try done.
    + intros p. rewrite Ht. destruct (tasks s1 !! p); [cbn; by rewrite next_switch | done].
    + intros p. rewrite Ht. destruct (tasks s1 !! p); [cbn; by rewrite own_switch | done].
    + by rewrite Ha'.
    + by rewrite Hc'.
    + intros p u Hin Hu. rewrite Ht in Hu. destruct (tasks s1 !! p) as [v |] eqn:Hv; [| done].
      injection Hu as <-. unfold switch_task. case_decide as E0; [apply demote_waits |].
      assert (p ∈ x :: rest) as Hin'.
      { cbn [app tail] in Hin. apply elem_of_app in Hin as [? | ?%list_elem_of_singleton];
          [by apply list_elem_of_further | done]. }
      case_decide as E1'; [| by apply (Hwait p v)].
      subst p. cbn [app tail] in Hin. exfalso. apply NoDup_cons in Hn as [_ Hn]. apply NoDup_cons in Hn as [Hxn _].
      apply elem_of_app in Hin as [? | ?%list_elem_of_singleton]; [by apply Hxn | done].
  - assert (default 0 (esp <$> tasks s' !! c) = old) as Eold.
    { rewrite Ht, Hc. cbn. unfold switch_task. by rewrite decide_True. }
    assert (kmem s1 = kmem s /\ tss s1 = tss s /\ g_need_resched s1 = g_need_resched s /\
      g_next_id s1 = g_next_id s /\ intr s1 = false) as (Ek & Et & En & Eid & Ei) by (by rewrite Erest).
    split.
    + rewrite Eold, <- Eesp, Hk, <- Ek. done.
    + intros p. rewrite Eold, Ht. specialize (Htk p). case_decide as Ez.
      * by destruct (tasks s1 !! p).
      * destruct (tasks s1 !! p) as [u |], (tasks s !! p) as [u' |]; try done. cbn in Htk |- *.
        apply (inj Some) in Htk. by rewrite switch_set_next, Htk.
    + rewrite Hp. exact (re_pool _ _ _ R1).
    + done.
    + by rewrite Hts, Ekst, Et.
    + by rewrite Hi.
    + by rewrite Hnr.
    + by rewrite Hid.
Qed.

Lemma yield_alone r s c zs :
  ring_ok s (c :: zs) -> split_zombies s zs = (zs, []) ->
  (state_of s c = Some TASK_ZOMBIE -> task_yield r s = Halt NoRunnable) /\
  (state_of s c ≠ Some TASK_ZOMBIE ->
     exists s', task_yield r s = Ret (None, s') /\ ring_ok s' [c] /\ reaped (sti s) zs s').
Proof.
  intros Hr Hs. set (s0 := cli s).
  assert (ring_ok s0 (c :: zs)) as Hr0 by (by apply (ring_ok_ext s)).
  destruct (pick_next_ok s0 c zs zs [] Hr0) as (s1 & E1 & Hr1 & R1).
  { rewrite <- Hs at 1. clear. induction zs as [|p l IH]; [done |].
    cbn [split_zombies]. change (state_of s0 p) with (state_of s p). by rewrite IH. }
  change (default c (head [])) with c in E1.
  pose proof (ro_nodup _ _ Hr) as [Hni _]%NoDup_cons.
  pose proof (reaped_state _ _ _ c R1 Hni) as Hst. change (state_of s0 c) with (state_of s c) in Hst.
  destruct (ring_dom _ _ c (ro_ring _ _ Hr1) (list_elem_of_here _ _)) as [t Ht].
  unfold task_yield. rewrite (ro_active _ _ Hr). cbn [negb].
  pose proof (ro_current _ _ Hr) as Hcur0. injection Hcur0 as Hcur0.
  fold s0. cbv zeta. change (g_current s0) with (g_current s). rewrite <- Hcur0, E1. cbn [obind].
  rewrite Z.eqb_refl, (get_some s1 c t) by done. cbn [obind].
  unfold state_of in Hst at 1. rewrite Ht in Hst. cbn in Hst. rewrite <- Hst. split.
  - intros [= Hz]. by rewrite bool_decide_true.
  - intros Hz. rewrite bool_decide_false by congruence. cbn [negb].
    exists (sti s1). split; [done |]. split; [by apply (ring_ok_ext s1) |].
    destruct R1 as [R1 G1 E]. split; [exact R1 | exact G1 |]. rewrite E. done.
Qed.

(** Either all other tasks are zombies or there is one to switch to. *)
Lemma split_zombies_cases s l :
  (exists zs x rest, l = zs ++ x :: rest /\ split_zombies s l = (zs, x :: rest)) \/
  split_zombies s l = (l, []).
Proof.
  destruct (split_zombies s l) as [zs rest] eqn:E.
  destruct (split_zombies_spec s l zs rest E) as (-> & _ & _).
  destruct rest as [|x rest]; [right; by rewrite app_nil_r | left; by exists zs, x, rest].
Qed.

End Scheduler.
