(* ===== verification/TaskCreate.v ===== *)
(** * Tasks: creation

    [task_create], [task_create_user] and [task_create_user_image] on the
    invariant of the scheduler: what they queue, what they take from the
    heap, what they give back when they fail, and the initial stacks. *)

From S2P Require Import Prelude Memory Interfaces Cpu Task TaskRing TaskSpec TaskSched.

(** ** Pushed words *)

(** A sequence of pushes from the top [sp] down. *)
Definition push_all (sp : Z) (m : mem) (ws : list Z) : Z * mem := foldl push32 (sp, m) ws.

Lemma push_all_spec ws sp m :
  4 * Z.of_nat (length ws) <= sp < 2 ^ 32 ->
  fst (push_all sp m ws) = sp - 4 * Z.of_nat (length ws) /\
  (forall i w, ws !! i = Some w ->
     load32 (snd (push_all sp m ws)) (sp - 4 * (Z.of_nat i + 1)) = u32 w) /\
  (forall x, x < sp - 4 * Z.of_nat (length ws) \/ sp <= x ->
     load8 (snd (push_all sp m ws)) x = load8 m x).
Proof.
  unfold push_all. induction ws as [|w ws IH] using rev_ind; intros Hsp.
  - cbn. split_and!; [lia | by intros i w | done].
  - rewrite length_app in Hsp |- *. cbn [length] in *. rewrite foldl_app. cbn [foldl].
    destruct IH as (Hf & Hl & Ho); [lia |]. destruct (foldl push32 (sp, m) ws) as [sp1 m1].
    cbn [fst snd push32] in *. rewrite Hf, u32_small by lia. split_and!; [lia | |].
    + intros i v Hi. apply lookup_app_Some in Hi as [Hi | [Hge Hi]].
      * pose proof (lookup_lt_Some _ _ _ Hi). rewrite load32_store32_out by lia. by apply Hl.
      * apply list_lookup_singleton_Some in Hi as [Hi <-].
        assert (i = length ws) as -> by lia.
        replace (sp - 4 * (Z.of_nat (length ws) + 1)) with (sp - 4 * Z.of_nat (length ws) - 4) by lia.
        apply load32_store32_same.
    + intros x Hx. rewrite load8_store32_out by lia. apply Ho. lia.
Qed.

Section Creation.
  Context {M : Type} `{ProcessMemoryLaws M} `{TaskCode}.
  Implicit Types (s : sched M) (m : M).

(** ** Taking memory *)

(** [m'] is [m] with more blocks. *)
Record grown m m' : Prop := Grown {
  gr_ok : proc_ok m';
  gr_blocks q n : proc_blocks m !! q = Some n -> proc_blocks m' !! q = Some n;
  gr_images : proc_images m' = proc_images m
}.

Lemma grown_trans m1 m2 m3 : grown m1 m2 -> grown m2 m3 -> grown m1 m3.
Proof. intros [? ? ?] [? ? ?]. split; [done | auto | congruence]. Qed.

Lemma tasks_mem_grown tk m m' : tasks_mem tk m -> grown m m' -> tasks_mem tk m'.
Proof.
  intros [Hok Hh Ha] [Hok' Hb Hi]. split; [done | | done]. intros p t Hp.
  destruct (Hh p t Hp) as [? ? ? ? ?]. split; rewrite ?Hi; auto.
Qed.

Lemma resource_block tk m q u x :
  tasks_mem tk m -> tk !! q = Some u -> x ∈ resources q u -> is_Some (proc_blocks m !! x).
Proof.
  intros [Hok Hh _] Hq Hx. destruct (Hh q u Hq) as [Ht Hs _ Hi _].
  unfold resources in Hx. apply elem_of_app in Hx as [Hx | [Hx | ->%list_elem_of_singleton]%elem_of_app].
  - destruct (Hi x Hx) as [e He]. by apply (proc_image_block m x e).
  - rewrite Hs by done. eauto.
  - rewrite Ht. eauto.
Qed.

Lemma tasks_mem_insert tk m p t :
  tasks_mem tk m -> tk !! p = None -> holds m p t ->
  (forall q u x, tk !! q = Some u -> x ∈ resources p t -> x ∉ resources q u) ->
  tasks_mem (<[p := t]> tk) m.
Proof.
  intros [Hok Hh Ha] Hp Ht Hd. split; [done | |].
  - intros q u [[<- <-] | [_ Hq]]%lookup_insert_Some; [done | by apply Hh].
  - intros q q' u u' x Hq Hq' Hne Hx. apply lookup_insert_Some in Hq, Hq'.
    destruct Hq as [[<- <-] | [_ Hq]], Hq' as [[<- <-] | [_ Hq']].
    + done.
    + by apply (Hd q' u').
    + intros Hx'. by apply (Hd q u x).
    + by apply (Ha q q' u u').
Qed.

(** A successful allocation: a new block. *)
Record fresh_block m (p n : Z) m' : Prop := FreshBlock {
  fb_ok : proc_ok m';
  fb_pos : 0 < p;
  fb_new : proc_blocks m !! p = None;
  fb_blocks : proc_blocks m' = <[p := n]> (proc_blocks m);
  fb_images : proc_images m' = proc_images m
}.

Lemma fresh_grown m p n m' : fresh_block m p n m' -> grown m m'.
Proof.
  intros [? ? Hn Hb ?]. split; [done | | done]. intros q k Hq. rewrite Hb, lookup_insert_ne; [done |].
  intros ->. congruence.
Qed.

(** The pool with the same blocks and images. *)
Record same_pool m m' : Prop := SamePool {
  sp_ok : proc_ok m';
  sp_blocks : proc_blocks m' = proc_blocks m;
  sp_images : proc_images m' = proc_images m
}.

Lemma same_pool_trans m1 m2 m3 : same_pool m1 m2 -> same_pool m2 m3 -> same_pool m1 m3.
Proof. intros [? ? ?] [? ? ?]. split; [done | congruence | congruence]. Qed.

Lemma tasks_mem_same tk m m' : tasks_mem tk m -> same_pool m m' -> tasks_mem tk m'.
Proof. intros Hm [? Hb Hi]. apply (tasks_mem_grown _ m); [done |]. split; rewrite ?Hb; done. Qed.

Lemma malloc_cases m n :
  proc_ok m -> 0 < n <= 2 ^ 31 ->
  exists p m', proc_malloc m n = Ret (p, m') /\ ((p = 0 /\ same_pool m m') \/ fresh_block m p n m').
Proof.
  intros Hok Hn. destruct (proc_malloc_ok m n Hok Hn) as (p & m' & E & Hok' & Hi & [[-> Hb] | (? & ? & ?)]);
    eexists _, _; (split; [exact E |]); [left; split; [done | by split] | right; by split].
Qed.

(** The heap gives blocks of these sizes, asked for one after the other. *)
Fixpoint heap_gives m (sizes : list Z) : bool :=
  match sizes with
  | [] => true
  | n :: sizes => match proc_malloc m n with Ret (p, m') => truth p && heap_gives m' sizes | _ => false end
  end.

(** Freeing a block just taken. *)
Lemma unfresh m p n m1 m2 : fresh_block m p n m1 -> same_pool m1 m2 ->
  proc_ok m -> exists m3, proc_free m2 p = Ret m3 /\ same_pool m m3.
Proof.
  intros [Hok1 Hp Hnew Hb Hi] [Hok2 Hb2 Hi2] Hok.
  destruct (proc_free_ok m2 p n Hok2) as (m3 & E & Hok3 & Hi3 & Hb3).
  - by rewrite Hb2, Hb, lookup_insert_eq.
  - rewrite Hi2, Hi. apply eq_None_not_Some. intros [e He].
    destruct (proc_image_block m p e Hok He) as [_ [k Hk]]. congruence.
  - exists m3. split; [done |]. split; [done | | congruence].
    rewrite Hb3, Hb2, Hb. by rewrite delete_insert_id.
Qed.

(** ** Queueing *)

Lemma enqueue_ok s c l p t :
  ring_ok s (c :: l) -> tasks s !! p = None -> state t = TASK_READY ->
  tasks_mem (<[p := t]> (tasks s)) (pool s) ->
  exists tk, enqueue (with_tasks s (<[p := t]> (tasks s))) p = Ret (sti (with_tasks s tk)) /\
    ring_ok (sti (with_tasks s tk)) (c :: p :: l) /\ same_tasks (<[p := t]> (tasks s)) tk.
Proof.
  intros [Hr Hn Hd Hc Ha Hm Hw] Hp Hst Hmem.
  assert (p ∉ c :: l) as Hpl.
  { intros Hin. destruct (ring_dom _ _ p Hr Hin) as [? ?]. congruence. }
  injection Hc as Hc.
  destruct (ready_insert_ok (cli s) c l p t Hr Hn Hpl (eq_sym Hc)) as (tk & E & Hring & Hsame).
  exists tk. unfold enqueue. cbn [g_active cli set_intr with_tasks]. rewrite Ha. cbn [negb].
  change (cli (with_tasks s (<[p := t]> (tasks s)))) with (with_tasks (cli s) (<[p := t]> (tasks (cli s)))).
  rewrite E. cbn [obind]. split; [done |]. split; [| exact Hsame].
  split; cbn [tasks pool g_current g_active with_tasks sti set_intr]; try done.
  - apply NoDup_cons in Hn as [Hcl Hn]. apply not_elem_of_cons in Hpl as [Hpc Hpl].
    apply NoDup_cons. split; [by apply not_elem_of_cons | by apply NoDup_cons].
  - intros q [u Hq]. destruct (same_tasks_some _ _ _ _ Hsame Hq) as (v & Hv & _).
    apply lookup_insert_Some in Hv as [[<- _] | [_ Hv]]; [apply list_elem_of_further, list_elem_of_here |].
    assert (q ∈ c :: l) as Hin by (apply Hd; eauto).
    apply elem_of_cons in Hin as [-> | Hin]; [apply list_elem_of_here | by do 2 apply list_elem_of_further].
  - cbn. by rewrite Hc.
  - eapply tasks_mem_own; [exact Hmem | by apply same_tasks_own].
  - intros q u Hin Hu. destruct (same_tasks_some _ _ _ _ Hsame Hu) as (v & Hv & ->). cbn [state set_next].
    apply lookup_insert_Some in Hv as [[<- <-] | [Hne Hv]]; [by rewrite Hst |].
    cbn [tail] in Hin. apply elem_of_cons in Hin as [-> | Hin]; [done | by apply (Hw q v)].
Qed.

Lemma ring_ok_pool s l m' : ring_ok s l -> grown (pool s) m' -> ring_ok (with_pool s m') l.
Proof.
  intros [? ? ? ? ? Hm ?] Hg. split; try done. cbn [tasks pool with_pool]. by eapply tasks_mem_grown.
Qed.

Lemma same_pool_grown m m' : same_pool m m' -> grown m m'.
Proof. intros [? Hb ?]. split; rewrite ?Hb; done. Qed.

(** The common end of the creating functions: the new task owns blocks that
    were free before. *)
Lemma finish_create s c l p d m' km nid :
  ring_ok s (c :: l) -> state d = TASK_READY -> grown (pool s) m' -> holds m' p d ->
  (forall x, x ∈ resources p d -> proc_blocks (pool s) !! x = None) ->
  let s1 := with_kmem (with_next_id (with_pool s m') nid) km in
  tasks s !! p = None /\
  exists tk, enqueue (with_tasks s1 (<[p := d]> (tasks s1))) p = Ret (sti (with_tasks s1 tk)) /\
    ring_ok (sti (with_tasks s1 tk)) (c :: p :: l) /\ same_tasks (<[p := d]> (tasks s)) tk.
Proof.
  intros Hr Hst Hg Hh Hfresh s1. pose proof (ring_ok_pool _ _ _ Hr Hg) as Hr1.
  assert (tasks s !! p = None) as Hp.
  { apply eq_None_not_Some. intros [u Hu].
    pose proof (ho_task _ _ _ (tm_holds _ _ (ro_mem _ _ Hr) p u Hu)) as Hb.
    rewrite Hfresh in Hb; [done |]. unfold resources. rewrite !elem_of_app. right. right.
    by apply list_elem_of_singleton. }
  split; [done |]. apply (enqueue_ok s1 c l p d); [by apply (ring_ok_ext (with_pool s m')) | done | done |].
  apply (tasks_mem_insert (tasks s) m'); [apply (ro_mem _ _ Hr1) | done | done |].
  intros q u x Hq Hx Hx'. destruct (resource_block _ _ _ _ _ (ro_mem _ _ Hr) Hq Hx') as [k Hk].
  rewrite Hfresh in Hk by done. done.
Qed.

(** What is common to the new states. *)
Record created s (p : Z) (d : task) s' : Prop := Created {
  cr_new : tasks s !! p = None;
  cr_tasks : same_tasks (<[p := d]> (tasks s)) (tasks s');
  cr_current : g_current s' = g_current s;
  cr_next_id : g_next_id s' = u32 (g_next_id s + 1);
  cr_intr : intr s' = true;
  cr_need : g_need_resched s' = g_need_resched s;
  cr_tss : tss s' = tss s;
  cr_images : proc_images (pool s') = proc_images (pool s)
}.

Definition kernel_stack (stack : Z) s (nm : list Z) (words : list Z) (user ustack : Z) : task :=
  Task (g_next_id s) (str_copy_n nm TASK_NAME_LEN) TASK_READY
    (stack + TASK_STACK_SIZE - 4 * Z.of_nat (length words)) stack TASK_STACK_SIZE
    (stack + TASK_STACK_SIZE) user ustack 0 0 TASK_TIME_SLICE 0.

Definition thread_words (entry : Z) : list Z := [entry; task_start_trampoline; 0; 0; 0; 0].

Lemma fresh_range m p n m' : fresh_block m p n m' -> 0 < p /\ p + n < 2 ^ 32.
Proof.
  intros [Hok Hp _ Hb _]. apply (proc_block_range m' p n Hok). by rewrite Hb, lookup_insert_eq.
Qed.

Lemma fresh_image m p n m' : proc_ok m -> fresh_block m p n m' -> proc_images m !! p = None.
Proof.
  intros Hok [_ _ Hn _ _]. apply eq_None_not_Some. intros [e He].
  destruct (proc_image_block m p e Hok He) as [_ [k Hk]]. congruence.
Qed.

Lemma create_cases s c l nm entry :
  ring_ok s (c :: l) ->
  exists t s', task_create s nm entry = Ret (t, s') /\
   ((t = 0 /\ exists m', s' = with_pool s m' /\ same_pool (pool s) m') \/
    (0 < t /\ exists stack, created s t (kernel_stack stack s nm (thread_words entry) 0 0) s' /\
       ring_ok s' (c :: t :: l) /\ proc_blocks (pool s) !! t = None /\
       proc_blocks (pool s) !! stack = None /\ t ≠ stack /\ 0 < stack /\ stack + TASK_STACK_SIZE < 2 ^ 32 /\
       proc_blocks (pool s') = <[stack := TASK_STACK_SIZE]> (<[t := TASK_SIZE]> (proc_blocks (pool s))) /\
       kmem s' = snd (push_all (stack + TASK_STACK_SIZE) (kmem s) (thread_words entry)))).
Proof.
  intros Hr. pose proof (tm_ok _ _ (ro_mem _ _ Hr)) as Hok.
  unfold task_create.
  destruct (malloc_cases (pool s) TASK_SIZE Hok) as (t & m1 & -> & [[-> Hs1] | F1]); [done | |]; cbn [obind].
  { exists 0, (with_pool s m1). split; [done |]. left. split; [done |]. by exists m1. }
  pose proof (fb_pos _ _ _ _ F1) as Ht. rewrite truth_pos by done. cbn [negb]. cbv zeta.
  change (pool (with_pool s m1)) with m1.
  destruct (malloc_cases m1 TASK_STACK_SIZE (fb_ok _ _ _ _ F1)) as (stack & m2 & -> & [[-> Hs2] | F2]);
    [done | |]; cbn [obind].
  { cbn [truth negb Z.eqb pool with_pool]. destruct (unfresh _ _ _ _ _ F1 Hs2 Hok) as (m3 & -> & Hs3). cbn [obind].
    exists 0, (with_pool s m3). split; [done |]. left. split; [done |]. by exists m3. }
  pose proof (fresh_range _ _ _ _ F2) as [Hst Htop]. rewrite truth_pos by done. cbn [negb].
  rewrite (u32_small (stack + TASK_STACK_SIZE)) by (unfold TASK_STACK_SIZE in *; lia).
  change (kmem (with_pool (with_pool s m1) m2)) with (kmem s).
  change (push32 (push32 (push32 (push32 (push32 (push32 (stack + TASK_STACK_SIZE, kmem s) entry)
    task_start_trampoline) 0) 0) 0) 0) with (push_all (stack + TASK_STACK_SIZE) (kmem s) (thread_words entry)).
  destruct (push_all_spec (thread_words entry) (stack + TASK_STACK_SIZE) (kmem s)) as (Hsp & _ & _);
    [cbn; unfold TASK_STACK_SIZE in *; lia |].
  destruct (push_all _ _ _) as [sp km] eqn:Epush. cbn [fst] in Hsp. subst sp.
  assert (t ≠ stack /\ proc_blocks (pool s) !! stack = None) as [Hne Hnew].
  { pose proof (fb_new _ _ _ _ F2) as Hn2. rewrite (fb_blocks _ _ _ _ F1) in Hn2.
    apply lookup_insert_None in Hn2. tauto. }
  set (d := kernel_stack stack s nm (thread_words entry) 0 0).
  assert (stacks d = [stack] /\ resources t d = [stack; t]) as [Est Eres].
  { unfold resources, stacks. cbn [stack_base user_stack_base image d kernel_stack].
    by rewrite (opt_ptr_pos stack). }
  assert (holds m2 t d) as Hh.
  { split; rewrite ?Est, ?Eres; cbn [app image d kernel_stack].
    - rewrite (fb_blocks _ _ _ _ F2), lookup_insert_ne, (fb_blocks _ _ _ _ F1) by done. apply lookup_insert_eq.
    - intros q ->%list_elem_of_singleton. rewrite (fb_blocks _ _ _ _ F2). apply lookup_insert_eq.
    - intros q Hq. rewrite (fb_images _ _ _ _ F2), (fb_images _ _ _ _ F1).
      apply elem_of_cons in Hq as [-> | ->%list_elem_of_singleton].
      + rewrite <- (fb_images _ _ _ _ F1). by apply (fresh_image _ _ _ _ (fb_ok _ _ _ _ F1) F2).
      + by apply (fresh_image _ _ _ _ Hok F1).
    - by intros q ?%not_elem_of_nil.
    - apply NoDup_cons. split; [by intros ->%list_elem_of_singleton | apply NoDup_singleton]. }
  destruct (finish_create s c l t d m2 km (u32 (g_next_id s + 1)) Hr eq_refl
    (grown_trans _ _ _ (fresh_grown _ _ _ _ F1) (fresh_grown _ _ _ _ F2)) Hh) as (Hpn & tk & E & Hrk & Hsame).
  { intros x. rewrite Eres. intros [-> | ->%list_elem_of_singleton]%elem_of_cons; [done | apply (fb_new _ _ _ _ F1)]. }
  cbn [tasks with_pool with_kmem with_next_id g_next_id] in E |- *. unfold d at 1, kernel_stack in E.
  change (with_pool (with_pool s m1) m2) with (with_pool s m2).
  rewrite E. cbn [obind]. eexists t, _. split; [reflexivity |]. right. split; [done |].
  exists stack. cbn [pool kmem sti set_intr with_tasks with_kmem with_next_id with_pool].
  rewrite (fb_blocks _ _ _ _ F2), (fb_blocks _ _ _ _ F1), Epush. split_and!; try done.
  - split; try done. cbn [pool sti set_intr with_tasks with_kmem with_next_id with_pool].
    by rewrite (fb_images _ _ _ _ F2), (fb_images _ _ _ _ F1).
  - apply (fb_new _ _ _ _ F1).
Qed.

(** The words [task_create_user] pushes: the frame of [iret], then the frame
    of [context_switch]. *)
Definition user_words (entry ustack : Z) : list Z :=
  [Gdt.GDT_UDATA_SEL; ustack + TASK_STACK_SIZE - (ustack + TASK_STACK_SIZE) mod 16; 0x202;
   Gdt.GDT_UCODE_SEL; entry; user_iret_trampoline; 0; 0; 0; 0].

Lemma same_pool_refl m : proc_ok m -> same_pool m m.
Proof. done. Qed.

(** The three allocations of [task_create_user]. *)
Lemma user_alloc m :
  proc_ok m ->
  exists t m1, proc_malloc m TASK_SIZE = Ret (t, m1) /\
   ((t = 0 /\ same_pool m m1) \/
    (fresh_block m t TASK_SIZE m1 /\
     exists kstack m2 ustack m3, proc_malloc m1 TASK_STACK_SIZE = Ret (kstack, m2) /\
       proc_malloc m2 TASK_STACK_SIZE = Ret (ustack, m3) /\
       ((negb (truth kstack) || negb (truth ustack) = true /\
         exists m4 m5 m6, free_if m3 kstack = Ret m4 /\ free_if m4 ustack = Ret m5 /\
           proc_free m5 t = Ret m6 /\ same_pool m m6) \/
        (fresh_block m1 kstack TASK_STACK_SIZE m2 /\ fresh_block m2 ustack TASK_STACK_SIZE m3)))).
Proof.
  intros Hok.
  destruct (malloc_cases m TASK_SIZE Hok) as (t & m1 & E1 & [[-> Hs1] | F1]); [done | |];
    eexists _, m1; (split; [exact E1 |]); [by left | right]. split; [done |].
  pose proof (fb_ok _ _ _ _ F1) as Hok1.
  destruct (malloc_cases m1 TASK_STACK_SIZE Hok1) as (k & m2 & E2 & C2); [done |].
  assert (proc_ok m2) as Hok2 by (destruct C2 as [[_ []] | []]; done).
  destruct (malloc_cases m2 TASK_STACK_SIZE Hok2) as (u & m3 & E3 & C3); [done |].
  assert (proc_ok m3) as Hok3 by (destruct C3 as [[_ []] | []]; done).
  exists k, m2, u, m3. split; [done |]. split; [done |].
  destruct C2 as [[-> S2] | F2], C3 as [[-> S3] | F3].
  - left. split; [done |]. destruct (unfresh _ _ _ _ _ F1 (same_pool_trans _ _ _ S2 S3) Hok) as (m6 & E6 & S6).
    by exists m3, m3, m6.
  - left. split; [done |].
    destruct (unfresh _ _ _ _ _ F3 (same_pool_refl _ Hok3) Hok2) as (m5 & E5 & S5).
    destruct (unfresh _ _ _ _ _ F1 (same_pool_trans _ _ _ S2 S5) Hok) as (m6 & E6 & S6).
    exists m3, m5, m6. split_and!; [done | | done | done].
    unfold free_if. by rewrite truth_pos by apply (fb_pos _ _ _ _ F3).
  - left. rewrite truth_pos by apply (fb_pos _ _ _ _ F2). split; [done |].
    destruct (unfresh _ _ _ _ _ F2 S3 Hok1) as (m4 & E4 & S4).
    destruct (unfresh _ _ _ _ _ F1 S4 Hok) as (m6 & E6 & S6).
    exists m4, m4, m6. split_and!; [| done | done | done].
    unfold free_if. by rewrite truth_pos by apply (fb_pos _ _ _ _ F2).
  - by right.
Qed.

Lemma fresh_other m p n m' q : fresh_block m p n m' -> proc_blocks m' !! q = None ->
  q ≠ p /\ proc_blocks m !! q = None.
Proof. intros [_ _ _ Hb _] Hq. rewrite Hb in Hq. apply lookup_insert_None in Hq as [? ?]. split; congruence. Qed.

Lemma create_user_cases s c l nm entry :
  ring_ok s (c :: l) ->
  exists t s', task_create_user s nm entry = Ret (t, s') /\
   ((t = 0 /\ exists m', s' = with_pool s m' /\ same_pool (pool s) m') \/
    (0 < t /\ exists kstack ustack,
       created s t (kernel_stack kstack s nm (user_words entry ustack) 1 ustack) s' /\
       ring_ok s' (c :: t :: l) /\ NoDup [t; kstack; ustack] /\
       Forall (fun q => proc_blocks (pool s) !! q = None) [t; kstack; ustack] /\
       0 < kstack /\ kstack + TASK_STACK_SIZE < 2 ^ 32 /\ 0 < ustack /\ ustack + TASK_STACK_SIZE < 2 ^ 32 /\
       proc_blocks (pool s') = <[ustack := TASK_STACK_SIZE]> (<[kstack := TASK_STACK_SIZE]>
         (<[t := TASK_SIZE]> (proc_blocks (pool s)))) /\
       kmem s' = snd (push_all (kstack + TASK_STACK_SIZE) (kmem s) (user_words entry ustack)))).
Proof.
  intros Hr. pose proof (tm_ok _ _ (ro_mem _ _ Hr)) as Hok. unfold task_create_user.
  destruct (user_alloc (pool s) Hok) as (t & m1 & E1 & [[-> Hs1] | (F1 & k & m2 & u & m3 & E2 & E3 & C)]);
    rewrite E1; cbn [obind].
  { exists 0, (with_pool s m1). split; [done |]. left. split; [done |]. by exists m1. }
  pose proof (fb_pos _ _ _ _ F1) as Ht. rewrite truth_pos by done. cbn [negb]. cbv zeta.
  change (pool (with_pool s m1)) with m1. rewrite E2. cbn [obind]. rewrite E3. cbn [obind].
  destruct C as [(-> & m4 & m5 & m6 & -> & E5 & E6 & Hs) | [F2 F3]].
  { cbn [obind]. rewrite E5. cbn [obind]. rewrite E6. cbn [obind].
    exists 0, (with_pool s m6). split; [done |]. left. split; [done |]. by exists m6. }
  pose proof (fresh_range _ _ _ _ F2) as [Hk Hktop]. pose proof (fresh_range _ _ _ _ F3) as [Hu Hutop].
  rewrite !truth_pos by done. cbn [negb orb].
  rewrite !u32_small by (unfold TASK_STACK_SIZE in *; lia).
  change (not32 0xF) with (2 ^ 32 - 2 ^ 4). 
  rewrite land_clear_low by (unfold is_u32, TASK_STACK_SIZE in *; lia). change (2 ^ 4) with 16.
  change (with_pool (with_pool s m1) m3) with (with_pool s m3).
  change (kmem (with_pool s m3)) with (kmem s).
  change (foldl push32 (k + TASK_STACK_SIZE, kmem s) (user_words entry u)) with
    (push_all (k + TASK_STACK_SIZE) (kmem s) (user_words entry u)).
  match goal with |- context [push32 ?a 0] =>
    change (push32 a 0) with (push_all (k + TASK_STACK_SIZE) (kmem s) (user_words entry u)) end.
  destruct (push_all_spec (user_words entry u) (k + TASK_STACK_SIZE) (kmem s)) as (Hsp & _ & _);
    [cbn; unfold TASK_STACK_SIZE in *; lia |].
  destruct (push_all _ _ _) as [sp km] eqn:Epush. cbn [fst] in Hsp. subst sp.
  destruct (fresh_other _ _ _ _ _ F1 (fb_new _ _ _ _ F2)) as [Hkt Hkn].
  destruct (fresh_other _ _ _ _ _ F2 (fb_new _ _ _ _ F3)) as [Huk Hu1].
  destruct (fresh_other _ _ _ _ _ F1 Hu1) as [Hut Hun]. pose proof (fb_new _ _ _ _ F1) as Htn.
  assert (NoDup [t; k; u]) as Hnd.
  { repeat (apply NoDup_cons; split; [rewrite ?elem_of_cons, ?elem_of_nil; naive_solver |]). by apply NoDup_nil. }
  set (d := kernel_stack k s nm (user_words entry u) 1 u).
  assert (stacks d = [k; u] /\ resources t d = [k; u; t]) as [Est Eres].
  { unfold resources, stacks. cbn [stack_base user_stack_base image d kernel_stack].
    by rewrite (opt_ptr_pos k), (opt_ptr_pos u). }
  assert (proc_images m3 = proc_images (pool s)) as Eim.
  { by rewrite (fb_images _ _ _ _ F3), (fb_images _ _ _ _ F2), (fb_images _ _ _ _ F1). }
  assert (proc_blocks m3 = <[u := TASK_STACK_SIZE]> (<[k := TASK_STACK_SIZE]>
         (<[t := TASK_SIZE]> (proc_blocks (pool s))))) as Ebl.
  { by rewrite (fb_blocks _ _ _ _ F3), (fb_blocks _ _ _ _ F2), (fb_blocks _ _ _ _ F1). }
  assert (holds m3 t d) as Hh.
  { split; rewrite ?Est, ?Eres; cbn [app image d kernel_stack].
    - by rewrite Ebl, !lookup_insert_ne, lookup_insert_eq by done.
    - intros q [-> | ->%list_elem_of_singleton]%elem_of_cons; rewrite Ebl.
      + by rewrite lookup_insert_ne, lookup_insert_eq by done.
      + by rewrite lookup_insert_eq.
    - intros q Hq. rewrite Eim. apply elem_of_cons in Hq as [-> | [-> | ->%list_elem_of_singleton]%elem_of_cons].
      + rewrite <- (fb_images _ _ _ _ F1). by apply (fresh_image _ _ _ _ (fb_ok _ _ _ _ F1) F2).
      + rewrite <- (fb_images _ _ _ _ F1), <- (fb_images _ _ _ _ F2).
        by apply (fresh_image _ _ _ _ (fb_ok _ _ _ _ F2) F3).
      + by apply (fresh_image _ _ _ _ Hok F1).
    - by intros q ?%not_elem_of_nil.
    - repeat (apply NoDup_cons; split; [rewrite ?elem_of_cons, ?elem_of_nil; naive_solver |]). by apply NoDup_nil. }
  destruct (finish_create s c l t d m3 km (u32 (g_next_id s + 1)) Hr eq_refl
    (grown_trans _ _ _ (grown_trans _ _ _ (fresh_grown _ _ _ _ F1) (fresh_grown _ _ _ _ F2))
       (fresh_grown _ _ _ _ F3)) Hh) as (Hpn & tk & E & Hrk & Hsame).
  { intros x. rewrite Eres. by intros [-> | [-> | ->%list_elem_of_singleton]%elem_of_cons]%elem_of_cons. }
  cbn [tasks with_pool with_kmem with_next_id g_next_id] in E |- *. unfold d at 1, kernel_stack in E.
  rewrite E. cbn [obind]. eexists t, _. split; [reflexivity |]. right. split; [done |].
  exists k, u. cbn [pool kmem sti set_intr with_tasks with_kmem with_next_id with_pool].
  rewrite Ebl, Epush. split_and!; try done.
  by repeat (apply Forall_cons; split; [done |]).
Qed.

(** It fails for lack of heap only. *)
Lemma create_user_refused s nm entry s' : task_create_user s nm entry = Ret (0, s') ->
  heap_gives (pool s) [TASK_SIZE; TASK_STACK_SIZE; TASK_STACK_SIZE] = false.
Proof.
  unfold task_create_user. cbn [heap_gives].
  destruct (proc_malloc (pool s) TASK_SIZE) as [[t m1] | |]; [| done ..]. cbn [obind].
  destruct (truth t) eqn:Ht; cbn [negb andb]; [| done]. change (pool (with_pool s m1)) with m1.
  destruct (proc_malloc m1 TASK_STACK_SIZE) as [[k m2] | |]; [| done ..]. cbn [obind].
  destruct (proc_malloc m2 TASK_STACK_SIZE) as [[u m3] | |]; [| by rewrite andb_false_r ..]. cbn [obind].
  destruct (truth k), (truth u); cbn [negb orb andb]; try done. cbv zeta. destruct (push32 _ 0) as [sp km].
  destruct (enqueue _ t) as [c | |]; [| done ..]. cbn [obind]. by intros [= -> _].
Qed.

Lemma create_image_refused s nm img s' : truth img = true -> task_create_user_image s nm img = Ret (0, s') ->
  heap_gives (pool s) [TASK_SIZE; TASK_STACK_SIZE; TASK_STACK_SIZE] = false.
Proof.
  intros Ht. unfold task_create_user_image. rewrite Ht. cbn [negb]. destruct (_ !! img) as [entry |]; [| done].
  destruct (task_create_user s nm entry) as [[t c] | |] eqn:E; [| done ..]. cbn [obind].
  destruct (Z.eq_dec t 0) as [-> | Hne]; [by intros _; apply create_user_refused in E |].
  assert (truth t = true) as -> by (unfold truth; by destruct (Z.eqb_spec t 0)). cbn [negb].
  destruct (upd c t _); [| done ..]. cbn [obind]. intros [= ? _]. done.
Qed.

(** ** Handing an image to a task *)

(** No task owns the image [img]. *)
Definition image_unowned s (img : Z) : Prop :=
  forall p t, tasks s !! p = Some t -> image t ≠ img.

Lemma unowned_resources s img e p t :
  tasks_mem (tasks s) (pool s) -> proc_images (pool s) !! img = Some e -> image_unowned s img ->
  tasks s !! p = Some t -> img ∉ resources p t.
Proof.
  intros Hm Hi Hu Hp Hin. unfold resources in Hin. apply elem_of_app in Hin as [Hin | Hin].
  - apply elem_of_opt_ptr in Hin as [E _]. by apply (Hu p t).
  - pose proof (ho_plain _ _ _ (tm_holds _ _ Hm p t Hp) img Hin). congruence.
Qed.

Lemma give_image s l p t img e :
  ring_ok s l -> tasks s !! p = Some t -> image t = 0 -> 0 < img ->
  proc_images (pool s) !! img = Some e -> image_unowned s img ->
  ring_ok (with_tasks s (<[p := set_image img t]> (tasks s))) l.
Proof.
  intros [Hr Hn Hd Hc Ha Hm Hw] Hp Him Hpos Hi Hu.
  assert (resources p t = stacks t ++ [p]) as Er by (unfold resources; by rewrite Him).
  assert (resources p (set_image img t) = img :: stacks t ++ [p]) as Er'.
  { unfold resources. cbn [image set_image]. by rewrite opt_ptr_pos. }
  pose proof (unowned_resources s img e p t Hm Hi Hu Hp) as Hni. rewrite Er in Hni.
  split; cbn [tasks pool with_tasks g_current g_active]; try done.
  - apply (ring_frame (tasks s)); [done |]. intros q _. rewrite nxt_insert. case_decide; [subst | done].
    unfold nxt. by rewrite Hp.
  - intros q Hq. apply Hd. rewrite lookup_insert in Hq. case_decide; [subst; eauto | done].
  - destruct Hm as [Hok Hh Hap]. split; [done | |].
    + intros q u [[<- <-] | [_ Hq]]%lookup_insert_Some; [| by apply Hh].
      destruct (Hh p t Hp) as [? ? ? ? Hnd]. split; try done.
      * cbn [image set_image]. intros x. rewrite opt_ptr_pos by done. intros ->%list_elem_of_singleton. eauto.
      * rewrite Er'. apply NoDup_cons. split; [done |]. by rewrite <- Er.
    + intros q q' u u' x Hq Hq' Hne Hx. apply lookup_insert_Some in Hq, Hq'.
      destruct Hq as [[<- <-] | [Hn1 Hq]], Hq' as [[<- <-] | [Hn2 Hq']].
      * done.
      * rewrite Er' in Hx. apply elem_of_cons in Hx as [-> | Hx].
        -- by apply (unowned_resources s img e).
        -- apply (Hap p q' t u' x); try done. by rewrite Er.
      * rewrite Er'. intros [-> | Hx']%elem_of_cons.
        -- by apply (unowned_resources s img e q u).
        -- rewrite <- Er in Hx'. by apply (Hap q p u t x).
      * by apply (Hap q q' u u').
  - intros q u Hq [[<- <-] | [_ Hu']]%lookup_insert_Some; [cbn; by apply (Hw p t) | by apply (Hw q u)].
Qed.

End Creation.
