(* ===== verification/TaskProps.v ===== *)
(** * Tasks: properties

    Safety of every sequence of task operations, the scheduler as a
    round-robin queue, fairness, what creation and reaping do to the heap,
    and the register switch. *)

From S2P Require Import Prelude Memory Interfaces Cpu Task TaskRing TaskSpec TaskSched TaskCreate.

Section Properties.
  Context {M : Type} `{ProcessMemoryLaws M} `{TaskCode}.
  Implicit Types s : sched M.

(** The invariant while a task runs its own code. *)
Record sched_ok s (l : list Z) : Prop := SchedOk {
  sk_ring : ring_ok s l;
  sk_running : state_of s (g_current s) = Some TASK_RUNNING
}.

(** The tasks that can be given the processor, in the order of the ring. *)
Definition runnable s (l : list Z) : list Z :=
  filter (fun p => state_of s p ≠ Some TASK_ZOMBIE) l.

Lemma sched_ok_head s l : sched_ok s l -> exists l', l = g_current s :: l'.
Proof.
  intros [Hr _]. pose proof (ro_current _ _ Hr) as Hc. destruct l as [|c l]; [done |].
  injection Hc as ->. eauto.
Qed.

Lemma runnable_zombies s zs l :
  Forall (fun p => state_of s p = Some TASK_ZOMBIE) zs -> runnable s (zs ++ l) = runnable s l.
Proof.
  unfold runnable. induction 1 as [|z zs Hz _ IH]; [done |].
  cbn [app]. rewrite filter_cons, decide_False; [done |]. by intros ?.
Qed.

Lemma runnable_ext s s' l :
  (forall p, p ∈ l -> state_of s' p = Some TASK_ZOMBIE <-> state_of s p = Some TASK_ZOMBIE) ->
  runnable s' l = runnable s l.
Proof.
  unfold runnable. induction l as [|p l IH]; [done |]. intros Hp. rewrite !filter_cons, IH.
  - specialize (Hp p (list_elem_of_here _ _)).
    destruct (decide (state_of s' p ≠ _)), (decide (state_of s p ≠ _)); tauto.
  - intros q Hq. apply Hp. by apply list_elem_of_further.
Qed.

Lemma state_demote t : state (demote t) = TASK_ZOMBIE <-> state t = TASK_ZOMBIE.
Proof. unfold demote. case_bool_decide as E; [cbn; rewrite E; by split | done]. Qed.

(** Without zombies in front, the first task of the list is runnable. *)
Lemma runnable_split s l zs rest :
  split_zombies s l = (zs, rest) -> runnable s l =
    match rest with [] => [] | x :: rest' => x :: runnable s rest' end.
Proof.
  intros Hs. destruct (split_zombies_spec s l zs rest Hs) as (-> & Hz & Hx).
  rewrite runnable_zombies by done. destruct rest as [|x rest]; [done |].
  unfold runnable. rewrite filter_cons, decide_True; [done | by apply Hx].
Qed.

(** ** A switch *)

Lemma switched_state s c x t zs r r' s' p u :
  switched s c x t zs r r' s' -> p ∉ zs -> tasks s !! p = Some u ->
  state_of s' p = Some (if decide (p = c) then state (demote u)
                        else if decide (p = x) then TASK_RUNNING else state u).
Proof.
  intros Hsw Hp Hu. pose proof (sw_tasks _ _ _ _ _ _ _ _ Hsw p) as Ht.
  rewrite decide_False, Hu in Ht by done. unfold state_of.
  destruct (tasks s' !! p) as [v |]; [| done]. apply (inj Some) in Ht.
  assert (state v = state (switch_task c x (default 0 (esp <$> tasks s' !! c)) p (set_next 0 u))) as E.
  { rewrite <- Ht. by destruct v. }
  cbn [fmap option_fmap option_map]. rewrite E. unfold switch_task, demote.
  repeat case_decide; cbn; repeat case_bool_decide; done.
Qed.

(** The effect of a switch on the queue: the current task goes to the end. *)
Lemma switched_runnable s c x t zs rest r r' s' :
  ring_ok s (c :: zs ++ x :: rest) -> switched s c x t zs r r' s' ->
  state_of s' x = Some TASK_RUNNING /\
  runnable s' (rest ++ [c]) = runnable s rest ++ runnable s [c].
Proof.
  intros Hr Hsw. pose proof (ro_nodup _ _ Hr) as Hn. apply NoDup_cons in Hn as [Hc Hn].
  apply NoDup_app in Hn as (_ & Hd & Hn). apply NoDup_cons in Hn as [Hxr Hn].
  assert (forall p, p ∈ c :: zs ++ x :: rest -> exists u, tasks s !! p = Some u) as Hdom.
  { intros p Hp. destruct (ring_dom _ _ p (ro_ring _ _ Hr) Hp) as [u Hu]. eauto. }
  assert (c ≠ x) as Hcx by (intros ->; apply Hc, elem_of_app; right; apply list_elem_of_here).
  split.
  - destruct (Hdom x) as [u Hu]; [apply list_elem_of_further, elem_of_app; right; apply list_elem_of_here |].
    rewrite (switched_state _ _ _ _ _ _ _ _ x u Hsw) by (done || intros Hin; apply (Hd x Hin), list_elem_of_here).
    rewrite decide_False, decide_True by done. done.
  - unfold runnable. rewrite filter_app. f_equal.
    + apply runnable_ext. intros p Hp. 
      destruct (Hdom p) as [u Hu]; [apply list_elem_of_further, elem_of_app; right; by apply list_elem_of_further |].
      rewrite (switched_state _ _ _ _ _ _ _ _ p u Hsw).
      * rewrite !decide_False; [unfold state_of; by rewrite Hu | by intros -> |].
        intros ->. apply Hc, elem_of_app. right. by apply list_elem_of_further.
      * intros Hin. apply (Hd p Hin). by apply list_elem_of_further.
      * done.
    + destruct (Hdom c) as [u Hu]; [apply list_elem_of_here |].
      assert (state_of s' c = Some (state (demote u))) as E.
      { rewrite (switched_state _ _ _ _ _ _ _ _ c u Hsw); [by rewrite decide_True | | done].
        intros Hin. apply Hc, elem_of_app. by left. }
      assert (state_of s c = Some (state u)) as E' by (unfold state_of; by rewrite Hu).
      apply (runnable_ext s s' [c]). intros p ->%list_elem_of_singleton. rewrite E, E'.
      rewrite !(inj_iff Some). apply state_demote.
Qed.

Lemma yield_step r s c l :
  ring_ok s (c :: l) ->
  match runnable s l with
  | [] => (state_of s c = Some TASK_ZOMBIE -> task_yield r s = Halt NoRunnable) /\
      (state_of s c ≠ Some TASK_ZOMBIE ->
         exists s', task_yield r s = Ret (None, s') /\ ring_ok s' [c] /\ state_of s' c = state_of s c)
  | x :: ys => exists r' s' l', task_yield r s = Ret (Some r', s') /\ sched_ok s' (x :: l') /\
      runnable s' l' = ys ++ runnable s [c]
  end.
Proof.
  intros Hr. destruct (split_zombies_cases s l) as [(zs & x & rest & -> & Hs) | Hs];
    rewrite (runnable_split _ _ _ _ Hs).
  - destruct (yield_switch r s c x rest zs Hr Hs) as (t & r' & s' & _ & E & Hr' & Hsw).
    destruct (switched_runnable _ _ _ _ _ _ _ _ _ Hr Hsw) as [Hx Hq].
    exists r', s', (rest ++ [c]). split; [done |]. split; [| done].
    split; [done |]. by rewrite (sw_current _ _ _ _ _ _ _ _ Hsw).
  - destruct (yield_alone r s c l Hr Hs) as [Hz Hnz]. split; [done |]. intros Hc.
    destruct (Hnz Hc) as (s' & E & Hr' & Hre). exists s'. split; [done |]. split; [done |].
    rewrite (reaped_state _ _ _ c Hre); [done |].
    by pose proof (ro_nodup _ _ Hr) as [? _]%NoDup_cons.
Qed.

(** [task_exit] of the running task: the yield of a zombie. *)
Lemma exit_start r s c l :
  sched_ok s (c :: l) ->
  exists s1, task_exit r s = (do! (o, s) := task_yield r s1 in
      match o with
      | Some r' => Ret (r', s)
      | None => Halt (TaskPanic "task_exit: returned from yield (ZOMBIE rescheduled)")
      end) /\
    ring_ok s1 (c :: l) /\ state_of s1 c = Some TASK_ZOMBIE /\
    (forall p, p ≠ c -> state_of s1 p = state_of s p) /\
    (forall p, resources_of s1 p = resources_of s p) /\ pool s1 = pool s /\ g_current s1 = c.
Proof.
  intros [Hr Hrun]. pose proof (ro_current _ _ Hr) as Hc. injection Hc as Hc.
  destruct (ring_dom _ _ c (ro_ring _ _ Hr) (list_elem_of_here _ _)) as [t Ht].
  set (s1 := sti (with_tasks (cli s) (<[c := set_state TASK_ZOMBIE t]> (tasks s)))).
  exists s1. split_and!; try done.
  - unfold task_exit. change (g_current (cli s)) with (g_current s). rewrite <- Hc.
    rewrite (upd_some (cli s) c t) by done. done.
  - apply (ring_ok_ext (with_tasks (cli s) (<[c := set_state TASK_ZOMBIE t]> (tasks (cli s))))); try done.
    apply (ring_ok_current (cli s) c l t (set_state TASK_ZOMBIE)); try done. by apply (ring_ok_ext s).
  - unfold state_of, s1. cbn [tasks sti set_intr with_tasks]. by rewrite lookup_insert_eq.
  - intros p Hp. unfold state_of, s1. cbn [tasks sti set_intr with_tasks]. by rewrite lookup_insert_ne.
  - intros p. unfold resources_of, s1. cbn [tasks sti set_intr with_tasks]. rewrite lookup_insert.
    case_decide; subst; [by rewrite Ht | done].
Qed.

Lemma exit_runnable s s1 c l : NoDup (c :: l) -> (forall p, p ≠ c -> state_of s1 p = state_of s p) ->
  runnable s1 l = runnable s l.
Proof.
  intros [Hcl _]%NoDup_cons Hst. apply runnable_ext. intros p Hp. rewrite Hst; [done |]. by intros ->.
Qed.

Lemma exit_step r s c l :
  sched_ok s (c :: l) ->
  match runnable s l with
  | [] => task_exit r s = Halt NoRunnable
  | x :: ys => exists r' s' l', task_exit r s = Ret (r', s') /\ sched_ok s' (x :: l') /\ runnable s' l' = ys
  end.
Proof.
  intros Hok. destruct (exit_start r s c l Hok) as (s1 & -> & Hr1 & Hz & Hst & _).
  rewrite <- (exit_runnable s s1 c l (ro_nodup _ _ Hr1) Hst).
  assert (runnable s1 [c] = []) as Hnil.
  { unfold runnable. rewrite filter_cons, decide_False; [done |]. by intros ?. }
  pose proof (yield_step r s1 c l Hr1) as Hy. destruct (runnable s1 l) as [|x ys].
  - destruct Hy as [Hy _]. by rewrite Hy.
  - destruct Hy as (r' & s' & l' & -> & Hok' & Hq). cbn [obind]. exists r', s', l'.
    split; [done |]. split; [done |]. by rewrite Hq, Hnil, app_nil_r.
Qed.

(** ** The scheduler against a queue

    What a task can make happen: the calls of task.h, the parts of an
    interrupt that concern tasks, other uses of the heap, and writes to the
    kernel stacks. *)

Inductive event : Type :=
  | Yield (r : regs)
  | Exit (r : regs)
  | Tick
  | Resched
  | Create (nm : list Z) (entry : Z)
  | CreateUser (nm : list Z) (entry : Z)
  | Exec (nm : list Z) (img : Z)
  | Heap (m' : M)
  | Stack (km : mem).

Definition exec (e : event) s : outcome (sched M) :=
  match e with
  | Yield r => do! (_, s) := task_yield r s in Ret s
  | Exit r => do! (_, s) := task_exit r s in Ret s
  | Tick => task_tick s
  | Resched => Ret (snd (task_should_resched s))
  | Create nm entry => do! (_, s) := task_create s nm entry in Ret s
  | CreateUser nm entry => do! (_, s) := task_create_user s nm entry in Ret s
  | Exec nm img => do! (_, s) := task_create_user_image s nm img in Ret s
  | Heap m' => Ret (with_pool s m')
  | Stack km => Ret (with_kmem s km)
  end.

(** An executed image was loaded and is no other task's; other users of the
    heap leave what the tasks own alone. *)
Definition allowed s (e : event) : Prop :=
  match e with
  | Exec _ img => is_Some (proc_images (pool s) !! img) /\ image_unowned s img
  | Heap m' => proc_ok m' /\ forall p t x, tasks s !! p = Some t -> x ∈ resources p t ->
      proc_blocks m' !! x = proc_blocks (pool s) !! x /\ proc_images m' !! x = proc_images (pool s) !! x
  | _ => True
  end.

(** The current task, then the others that can run. *)
Definition queue s (l : list Z) : list Z := g_current s :: runnable s (tail l).

(** Round robin on the queue. *)
Inductive round_robin : list Z -> event -> list Z -> Prop :=
  | rr_yield c x q r : round_robin (c :: x :: q) (Yield r) (x :: q ++ [c])
  | rr_yield_alone c r : round_robin [c] (Yield r) [c]
  | rr_exit c x q r : round_robin (c :: x :: q) (Exit r) (x :: q)
  | rr_create c q t nm v : t ∉ c :: q -> round_robin (c :: q) (Create nm v) (c :: t :: q)
  | rr_create_user c q t nm v : t ∉ c :: q -> round_robin (c :: q) (CreateUser nm v) (c :: t :: q)
  | rr_exec c q t nm v : t ∉ c :: q -> round_robin (c :: q) (Exec nm v) (c :: t :: q)
  | rr_same q e : match e with Yield _ | Exit _ => False | _ => True end -> round_robin q e q.

(** *** Each kind of event *)

Definition refines_step s (l : list Z) (e : event) : Prop :=
  exists s' l', exec e s = Ret s' /\ sched_ok s' l' /\ round_robin (queue s l) e (queue s' l').

Lemma sched_ok_ext s s' l :
  sched_ok s l -> tasks s' = tasks s -> pool s' = pool s -> g_current s' = g_current s ->
  g_active s' = g_active s -> sched_ok s' l /\ queue s' l = queue s l.
Proof.
  intros [Hr Hrun] Ht Hp Hc Ha. split; [split |].
  - by apply (ring_ok_ext s).
  - unfold state_of. by rewrite Ht, Hc.
  - unfold queue. rewrite Hc. f_equal. apply runnable_ext. intros p _. unfold state_of. by rewrite Ht.
Qed.

Lemma same_step s s' l e :
  sched_ok s l -> exec e s = Ret s' -> tasks s' = tasks s -> pool s' = pool s ->
  g_current s' = g_current s -> g_active s' = g_active s ->
  match e with Yield _ | Exit _ => False | _ => True end -> refines_step s l e.
Proof.
  intros Hok E Ht Hp Hc Ha He. destruct (sched_ok_ext s s' l Hok Ht Hp Hc Ha) as [Hok' Hq].
  exists s', l. rewrite Hq. split; [done |]. split; [done |]. by apply rr_same.
Qed.

(** A change of the current task that keeps its state. *)
Lemma current_step s l f t :
  sched_ok s l -> tasks s !! g_current s = Some t -> own (f t) = own t -> next (f t) = next t ->
  state (f t) = state t ->
  sched_ok (with_tasks s (<[g_current s := f t]> (tasks s))) l /\
  queue (with_tasks s (<[g_current s := f t]> (tasks s))) l = queue s l.
Proof.
  intros Hok Ht Ho Hn Hst. destruct (sched_ok_head _ _ Hok) as [l' ->]. destruct Hok as [Hr Hrun].
  assert (forall p, state_of (with_tasks s (<[g_current s := f t]> (tasks s))) p = state_of s p) as Hs.
  { intros p. unfold state_of. cbn [tasks with_tasks]. rewrite lookup_insert.
    case_decide as E; [subst p; rewrite Ht; cbn; congruence | done]. }
  split; [split |].
  - by apply ring_ok_current.
  - by rewrite Hs.
  - unfold queue. f_equal. apply runnable_ext. intros p _. by rewrite Hs.
Qed.

Lemma tick_ok s l : sched_ok s l ->
  exists s' t, task_tick s = Ret s' /\ sched_ok s' l /\ queue s' l = queue s l /\
    tasks s !! g_current s = Some t /\
    g_current s' = g_current s /\
    slice_left <$> tasks s' !! g_current s =
      Some (if 0 <? slice_left t then slice_left t - 1 else slice_left t) /\
    ticks_run <$> tasks s' !! g_current s = Some (u32 (ticks_run t + 1)) /\
    (forall p, p ≠ g_current s -> tasks s' !! p = tasks s !! p) /\
    g_need_resched s' = g_need_resched s || (slice_left t <=? 1) && (0 <=? slice_left t) /\
    kmem s' = kmem s /\ pool s' = pool s /\ g_next_id s' = g_next_id s /\ intr s' = intr s /\ tss s' = tss s.
Proof.
  intros Hok. pose proof (sk_running _ _ Hok) as Hrun. unfold state_of in Hrun.
  destruct (tasks s !! g_current s) as [t |] eqn:Ht; [| done].
  unfold task_tick. rewrite (ro_active _ _ (sk_ring _ _ Hok)). cbn [negb].
  rewrite (upd_some s _ t) by done. cbn [obind].
  destruct (current_step s l (fun t => set_ticks (u32 (ticks_run t + 1)) t) t Hok Ht eq_refl eq_refl eq_refl)
    as [Hok1 Hq1]. cbn beta in Hok1, Hq1. set (s1 := with_tasks s _) in *.
  set (t1 := set_ticks (u32 (ticks_run t + 1)) t) in *.
  change (g_current s1) with (g_current s).
  assert (tasks s1 !! g_current s1 = Some t1) as Ht1 by apply lookup_insert_eq.
  set (f := fun t => if 0 <? slice_left t then set_slice (slice_left t - 1) t else t).
  assert (own (f t1) = own t1 /\ next (f t1) = next t1 /\ state (f t1) = state t1) as (Ho & Hn & Hst).
  { unfold f. by destruct (0 <? slice_left t1). }
  destruct (current_step s1 l f t1 Hok1 Ht1 Ho Hn Hst) as [Hok2 Hq2].
  change (g_current s1) with (g_current s) in *.
  rewrite (upd_some s1 _ t1) by done. cbn [obind]. set (s2 := with_tasks s1 _) in *.
  assert (tasks s2 !! g_current s = Some (f t1)) as Ht2 by apply lookup_insert_eq.
  change (g_current s2) with (g_current s). rewrite (get_some s2 _ (f t1)) by done. cbn [obind].
  assert (slice_left (f t1) = if 0 <? slice_left t then slice_left t - 1 else slice_left t) as Esl.
  { unfold f. change (slice_left t1) with (slice_left t). by destruct (0 <? slice_left t). }
  set (s' := if slice_left (f t1) =? 0 then with_need s2 true else s2).
  assert (tasks s' = tasks s2 /\ pool s' = pool s2 /\ g_current s' = g_current s2 /\ g_active s' = g_active s2 /\
    kmem s' = kmem s2 /\ g_next_id s' = g_next_id s2 /\ intr s' = intr s2 /\ tss s' = tss s2 /\
    g_need_resched s' = g_need_resched s || (slice_left (f t1) =? 0)) as (E1 & E2 & E3 & E4 & E5 & E6 & E7 & E8 & E9).
  { unfold s'. destruct (slice_left (f t1) =? 0); split_and!; try done; by rewrite ?orb_true_r, ?orb_false_r. }
  clearbody s'. destruct (sched_ok_ext s2 s' l Hok2 E1 E2 E3 E4) as [Hok' Hq'].
  exists s', t. split_and!; try done.
  - congruence.
  - rewrite E1, Ht2. cbn. by rewrite Esl.
  - rewrite E1, Ht2. unfold f. cbn. by destruct (0 <? slice_left t).
  - intros p Hp. rewrite E1. unfold s2, s1. cbn [tasks with_tasks]. by rewrite !lookup_insert_ne.
  - rewrite E9, Esl. f_equal. destruct (Z.ltb_spec 0 (slice_left t)); apply eq_true_iff_eq;
      rewrite andb_true_iff, Z.eqb_eq, !Z.leb_le; lia.
Qed.

Lemma created_states s p d s' q :
  created s p d s' -> state_of s' q = if decide (q = p) then Some (state d) else state_of s q.
Proof.
  intros Hc. pose proof (cr_tasks _ _ _ _ Hc q) as Hq. unfold state_of.
  assert (forall o o' : option task, set_next 0 <$> o = set_next 0 <$> o' -> state <$> o = state <$> o') as Hst.
  { intros [u |] [u' |]; try done. intros [= ???????????]. cbn. congruence. }
  rewrite (Hst _ _ Hq), lookup_insert. repeat case_decide; subst; done.
Qed.

Lemma created_ok s c l p d s' :
  sched_ok s (c :: l) -> created s p d s' -> state d = TASK_READY -> ring_ok s' (c :: p :: l) ->
  sched_ok s' (c :: p :: l) /\ queue s' (c :: p :: l) = c :: p :: runnable s l /\ p ∉ c :: l.
Proof.
  intros [Hr Hrun] Hc Hst Hr'. pose proof (ro_current _ _ Hr) as Hcur. injection Hcur as Hcur.
  assert (p ∉ c :: l) as Hp.
  { intros Hin. destruct (ring_dom _ _ p (ro_ring _ _ Hr) Hin) as [u Hu].
    rewrite (cr_new _ _ _ _ Hc) in Hu. done. }
  split_and!; [split; [done |] | | done].
  - rewrite (cr_current _ _ _ _ Hc), (created_states _ _ _ _ _ Hc), decide_False; [done |].
    intros E. apply Hp. rewrite <- E, Hcur. apply list_elem_of_here.
  - unfold queue. rewrite (cr_current _ _ _ _ Hc), <- Hcur. f_equal. cbn [tail].
    unfold runnable at 1. rewrite filter_cons, decide_True.
    + f_equal. apply runnable_ext. intros q Hq. rewrite (created_states _ _ _ _ _ Hc), decide_False; [done |].
      intros ->. by apply Hp, list_elem_of_further.
    + by rewrite (created_states _ _ _ _ _ Hc), decide_True, Hst.
Qed.

Lemma not_in_queue s c l p : g_current s = c -> p ∉ c :: l -> p ∉ c :: runnable s l.
Proof.
  intros <- Hp. intros [-> | Hin]%elem_of_cons; [by apply Hp, list_elem_of_here |].
  apply list_elem_of_filter in Hin as [_ Hin]. by apply Hp, list_elem_of_further.
Qed.

Lemma pool_step s l m' e :
  sched_ok s l -> grown (pool s) m' -> exec e s = Ret (with_pool s m') ->
  match e with Yield _ | Exit _ => False | _ => True end -> refines_step s l e.
Proof.
  intros [Hr Hrun] Hg E He. exists (with_pool s m'), l. split; [done |]. split.
  - split; [by apply ring_ok_pool | done].
  - by apply rr_same.
Qed.

(** A task that runs a loaded image. *)
Lemma create_image_cases s c l nm img entry :
  sched_ok s (c :: l) -> proc_images (pool s) !! img = Some entry -> image_unowned s img ->
  exists t s', task_create_user_image s nm img = Ret (t, s') /\
   ((t = 0 /\ exists m', s' = with_pool s m' /\ same_pool (pool s) m') \/
    (0 < t /\ sched_ok s' (c :: t :: l) /\ queue s' (c :: t :: l) = c :: t :: runnable s l /\ t ∉ c :: l /\
     exists kstack ustack d, tasks s' !! t = Some d /\ image d = img /\ id d = g_next_id s /\
       name d = str_copy_n nm TASK_NAME_LEN /\
       own d = own (set_image img (kernel_stack kstack s nm (user_words entry ustack) 1 ustack)) /\
       esp d = kstack + TASK_STACK_SIZE - 4 * Z.of_nat (length (user_words entry ustack)) /\
       NoDup [t; kstack; ustack] /\ Forall (fun q => proc_blocks (pool s) !! q = None) [t; kstack; ustack] /\
       proc_blocks (pool s') = <[ustack := TASK_STACK_SIZE]> (<[kstack := TASK_STACK_SIZE]>
         (<[t := TASK_SIZE]> (proc_blocks (pool s)))) /\
       proc_images (pool s') = proc_images (pool s) /\
       kmem s' = snd (push_all (kstack + TASK_STACK_SIZE) (kmem s) (user_words entry ustack)))).
Proof.
  intros Hok Himg Hun. pose proof (sk_ring _ _ Hok) as Hr.
  destruct (proc_image_block _ _ _ (tm_ok _ _ (ro_mem _ _ Hr)) Himg) as [Hpos _].
  unfold task_create_user_image. rewrite truth_pos, Himg by done. cbn [negb].
  destruct (create_user_cases s c l nm entry Hr) as
    (t & s' & -> & [(-> & m' & -> & Hs) | (Ht & k & u & Hc & Hr' & Hnd & Hfr & _ & _ & _ & _ & Hb & Hkm)]); cbn [obind].
  { cbn [truth negb Z.eqb obind]. exists 0, (with_pool s m'). split; [done |]. left. split; [done |]. by exists m'. }
  rewrite truth_pos by done. cbn [negb].
  destruct (created_ok _ _ _ _ _ _ Hok Hc eq_refl Hr') as (Hok' & Hq & Hnin).
  destruct (ring_dom _ _ t (ro_ring _ _ Hr')) as [d Hd]; [apply list_elem_of_further, list_elem_of_here |].
  rewrite (upd_some s' t d) by done. cbn [obind].
  destruct (same_tasks_some _ _ _ _ (cr_tasks _ _ _ _ Hc) Hd) as (d0 & Hd0 & Ed).
  rewrite lookup_insert_eq in Hd0. injection Hd0 as <-.
  set (s2 := with_tasks s' (<[t := set_image img d]> (tasks s'))).
  assert (forall q, state_of s2 q = state_of s' q) as Hst.
  { intros q. unfold state_of. cbn [tasks with_tasks s2]. rewrite lookup_insert.
    case_decide; [subst q; by rewrite Hd | done]. }
  exists t, s2. split; [done |]. right. split; [done |]. split; [split | split; [| split; [done |]]].
  - apply (give_image s' _ t d img entry); try done; [by rewrite Ed | by rewrite (cr_images _ _ _ _ Hc) |].
    intros q v Hv. destruct (same_tasks_some _ _ _ _ (cr_tasks _ _ _ _ Hc) Hv) as (v0 & Hv0 & ->).
    cbn [image set_next]. apply lookup_insert_Some in Hv0 as [[<- <-] | [_ Hv0]]; [cbn; lia | by apply (Hun q)].
  - rewrite Hst. apply Hok'.
  - rewrite <- Hq. unfold queue. f_equal. apply runnable_ext. intros q _. by rewrite Hst.
  - exists k, u, (set_image img d). cbn [tasks with_tasks s2]. rewrite lookup_insert_eq, Ed.
    split_and!; try done. apply (cr_images _ _ _ _ Hc).
Qed.

(** The creating events. *)
Lemma create_event s l e :
  sched_ok s l -> allowed s e ->
  match e with Create _ _ | CreateUser _ _ | Exec _ _ => True | _ => False end -> refines_step s l e.
Proof.
  intros Hok Hal He. destruct (sched_ok_head _ _ Hok) as [l' ->]. set (c := g_current s) in *.
  pose proof (sk_ring _ _ Hok) as Hr.
  destruct e as [| | | | nm entry | nm entry | nm img | |]; try done; clear He.
  - destruct (create_cases s c l' nm entry Hr) as (t & s' & E & [(-> & m' & -> & Hs) | (Ht & stack & Hc & Hr' & _)]).
    + apply (pool_step s _ m'); try done; [by apply same_pool_grown |].
      cbn [exec]. rewrite E. done.
    + destruct (created_ok _ _ _ _ _ _ Hok Hc eq_refl Hr') as (Hok' & Hq & Hnin).
      exists s', (c :: t :: l'). cbn [exec]. rewrite E. split; [done |]. split; [done |].
      rewrite Hq. apply rr_create. by apply not_in_queue.
  - destruct (create_user_cases s c l' nm entry Hr) as (t & s' & E & [(-> & m' & -> & Hs) | (Ht & k & u & Hc & Hr' & _)]).
    + apply (pool_step s _ m'); try done; [by apply same_pool_grown |].
      cbn [exec]. rewrite E. done.
    + destruct (created_ok _ _ _ _ _ _ Hok Hc eq_refl Hr') as (Hok' & Hq & Hnin).
      exists s', (c :: t :: l'). cbn [exec]. rewrite E. split; [done |]. split; [done |].
      rewrite Hq. apply rr_create_user. by apply not_in_queue.
  - destruct Hal as [[entry Himg] Hun].
    destruct (create_image_cases s c l' nm img entry Hok Himg Hun) as
      (t & s' & E & [(-> & m' & -> & Hs) | (Ht & Hok' & Hq & Hnin & _)]).
    + apply (pool_step s _ m'); try done; [by apply same_pool_grown |]. cbn [exec]. by rewrite E.
    + exists s', (c :: t :: l'). cbn [exec]. rewrite E. split; [done |]. split; [done |].
      rewrite Hq. apply rr_exec. by apply not_in_queue.
Qed.

(** Other users of the heap and the loader. *)
Lemma swap_pool_ok s l m' : sched_ok s l -> allowed s (Heap m') -> sched_ok (with_pool s m') l.
Proof.
  intros [Hr Hrun] [Hok' Hkeep]. split; [| done].
  destruct Hr as [? ? ? ? ? [Hpo Hh Hap] ?]. split; try done. split; [done | | done].
  intros p t Hp. destruct (Hh p t Hp) as [Ht Hs Hpl Hi Hn].
  assert (forall x, x ∈ resources p t -> proc_blocks m' !! x = proc_blocks (pool s) !! x /\
    proc_images m' !! x = proc_images (pool s) !! x) as Hk by (intros x; apply (Hkeep p t x Hp)).
  unfold resources in Hk. setoid_rewrite elem_of_app in Hk.
  split; cbn [pool with_pool]; [| | | | done].
  - rewrite (proj1 (Hk p ltac:(right; apply elem_of_app; right; by apply list_elem_of_singleton))). done.
  - intros q Hq. rewrite (proj1 (Hk q ltac:(right; apply elem_of_app; by left))). by apply Hs.
  - intros q Hq. rewrite (proj2 (Hk q ltac:(by right))). by apply Hpl.
  - intros q Hq. rewrite (proj2 (Hk q ltac:(by left))). by apply Hi.
Qed.

(** Every event, from a good state. *)
Lemma exec_refines s l e :
  sched_ok s l -> allowed s e ->
  refines_step s l e \/
  (exists r, e = Exit r /\ queue s l = [g_current s] /\ exec e s = Halt NoRunnable).
Proof.
  intros Hok Hal. destruct (sched_ok_head _ _ Hok) as [l' ->]. pose proof (sk_ring _ _ Hok) as Hr.
  pose proof (sk_running _ _ Hok) as Hrun.
  destruct e as [r | r | | | nm entry | nm entry | nm img | m' | km];
    try (left; by apply create_event).
  - left. pose proof (yield_step r s (g_current s) l' Hr) as Hy. unfold refines_step. cbn [exec].
    unfold queue at 1. cbn [tail]. destruct (runnable s l') as [|x ys] eqn:Eq.
    + destruct Hy as [_ Hy]. destruct Hy as (s' & -> & Hr' & Hst); [congruence |].
      exists s', [g_current s]. cbn [obind]. split; [done |].
      pose proof (ro_current _ _ Hr') as Hc'. injection Hc' as Hc'.
      split; [split; [done | by rewrite <- Hc', Hst] |]. unfold queue. rewrite <- Hc'. apply rr_yield_alone.
    + destruct Hy as (r' & s' & l2 & -> & Hok' & Hq). exists s', (x :: l2). cbn [obind].
      split; [done |]. split; [done |]. unfold queue. cbn [tail].
      pose proof (ro_current _ _ (sk_ring _ _ Hok')) as Hc'. injection Hc' as <-. rewrite Hq.
      assert (runnable s [g_current s] = [g_current s]) as ->.
      { unfold runnable. rewrite filter_cons, decide_True; [done |]. congruence. }
      apply rr_yield.
  - pose proof (exit_step r s (g_current s) l' Hok) as Hy. unfold queue at 1. unfold refines_step. cbn [exec tail].
    destruct (runnable s l') as [|x ys] eqn:Eq.
    + right. exists r. split; [done |]. split; [done |]. by rewrite Hy.
    + left. destruct Hy as (r' & s' & l2 & -> & Hok' & Hq). exists s', (x :: l2). cbn [obind].
      split; [done |]. split; [done |]. unfold queue. cbn [tail].
      pose proof (ro_current _ _ (sk_ring _ _ Hok')) as Hc'. injection Hc' as <-. rewrite Hq, ?Eq. apply rr_exit.
  - left. destruct (tick_ok s _ Hok) as (s' & t & E & Hok' & Hq & _).
    exists s', (g_current s :: l'). rewrite Hq. split; [done |]. split; [done |]. by apply rr_same.
  - left. unfold task_should_resched in *. apply (same_step s (snd (task_should_resched s)) _ Resched Hok eq_refl);
      unfold task_should_resched; by destruct (g_need_resched s).
  - left. exists (with_pool s m'), (g_current s :: l').
    split; [done |]. split; [by apply swap_pool_ok | by apply rr_same].
  - left. by apply (same_step s (with_kmem s km) _ (Stack km) Hok).
Qed.

(** ** From the start *)

(** Nothing has been created yet. *)
Record before_init s : Prop := BeforeInit {
  bi_tasks : tasks s = ∅;
  bi_active : g_active s = false;
  bi_pool : proc_ok (pool s)
}.

Lemma init_ok s :
  before_init s ->
  (exists s' b, tasking_init s = Ret s' /\ sched_ok s' [b]) \/
  tasking_init s = Halt (TaskPanic "tasking_init: kmalloc failed").
Proof.
  intros [Ht Ha Hp]. unfold tasking_init.
  destruct (malloc_cases (pool s) TASK_SIZE Hp) as (b & m & -> & [[-> Hs] | F]); [done | |]; cbn [obind].
  { by right. }
  pose proof (fb_pos _ _ _ _ F) as Hb. rewrite truth_pos by done. cbn [negb]. left.
  cbv zeta. cbn [tasks with_pool with_next_id]. rewrite Ht.
  eexists _, b. split; [reflexivity |]. split; [split |];
    cbn [tasks with_current with_tasks with_pool with_next_id pool g_current g_active].
  - cbn [ring path]. unfold nxt. by rewrite lookup_insert_eq.
  - apply NoDup_singleton.
  - intros p [t Hpt]. apply lookup_insert_Some in Hpt as [[<- _] | [_ Hpt]]; [apply list_elem_of_here |].
    by rewrite lookup_empty in Hpt.
  - done.
  - done.
  - split; [apply (fb_ok _ _ _ _ F) | |].
    + intros p t [[<- <-] | [_ Hpt]]%lookup_insert_Some; [| by rewrite lookup_empty in Hpt].
      split; unfold resources, stacks; cbn [stack_base user_stack_base image opt_ptr truth negb Z.eqb app].
      * rewrite (fb_blocks _ _ _ _ F). apply lookup_insert_eq.
      * by intros q ?%not_elem_of_nil.
      * intros q ->%list_elem_of_singleton. rewrite (fb_images _ _ _ _ F). by apply (fresh_image _ _ _ _ Hp F).
      * by intros q ?%not_elem_of_nil.
      * apply NoDup_singleton.
    + intros p q t u x [[<- <-] | [_ Hpt]]%lookup_insert_Some [[<- <-] | [_ Hq]]%lookup_insert_Some;
        try done; by rewrite lookup_empty in *.
  - by intros p t ?%not_elem_of_nil.
  - unfold state_of. cbn [tasks g_current with_current with_tasks]. by rewrite lookup_insert_eq.
Qed.

(** Sequences of events, each allowed when its turn comes. *)
Fixpoint run (es : list event) s : outcome (sched M) :=
  match es with
  | [] => Ret s
  | e :: es' => do! s := exec e s in run es' s
  end.

Fixpoint allowed_run (es : list event) s : Prop :=
  match es with
  | [] => True
  | e :: es' => allowed s e /\ forall s', exec e s = Ret s' -> allowed_run es' s'
  end.

Definition gives_up (e : event) : Prop :=
  match e with Yield _ | Exit _ => True | _ => False end.

(** ** Fairness *)

Lemma gives_up_step s l e x q :
  sched_ok s l -> gives_up e -> queue s l = g_current s :: x :: q ->
  exists s' l', exec e s = Ret s' /\ sched_ok s' l' /\ g_current s' = x /\
    exists w, runnable s' (tail l') = q ++ w.
Proof.
  intros Hok He Hq. assert (allowed s e) as Hal by (by destruct e).
  destruct (exec_refines s l e Hok Hal) as [(s' & l' & E & Hok' & Hrr) | (r & _ & Hq' & _)]; [| congruence].
  exists s', l'. split; [done |]. split; [done |]. rewrite Hq in Hrr. unfold queue in Hrr.
  destruct e; try done; inversion Hrr; subst; try done; (split; [done |]); eauto.
  exists []. by rewrite app_nil_r.
Qed.

Lemma fair_run k es s l t :
  sched_ok s l -> runnable s (tail l) !! k = Some t -> length es = S k -> Forall gives_up es ->
  exists s', run es s = Ret s' /\ g_current s' = t /\ state_of s' t = Some TASK_RUNNING.
Proof.
  revert es s l. induction k as [|k IH]; intros es s l Hok Hk Hlen Hes;
    (destruct es as [|e es]; [done |]); apply Forall_cons in Hes as [He Hes];
    (destruct (runnable s (tail l)) as [|x q] eqn:Eq; [done |]);
    assert (queue s l = g_current s :: x :: q) as Hq by (unfold queue; by rewrite Eq);
    destruct (gives_up_step s l e x q Hok He Hq) as (s' & l' & E & Hok' & Hc & w & Hq');
    cbn [run]; rewrite E; cbn [obind].
  - destruct es; [| done]. injection Hk as ->. exists s'. split; [done |]. split; [done |].
    rewrite <- Hc. apply Hok'.
  - apply (IH es s' l'); try done; [| by injection Hlen].
    rewrite Hq', lookup_app_l; [done |]. by eapply lookup_lt_Some.
Qed.

(** ** Zombies *)

(** What [z] owned in [s0] is gone. *)
Definition reclaimed s (z : Z) (res : list Z) : Prop :=
  tasks s !! z = None /\ forall x, x ∈ res ->
    proc_blocks (pool s) !! x = None /\ proc_images (pool s) !! x = None.

Lemma gone_keeps_none m l m' x :
  gone m l m' -> proc_blocks m !! x = None /\ proc_images m !! x = None ->
  proc_blocks m' !! x = None /\ proc_images m' !! x = None.
Proof. intros [_ Hb Hi] [? ?]. rewrite Hb, Hi. by case_decide. Qed.

Lemma switched_gone s c x t zs r r' s' z :
  switched s c x t zs r r' s' -> z ∈ zs -> is_Some (tasks s !! z) -> reclaimed s' z (resources_of s z).
Proof.
  intros Hsw Hz [u Hu]. split.
  - pose proof (sw_tasks _ _ _ _ _ _ _ _ Hsw z) as Ht. rewrite decide_True in Ht by done.
    by destruct (tasks s' !! z).
  - intros y Hy. rewrite (go_blocks _ _ _ (sw_pool _ _ _ _ _ _ _ _ Hsw)), (go_images _ _ _ (sw_pool _ _ _ _ _ _ _ _ Hsw)).
    rewrite !decide_True; [done | |]; apply list_elem_of_In, in_concat; exists (resources_of s z);
      (split; apply list_elem_of_In; [apply list_elem_of_fmap; eauto | done]).
Qed.

Lemma reaped_gone s zs s' z :
  reaped s zs s' -> z ∈ zs -> is_Some (tasks s !! z) -> reclaimed s' z (resources_of s z).
Proof.
  intros [Ht Hg _] Hz [u Hu]. split.
  - specialize (Ht z). rewrite decide_True in Ht by done. by destruct (tasks s' !! z).
  - intros y Hy. rewrite (go_blocks _ _ _ Hg), (go_images _ _ _ Hg).
    rewrite !decide_True; [done | |]; apply list_elem_of_In, in_concat; exists (resources_of s z);
      (split; apply list_elem_of_In; [apply list_elem_of_fmap; eauto | done]).
Qed.

(** A voluntary switch, in full. *)
Lemma yield_cases r s c l :
  sched_ok s (c :: l) ->
  exists s', exec (Yield r) s = Ret s' /\
   ((exists zs x rest t r', l = zs ++ x :: rest /\ state_of s x ≠ Some TASK_ZOMBIE /\
       switched s c x t zs r r' s' /\ sched_ok s' (x :: rest ++ [c])) \/
    (reaped (sti s) l s' /\ sched_ok s' [c])).
Proof.
  intros [Hr Hrun]. pose proof (ro_current _ _ Hr) as Hc. injection Hc as Hc.
  destruct (split_zombies_cases s l) as [(zs & x & rest & -> & Hs) | Hs].
  - destruct (yield_switch r s c x rest zs Hr Hs) as (t & r' & s' & _ & E & Hr' & Hsw).
    exists s'. cbn [exec]. rewrite E. split; [done |]. left. exists zs, x, rest, t, r'.
    split; [done |]. split; [by apply (split_zombies_spec s _ _ _ Hs) |].
    split; [done |]. split; [done |].
    rewrite (sw_current _ _ _ _ _ _ _ _ Hsw). by apply (switched_runnable s c x t zs rest r r').
  - destruct (yield_alone r s c l Hr Hs) as [_ Hy]. destruct Hy as (s' & E & Hr' & Hre); [congruence |].
    exists s'. cbn [exec]. rewrite E. split; [done |]. right. split; [done |]. split; [done |].
    pose proof (ro_current _ _ Hr') as Hc'. injection Hc' as Hc'. rewrite <- Hc'.
    rewrite (reaped_state _ _ _ c Hre); [by rewrite Hc |].
    by pose proof (ro_nodup _ _ Hr) as [? _]%NoDup_cons.
Qed.

Lemma switched_resources s c x t zs r r' s' p :
  switched s c x t zs r r' s' -> p ∉ zs -> resources_of s' p = resources_of s p.
Proof.
  intros Hsw Hp. pose proof (sw_tasks _ _ _ _ _ _ _ _ Hsw p) as Ht. rewrite decide_False in Ht by done.
  unfold resources_of. destruct (tasks s !! p) as [u |], (tasks s' !! p) as [v |]; try done.
  apply (inj Some) in Ht. apply resources_own.
  assert (own (set_next 0 v) = own (set_next 0 u)) as E; [rewrite Ht; apply own_switch | exact E].
Qed.

Lemma yield_reclaimed r s l z res :
  sched_ok s l -> reclaimed s z res ->
  exists s' l', exec (Yield r) s = Ret s' /\ sched_ok s' l' /\ reclaimed s' z res.
Proof.
  intros Hok [Hz Hres]. destruct (sched_ok_head _ _ Hok) as [l0 ->].
  destruct (yield_cases r s _ _ Hok) as (s' & E & [(zs & x & rest & t & r' & -> & Hxz & Hsw & Hok') | [Hre Hok']]);
    exists s'; eexists; (split; [exact E |]); (split; [exact Hok' |]); split.
  - pose proof (sw_tasks _ _ _ _ _ _ _ _ Hsw z) as Ht. rewrite Hz in Ht. destruct (tasks s' !! z); [| done].
    by case_decide.
  - intros y Hy. eapply gone_keeps_none; [apply (sw_pool _ _ _ _ _ _ _ _ Hsw) | by apply Hres].
  - pose proof (re_tasks _ _ _ Hre z) as Ht. change (tasks (sti s)) with (tasks s) in Ht. rewrite Hz in Ht.
    destruct (tasks s' !! z); [| done]. by case_decide.
  - intros y Hy. eapply gone_keeps_none; [apply (re_pool _ _ _ Hre) | by apply Hres].
Qed.

Lemma yield_zombie r s c l z i :
  sched_ok s (c :: l) -> l !! i = Some z -> state_of s z = Some TASK_ZOMBIE ->
  exists s' l', exec (Yield r) s = Ret s' /\ sched_ok s' l' /\
   (reclaimed s' z (resources_of s z) \/
    exists j, (j < i)%nat /\ tail l' !! j = Some z /\ state_of s' z = Some TASK_ZOMBIE /\
      resources_of s' z = resources_of s z).
Proof.
  intros Hok Hi Hz. pose proof (sk_ring _ _ Hok) as Hr. pose proof (ro_nodup _ _ Hr) as [Hcl Hn]%NoDup_cons.
  assert (is_Some (tasks s !! z)) as Hsome by (unfold state_of in Hz; by destruct (tasks s !! z)).
  destruct (yield_cases r s c l Hok) as (s' & E & [(zs & x & rest & t & r' & -> & Hxz & Hsw & Hok') | [Hre Hok']]);
    exists s'; eexists; (split; [exact E |]); (split; [exact Hok' |]).
  - apply lookup_app_Some in Hi as [Hi | [Hge Hi]].
    { left. eapply switched_gone; [done | by eapply list_elem_of_lookup_2 | done]. }
    destruct (switched_runnable _ _ _ _ _ _ _ _ _ Hr Hsw) as [Hx _].
    assert (z ∉ zs) as Hzs.
    { apply NoDup_app in Hn as (_ & Hd & _). intros Hin. apply (Hd z Hin). by eapply list_elem_of_lookup_2. }
    assert (z ≠ c) as Hzc.
    { intros ->. apply Hcl, elem_of_app. right. by eapply list_elem_of_lookup_2. }
    destruct Hsome as [u Hu]. pose proof (switched_state _ _ _ _ _ _ _ _ z u Hsw Hzs Hu) as Hst.
    rewrite decide_False in Hst by done.
    destruct (i - length zs)%nat as [|j] eqn:Ej.
    { by injection Hi as ->. }
    right. exists j. cbn [tail lookup list_lookup] in Hi |- *. split_and!.
    + lia.
    + rewrite lookup_app_l; [done |]. by eapply lookup_lt_Some.
    + rewrite Hst. unfold state_of in Hz. rewrite Hu in Hz. case_decide as E'; [| done].
      subst z. apply NoDup_app in Hn as (_ & _ & Hn). apply NoDup_cons in Hn as [Hxr _].
      exfalso. apply Hxr. by eapply list_elem_of_lookup_2.
    + by eapply switched_resources.
  - left. change (resources_of s z) with (resources_of (sti s) z). apply (reaped_gone (sti s) l s'); [done | | done].
    by eapply list_elem_of_lookup_2.
Qed.

Lemma reclaim_run es s l z i :
  sched_ok s l -> tail l !! i = Some z -> state_of s z = Some TASK_ZOMBIE ->
  (i < length es)%nat -> Forall (fun e => exists r, e = Yield r) es ->
  exists s' l', run es s = Ret s' /\ sched_ok s' l' /\ reclaimed s' z (resources_of s z).
Proof.
  revert s l i. induction es as [|e es IH]; intros s l i Hok Hi Hz Hlen Hes; [cbn in Hlen; lia |].
  apply Forall_cons in Hes as [[r ->] Hes]. destruct (sched_ok_head _ _ Hok) as [l0 ->]. cbn [tail run length] in *.
  destruct (yield_zombie r s _ _ z i Hok Hi Hz) as (s' & l' & -> & Hok' & [Hre | (j & Hj & Hi' & Hz' & <-)]);
    cbn [obind].
  - clear -Hok' Hre Hes H0. revert s' l' Hok' Hre. induction Hes as [|e es [r' ->] _ IH]; intros s' l' Hok' Hre.
    + by exists s', l'.
    + destruct (yield_reclaimed r' s' l' z _ Hok' Hre) as (s2 & l2 & E & Hok2 & Hre2).
      cbn [run]. rewrite E. by apply (IH s2 l2).
  - apply (IH s' l' j); try done. lia.
Qed.

(** The exiting task is last in the ring, still owning what it owned. *)
Lemma exit_last r s c l :
  sched_ok s (c :: l) -> runnable s l ≠ [] ->
  exists r' s' x rest, task_exit r s = Ret (r', s') /\ sched_ok s' (x :: rest ++ [c]) /\
    (length rest < length l)%nat /\ state_of s' c = Some TASK_ZOMBIE /\
    resources_of s' c = resources_of s c.
Proof.
  intros Hok Hne. destruct (exit_start r s c l Hok) as (s1 & -> & Hr1 & Hz & Hst & Hres & _).
  rewrite <- (exit_runnable s s1 c l (ro_nodup _ _ Hr1) Hst) in Hne.
  destruct (split_zombies_cases s1 l) as [(zs & x & rest & -> & Hs) | Hs];
    [| by rewrite (runnable_split _ _ _ _ Hs) in Hne].
  destruct (yield_switch r s1 c x rest zs Hr1 Hs) as (t & r' & s' & _ & -> & Hr' & Hsw). cbn [obind].
  pose proof (ro_nodup _ _ Hr1) as [Hcl _]%NoDup_cons.
  assert (c ∉ zs) as Hcz by (intros Hin; apply Hcl, elem_of_app; by left).
  exists r', s', x, rest. split; [done |]. split_and!.
  - split; [done |]. rewrite (sw_current _ _ _ _ _ _ _ _ Hsw).
    by apply (switched_runnable s1 c x t zs rest r r').
  - rewrite length_app. cbn. lia.
  - unfold state_of in Hz. destruct (tasks s1 !! c) as [u |] eqn:Hu; [| done]. injection Hz as Hz.
    rewrite (switched_state _ _ _ _ _ _ _ _ c u Hsw Hcz Hu), decide_True by done. f_equal. by apply state_demote.
  - by rewrite (switched_resources _ _ _ _ _ _ _ _ c Hsw Hcz).
Qed.

End Properties.
