(* ===== verification/TaskSwitch.v ===== *)
(** * Tasks: stacks, time slices and queries

    The register switch, the first switch to a new task, the accounting of
    [task_tick], the snapshot, and the properties of the task component with
    their witnesses. *)

From S2P Require Import Prelude Memory Interfaces Cpu Task TaskRing TaskSpec TaskSched TaskCreate TaskProps.

(** ** The switch *)

(** The four words [context_switch] pushes. *)
Definition saved_words (r : regs) : list Z := [r_ebp r; r_ebx r; r_esi r; r_edi r].

Definition regs_u32 (r : regs) : Prop :=
  is_u32 (r_ebp r) /\ is_u32 (r_ebx r) /\ is_u32 (r_esi r) /\ is_u32 (r_edi r).

Lemma context_switch_eq m r new :
  16 <= r_esp r < 2 ^ 32 -> 0 <= new -> new + 20 < 2 ^ 32 ->
  context_switch m r new =
    let m' := snd (push_all (r_esp r) m (saved_words r)) in
    (r_esp r - 16, m', Regs (new + 20) (load32 m' (new + 12)) (load32 m' (new + 8))
      (load32 m' (new + 4)) (load32 m' new) (load32 m' (new + 16))).
Proof.
  intros Hr Hn Hn'. unfold context_switch.
  change (push32 (push32 (push32 (push32 (r_esp r, m) (r_ebp r)) (r_ebx r)) (r_esi r)) (r_edi r))
    with (push_all (r_esp r) m (saved_words r)).
  destruct (push_all_spec (saved_words r) (r_esp r) m) as (Hsp & _); [cbn; lia |].
  destruct (push_all _ _ _) as [sp m']. cbn [fst snd] in *. rewrite Hsp, !u32_small by lia. done.
Qed.

(** Words outside the frame a switch writes. *)
Lemma switch_mem_out m r x :
  16 <= r_esp r < 2 ^ 32 -> x + 4 <= r_esp r - 16 \/ r_esp r <= x ->
  load32 (snd (push_all (r_esp r) m (saved_words r))) x = load32 m x.
Proof.
  intros Hr Hx. apply load32_frame. intros y Hy.
  destruct (push_all_spec (saved_words r) (r_esp r) m) as (_ & _ & Ho); [cbn; lia |].
  apply Ho. cbn. lia.
Qed.

Lemma switch_mem_in m r i w :
  16 <= r_esp r < 2 ^ 32 -> saved_words r !! i = Some w ->
  load32 (snd (push_all (r_esp r) m (saved_words r))) (r_esp r - 4 * (Z.of_nat i + 1)) = u32 w.
Proof.
  intros Hr Hi. destruct (push_all_spec (saved_words r) (r_esp r) m) as (_ & Hl & _); [cbn; lia |].
  by apply Hl.
Qed.

(** ** The stack of a new task *)

(** [m'] agrees with [m] on the stack at [stack]. *)
Definition same_stack (m m' : mem) (stack : Z) : Prop :=
  forall x, stack <= x < stack + TASK_STACK_SIZE -> load8 m' x = load8 m x.

Lemma first_switch m0 m r stack ws i w :
  0 < stack -> stack + TASK_STACK_SIZE < 2 ^ 32 -> Z.of_nat (length ws) <= 16 ->
  16 <= r_esp r < 2 ^ 32 -> r_esp r <= stack \/ stack + TASK_STACK_SIZE <= r_esp r - 16 ->
  same_stack (snd (push_all (stack + TASK_STACK_SIZE) m0 ws)) m stack -> ws !! i = Some w -> is_u32 w ->
  load32 (snd (push_all (r_esp r) m (saved_words r))) (stack + TASK_STACK_SIZE - 4 * (Z.of_nat i + 1)) = w.
Proof.
  intros Hs Htop Hlen Hr Hdis Hsame Hi Hw. pose proof (lookup_lt_Some _ _ _ Hi).
  unfold TASK_STACK_SIZE in *. rewrite switch_mem_out by lia.
  rewrite (load32_frame (snd (push_all (stack + 0x4000) m0 ws))).
  - destruct (push_all_spec ws (stack + 0x4000) m0) as (_ & Hl & _); [lia |].
    rewrite (Hl i w Hi). by apply u32_small.
  - intros x Hx. apply Hsame. unfold TASK_STACK_SIZE. lia.
Qed.

(** The first switch to a stack that holds the words [pre], a return address
    and a frame of zeros: the processor continues at that address, with [pre]
    on the stack. *)
Lemma first_switch_regs m0 m r stack pre ret :
  let ws := pre ++ [ret; 0; 0; 0; 0] in
  let top := stack + TASK_STACK_SIZE in
  0 < stack -> top < 2 ^ 32 -> (length pre <= 8)%nat -> Forall is_u32 pre -> is_u32 ret ->
  16 <= r_esp r < 2 ^ 32 -> r_esp r <= stack \/ top <= r_esp r - 16 ->
  same_stack (snd (push_all top m0 ws)) m stack ->
  exists old m', context_switch m r (top - 4 * Z.of_nat (length ws)) =
      (old, m', Regs (top - 4 * Z.of_nat (length pre)) 0 0 0 0 ret) /\
    forall i w, pre !! i = Some w -> load32 m' (top - 4 * (Z.of_nat i + 1)) = w.
Proof.
  intros ws top Hs Htop Hlen Hpre Hret Hr Hdis Hsame.
  assert (length ws = (length pre + 5)%nat) as Ews by (unfold ws; by rewrite length_app).
  unfold top, TASK_STACK_SIZE in *. rewrite context_switch_eq by lia. cbv zeta.
  set (m' := snd (push_all (r_esp r) m (saved_words r))).
  assert (forall i w, ws !! i = Some w -> is_u32 w ->
    load32 m' (stack + 0x4000 - 4 * (Z.of_nat i + 1)) = w) as Hw.
  { intros i w Hi Hw. apply (first_switch m0 m r stack ws i w); unfold TASK_STACK_SIZE; (done || lia). }
  assert (forall j w, [ret; 0; 0; 0; 0] !! j = Some w -> is_u32 w ->
    load32 m' (stack + 0x4000 - 4 * (Z.of_nat (length pre + j) + 1)) = w) as Hf.
  { intros j w Hj. apply Hw. unfold ws. rewrite lookup_app_r by lia.
    by replace (length pre + j - length pre)%nat with j by lia. }
  pose proof (Hf 0%nat ret eq_refl Hret) as E0.
  pose proof (Hf 1%nat 0 eq_refl ltac:(done)) as E1. pose proof (Hf 2%nat 0 eq_refl ltac:(done)) as E2.
  pose proof (Hf 3%nat 0 eq_refl ltac:(done)) as E3. pose proof (Hf 4%nat 0 eq_refl ltac:(done)) as E4.
  eexists _, m'. split; [| intros i w Hi; apply Hw; [unfold ws; by rewrite lookup_app_l by (by eapply lookup_lt_Some) |]].
  - set (sp := stack + 0x4000 - 4 * Z.of_nat (length ws)).
    assert (load32 m' (sp + 16) = ret) as -> by (etransitivity; [| exact E0]; f_equal; lia).
    assert (load32 m' (sp + 12) = 0) as -> by (etransitivity; [| exact E1]; f_equal; lia).
    assert (load32 m' (sp + 8) = 0) as -> by (etransitivity; [| exact E2]; f_equal; lia).
    assert (load32 m' (sp + 4) = 0) as -> by (etransitivity; [| exact E3]; f_equal; lia).
    assert (load32 m' sp = 0) as -> by (etransitivity; [| exact E4]; f_equal; lia).
    do 2 f_equal. lia.
  - by apply (proj1 (Forall_lookup _ _) Hpre i).
Qed.

Section Tasks.
  Context {M : Type} `{ProcessMemoryLaws M} `{TaskCode}.
  Implicit Types s : sched M.

(** ** Time slices *)

Lemma ticks_ok n s l t :
  sched_ok s l -> tasks s !! g_current s = Some t -> 0 <= slice_left t ->
  exists s', run (replicate n Tick) s = Ret s' /\ sched_ok s' l /\ g_current s' = g_current s /\
    slice_left <$> tasks s' !! g_current s = Some (Z.max 0 (slice_left t - Z.of_nat n)) /\
    (ticks_run <$> tasks s' !! g_current s = Some (ticks_run t) \/ n ≠ O) /\
    queue s' l = queue s l /\
    (slice_left t ≠ 0 -> g_need_resched s' = g_need_resched s || (slice_left t <=? Z.of_nat n)).
Proof.
  revert s t. induction n as [|n IH]; intros s t Hok Ht Hsl; cbn [replicate run].
  - exists s. rewrite Ht. cbn. split_and!; try done; [f_equal; lia | by left |].
    intros Hne. rewrite (proj2 (Z.leb_gt _ _)) by lia. by rewrite orb_false_r.
  - destruct (tick_ok s l Hok) as (s1 & t' & E & Hok1 & Hq1 & Ht' & Hc1 & Hsl1 & Htk1 & _ & Hn1 & _).
    rewrite Ht in Ht'. injection Ht' as <-. cbn [exec]. rewrite E. cbn [obind].
    destruct (tasks s1 !! g_current s) as [t1 |] eqn:Ht1; [| done]. injection Hsl1 as Hsl1.
    assert (slice_left t1 = Z.max 0 (slice_left t - 1)) as Esl.
    { rewrite Hsl1. destruct (Z.ltb_spec 0 (slice_left t)); lia. }
    destruct (IH s1 t1 Hok1) as (s2 & E2 & Hok2 & Hc2 & Hsl2 & _ & Hq2 & Hn2); [by rewrite Hc1 | lia |].
    rewrite Hc1 in Hc2, Hsl2. exists s2. split_and!; try done; try congruence.
    + rewrite Hsl2. f_equal. lia.
    + by right.
    + intros Hne. destruct (decide (slice_left t = 1)) as [E1 | E1].
      * rewrite E1 in *. assert (g_need_resched s1 = true) as Hs1 by (rewrite Hn1; apply orb_true_r).
        assert (slice_left t1 = 0) as Ez by lia.
        assert (forall k v lv tv, sched_ok v lv -> g_need_resched v = true ->
          tasks v !! g_current v = Some tv -> slice_left tv = 0 ->
          exists v', run (replicate k Tick) v = Ret v' /\ g_need_resched v' = true) as Hkeep.
        { clear -H0. induction k as [|k IH]; intros v lv tv Hv Hn Htv Hz; cbn [replicate run].
          { by exists v. }
          destruct (tick_ok v lv Hv) as (v1 & u & E & Hv1 & _ & Hu & Hcv & Hsv & _ & _ & Hnv & _).
          rewrite Htv in Hu. injection Hu as <-. cbn [exec]. rewrite E. cbn [obind].
          destruct (tasks v1 !! g_current v) as [tv1 |] eqn:Etv; [| done]. injection Hsv as Hsv.
          apply (IH v1 lv tv1); [done | by rewrite Hnv, Hn | by rewrite Hcv | by rewrite Hsv, Hz]. }
        destruct (Hkeep n s1 l t1 Hok1 Hs1) as (v & Ev & Hv); [by rewrite Hc1 | done |].
        rewrite E2 in Ev. injection Ev as <-. rewrite Hv. symmetry.
        rewrite (proj2 (Z.leb_le _ _)) by lia. apply orb_true_r.
      * rewrite Hn2 by lia. rewrite Hn1, (proj2 (Z.leb_gt (slice_left t) 1)), orb_false_r by lia.
        f_equal. apply eq_true_iff_eq. rewrite !Z.leb_le. lia.
Qed.

(** ** The snapshot *)

Definition info_of s (p : Z) : task_info :=
  match tasks s !! p with
  | Some d => TaskInfo (id d) (name d) (state d) (ticks_run d) (p =? g_current s)
  | None => TaskInfo 0 [] TASK_ZOMBIE 0 false
  end.

Lemma ring_next_mid tk l0 p l : ring tk (l0 ++ p :: l) -> nxt tk p = head (l ++ l0 ++ [p]).
Proof.
  intros Hr. assert (ring tk (l ++ l0 ++ [p])) as Hr'.
  { apply (ring_rotate _ (l0 ++ [p]) l). by rewrite <- app_assoc. }
  rewrite (app_assoc l) in Hr' |- *. by apply ring_next_last in Hr'.
Qed.

Lemma snapshot_loop_ok fuel s max l0 p l :
  ring (tasks s) (l0 ++ p :: l) -> NoDup (l0 ++ p :: l) -> head (l0 ++ [p]) = Some (g_current s) ->
  (length l < fuel)%nat -> (length l0 <= Z.to_nat max)%nat ->
  snapshot_loop fuel s max p (info_of s <$> l0) = Ret (take (Z.to_nat max) (info_of s <$> l0 ++ p :: l)).
Proof.
  revert fuel l0 p. induction l as [|q l IH]; intros fuel l0 p Hr Hn Hc Hf Hmax;
    (destruct fuel as [|fuel]; [cbn in Hf; lia |]); cbn [snapshot_loop]; rewrite length_fmap;
    (destruct (Z.leb_spec max (Z.of_nat (length l0))) as [Hle | Hgt];
      [rewrite fmap_app, take_app_length' by (rewrite length_fmap; lia); done |]).
  all: destruct (ring_dom _ _ p Hr) as [d Hd]; [apply elem_of_app; right; apply list_elem_of_here |].
  all: rewrite (get_some s p d) by done; cbn [obind]; pose proof (ring_next_mid _ _ _ _ Hr) as Hnx;
    unfold nxt in Hnx; rewrite Hd in Hnx.
  all: assert ((info_of s <$> l0) ++ [TaskInfo (id d) (name d) (state d) (ticks_run d) (p =? g_current s)] =
    info_of s <$> l0 ++ [p]) as -> by (rewrite fmap_app; cbn; unfold info_of; by rewrite Hd).
  - rewrite app_nil_l, Hc in Hnx. injection Hnx as ->. rewrite Z.eqb_refl.
    rewrite take_ge; [done |]. rewrite length_fmap, length_app. cbn. lia.
  - injection Hnx as ->.
    assert (q ≠ g_current s) as Hq.
    { intros ->. apply head_Some_elem_of in Hc. 
      replace (l0 ++ p :: g_current s :: l) with ((l0 ++ [p]) ++ g_current s :: l) in Hn by (by rewrite <- app_assoc).
      apply NoDup_app in Hn as (_ & Hd' & _). apply (Hd' _ Hc), list_elem_of_here. }
    rewrite (proj2 (Z.eqb_neq _ _)) by done.
    replace (l0 ++ p :: q :: l) with ((l0 ++ [p]) ++ q :: l) in * by (by rewrite <- app_assoc).
    apply IH; try done.
    + destruct l0; done.
    + cbn in Hf. lia.
    + rewrite length_app. cbn. lia.
Qed.

Lemma new_task_lookup s c l t d s' :
  created s t d s' -> ring_ok s' (c :: t :: l) ->
  exists d', tasks s' !! t = Some d' /\ d' = set_next (next d') d.
Proof.
  intros Hc Hr'.
  destruct (ring_dom _ _ t (ro_ring _ _ Hr')) as [d' Hd]; [apply list_elem_of_further, list_elem_of_here |].
  destruct (same_tasks_some _ _ _ _ (cr_tasks _ _ _ _ Hc) Hd) as (d0 & Hd0 & Ed).
  rewrite lookup_insert_eq in Hd0. injection Hd0 as <-. eauto.
Qed.

(** ** Properties *)

(** C1 No sequence of task operations faults.  After [tasking_init], whatever
    tasks are created, run, preempted, put to sleep or ended, and whatever
    else uses the heap in between, every call returns and the scheduler's
    invariant holds -- no structure is used after it was freed, no block is
    freed twice, no loop over the ring runs on, an exited task is never
    resumed -- unless the last runnable task exits, which halts. *)
Theorem tasks_never_fault s0 s (es : list event) :
  before_init s0 -> tasking_init s0 = Ret s -> allowed_run es s ->
  (exists s' l, run es s = Ret s' /\ sched_ok s' l) \/ run es s = Halt NoRunnable.
Proof.
  intros Hb Hi Hal. destruct (init_ok s0 Hb) as [(s1 & b & E & Hok) | E]; rewrite Hi in E; [| done].
  injection E as <-. clear Hb Hi. revert s b Hal Hok.
  assert (forall es s l, allowed_run es s -> sched_ok s l ->
    (exists s' l, run es s = Ret s' /\ sched_ok s' l) \/ run es s = Halt NoRunnable) as Hgen.
  { clear es. induction es as [|e es IH]; intros s l Hal Hok; cbn [run allowed_run] in *; [left; eauto |].
    destruct Hal as [Ha Hal]. destruct (exec_refines s l e Hok Ha) as [(s' & l' & E & Hok' & _) | (r & -> & _ & E)];
      rewrite E; cbn [obind]; [by apply (IH s' l'); [apply Hal |] | by right]. }
  intros s b. by apply Hgen.
Qed.

(** C8 The scheduler implements round robin.  Read the ring from the current
    task on and leave out the exited ones: that queue changes as the
    reference queue does -- [task_yield] moves the head to the end, an exit
    drops it, a new task goes right behind the head, ticks and heap traffic
    change nothing -- and an exit with nobody else to run is the one event
    that halts. *)
Theorem sched_refines_round_robin s l (e : event) :
  sched_ok s l -> allowed s e ->
  (exists s' l', exec e s = Ret s' /\ sched_ok s' l' /\ round_robin (queue s l) e (queue s' l')) \/
  (exists r, e = Exit r /\ queue s l = [g_current s] /\ exec e s = Halt NoRunnable).
Proof. apply exec_refines. Qed.

(** C15 Every task that can run gets the processor: the [k]-th runnable task
    behind the current one is the running task after exactly [k + 1] calls of
    [task_yield] or [task_exit], by whichever task is running each time. *)
Theorem sched_fair s l (k : nat) t (es : list event) :
  sched_ok s l -> runnable s (tail l) !! k = Some t ->
  length es = S k -> Forall gives_up es ->
  exists s', run es s = Ret s' /\ g_current s' = t /\ state_of s' t = Some TASK_RUNNING.
Proof. apply fair_run. Qed.

(** C18 An exited task is reclaimed: when the current task exits and others
    can run, then after as many further yields as there were other tasks its
    structure, its stacks and its ELF image have been given back, each
    exactly once. *)
Theorem exited_task_reclaimed s c l (r : regs) (es : list event) :
  sched_ok s (c :: l) -> runnable s l ≠ [] ->
  length es = length l -> Forall (fun e => exists r, e = Yield r) es ->
  exists s', run (Exit r :: es) s = Ret s' /\ tasks s' !! c = None /\
    forall x, x ∈ resources_of s c ->
      proc_blocks (pool s') !! x = None /\ proc_images (pool s') !! x = None.
Proof.
  intros Hok Hne Hlen Hes.
  destruct (exit_last r s c l Hok Hne) as (r' & s1 & x & rest & E & Hok1 & Hlt & Hz & Hres).
  cbn [run exec]. rewrite E. cbn [obind].
  destruct (reclaim_run es s1 (x :: rest ++ [c]) c (length rest) Hok1) as (s2 & l2 & E2 & _ & Ht & Hr); try done.
  - cbn [tail]. rewrite lookup_app_r, Nat.sub_diag by lia. done.
  - lia.
  - exists s2. split; [done |]. split; [done |]. by rewrite <- Hres.
Qed.

(** C22 Switching away and back resumes the task where it was: the second
    [context_switch], given the stack pointer the first one saved, returns to
    the first call's return address with the stack and all callee-saved
    registers as they were, provided nobody wrote to the saved frame. *)
Theorem context_switch_roundtrip (m m2 : mem) (r r2 : regs) (new : Z) :
  regs_u32 r -> 16 <= r_esp r -> r_esp r + 4 < 2 ^ 32 -> 0 <= new -> new + 20 < 2 ^ 32 ->
  16 <= r_esp r2 < 2 ^ 32 -> r_esp r2 <= r_esp r - 16 \/ r_esp r + 4 <= r_esp r2 - 16 ->
  let '(old, m1, _) := context_switch m r new in
  (forall x, r_esp r - 16 <= x < r_esp r + 4 -> load8 m2 x = load8 m1 x) ->
  let '(_, _, r') := context_switch m2 r2 old in
  r' = Regs (r_esp r + 4) (r_ebp r) (r_ebx r) (r_esi r) (r_edi r) (load32 m (r_esp r)).
Proof.
  intros (Hbp & Hbx & Hsi & Hdi) Hr Hr4 Hn Hn' Hr2 Hdis. rewrite context_switch_eq by lia. cbv zeta.
  intros Hsame. rewrite context_switch_eq by lia. cbv zeta.
  assert (forall x, r_esp r - 16 <= x <= r_esp r ->
    load32 (snd (push_all (r_esp r2) m2 (saved_words r2))) x =
    load32 (snd (push_all (r_esp r) m (saved_words r))) x) as Hw.
  { intros x Hx. rewrite switch_mem_out by lia. apply load32_frame. intros y Hy. apply Hsame. lia. }
  rewrite !Hw by lia.
  pose proof (switch_mem_in m r 0 (r_ebp r) ltac:(lia) eq_refl) as E0.
  pose proof (switch_mem_in m r 1 (r_ebx r) ltac:(lia) eq_refl) as E1.
  pose proof (switch_mem_in m r 2 (r_esi r) ltac:(lia) eq_refl) as E2.
  pose proof (switch_mem_in m r 3 (r_edi r) ltac:(lia) eq_refl) as E3.
  change (Z.of_nat 0) with 0 in E0. change (Z.of_nat 1) with 1 in E1.
  change (Z.of_nat 2) with 2 in E2. change (Z.of_nat 3) with 3 in E3.
  replace (r_esp r - 16 + 12) with (r_esp r - 4 * (0 + 1)) by lia.
  replace (r_esp r - 16 + 8) with (r_esp r - 4 * (1 + 1)) by lia.
  replace (r_esp r - 16 + 4) with (r_esp r - 4 * (2 + 1)) by lia.
  replace (load32 (snd (push_all (r_esp r) m (saved_words r))) (r_esp r - 16)) with
    (load32 (snd (push_all (r_esp r) m (saved_words r))) (r_esp r - 4 * (3 + 1))) by (f_equal; lia).
  rewrite E0, E1, E2, E3, !u32_small by done.
  replace (r_esp r - 16 + 16) with (r_esp r) by lia. rewrite switch_mem_out by lia.
  f_equal; lia.
Qed.

(** [task_create] either returns 0 and changes nothing but the heap, where
    the same blocks are held as before, or it returns a new READY task queued
    behind the current one, with the next id, a fresh structure and a fresh
    16 KB stack; and the first switch to it, from anywhere outside that
    stack, enters the start trampoline with [entry] on top of the stack and
    zero in the callee-saved registers. *)
Theorem task_create_spec s c l (nm : list Z) (entry : Z) :
  sched_ok s (c :: l) -> is_u32 entry -> is_u32 task_start_trampoline ->
  exists t s', task_create s nm entry = Ret (t, s') /\
   ((t = 0 /\ exists m', s' = with_pool s m' /\ same_pool (pool s) m') \/
    (0 < t /\ sched_ok s' (c :: t :: l) /\ proc_blocks (pool s) !! t = None /\
     exists d stack, tasks s' !! t = Some d /\ id d = g_next_id s /\ state d = TASK_READY /\
       name d = str_copy_n nm TASK_NAME_LEN /\ slice_left d = TASK_TIME_SLICE /\
       proc_blocks (pool s) !! stack = None /\ kernel_stack_top d = stack + TASK_STACK_SIZE /\
       proc_blocks (pool s') = <[stack := TASK_STACK_SIZE]> (<[t := TASK_SIZE]> (proc_blocks (pool s))) /\
       forall m r, same_stack (kmem s') m stack -> 16 <= r_esp r < 2 ^ 32 ->
         r_esp r <= stack \/ stack + TASK_STACK_SIZE <= r_esp r - 16 ->
         let '(_, m', r') := context_switch m r (esp d) in
         r' = Regs (stack + TASK_STACK_SIZE - 4) 0 0 0 0 task_start_trampoline /\
         load32 m' (stack + TASK_STACK_SIZE - 4) = entry)).
Proof.
  intros Hok He Htr. destruct (create_cases s c l nm entry (sk_ring _ _ Hok)) as
    (t & s' & E & [(-> & Hf) | (Ht & stack & Hc & Hr' & Hbt & Hbs & _ & Hst & Htop & Hbl & Hkm)]);
    eexists _, s'; (split; [exact E |]); [by left | right].
  destruct (created_ok _ _ _ _ _ _ Hok Hc eq_refl Hr') as (Hok' & _ & _).
  split; [done |]. split; [done |]. split; [done |].
  destruct (new_task_lookup _ _ _ _ _ _ Hc Hr') as (d & Hd & Ed).
  exists d, stack. split; [done |]. rewrite Ed. cbn [id state name slice_left kernel_stack_top esp set_next kernel_stack].
  split_and!; try done. intros m r Hsame Hr Hdis. rewrite Hkm in Hsame.
  destruct (first_switch_regs (kmem s) m r stack [entry] task_start_trampoline) as (old & m' & Ecs & Hw);
    try done; [cbn; lia | by constructor |].
  change (length ([entry] ++ _)) with (length (thread_words entry)) in Ecs. rewrite Ecs.
  split; [done |]. apply (Hw 0%nat). done.
Qed.

(** C36 [task_create_user] either returns 0 and leaves the scheduler and the
    held blocks as they were, all partial allocations given back, or it
    returns a new READY task with a fresh structure and two fresh stacks; the
    first switch to it enters the ring 3 trampoline with zero in the
    callee-saved registers and, on the stack, the frame [iret] takes: the
    entry point, the user code selector, EFLAGS with interrupts on, the
    16-byte aligned top of the user stack, and the user data selector. *)
Theorem task_create_user_spec s c l (nm : list Z) (entry : Z) :
  sched_ok s (c :: l) -> is_u32 entry -> is_u32 user_iret_trampoline ->
  exists t s', task_create_user s nm entry = Ret (t, s') /\
   ((t = 0 /\ exists m', s' = with_pool s m' /\ same_pool (pool s) m') \/
    (0 < t /\ sched_ok s' (c :: t :: l) /\
     exists d kstack ustack utop, tasks s' !! t = Some d /\ is_user d = 1 /\ state d = TASK_READY /\
       kernel_stack_top d = kstack + TASK_STACK_SIZE /\ NoDup [t; kstack; ustack] /\
       Forall (fun q => proc_blocks (pool s) !! q = None) [t; kstack; ustack] /\
       proc_blocks (pool s') = <[ustack := TASK_STACK_SIZE]> (<[kstack := TASK_STACK_SIZE]>
         (<[t := TASK_SIZE]> (proc_blocks (pool s)))) /\
       utop mod 16 = 0 /\ ustack < utop <= ustack + TASK_STACK_SIZE /\
       forall m r, same_stack (kmem s') m kstack -> 16 <= r_esp r < 2 ^ 32 ->
         r_esp r <= kstack \/ kstack + TASK_STACK_SIZE <= r_esp r - 16 ->
         let '(_, m', r') := context_switch m r (esp d) in
         r' = Regs (kernel_stack_top d - 20) 0 0 0 0 user_iret_trampoline /\
         load32 m' (r_esp r') = entry /\ load32 m' (r_esp r' + 4) = 0x1B /\
         load32 m' (r_esp r' + 8) = 0x202 /\ load32 m' (r_esp r' + 12) = utop /\
         load32 m' (r_esp r' + 16) = 0x23)).
Proof.
  intros Hok He Htr. destruct (create_user_cases s c l nm entry (sk_ring _ _ Hok)) as
    (t & s' & E & [(-> & Hf) | (Ht & k & u & Hc & Hr' & Hnd & Hfr & Hk & Hktop & Hu & Hutop & Hbl & Hkm)]);
    eexists _, s'; (split; [exact E |]); [by left | right].
  destruct (created_ok _ _ _ _ _ _ Hok Hc eq_refl Hr') as (Hok' & _ & _).
  split; [done |]. split; [done |].
  destruct (new_task_lookup _ _ _ _ _ _ Hc Hr') as (d & Hd & Ed).
  set (utop := u + TASK_STACK_SIZE - (u + TASK_STACK_SIZE) mod 16).
  assert (utop mod 16 = 0 /\ u < utop <= u + TASK_STACK_SIZE) as [Hal Hur].
  { unfold utop, TASK_STACK_SIZE. split; zdm. }
  exists d, k, u, utop. split; [done |]. rewrite Ed. cbn [is_user state kernel_stack_top esp set_next kernel_stack].
  split_and!; try done; try lia. intros m r Hsame Hr Hdis. rewrite Hkm in Hsame.
  destruct (first_switch_regs (kmem s) m r k [Gdt.GDT_UDATA_SEL; utop; 0x202; Gdt.GDT_UCODE_SEL; entry]
    user_iret_trampoline) as (old & m' & Ecs & Hw); try done; [cbn; lia | |].
  { repeat constructor; try done; unfold is_u32, TASK_STACK_SIZE in *; lia. }
  change (length ([Gdt.GDT_UDATA_SEL; utop; 0x202; Gdt.GDT_UCODE_SEL; entry] ++ _)) with
    (length (user_words entry u)) in Ecs. rewrite Ecs. cbn [r_esp].
  split; [done |].
  pose proof (Hw 0%nat _ eq_refl) as E0. pose proof (Hw 1%nat _ eq_refl) as E1. pose proof (Hw 2%nat _ eq_refl) as E2.
  pose proof (Hw 3%nat _ eq_refl) as E3. pose proof (Hw 4%nat _ eq_refl) as E4.
  split_and!; (etransitivity; [| first [exact E4 | exact E3 | exact E2 | exact E1 | exact E0]]);
    f_equal; cbn [length Z.of_nat Pos.of_succ_nat Pos.succ]; lia.
Qed.

(** Time slices: while a task runs undisturbed, [n] timer ticks are charged
    to it, change no queue, and request a reschedule exactly when its slice
    is used up -- after [TASK_TIME_SLICE] ticks for a task just switched to. *)
Theorem time_slice s l t (n : nat) :
  sched_ok s l -> tasks s !! g_current s = Some t -> 1 <= slice_left t ->
  exists s', run (replicate n Tick) s = Ret s' /\ sched_ok s' l /\ queue s' l = queue s l /\
    g_need_resched s' = g_need_resched s || (slice_left t <=? Z.of_nat n) /\
    slice_left <$> tasks s' !! g_current s = Some (Z.max 0 (slice_left t - Z.of_nat n)).
Proof.
  intros Hok Ht Hsl. destruct (ticks_ok n s l t Hok Ht) as (s' & E & Hok' & _ & Hs & _ & Hq & Hn); [lia |].
  exists s'. split_and!; try done. apply Hn. lia.
Qed.

Lemma snapshot_ok s l (out max : Z) : sched_ok s l -> 0 < out -> 0 < max ->
  task_list_snapshot s out max = Ret (take (Z.to_nat max) (info_of s <$> l), sti s).
Proof.
  intros Hok Hout Hmax. destruct (sched_ok_head _ _ Hok) as [l' ->].
  pose proof (sk_ring _ _ Hok) as Hr. pose proof (ring_size _ _ (ro_ring _ _ Hr) (ro_nodup _ _ Hr)) as Hsz.
  cbn [length] in Hsz. unfold task_list_snapshot. rewrite (ro_active _ _ Hr), truth_pos, (proj2 (Z.leb_gt max 0)) by lia.
  cbn [negb orb]. cbv zeta. change (g_current (cli s)) with (g_current s).
  pose proof (snapshot_loop_ok (size (tasks (cli s))) (cli s) max [] (g_current s) l') as E.
  cbn [app fmap list_fmap] in E. rewrite E; [done | apply Hr | apply Hr | done | exact Hsz | cbn; lia].
Qed.

(** [task_list_snapshot] into an array of [max] entries writes the tasks of
    the ring in order from the current one, the first [max] of them, with
    their id, name, state and tick count, and changes nothing. *)
Theorem task_snapshot_spec s l (out max : Z) :
  sched_ok s l -> 0 < out -> 0 < max ->
  task_list_snapshot s out max = Ret (take (Z.to_nat max) (info_of s <$> l), sti s) /\
  (length (take (Z.to_nat max) (info_of s <$> l)) = min (Z.to_nat max) (length l))%nat /\
  (forall i p, l !! i = Some p ->
     ti_is_current (info_of s p) = bool_decide (i = O)).
Proof.
  intros Hok Hout Hmax. destruct (sched_ok_head _ _ Hok) as [l' ->].
  pose proof (sk_ring _ _ Hok) as Hr. split; [| split].
  - by apply snapshot_ok.
  - by rewrite length_take, length_fmap.
  - intros i p Hi. unfold info_of.
    destruct (ring_dom _ _ p (ro_ring _ _ Hr)) as [d ->]; [by eapply list_elem_of_lookup_2 |].
    cbn [ti_is_current]. destruct i as [|i].
    + injection Hi as <-. by rewrite Z.eqb_refl, bool_decide_true.
    + rewrite bool_decide_false by done. apply Z.eqb_neq. intros ->.
      pose proof (ro_nodup _ _ Hr) as [Hni _]%NoDup_cons. apply Hni. by eapply list_elem_of_lookup_2.
Qed.

End Tasks.

(** ** Witnesses

    The kernel's own memory manager: the boot address space, the boot heap,
    no images. *)

From S2P Require Import Pmm Kheap Paging PagingExt Elf ElfSpec ElfLoad.

#[local] Existing Instance wit_paging.
#[local] Existing Instance wit_layout.
#[local] Instance wit_code : TaskCode := {| task_start_trampoline := 0x9000; user_iret_trampoline := 0x9100 |}.

Definition zero_tss : Tss.tss_t :=
  Tss.Tss 0 0 0 0 0 0 0 0 0 0 0 0 0 0 0 0 0 0 0 0 0 0 0 0 0 0 0.
Definition wit_tasks (v : vm pmm) : sched (loader pmm held_heap) :=
  Sched ∅ 0 false false 0 false ∅ zero_tss (Loader v (HeldHeap wit_h0 ∅) ∅).
Definition wit_regs : regs := Regs 0x7000 1 2 3 4 0.

Lemma wit_tasks_before : before_init (wit_tasks wit_vm).
Proof. split; [done | done |]. exists wit_vm, ∅. apply wit_loader_inv. Qed.

Lemma wit_init_returns v : match tasking_init (wit_tasks v) with Ret _ => true | _ => false end = true.
Proof. vm_compute. reflexivity. Qed.

Lemma wit_create_returns v :
  match tasking_init (wit_tasks v) with
  | Ret s => match task_create s [97] 0x8000 with Ret (t, _) => 0 <? t | _ => false end
  | _ => false
  end = true.
Proof. vm_compute. reflexivity. Qed.

Lemma wit_started : exists s b, tasking_init (wit_tasks wit_vm) = Ret s /\ sched_ok s [b].
Proof.
  destruct (init_ok _ wit_tasks_before) as [(s & b & E & Hok) | E]; [by exists s, b |].
  pose proof (wit_init_returns wit_vm) as Hr. by rewrite E in Hr.
Qed.

(** The boot task and one more. *)
Lemma wit_two : exists s0 s b t d, tasking_init (wit_tasks wit_vm) = Ret s0 /\ sched_ok s0 [b] /\
  task_create s0 [97] 0x8000 = Ret (t, s) /\ sched_ok s [b; t] /\ queue s [b; t] = [b; t] /\
  tasks s !! b = Some d /\ slice_left d = TASK_TIME_SLICE.
Proof.
  destruct wit_started as (s0 & b & E0 & Hok0). pose proof (wit_create_returns wit_vm) as Hr. rewrite E0 in Hr.
  destruct (create_cases s0 b [] [97] 0x8000 (sk_ring _ _ Hok0)) as
    (t & s & E & [(-> & _) | (Ht & stack & Hc & Hr' & _)]); rewrite E in Hr; [done |].
  destruct (created_ok _ _ _ _ _ _ Hok0 Hc eq_refl Hr') as (Hok & Hq & Hnin).
  assert (exists d0, tasks s0 !! b = Some d0 /\ slice_left d0 = TASK_TIME_SLICE) as (d0 & Hd0 & Hsl).
  { revert E0 Hok0. unfold tasking_init. destruct (proc_malloc _ _) as [[p m] | |]; try done. cbn [obind].
    destruct (negb (truth p)); [done |]. intros [= <-] Hok0.
    pose proof (ro_current _ _ (sk_ring _ _ Hok0)) as Hcur. injection Hcur as ->.
    cbn [tasks with_current with_tasks]. rewrite lookup_insert_eq. eauto. }
  destruct (ring_dom _ _ b (ro_ring _ _ Hr') (list_elem_of_here _ _)) as [d Hd].
  destruct (same_tasks_some _ _ _ _ (cr_tasks _ _ _ _ Hc) Hd) as (d1 & Hd1 & Ed).
  rewrite lookup_insert_ne in Hd1 by (intros ->; apply Hnin, list_elem_of_here).
  rewrite Hd0 in Hd1. injection Hd1 as <-.
  exists s0, s, b, t, d. split_and!; try done. by rewrite Ed.
Qed.

Lemma tasks_never_fault_witness :
  exists s, tasking_init (wit_tasks wit_vm) = Ret s /\
    ((exists s' l, run [Create [97] 0x8000; Yield wit_regs; Tick; Exit wit_regs] s = Ret s' /\ sched_ok s' l) \/
     run [Create [97] 0x8000; Yield wit_regs; Tick; Exit wit_regs] s = Halt NoRunnable).
Proof.
  destruct wit_started as (s & b & E & _). exists s. split; [exact E |].
  apply (tasks_never_fault (wit_tasks wit_vm) s _ wit_tasks_before E). by repeat split.
Defined.

Lemma sched_refines_round_robin_witness :
  exists s s' b t l', sched_ok s [b; t] /\ exec (Yield wit_regs) s = Ret s' /\
    round_robin (M := loader pmm held_heap) [b; t] (Yield wit_regs) (queue s' l').
Proof.
  destruct wit_two as (s0 & s & b & t & d & _ & _ & _ & Hok & Hq & _).
  destruct (sched_refines_round_robin s [b; t] (Yield wit_regs) Hok I) as [(s' & l' & E & _ & Hrr) | (r & Er & _)];
    [| discriminate Er].
  exists s, s', b, t, l'. rewrite Hq in Hrr. split; [exact Hok |]. split; [exact E | exact Hrr].
Defined.

Lemma sched_fair_witness :
  exists s s' b t, sched_ok s [b; t] /\ run [Yield wit_regs] s = Ret s' /\ g_current s' = t.
Proof.
  destruct wit_two as (s0 & s & b & t & d & _ & _ & _ & Hok & Hq & _).
  destruct (sched_fair s [b; t] 0 t [Yield wit_regs] Hok) as (s' & E & Hc & _).
  - injection Hq as _ Hq. cbn [tail]. rewrite Hq. reflexivity.
  - reflexivity.
  - by constructor.
  - exists s, s', b, t. split; [exact Hok |]. split; [exact E | exact Hc].
Defined.

Lemma exited_task_reclaimed_witness :
  exists s s' b t, sched_ok s [b; t] /\ run [Exit wit_regs; Yield wit_regs] s = Ret s' /\ tasks s' !! b = None.
Proof.
  destruct wit_two as (s0 & s & b & t & d & _ & _ & _ & Hok & Hq & _).
  destruct (exited_task_reclaimed s b [t] wit_regs [Yield wit_regs] Hok) as (s' & E & Hn & _).
  - injection Hq as _ Hq. cbn [tail] in Hq. by rewrite Hq.
  - reflexivity.
  - constructor; [by exists wit_regs | constructor].
  - exists s, s', b, t. split; [exact Hok |]. split; [exact E | exact Hn].
Defined.

Lemma context_switch_roundtrip_witness :
  let '(old, m1, _) := context_switch (store32 ∅ 0x7000 0x1234) wit_regs 0x5000 in
  let '(_, _, r') := context_switch m1 (Regs 0x5014 0 0 0 0 0) old in
  r' = Regs 0x7004 1 2 3 4 0x1234.
Proof.
  pose proof (context_switch_roundtrip (store32 ∅ 0x7000 0x1234)
    (snd (fst (context_switch (store32 ∅ 0x7000 0x1234) wit_regs 0x5000))) wit_regs (Regs 0x5014 0 0 0 0 0) 0x5000) as Hrt.
  destruct (context_switch (store32 ∅ 0x7000 0x1234) wit_regs 0x5000) as [[old m1] r1].
  apply Hrt; cbn; (lia || done || by repeat split).
Defined.

Lemma task_create_spec_witness :
  exists s b t s', sched_ok s [b] /\ task_create s [97] 0x8000 = Ret (t, s').
Proof.
  destruct wit_two as (s0 & s & b & t & d & _ & Hok0 & _).
  destruct (task_create_spec s0 b [] [97] 0x8000 Hok0) as (t' & s' & E & _).
  - unfold is_u32. lia.
  - unfold is_u32. cbn. lia.
  - exists s0, b, t', s'. split; [exact Hok0 | exact E].
Defined.

(** There is memory for the task. *)
Lemma wit_create_user_returns v :
  match tasking_init (wit_tasks v) with
  | Ret s => match task_create_user s [97] 0x8000 with Ret (t, _) => 0 <? t | _ => false end
  | _ => false
  end = true.
Proof. vm_compute. reflexivity. Qed.

Lemma task_create_user_spec_witness :
  exists s b t s' d kstack, sched_ok s [b] /\ task_create_user s [97] 0x8000 = Ret (t, s') /\
    sched_ok s' [b; t] /\ tasks s' !! t = Some d /\ is_user d = 1 /\ kernel_stack_top d = kstack + TASK_STACK_SIZE.
Proof.
  destruct wit_two as (s0 & s & b & t & d & E0 & Hok0 & _). pose proof (wit_create_user_returns wit_vm) as Hr. rewrite E0 in Hr.
  destruct (task_create_user_spec s0 b [] [97] 0x8000 Hok0) as (t' & s' & E & Hcase).
  - unfold is_u32. lia.
  - unfold is_u32. cbn. lia.
  - rewrite E in Hr. destruct Hcase as [[Hz _] | (_ & Hok & d' & k & u & utop & Hd & Hu & _ & Hk & _)].
    + rewrite Hz in Hr. discriminate Hr.
    + exists s0, b, t', s', d', k. split; [exact Hok0 |]. split; [exact E |]. split; [exact Hok |].
      split; [exact Hd |]. split; [exact Hu | exact Hk].
Defined.

Lemma time_slice_witness :
  exists s s' b t, sched_ok s [b; t] /\ run (replicate 5 Tick) s = Ret s' /\ g_need_resched s' = true.
Proof.
  destruct wit_two as (s0 & s & b & t & d & _ & _ & _ & Hok & Hq & Hd & Hsl).
  assert (g_current s = b) as Hc by (by injection Hq).
  destruct (time_slice s [b; t] d 5 Hok) as (s' & E & _ & _ & Hn & _).
  - by rewrite Hc.
  - rewrite Hsl. unfold TASK_TIME_SLICE. lia.
  - exists s, s', b, t. split; [exact Hok |]. split; [exact E |]. rewrite Hn, Hsl. apply orb_true_r.
Defined.

Lemma task_snapshot_spec_witness :
  exists s b t, sched_ok s [b; t] /\
    task_list_snapshot s 0x6000 1 = Ret ([info_of s b], sti s).
Proof.
  destruct wit_two as (s0 & s & b & t & d & _ & _ & _ & Hok & _).
  destruct (task_snapshot_spec s [b; t] 0x6000 1 Hok) as (E & _); [lia | lia |].
  exists s, b, t. split; [exact Hok | exact E].
Defined.
