(* ===== verification/TaskLife.v ===== *)
(** * The life of a task

    What a task leaves behind: from the ring in which it waits for its first
    turn to the one in which its structure has been freed, nothing but what
    it owned is given back. *)

From S2P Require Import Prelude Memory Interfaces Cpu Task TaskRing TaskSpec TaskSched TaskCreate TaskProps TaskSwitch.

Section Life.
  Context {M : Type} `{ProcessMemoryLaws M} `{TaskCode}.
  Implicit Types s : sched M.

Definition zombie s (p : Z) : Prop := state_of s p = Some TASK_ZOMBIE.

(** ** One yield *)

(** [s'] is [s] without the exited tasks [zs], and with nothing else given
    back and nobody else exited. *)
Record rid s (zs : list Z) s' : Prop := Rid {
  rd_nodup : NoDup zs;
  rd_zombies : Forall (zombie s) zs;
  rd_pool : gone (pool s) (concat (resources_of s <$> zs)) (pool s');
  rd_gone p : p ∈ zs -> tasks s' !! p = None;
  rd_task p : p ∉ zs -> is_Some (tasks s' !! p) <-> is_Some (tasks s !! p);
  rd_own p : p ∉ zs -> resources_of s' p = resources_of s p;
  rd_state p : p ∉ zs -> zombie s' p -> zombie s p
}.

Lemma set_next_some (o o' : option task) : set_next 0 <$> o = set_next 0 <$> o' -> is_Some o <-> is_Some o'.
Proof. intros E. rewrite <- (fmap_is_Some (set_next 0) o), E. apply fmap_is_Some. Qed.

Lemma reaped_rid s zs s' : reaped s zs s' -> NoDup zs -> Forall (zombie s) zs -> rid s zs s'.
Proof.
  intros Hre Hn Hz. pose proof Hre as [Ht Hg _]. split; try done.
  - intros p Hp. specialize (Ht p). rewrite decide_True in Ht by done. by destruct (tasks s' !! p).
  - intros p Hp. apply set_next_some. rewrite Ht. by rewrite decide_False.
  - intros p Hp. by apply (reaped_resources s zs).
  - intros p Hp. unfold zombie. by rewrite (reaped_state s zs s' p Hre Hp).
Qed.

Lemma switched_rid s c x t zs r r' s' : switched s c x t zs r r' s' -> NoDup zs -> Forall (zombie s) zs -> rid s zs s'.
Proof.
  intros Hsw Hn Hz. pose proof (sw_tasks _ _ _ _ _ _ _ _ Hsw) as Ht. split; try done.
  - apply (sw_pool _ _ _ _ _ _ _ _ Hsw).
  - intros p Hp. specialize (Ht p). rewrite decide_True in Ht by done. by destruct (tasks s' !! p).
  - intros p Hp. specialize (Ht p). rewrite decide_False in Ht by done.
    by destruct (tasks s !! p), (tasks s' !! p).
  - intros p Hp. by apply (switched_resources s c x t zs r r' s').
  - intros p Hp Hs. unfold zombie in *. destruct (tasks s !! p) as [u |] eqn:Hu.
    + rewrite (switched_state s c x t zs r r' s' p u Hsw Hp Hu) in Hs. unfold state_of. rewrite Hu. cbn [fmap option_fmap option_map].
      repeat case_decide; [| done | done]. f_equal. injection Hs as Hs. unfold demote in Hs. by case_bool_decide.
    + unfold state_of in Hs. specialize (Ht p). rewrite decide_False, Hu in Ht by done. by destruct (tasks s' !! p).
Qed.

Lemma yield_rid r s l : sched_ok s l -> exists s' l' zs, exec (Yield r) s = Ret s' /\ sched_ok s' l' /\ rid s zs s'.
Proof.
  intros Hok. destruct (sched_ok_head _ _ Hok) as [l0 ->]. pose proof (sk_ring _ _ Hok) as Hr.
  pose proof (ro_nodup _ _ Hr) as [_ Hn]%NoDup_cons.
  destruct (split_zombies_cases s l0) as [(zs & x & rest & -> & Hs) | Hs].
  - destruct (yield_switch r s _ x rest zs Hr Hs) as (t & r' & s' & _ & E & Hr' & Hsw).
    exists s', (x :: rest ++ [g_current s]), zs. cbn [exec]. rewrite E. split; [done |]. split.
    + split; [done |]. rewrite (sw_current _ _ _ _ _ _ _ _ Hsw). by apply (switched_runnable s (g_current s) x t zs rest r r').
    + apply (switched_rid _ _ _ _ _ _ _ _ Hsw); [by apply NoDup_app in Hn as [? _] | by apply (split_zombies_spec s _ _ _ Hs)].
  - destruct (yield_alone r s _ l0 Hr Hs) as [_ Hy]. pose proof (sk_running _ _ Hok) as Hrun.
    destruct Hy as (s' & E & Hr' & Hre); [by rewrite Hrun |].
    exists s', [g_current s], l0. cbn [exec]. rewrite E. split; [done |].
    pose proof (proj1 (proj2 (split_zombies_spec s _ _ _ Hs))) as Hz.
    assert (g_current s ∉ l0) as Hc by by pose proof (ro_nodup _ _ Hr) as [? _]%NoDup_cons.
    split; [| by destruct (reaped_rid (sti s) l0 s' Hre Hn Hz); split]. split; [done |].
    pose proof (ro_current _ _ Hr') as Hc'. injection Hc' as Hc'. rewrite <- Hc'.
    by rewrite (reaped_state _ _ _ _ Hre).
Qed.

(** ** Until an exited task is gone *)

(** [z] is the only exited task, if it is still there. *)
Definition lone s (z : Z) : Prop := forall p, zombie s p -> p = z.

(** Since [s0] nothing was given back, and [z] still owns [res]; or [z] is
    gone, and exactly [res] was given back. *)
Definition settled s0 (z : Z) (res : list Z) s : Prop :=
  (is_Some (tasks s !! z) /\ gone (pool s0) [] (pool s) /\ resources_of s z = res) \/
  (tasks s !! z = None /\ gone (pool s0) res (pool s)).

Lemma rid_lone s zs s' z : rid s zs s' -> lone s z -> (zs = [] \/ zs = [z]) /\ lone s' z.
Proof.
  intros R Hl. split.
  - destruct zs as [|p zs]; [by left | right]. pose proof (rd_zombies _ _ _ R) as [Hp Hzs]%Forall_cons.
    pose proof (rd_nodup _ _ _ R) as [Hnin Hn]%NoDup_cons. apply Hl in Hp as ->.
    destruct zs as [|q zs]; [done |]. apply Forall_cons in Hzs as [Hq _]. apply Hl in Hq as ->.
    exfalso. apply Hnin, list_elem_of_here.
  - intros p Hp. destruct (decide (p ∈ zs)) as [Hin | Hin].
    + unfold zombie, state_of in Hp. by rewrite (rd_gone _ _ _ R p Hin) in Hp.
    + by apply Hl, (rd_state _ _ _ R).
Qed.

Lemma rid_settled s0 s zs s' z res : rid s zs s' -> lone s z -> settled s0 z res s -> settled s0 z res s'.
Proof.
  intros R Hl Hs. destruct (rid_lone _ _ _ _ R Hl) as [[-> | ->] _].
  - pose proof (rd_pool _ _ _ R) as Hg. cbn [fmap list_fmap concat] in Hg.
    destruct Hs as [(Hz & G & E) | [Hz G]]; [left | right].
    + split_and!; [by apply (rd_task _ _ _ R); [apply not_elem_of_nil |] | exact (gone_app _ [] _ [] _ G Hg) |].
      rewrite (rd_own _ _ _ R); [done | apply not_elem_of_nil].
    + split; [| rewrite <- (app_nil_r res); by eapply gone_app].
      apply eq_None_not_Some. intros Hsome. apply (rd_task _ _ _ R) in Hsome; [| apply not_elem_of_nil].
      rewrite Hz in Hsome. by destruct Hsome.
  - pose proof (proj1 (Forall_singleton _ _) (rd_zombies _ _ _ R)) as Hzz. right. split; [apply (rd_gone _ _ _ R), list_elem_of_here |].
    destruct Hs as [(_ & G & E) | [Hz _]].
    + pose proof (rd_pool _ _ _ R) as Hg. cbn [fmap list_fmap concat] in Hg. rewrite app_nil_r, E in Hg.
      exact (gone_app _ [] _ res _ G Hg).
    + unfold zombie, state_of in Hzz. by rewrite Hz in Hzz.
Qed.

Lemma settled_run es s0 z res s l : sched_ok s l -> lone s z -> settled s0 z res s ->
  Forall (fun e => exists r, e = Yield r) es ->
  exists s' l', run es s = Ret s' /\ sched_ok s' l' /\ settled s0 z res s'.
Proof.
  intros Hok Hl Hs Hes. revert s l Hok Hl Hs. induction Hes as [|e es [r ->] _ IH]; intros s l Hok Hl Hs; cbn [run].
  { by exists s, l. }
  destruct (yield_rid r s l Hok) as (s1 & l1 & zs & -> & Hok1 & R). cbn [obind].
  apply (IH s1 l1 Hok1); [by apply (rid_lone _ _ _ _ R) | by eapply rid_settled].
Qed.

(** The ring has as many members as there are tasks. *)
Lemma ring_length s l : sched_ok s l -> length l = size (tasks s).
Proof.
  intros [Hr _]. rewrite <- size_dom, <- (size_list_to_set (C := gset Z) l) by apply (ro_nodup _ _ Hr). f_equal.
  apply set_eq. intros p. rewrite elem_of_list_to_set, elem_of_dom. split.
  - intros Hp. by apply (ring_dom _ _ p (ro_ring _ _ Hr)).
  - apply (ro_dom _ _ Hr).
Qed.

Lemma rid_size s s' : rid s [] s' -> size (tasks s') = size (tasks s).
Proof.
  intros R. rewrite <- !size_dom. f_equal. apply set_eq. intros p. rewrite !elem_of_dom.
  apply (rd_task _ _ _ R), not_elem_of_nil.
Qed.

(** The task [c] exits, and nobody else had. *)
Lemma exit_settled r s c l : sched_ok s (c :: l) -> runnable s l ≠ [] -> (forall p, ~ zombie s p) ->
  exists r' s' x rest, task_exit r s = Ret (r', s') /\ sched_ok s' (x :: rest ++ [c]) /\ (length rest < length l)%nat /\
    zombie s' c /\ lone s' c /\ settled s c (resources_of s c) s'.
Proof.
  intros Hok Hne Hno. destruct (exit_start r s c l Hok) as (s1 & -> & Hr1 & Hz & Hst & Hres & Hpool & _).
  rewrite <- (exit_runnable s s1 c l (ro_nodup _ _ Hr1) Hst) in Hne.
  destruct (split_zombies_cases s1 l) as [(zs & x & rest & -> & Hs) | Hs];
    [| by rewrite (runnable_split _ _ _ _ Hs) in Hne].
  destruct (yield_switch r s1 c x rest zs Hr1 Hs) as (t & r' & s' & _ & -> & Hr' & Hsw). cbn [obind].
  pose proof (ro_nodup _ _ Hr1) as [Hcl Hn]%NoDup_cons. apply NoDup_app in Hn as (Hn & _ & _).
  pose proof (proj1 (proj2 (split_zombies_spec s1 _ _ _ Hs))) as Hzs.
  assert (lone s1 c) as Hl1.
  { intros p Hp. destruct (decide (p = c)) as [| Hne']; [done |]. unfold zombie in Hp. rewrite Hst in Hp by done. by apply Hno in Hp. }
  pose proof (switched_rid s1 c x t zs r r' s' Hsw Hn Hzs) as R.
  destruct (rid_lone _ _ _ _ R Hl1) as [[-> | ->] Hl2].
  2: { exfalso. apply Hcl, elem_of_app. left. apply list_elem_of_here. }
  assert (is_Some (tasks s1 !! c)) as Hc by (unfold state_of in Hz; by destruct (tasks s1 !! c)).
  exists r', s', x, rest. split; [done |]. split_and!.
  - split; [done |]. rewrite (sw_current _ _ _ _ _ _ _ _ Hsw). by apply (switched_runnable s1 c x t [] rest r r').
  - cbn. lia.
  - unfold zombie. destruct Hc as [u Hu]. unfold state_of in Hz. rewrite Hu in Hz. injection Hz as Hz.
    rewrite (switched_state _ _ _ _ _ _ _ _ c u Hsw (not_elem_of_nil c) Hu), decide_True by done. f_equal. by apply state_demote.
  - done.
  - apply (rid_settled s s1 [] s' c _ R Hl1). left. split; [done |]. rewrite Hpool. split; [| done].
    apply gone_nil. rewrite <- Hpool. apply (tm_ok _ _ (ro_mem _ _ Hr1)).
Qed.

(** A task that waits for its turn behind the current one gets it, exits, and
    is freed: then everything is as it was, less exactly what it owned. *)
Lemma life_ok s c t xs r1 r2 es :
  sched_ok s (c :: t :: xs) -> (forall p, ~ zombie s p) ->
  (length xs < length es)%nat -> Forall (fun e => exists r, e = Yield r) es ->
  exists s' l', run (Yield r1 :: Exit r2 :: es) s = Ret s' /\ sched_ok s' l' /\
    tasks s' !! t = None /\ gone (pool s) (resources_of s t) (pool s').
Proof.
  intros Hok Hno Hlen Hes. cbn [run exec].
  pose proof (yield_step r1 s c (t :: xs) (sk_ring _ _ Hok)) as Hy. unfold runnable at 1 in Hy.
  rewrite filter_cons_True in Hy by apply Hno. destruct Hy as (r' & s1 & l1 & E1 & Hok1 & Hq1).
  destruct (yield_rid r1 s _ Hok) as (s1' & l1' & zs & E1' & _ & R). cbn [exec] in E1'. rewrite E1 in E1'. injection E1' as <-.
  assert (zs = []) as ->.
  { destruct zs as [|p zs]; [done |]. by pose proof (rd_zombies _ _ _ R) as [?%Hno _]%Forall_cons. }
  assert (forall p, ~ zombie s1 p) as Hno1 by (intros p Hp; apply (Hno p), (rd_state _ _ _ R); [apply not_elem_of_nil | done]).
  rewrite E1. cbn [obind].
  destruct (exit_settled r2 s1 t l1 Hok1) as (r3 & s2 & x & rest & E2 & Hok2 & Hrest & Hz & Hlone & Hs2); [| done |].
  { rewrite Hq1. unfold runnable. rewrite filter_cons_True, filter_nil by apply Hno. by intros [_ ?]%app_nil. }
  rewrite E2. cbn [obind].
  assert (length l1 = S (length xs)) as Hl1.
  { pose proof (ring_length _ _ Hok1) as S1. pose proof (ring_length _ _ Hok) as S0. rewrite (rid_size _ _ R) in S1. cbn [length] in *. lia. }
  destruct (reclaim_run es s2 (x :: rest ++ [t]) t (length rest) Hok2) as (s3 & l3 & E3 & Hok3 & Hgone); [| done | lia | done |].
  { cbn [tail]. by rewrite lookup_app_r, Nat.sub_diag by lia. }
  destruct (settled_run es s1 t (resources_of s1 t) s2 _ Hok2 Hlone Hs2 Hes) as (s3' & _ & E3' & _ & Hs3).
  rewrite E3 in E3'. injection E3' as <-. exists s3, l3. split; [done |]. split; [done |].
  destruct Hgone as [Hnone _]. split; [done |]. rewrite <- (rd_own _ _ _ R t) by apply not_elem_of_nil.
  destruct Hs3 as [([? Hs] & _) | [_ G]]; [by rewrite Hnone in Hs |].
  exact (gone_app _ [] _ _ _ (rd_pool _ _ _ R) G).
Qed.

End Life.
