(* ===== verification/Ata.v ===== *)
(** * The ATA driver (src/drivers/ata.c)

    PIO transfers over the I/O ports of the primary IDE bus.  The bus itself
    is hardware: a parameter [AtaBus], with the documented behaviour of a
    drive that works as its laws ([AtaBusLaws]).  The theorem is that the
    driver on such a bus is a block device, the interface the file system
    is written against. *)

From S2P Require Import Prelude Memory Interfaces.

(** ** Definitions *)

Definition ATA_IO_BASE : Z := 0x1F0.
Definition ATA_CTRL_BASE : Z := 0x3F6.
Definition ATA_REG_FEATURES : Z := ATA_IO_BASE + 1.
Definition ATA_REG_SECCOUNT : Z := ATA_IO_BASE + 2.
Definition ATA_REG_LBA0 : Z := ATA_IO_BASE + 3.
Definition ATA_REG_LBA1 : Z := ATA_IO_BASE + 4.
Definition ATA_REG_LBA2 : Z := ATA_IO_BASE + 5.
Definition ATA_REG_HDDEVSEL : Z := ATA_IO_BASE + 6.
Definition ATA_REG_STATUS : Z := ATA_IO_BASE + 7.
Definition ATA_REG_COMMAND : Z := ATA_IO_BASE + 7.

Definition ATA_SR_BSY : Z := 0x80.
Definition ATA_SR_DRQ : Z := 0x08.
Definition ATA_SR_ERR : Z := 0x01.

Definition ATA_CMD_READ_PIO : Z := 0x20.
Definition ATA_CMD_WRITE_PIO : Z := 0x30.
Definition ATA_CMD_CACHE_FLUSH : Z := 0xE7.

(** What a drive is doing: nothing, or a transfer of [left] sectors from or
    to [lba]. *)
Inductive phase : Type :=
  | Idle
  | PioIn (drv lba left : Z)
  | PioOut (drv lba left : Z).

(** The bus: port accesses, the data port in blocks of 256 words, and the
    observers the laws speak about. *)
Class AtaBus (B : Type) : Type := {
  outb : B -> Z -> Z -> B;
  inb : B -> Z -> Z * B;
  insw256 : B -> mem -> Z -> mem * B;     (* buffer and offset *)
  outsw256 : B -> mem -> Z -> B;
  reg : B -> Z -> Z;                      (* the last value written to a port *)
  bus_phase : B -> phase;
  busy : B -> nat;                        (* status reads until BSY clears *)
  poll_bound : nat;
  drive_bytes : B -> Z -> mem;
  drive_sectors : B -> Z -> Z
}.

Section Driver.
  Context {B : Type} `{AtaBus B}.

Fixpoint io_wait_loop (n : nat) (d : B) : B :=
  match n with
  | O => d
  | S n' => io_wait_loop n' (snd (inb d ATA_CTRL_BASE))
  end.

Definition ata_io_wait (d : B) : B := io_wait_loop 4 d.

Fixpoint poll_loop (fuel : nat) (d : B) : outcome (Z * B) :=
  match fuel with
  | O => OutOfFuel
  | S fuel' =>
      let '(s, d) := inb d ATA_REG_STATUS in
      if truth (Z.land s ATA_SR_ERR) then Ret (-1, d)
      else if negb (truth (Z.land s ATA_SR_BSY)) && truth (Z.land s ATA_SR_DRQ) then Ret (0, d)
      else poll_loop fuel' d
  end.

(** One read per tick of [busy], and one to see the flag clear. *)
Definition poll_fuel : nat := S poll_bound.

Definition ata_poll_data_ready (d : B) : outcome (Z * B) :=
  poll_loop poll_fuel (ata_io_wait d).

(** [while (inb(ATA_REG_STATUS) & ATA_SR_BSY) {}]. *)
Fixpoint wait_not_busy (fuel : nat) (d : B) : outcome B :=
  match fuel with
  | O => OutOfFuel
  | S fuel' =>
      let '(s, d) := inb d ATA_REG_STATUS in
      if truth (Z.land s ATA_SR_BSY) then wait_not_busy fuel' d else Ret d
  end.

Definition ata_init (d : B) : B := outb d ATA_CTRL_BASE 0x02.

(** Drive select, sector count, address, command: the part [ata_read] and
    [ata_write] share. *)
Definition issue (d : B) (drive lba count cmd : Z) : outcome B :=
  let d := outb d ATA_REG_HDDEVSEL
             (Z.lor (Z.lor 0xE0 (Z.shiftl (Z.land drive 1) 4)) (Z.land (Z.shiftr lba 24) 0x0F)) in
  let d := ata_io_wait d in
  do! d := wait_not_busy poll_fuel d in
  let d := outb d ATA_REG_FEATURES 0 in
  let d := outb d ATA_REG_SECCOUNT count in
  let d := outb d ATA_REG_LBA0 (Z.land lba 0xFF) in
  let d := outb d ATA_REG_LBA1 (Z.land (Z.shiftr lba 8) 0xFF) in
  let d := outb d ATA_REG_LBA2 (Z.land (Z.shiftr lba 16) 0xFF) in
  Ret (outb d ATA_REG_COMMAND cmd).

(** The sector loops; [n] sectors are left, [p] is the offset in the buffer. *)
Fixpoint read_sectors (n : nat) (d : B) (buf : mem) (p : Z) : outcome (Z * mem * B) :=
  match n with
  | O => Ret (0, buf, d)
  | S n' =>
      do! (r, d) := ata_poll_data_ready d in
      if r <? 0 then Ret (-1, buf, d)
      else
        let '(buf, d) := insw256 d buf p in
        read_sectors n' d buf (p + 512)
  end.

Fixpoint write_sectors (n : nat) (d : B) (buf : mem) (p : Z) : outcome (Z * B) :=
  match n with
  | O => Ret (0, d)
  | S n' =>
      do! (r, d) := ata_poll_data_ready d in
      if r <? 0 then Ret (-1, d)
      else write_sectors n' (outsw256 d buf p) buf (p + 512)
  end.

Definition ata_read_pio (d : B) (drive lba count : Z) (buf : mem) : outcome (Z * mem * B) :=
  if count =? 0 then Ret (0, buf, d)
  else if truth (Z.land lba 0xF0000000) then Ret (-1, buf, d)
  else
    do! d := issue d drive lba count ATA_CMD_READ_PIO in
    read_sectors (Z.to_nat count) d buf 0.

Definition ata_write_pio (d : B) (drive lba count : Z) (buf : mem) : outcome (Z * B) :=
  if count =? 0 then Ret (0, d)
  else if truth (Z.land lba 0xF0000000) then Ret (-1, d)
  else
    do! d := issue d drive lba count ATA_CMD_WRITE_PIO in
    do! (r, d) := write_sectors (Z.to_nat count) d buf 0 in
    if r <? 0 then Ret (-1, d)
    else
      let d := outb d ATA_REG_COMMAND ATA_CMD_CACHE_FLUSH in
      let d := ata_io_wait d in
      do! d := wait_not_busy poll_fuel d in
      Ret (0, d).

End Driver.

(** ** What a working drive does

    The task file registers hold what was last written to them; a status read
    shows BSY until the drive is done, then DRQ when a transfer is under way,
    and never ERR; READ and WRITE SECTORS start a transfer at the address in
    the registers; each block through the data port moves one sector. *)

(** The address and drive the task file selects. *)
Definition task_lba {B} `{AtaBus B} (d : B) : Z :=
  reg d ATA_REG_LBA0 + 2 ^ 8 * reg d ATA_REG_LBA1 + 2 ^ 16 * reg d ATA_REG_LBA2
  + 2 ^ 24 * Z.land (reg d ATA_REG_HDDEVSEL) 0x0F.
Definition task_drive {B} `{AtaBus B} (d : B) : Z :=
  Z.land (Z.shiftr (reg d ATA_REG_HDDEVSEL) 4) 1.

Definition same_drives {B} `{AtaBus B} (d d' : B) : Prop :=
  (forall k x, load8 (drive_bytes d' k) x = load8 (drive_bytes d k) x) /\
  (forall k, drive_sectors d' k = drive_sectors d k).

(** The phase after one more sector. *)
Definition next_in (drv lba left : Z) : phase :=
  if left =? 1 then Idle else PioIn drv (lba + 1) (left - 1).
Definition next_out (drv lba left : Z) : phase :=
  if left =? 1 then Idle else PioOut drv (lba + 1) (left - 1).

Class AtaBusLaws (B : Type) `{AtaBus B} : Prop := {
  busy_bound d : (busy d <= poll_bound)%nat;
  sectors_lba28 d k : 0 <= drive_sectors d k <= 2 ^ 28;
  inb_law d p v d' :
    inb d p = (v, d') ->
    reg d' = reg d /\ bus_phase d' = bus_phase d /\ same_drives d d' /\
    (busy d' <= busy d)%nat /\
    (p = ATA_REG_STATUS ->
       truth (Z.land v ATA_SR_ERR) = false /\
       truth (Z.land v ATA_SR_BSY) = negb (busy d =? 0)%nat /\
       (busy d = O -> bus_phase d ≠ Idle -> truth (Z.land v ATA_SR_DRQ) = true) /\
       (busy d ≠ O -> busy d' < busy d)%nat);
  outb_law d p v :
    (forall q, reg (outb d p v) q = if decide (q = p) then v else reg d q) /\
    same_drives d (outb d p v) /\
    (p ≠ ATA_REG_COMMAND -> bus_phase (outb d p v) = bus_phase d);
  command_law d v :
    bus_phase d = Idle ->
    bus_phase (outb d ATA_REG_COMMAND v) =
      let count := if reg d ATA_REG_SECCOUNT =? 0 then 256 else reg d ATA_REG_SECCOUNT in
      if v =? ATA_CMD_READ_PIO then PioIn (task_drive d) (task_lba d) count
      else if v =? ATA_CMD_WRITE_PIO then PioOut (task_drive d) (task_lba d) count
      else Idle;
  insw_law d buf p drv lba left buf' d' :
    bus_phase d = PioIn drv lba left -> busy d = O ->
    insw256 d buf p = (buf', d') ->
    (forall i, load8 buf' i = if decide (p <= i < p + 512)
       then load8 (drive_bytes d drv) (512 * lba + (i - p)) else load8 buf i) /\
    bus_phase d' = next_in drv lba left /\ same_drives d d';
  outsw_law d buf p drv lba left :
    bus_phase d = PioOut drv lba left -> busy d = O ->
    bus_phase (outsw256 d buf p) = next_out drv lba left /\
    (forall k, drive_sectors (outsw256 d buf p) k = drive_sectors d k) /\
    (forall k x, load8 (drive_bytes (outsw256 d buf p) k) x =
       if decide (k = drv /\ 512 * lba <= x < 512 * lba + 512)
       then load8 buf (p + (x - 512 * lba)) else load8 (drive_bytes d k) x)
}.

Section Driver_proofs.
  Context {B : Type} `{AtaBusLaws B}.
  Implicit Types d : B.

Lemma same_drives_refl d : same_drives d d.
Proof. done. Qed.

Lemma same_drives_trans d1 d2 d3 : same_drives d1 d2 -> same_drives d2 d3 -> same_drives d1 d3.
Proof.
  intros [B1 S1] [B2 S2]. split; intros; [by rewrite B2, B1 | by rewrite S2, S1].
Qed.

(** ** Waiting *)

(** A register-preserving step: only [busy] moves. *)
Definition quiet (d d' : B) : Prop :=
  reg d' = reg d /\ bus_phase d' = bus_phase d /\ same_drives d d'.

Lemma quiet_trans d1 d2 d3 : quiet d1 d2 -> quiet d2 d3 -> quiet d1 d3.
Proof.
  intros (R1 & P1 & S1) (R2 & P2 & S2).
  split_and!; [congruence | congruence | by eapply same_drives_trans].
Qed.

Lemma inb_quiet d p : quiet d (snd (inb d p)).
Proof. destruct (inb d p) as [v d'] eqn:E. apply inb_law in E as (? & ? & ? & _). done. Qed.

Lemma io_wait_quiet d : quiet d (ata_io_wait d).
Proof.
  unfold ata_io_wait. simpl.
  eapply quiet_trans; [apply inb_quiet |]. eapply quiet_trans; [apply inb_quiet |].
  eapply quiet_trans; [apply inb_quiet |]. apply inb_quiet.
Qed.

Lemma wait_not_busy_ok fuel d :
  (busy d < fuel)%nat -> exists d', wait_not_busy fuel d = Ret d' /\ quiet d d'.
Proof.
  revert d. induction fuel as [|fuel IH]; intros d Hb; [lia |]. simpl.
  destruct (inb d ATA_REG_STATUS) as [v d1] eqn:E.
  pose proof (inb_quiet d ATA_REG_STATUS) as Hq. rewrite E in Hq. simpl in Hq.
  apply inb_law in E as (_ & _ & _ & _ & Hst). destruct (Hst eq_refl) as (_ & -> & _ & Hdec).
  destruct (Nat.eqb_spec (busy d) 0) as [Hz | Hnz]; simpl; [eauto |].
  destruct (IH d1) as (d' & -> & Hq'); [specialize (Hdec Hnz); lia |].
  exists d'. split; [done | by eapply quiet_trans].
Qed.

Lemma poll_loop_ok fuel d :
  (busy d < fuel)%nat -> bus_phase d ≠ Idle ->
  exists d', poll_loop fuel d = Ret (0, d') /\ quiet d d' /\ busy d' = O.
Proof.
  revert d. induction fuel as [|fuel IH]; intros d Hb Hp; [lia |]. simpl.
  destruct (inb d ATA_REG_STATUS) as [v d1] eqn:E.
  pose proof (inb_quiet d ATA_REG_STATUS) as Hq. rewrite E in Hq. simpl in Hq.
  apply inb_law in E as (_ & _ & _ & Hle & Hst).
  destruct (Hst eq_refl) as (-> & -> & Hdrq & Hdec).
  destruct (Nat.eqb_spec (busy d) 0) as [Hz | Hnz]; simpl.
  - rewrite (Hdrq Hz Hp). exists d1. split_and!; [done .. | lia].
  - destruct (IH d1) as (d' & -> & Hq' & Hz').
    + specialize (Hdec Hnz). lia.
    + destruct Hq as (_ & -> & _). done.
    + exists d'. split_and!; [done | by eapply quiet_trans | done].
Qed.

Lemma poll_ok d :
  bus_phase d ≠ Idle ->
  exists d', ata_poll_data_ready d = Ret (0, d') /\ quiet d d' /\ busy d' = O.
Proof.
  intros Hp. pose proof (io_wait_quiet d) as Hq. unfold ata_poll_data_ready, poll_fuel.
  destruct (poll_loop_ok (S poll_bound) (ata_io_wait d)) as (d' & -> & Hq' & Hz).
  - pose proof (busy_bound (ata_io_wait d)). lia.
  - destruct Hq as (_ & -> & _). done.
  - exists d'. split_and!; [done | by eapply quiet_trans | done].
Qed.

(** ** Issuing a command *)

Lemma devsel_bits drive lba :
  0 <= drive <= 1 -> 0 <= lba < 2 ^ 28 ->
  let v := Z.lor (Z.lor 0xE0 (Z.shiftl (Z.land drive 1) 4)) (Z.land (Z.shiftr lba 24) 0x0F) in
  Z.land v 0x0F = lba / 2 ^ 24 /\ Z.land (Z.shiftr v 4) 1 = drive.
Proof.
  intros Hd Hl v. unfold v.
  assert (Z.land (Z.shiftr lba 24) 0x0F = lba / 2 ^ 24) as ->.
  { rewrite shiftr_div by lia. change 0x0F with (2 ^ 4 - 1). rewrite land_mask by lia. zdm. }
  assert (0 <= lba / 2 ^ 24 < 2 ^ 4) as Hh by zdm. set (h := lba / 2 ^ 24) in *.
  split.
  - rewrite Z.land_lor_distr_l. change 0x0F with (2 ^ 4 - 1).
    rewrite (land_mask h), (Z.mod_small h) by lia.
    assert (drive = 0 \/ drive = 1) as [-> | ->] by lia; reflexivity.
  - rewrite Z.shiftr_lor, (shiftr_div h), (Z.div_small h), Z.lor_0_r by lia.
    assert (drive = 0 \/ drive = 1) as [-> | ->] by lia; reflexivity.
Qed.

Lemma lba_bytes lba :
  0 <= lba < 2 ^ 28 ->
  Z.land lba 0xFF + 2 ^ 8 * Z.land (Z.shiftr lba 8) 0xFF
  + 2 ^ 16 * Z.land (Z.shiftr lba 16) 0xFF + 2 ^ 24 * (lba / 2 ^ 24) = lba.
Proof.
  intros Hl. change 0xFF with (2 ^ 8 - 1). rewrite !land_mask, !shiftr_div by lia. zdm.
Qed.

(** A register write that is not a command. *)
Lemma outb_reg d p v :
  p ≠ ATA_REG_COMMAND ->
  (forall q, reg (outb d p v) q = if decide (q = p) then v else reg d q) /\
  bus_phase (outb d p v) = bus_phase d /\ same_drives d (outb d p v).
Proof. intros Hp. destruct (outb_law d p v) as (? & ? & ?). auto. Qed.

Lemma issue_ok d drive lba count cmd :
  bus_phase d = Idle -> 0 <= drive <= 1 -> 0 <= lba < 2 ^ 28 ->
  cmd = ATA_CMD_READ_PIO \/ cmd = ATA_CMD_WRITE_PIO -> 0 < count < 256 ->
  exists d', issue d drive lba count cmd = Ret d' /\ same_drives d d' /\
    bus_phase d' = if cmd =? ATA_CMD_READ_PIO then PioIn drive lba count
                   else PioOut drive lba count.
Proof.
  intros Hp Hd Hl Hcmd Hc. unfold issue.
  set (v := Z.lor (Z.lor _ _) _).
  destruct (devsel_bits drive lba Hd Hl) as [Hv1 Hv2]. fold v in Hv1, Hv2.
  destruct (outb_reg d ATA_REG_HDDEVSEL v) as (R1 & P1 & S1); [done |].
  set (d1 := outb d ATA_REG_HDDEVSEL v) in *.
  pose proof (io_wait_quiet d1) as (R2 & P2 & S2). set (d2 := ata_io_wait d1) in *.
  destruct (wait_not_busy_ok poll_fuel d2) as (d3 & -> & R3 & P3 & S3).
  { unfold poll_fuel. pose proof (busy_bound d2). lia. }
  cbn [obind].
  destruct (outb_reg d3 ATA_REG_FEATURES 0) as (R4 & P4 & S4); [done |].
  set (d4 := outb d3 _ _) in *.
  destruct (outb_reg d4 ATA_REG_SECCOUNT count) as (R5 & P5 & S5); [done |].
  set (d5 := outb d4 _ _) in *.
  destruct (outb_reg d5 ATA_REG_LBA0 (Z.land lba 0xFF)) as (R6 & P6 & S6); [done |].
  set (d6 := outb d5 _ _) in *.
  destruct (outb_reg d6 ATA_REG_LBA1 (Z.land (Z.shiftr lba 8) 0xFF)) as (R7 & P7 & S7); [done |].
  set (d7 := outb d6 _ _) in *.
  destruct (outb_reg d7 ATA_REG_LBA2 (Z.land (Z.shiftr lba 16) 0xFF)) as (R8 & P8 & S8); [done |].
  set (d8 := outb d7 _ _) in *.
  destruct (outb_law d8 ATA_REG_COMMAND cmd) as (_ & S9 & _).
  eexists. split; [reflexivity |]. split.
  { repeat (eapply same_drives_trans; [eassumption |]). apply same_drives_refl. }
  rewrite command_law by congruence.
  assert (task_lba d8 = lba) as ->.
  { unfold task_lba. rewrite !R8, !R7, !R6, !R5, !R4, !R3, !R2, !R1. simpl.
    rewrite Hv1. by apply lba_bytes. }
  assert (task_drive d8 = drive) as ->.
  { unfold task_drive. rewrite !R8, !R7, !R6, !R5, !R4, !R3, !R2, !R1. exact Hv2. }
  assert (reg d8 ATA_REG_SECCOUNT = count) as ->.
  { rewrite !R8, !R7, !R6, !R5. done. }
  cbv zeta. rewrite (proj2 (Z.eqb_neq count 0)) by lia.
  destruct Hcmd as [-> | ->]; reflexivity.
Qed.

(** ** Transfers *)

Lemma read_sectors_ok n d buf p drv lba left :
  bus_phase d = PioIn drv lba left -> Z.of_nat n = left -> 0 < left ->
  exists buf' d', read_sectors n d buf p = Ret (0, buf', d') /\ bus_phase d' = Idle /\
    same_drives d d' /\
    forall i, load8 buf' i = if decide (p <= i < p + 512 * left)
      then load8 (drive_bytes d drv) (512 * lba + (i - p)) else load8 buf i.
Proof.
  revert d buf p lba left. induction n as [|n IH]; intros d buf p lba left Hp Hn Hl; [lia |].
  cbn [read_sectors]. destruct (poll_ok d) as (d1 & -> & (_ & P1 & S1) & Hz); [congruence |].
  cbn [obind]. change (0 <? 0) with false. cbv iota.
  rewrite Hp in P1. destruct (insw256 d1 buf p) as [buf1 d2] eqn:E.
  apply (insw_law d1 buf p drv lba left) in E as (Hb & P2 & S2); [| done | done].
  unfold next_in in P2. pose proof (same_drives_trans _ _ _ S1 S2) as S12.
  destruct (Z.eqb_spec left 1) as [-> | Hne].
  - assert (n = O) as -> by lia. exists buf1, d2. simpl. split_and!; try done.
    intros i. rewrite Hb. repeat case_decide; try lia. apply S1.
  - destruct (IH d2 buf1 (p + 512) (lba + 1) (left - 1) P2) as (buf2 & d3 & -> & P3 & S3 & Hb3);
      [lia | lia |].
    exists buf2, d3. split_and!; [done | done | by eapply same_drives_trans |].
    intros i. rewrite Hb3, Hb. destruct S12 as [Hsame _], S1 as [Hs1 _].
    repeat case_decide; try lia.
    + rewrite Hsame. f_equal. lia.
    + apply Hs1.
Qed.

Lemma write_sectors_ok n d buf p drv lba left :
  bus_phase d = PioOut drv lba left -> Z.of_nat n = left -> 0 < left ->
  exists d', write_sectors n d buf p = Ret (0, d') /\ bus_phase d' = Idle /\
    (forall k, drive_sectors d' k = drive_sectors d k) /\
    forall k x, load8 (drive_bytes d' k) x =
      if decide (k = drv /\ 512 * lba <= x < 512 * lba + 512 * left)
      then load8 buf (p + (x - 512 * lba)) else load8 (drive_bytes d k) x.
Proof.
  revert d p lba left. induction n as [|n IH]; intros d p lba left Hp Hn Hl; [lia |].
  cbn [write_sectors]. destruct (poll_ok d) as (d1 & -> & (_ & P1 & [Hs1 Hc1]) & Hz); [congruence |].
  cbn [obind]. change (0 <? 0) with false. cbv iota. rewrite Hp in P1.
  destruct (outsw_law d1 buf p drv lba left P1 Hz) as (P2 & Hc2 & Hb2).
  unfold next_out in P2. destruct (Z.eqb_spec left 1) as [-> | Hne].
  - assert (n = O) as -> by lia. eexists. split; [reflexivity |]. split_and!; [done | |].
    + intros k. by rewrite Hc2.
    + intros k x. rewrite Hb2. repeat case_decide; try lia; apply Hs1.
  - destruct (IH (outsw256 d1 buf p) (p + 512) (lba + 1) (left - 1) P2) as (d3 & -> & P3 & Hc3 & Hb3);
      [lia | lia |].
    exists d3. split_and!; [done | done | intros k; by rewrite Hc3, Hc2 |].
    intros k x. rewrite Hb3, Hb2. repeat case_decide; try lia; try apply Hs1.
    f_equal. lia.
Qed.

(** ** The driver is a block device *)

#[export] Instance ata_block_device : BlockDevice B := {
  ata_read := ata_read_pio;
  ata_write := ata_write_pio;
  disk d k := if decide (0 <= k <= 1) then drive_bytes d k else ∅;
  capacity d k := if decide (0 <= k <= 1) then drive_sectors d k else 0;
  dev_ok d := bus_phase d = Idle
}.

Lemma lba28_check lba : 0 <= lba < 2 ^ 28 -> truth (Z.land lba 0xF0000000) = false.
Proof.
  intros Hl. change 0xF0000000 with (2 ^ 32 - 2 ^ 28).
  rewrite land_clear_low by (unfold is_u32; lia). rewrite Z.mod_small by lia.
  by rewrite Z.sub_diag.
Qed.

Lemma ata_device_laws : BlockDeviceLaws B.
Proof.
  split; simpl.
  - intros d k _. case_decide; [apply sectors_lba28 | lia].
  - intros d k lba count buf Hp Hl Hc Hcap. case_decide as Hk; [| lia].
    pose proof (sectors_lba28 d k). unfold ata_read_pio.
    rewrite (proj2 (Z.eqb_neq count 0)), lba28_check by lia.
    destruct (issue_ok d k lba count ATA_CMD_READ_PIO Hp Hk) as (d1 & -> & S1 & P1);
      [lia | by left | lia |].
    cbn [obind]. destruct (read_sectors_ok (Z.to_nat count) d1 buf 0 k lba count P1)
      as (buf' & d' & -> & P2 & S2 & Hb); [lia | lia |].
    destruct S1 as [Hb1 Hc1], S2 as [Hb2 Hc2].
    exists buf', d'. split_and!; [done | done | | |].
    + intros i. rewrite Hb, Hb1, Z.sub_0_r, !Z.add_0_l. done.
    + intros dr. case_decide; [by rewrite Hc2, Hc1 | done].
    + intros dr x. case_decide; [by rewrite Hb2, Hb1 | done].
  - intros d k lba count buf Hp Hl Hc Hcap. case_decide as Hk; [| lia].
    pose proof (sectors_lba28 d k). unfold ata_write_pio.
    rewrite (proj2 (Z.eqb_neq count 0)), lba28_check by lia.
    destruct (issue_ok d k lba count ATA_CMD_WRITE_PIO Hp Hk) as (d1 & -> & [Hb1 Hc1] & P1);
      [lia | by right | lia |].
    cbn [obind]. destruct (write_sectors_ok (Z.to_nat count) d1 buf 0 k lba count P1)
      as (d2 & -> & P2 & Hc2 & Hb2); [lia | lia |].
    cbn [obind]. change (0 <? 0) with false. cbv iota.
    destruct (outb_law d2 ATA_REG_COMMAND ATA_CMD_CACHE_FLUSH) as (_ & [Hb3 Hc3] & _).
    pose proof (command_law d2 ATA_CMD_CACHE_FLUSH P2) as P3. simpl in P3.
    set (d3 := outb d2 _ _) in *.
    pose proof (io_wait_quiet d3) as (_ & P4 & [Hb4 Hc4]). set (d4 := ata_io_wait d3) in *.
    destruct (wait_not_busy_ok poll_fuel d4) as (d5 & -> & _ & P5 & [Hb5 Hc5]).
    { unfold poll_fuel. pose proof (busy_bound d4). lia. }
    exists d5. split_and!; [done | congruence | |].
    + intros dr. case_decide; [| done]. by rewrite Hc5, Hc4, Hc3, Hc2, Hc1.
    + intros dr x. case_decide as Hdr.
      * rewrite Hb5, Hb4, Hb3, Hb2, Hb1. case_decide; [f_equal; lia | done].
      * rewrite decide_False; [done |]. intros [-> _]. done.
Qed.

End Driver_proofs.

(** ** A concrete bus

    Two drives of 4096 sectors that are busy for two status reads after every
    command: it satisfies the laws, and the theorems about the file system
    are evaluated on it. *)

Record ide : Type := Ide {
  ide_bytes : gmap Z mem;
  ide_regs : gmap Z Z;
  ide_phase : phase;
  ide_busy : nat
}.

Definition ide_start (d : ide) (v : Z) : phase :=
  let r p := default 0 (ide_regs d !! p) in
  let lba := r ATA_REG_LBA0 + 2 ^ 8 * r ATA_REG_LBA1 + 2 ^ 16 * r ATA_REG_LBA2
             + 2 ^ 24 * Z.land (r ATA_REG_HDDEVSEL) 0x0F in
  let drv := Z.land (Z.shiftr (r ATA_REG_HDDEVSEL) 4) 1 in
  let count := if r ATA_REG_SECCOUNT =? 0 then 256 else r ATA_REG_SECCOUNT in
  if v =? ATA_CMD_READ_PIO then PioIn drv lba count
  else if v =? ATA_CMD_WRITE_PIO then PioOut drv lba count
  else Idle.

Definition ide_outb (d : ide) (p v : Z) : ide :=
  if decide (p = ATA_REG_COMMAND) then
    Ide (ide_bytes d) (<[p := v]> (ide_regs d))
      (match ide_phase d with Idle => ide_start d v | ph => ph end) 2
  else Ide (ide_bytes d) (<[p := v]> (ide_regs d)) (ide_phase d) (ide_busy d).

Definition ide_inb (d : ide) (p : Z) : Z * ide :=
  if decide (p = ATA_REG_STATUS) then
    match Nat.min (ide_busy d) 2 with
    | O => (match ide_phase d with Idle => 0x40 | _ => 0x48 end, d)
    | S n => (0xC0, Ide (ide_bytes d) (ide_regs d) (ide_phase d) n)
    end
  else (0, d).

Definition copy_sector (src : mem) (a : Z) (dst : mem) (p : Z) : mem :=
  for_range 0 512 (fun m i => store8 m (p + i) (load8 src (a + i))) dst.

Definition ide_insw (d : ide) (buf : mem) (p : Z) : mem * ide :=
  match ide_phase d with
  | PioIn drv lba n =>
      (copy_sector (default ∅ (ide_bytes d !! drv)) (512 * lba) buf p,
       Ide (ide_bytes d) (ide_regs d) (next_in drv lba n) (ide_busy d))
  | _ => (buf, d)
  end.

Definition ide_outsw (d : ide) (buf : mem) (p : Z) : ide :=
  match ide_phase d with
  | PioOut drv lba n =>
      Ide (<[drv := copy_sector buf p (default ∅ (ide_bytes d !! drv)) (512 * lba)]> (ide_bytes d))
        (ide_regs d) (next_out drv lba n) (ide_busy d)
  | _ => d
  end.

#[export] Instance ide_bus : AtaBus ide := {
  outb := ide_outb;
  inb := ide_inb;
  insw256 := ide_insw;
  outsw256 := ide_outsw;
  reg d p := default 0 (ide_regs d !! p);
  bus_phase := ide_phase;
  busy d := Nat.min (ide_busy d) 2;
  poll_bound := 2;
  drive_bytes d k := default ∅ (ide_bytes d !! k);
  drive_sectors _ _ := 4096
}.

Lemma load8_copy_sector src a dst p x :
  load8 (copy_sector src a dst p) x =
  if decide (p <= x < p + 512) then load8 src (a + (x - p)) else load8 dst x.
Proof.
  unfold copy_sector.
  refine (for_range_ind (fun i m => load8 m x =
    if decide (p <= x < p + i) then load8 src (a + (x - p)) else load8 dst x) 0 512 _ _ _ _ _);
    [lia | rewrite decide_False; [done | lia] |].
  intros i m Hi IH. rewrite load8_store8, IH.
  repeat case_decide; try lia. subst. rewrite u8_small by apply load8_range. f_equal. lia.
Qed.

#[export] Instance ide_laws : AtaBusLaws ide.
Proof.
  split; simpl.
  - intros d. lia.
  - lia.
  - intros d p v d' E. unfold ide_inb in E. case_decide as Hp.
    + destruct (Nat.min (ide_busy d) 2) as [|n] eqn:En; injection E as <- <-; simpl;
        (split; [done |]; split; [done |]; split; [done |]; split; [lia |]); intros _.
      * split; [by destruct (ide_phase d) |]. split; [by destruct (ide_phase d) |].
        split; [| done]. intros _ Hph. by destruct (ide_phase d).
      * split_and!; try done. lia.
    + injection E as <- <-. by split_and!.
  - intros d p v. unfold ide_outb. split; [| by case_decide; split_and!].
    intros q. case_decide; simpl; (destruct (decide (q = p)) as [-> | Hq];
      [by rewrite lookup_insert_eq | by rewrite lookup_insert_ne]).
  - intros d v Hp. unfold ide_outb. simpl. by rewrite Hp.
  - intros d buf p drv lba left buf' d' Hp _ E. unfold ide_insw in E. rewrite Hp in E.
    injection E as <- <-. split_and!; [| done | done]. intros i. apply load8_copy_sector.
  - intros d buf p drv lba left Hp _. unfold ide_outsw. rewrite Hp. simpl.
    split_and!; [done | done |]. intros k x. destruct (decide (k = drv)) as [-> | Hne].
    + rewrite lookup_insert_eq. simpl. rewrite load8_copy_sector.
      by repeat case_decide; try lia.
    + rewrite lookup_insert_ne by done. rewrite decide_False by tauto. done.
Qed.

#[export] Instance ata_laws_inst {B : Type} `{AtaBusLaws B} : BlockDeviceLaws B := ata_device_laws.

(** ** Properties *)

(** C13 On a bus whose drives work as documented, [ata_read] and [ata_write]
    implement the block-device interface: for up to 255 sectors inside the
    drive they terminate with 0, a read fills exactly [count] sectors of the
    buffer with the drive's bytes and changes no drive, and a write replaces
    exactly those sectors of that drive. *)
Theorem ata_refines_block_device (B : Type) `{AtaBusLaws B} : BlockDeviceLaws B.
Proof. apply ata_device_laws. Qed.

(** The driver's error paths, on any bus: a count of 0 does nothing and
    succeeds; a sector number of 2^28 or more is refused before any port is
    touched; and when the first status read shows ERR, [ata_poll_data_ready]
    fails, so no data is transferred. *)
Theorem ata_errors (B : Type) `{AtaBus B} (d : B) (drive lba count : Z) (buf : mem) :
  ata_read_pio d drive lba 0 buf = Ret (0, buf, d) /\
  ata_write_pio d drive lba 0 buf = Ret (0, d) /\
  (0 < count -> 2 ^ 28 <= lba < 2 ^ 32 ->
     ata_read_pio d drive lba count buf = Ret (-1, buf, d) /\
     ata_write_pio d drive lba count buf = Ret (-1, d)) /\
  (forall n s d', inb (ata_io_wait d) ATA_REG_STATUS = (s, d') ->
     truth (Z.land s ATA_SR_ERR) = true ->
     read_sectors (S n) d buf 0 = Ret (-1, buf, d') /\
     write_sectors (S n) d buf 0 = Ret (-1, d')).
Proof.
  split_and!; [done | done | |].
  - intros Hc Hl. unfold ata_read_pio, ata_write_pio.
    rewrite (proj2 (Z.eqb_neq count 0)) by lia.
    change 0xF0000000 with (2 ^ 32 - 2 ^ 28). rewrite land_clear_low by (unfold is_u32; lia).
    unfold truth. rewrite (proj2 (Z.eqb_neq _ 0)) by zdm. done.
  - intros n s d' Hs Herr. cbn [read_sectors write_sectors].
    unfold ata_poll_data_ready, poll_fuel. cbn [poll_loop]. rewrite Hs, Herr. done.
Qed.

Definition wit_ide : ide := Ide ∅ ∅ Idle 0.

Lemma ata_refines_block_device_witness : BlockDeviceLaws ide.
Proof. exact (ata_refines_block_device ide). Defined.

(** Writing two sectors and reading them back on the concrete bus. *)
Lemma ata_ide_roundtrip :
  match ata_write_pio wit_ide 1 7 2 (store32 (store32 ∅ 0 0xAA55) 1020 0xDEADBEEF) with
  | Ret (r, d) =>
      match ata_read_pio d 1 7 2 ∅ with
      | Ret (r', buf, _) => r = 0 /\ r' = 0 /\ load32 buf 0 = 0xAA55 /\ load32 buf 1020 = 0xDEADBEEF
      | _ => False
      end
  | _ => False
  end.
Proof. vm_compute. auto. Qed.
