(* ===== verification/Fat32.v ===== *)
(** * The FAT32 file system (src/fs/fat32.c): definitions

    The mounted volume, the one-sector FAT cache, the cluster chains, the
    directory scans and the public operations, over any [BlockDevice].

    Loops that follow a cluster chain stop only when the chain does, so they
    take a bound on their iterations and run [OutOfFuel] when the chain is
    longer; the theorems about them give bounds that suffice for well-formed
    volumes.  C strings are lists of bytes; reading past the end of the list
    reads the terminating NUL. *)

From S2P Require Import Prelude Memory Interfaces.

(** ** Strings and short names *)

Definition ch_a : Z := 97.
Definition ch_z : Z := 122.
Definition ch_space : Z := 32.
Definition ch_dot : Z := 46.
Definition ch_slash : Z := 47.

(** [s[i]] of a C string. *)
Definition char_at (s : list Z) (i : nat) : Z := default 0 (s !! i).

Definition to_upper (c : Z) : Z :=
  if (ch_a <=? c) && (c <=? ch_z) then c - 32 else c.

Fixpoint str_eq_ci (a b : list Z) : bool :=
  match a, b with
  | ca :: a', cb :: b' =>
      if truth ca && truth cb then
        if negb (to_upper ca =? to_upper cb) then false else str_eq_ci a' b'
      else (ca =? 0) && (cb =? 0)
  | _, _ => (char_at a 0 =? 0) && (char_at b 0 =? 0)
  end.

(** The bytes of [raw] from a position up to the first space. *)
Fixpoint until_space (raw : list Z) : list Z :=
  match raw with
  | [] => []
  | c :: raw' => if c =? ch_space then [] else c :: until_space raw'
  end.

Definition format_short_name (raw : list Z) : list Z :=
  let base := until_space (take 8 raw) in
  if negb (char_at raw 8 =? ch_space)
  then base ++ [ch_dot] ++ until_space (drop 8 raw)
  else base.

(** The loops of [to_short_name]: copy the base name, skip to the dot, copy
    the extension. *)
Fixpoint short_base (name : list Z) (o : nat) (out : list Z) : list Z * list Z :=
  match name with
  | [] => ([], out)
  | c :: name' =>
      if truth c && negb (c =? ch_dot) && (o <? 8)%nat
      then short_base name' (S o) (<[o := to_upper c]> out)
      else (name, out)
  end.

Fixpoint skip_to_dot (name : list Z) : list Z :=
  match name with
  | [] => []
  | c :: name' => if truth c && negb (c =? ch_dot) then skip_to_dot name' else name
  end.

Fixpoint short_ext (name : list Z) (e : nat) (out : list Z) : list Z :=
  match name with
  | [] => out
  | c :: name' =>
      if truth c && (e <? 11)%nat
      then short_ext name' (S e) (<[e := to_upper c]> out)
      else out
  end.

Definition to_short_name (name : list Z) : list Z :=
  let out := replicate 11 ch_space in
  let '(rest, out) := short_base name 0 out in
  let rest := skip_to_dot rest in
  if char_at rest 0 =? ch_dot then short_ext (drop 1 rest) 8 out else out.

Definition sname_eq (a b : list Z) : bool :=
  forallb (fun i => char_at a i =? char_at b i) (seq 0 11).

(** ** Directory entries: the 32 packed bytes of [fat32_dirent_t] *)

Record dirent : Type := Dirent {
  e_name : list Z;            (* 11 bytes *)
  e_attr : Z;
  e_ntres : Z;
  e_crt_time_tenth : Z;
  e_crt_time : Z;
  e_crt_date : Z;
  e_lst_acc_date : Z;
  e_cluster_hi : Z;
  e_wrt_time : Z;
  e_wrt_date : Z;
  e_cluster_lo : Z;
  e_size : Z
}.

Definition FAT_ATTR_DIRECTORY : Z := 0x10.
Definition FAT_ATTR_VOLUME_ID : Z := 0x08.
Definition FAT_ATTR_LFN : Z := 0x0F.
Definition ATTR_ARCHIVE : Z := 0x20.

Definition load_bytes (m : mem) (a : Z) (n : nat) : list Z :=
  (fun i => load8 m (a + Z.of_nat i)) <$> seq 0 n.

Fixpoint store_bytes (m : mem) (a : Z) (l : list Z) : mem :=
  match l with
  | [] => m
  | b :: l' => store_bytes (store8 m a b) (a + 1) l'
  end.

Definition get_dirent (m : mem) (a : Z) : dirent :=
  Dirent (load_bytes m a 11) (load8 m (a + 11)) (load8 m (a + 12)) (load8 m (a + 13))
    (load16 m (a + 14)) (load16 m (a + 16)) (load16 m (a + 18)) (load16 m (a + 20))
    (load16 m (a + 22)) (load16 m (a + 24)) (load16 m (a + 26)) (load32 m (a + 28)).

Definition put_dirent (m : mem) (a : Z) (e : dirent) : mem :=
  let m := store_bytes m a (e_name e) in
  let m := store8 m (a + 11) (e_attr e) in
  let m := store8 m (a + 12) (e_ntres e) in
  let m := store8 m (a + 13) (e_crt_time_tenth e) in
  let m := store_le 2 m (a + 14) (e_crt_time e) in
  let m := store_le 2 m (a + 16) (e_crt_date e) in
  let m := store_le 2 m (a + 18) (e_lst_acc_date e) in
  let m := store_le 2 m (a + 20) (e_cluster_hi e) in
  let m := store_le 2 m (a + 22) (e_wrt_time e) in
  let m := store_le 2 m (a + 24) (e_wrt_date e) in
  let m := store_le 2 m (a + 26) (e_cluster_lo e) in
  store32 m (a + 28) (e_size e).

(** [((uint32_t)e->cluster_hi << 16) | e->cluster_lo]. *)
Definition start_cluster (e : dirent) : Z :=
  Z.lor (u32 (Z.shiftl (e_cluster_hi e) 16)) (e_cluster_lo e).

(** A zeroed entry with a name, an attribute, a start cluster and a size. *)
Definition new_dirent (name : list Z) (attr cluster size : Z) : dirent :=
  Dirent name attr 0 0 0 0 0 (Z.land (Z.shiftr cluster 16) 0xFFFF) 0 0
    (Z.land cluster 0xFFFF) size.

Definition with_start (e : dirent) (cluster size : Z) : dirent :=
  Dirent (e_name e) (e_attr e) (e_ntres e) (e_crt_time_tenth e) (e_crt_time e)
    (e_crt_date e) (e_lst_acc_date e) (Z.land (Z.shiftr cluster 16) 0xFFFF)
    (e_wrt_time e) (e_wrt_date e) (Z.land cluster 0xFFFF) size.

(** The byte [name[0]] and the tests that skip an entry. *)
Definition first_byte (e : dirent) : Z := char_at (e_name e) 0.
Definition skipped (e : dirent) : bool :=
  (first_byte e =? 0xE5) || (e_attr e =? FAT_ATTR_LFN)
  || truth (Z.land (e_attr e) FAT_ATTR_VOLUME_ID).

(** ** The mounted volume *)

Definition FAT32_CLUSTER_BUF_MAX : Z := 128 * 512.
Definition NO_LBA : Z := 0xFFFFFFFF.
Definition EOC : Z := 0x0FFFFFFF.
Definition MASK28 : Z := 0x0FFFFFFF.

(** The fields [fat32_mount] fills in. *)
Record geo : Type := Geo {
  drive : Z;
  sectors_per_cluster : Z;
  num_fats : Z;
  bytes_per_sector : Z;
  fat_start_lba : Z;
  data_start_lba : Z;
  fat_size : Z;
  total_clusters : Z;
  root_cluster : Z
}.

Record fat (D : Type) : Type := Fat {
  dev : D;
  fs : geo;
  cwd_cluster : Z;
  alloc_hint : Z;
  mounted : bool;
  cluster_buf : mem;
  fat_sector_buf : mem;
  fat_sector_cached_lba : Z
}.
Arguments Fat {D}. Arguments dev {D}. Arguments fs {D}. Arguments cwd_cluster {D}.
Arguments alloc_hint {D}. Arguments mounted {D}. Arguments cluster_buf {D}.
Arguments fat_sector_buf {D}. Arguments fat_sector_cached_lba {D}.

Section Setters.
  Context {D : Type}.

Definition set_dev (s : fat D) (d : D) : fat D :=
  Fat d (fs s) (cwd_cluster s) (alloc_hint s) (mounted s) (cluster_buf s)
    (fat_sector_buf s) (fat_sector_cached_lba s).
Definition set_cwd (s : fat D) (c : Z) : fat D :=
  Fat (dev s) (fs s) c (alloc_hint s) (mounted s) (cluster_buf s)
    (fat_sector_buf s) (fat_sector_cached_lba s).
Definition set_hint (s : fat D) (h : Z) : fat D :=
  Fat (dev s) (fs s) (cwd_cluster s) h (mounted s) (cluster_buf s)
    (fat_sector_buf s) (fat_sector_cached_lba s).
Definition set_cluster_buf (s : fat D) (b : mem) : fat D :=
  Fat (dev s) (fs s) (cwd_cluster s) (alloc_hint s) (mounted s) b
    (fat_sector_buf s) (fat_sector_cached_lba s).
Definition set_fat_buf (s : fat D) (b : mem) : fat D :=
  Fat (dev s) (fs s) (cwd_cluster s) (alloc_hint s) (mounted s) (cluster_buf s)
    b (fat_sector_cached_lba s).
Definition set_cached (s : fat D) (lba : Z) : fat D :=
  Fat (dev s) (fs s) (cwd_cluster s) (alloc_hint s) (mounted s) (cluster_buf s)
    (fat_sector_buf s) lba.

End Setters.

Definition is_eoc (cluster : Z) : bool := 0x0FFFFFF8 <=? Z.land cluster 0x0FFFFFFF.

(** The condition under which the chain loops go on. *)
Definition in_chain (cluster : Z) : bool := negb (is_eoc cluster) && (2 <=? cluster).

Section Operations.
  Context {D : Type} `{BlockDevice D}.

(** ** The FAT *)

Definition cluster_to_lba (s : fat D) (cluster : Z) : Z :=
  u32 (data_start_lba (fs s) + u32 (u32 (cluster - 2) * sectors_per_cluster (fs s))).

Definition next_cluster (s : fat D) (cluster : Z) : outcome (Z * fat D) :=
  let fat_byte_offset := u32 (cluster * 4) in
  let fat_lba := u32 (fat_start_lba (fs s) + fat_byte_offset / 512) in
  let in_sector_off := fat_byte_offset mod 512 in
  if negb (fat_lba =? fat_sector_cached_lba s) then
    do! (r, buf, d) := ata_read (dev s) (drive (fs s)) fat_lba 1 (fat_sector_buf s) in
    let s := set_fat_buf (set_dev s d) buf in
    if r <? 0 then Ret (0x0FFFFFFF, s)
    else
      let s := set_cached s fat_lba in
      Ret (Z.land (load32 (fat_sector_buf s) in_sector_off) 0x0FFFFFFF, s)
  else Ret (Z.land (load32 (fat_sector_buf s) in_sector_off) 0x0FFFFFFF, s).

Definition read_cluster (s : fat D) (cluster : Z) : outcome (Z * fat D) :=
  let lba := cluster_to_lba s cluster in
  do! (r, buf, d) := ata_read (dev s) (drive (fs s)) lba
                       (sectors_per_cluster (fs s)) (cluster_buf s) in
  Ret (r, set_cluster_buf (set_dev s d) buf).

(** The loop of [set_fat_entry] over the FAT copies [f], [f + 1], ...;
    [n] copies are left. *)
Fixpoint set_fat_copies (n : nat) (f : Z) (s : fat D) (cluster value : Z)
    : outcome (Z * fat D) :=
  match n with
  | O => Ret (0, set_cached s NO_LBA)
  | S n' =>
      let fat_byte_off := u32 (cluster * 4) in
      let in_sec_off := fat_byte_off mod 512 in
      let fat_lba := u32 (fat_start_lba (fs s) + u32 (f * fat_size (fs s)) + fat_byte_off / 512) in
      do! (r, buf, d) := ata_read (dev s) (drive (fs s)) fat_lba 1 ∅ in
      let s := set_dev s d in
      if r <? 0 then Ret (-1, s)
      else
        let e := Z.lor (Z.land (load32 buf in_sec_off) 0xF0000000) (Z.land value 0x0FFFFFFF) in
        let buf := store32 buf in_sec_off e in
        do! (r, d) := ata_write (dev s) (drive (fs s)) fat_lba 1 buf in
        let s := set_dev s d in
        if r <? 0 then Ret (-1, s)
        else set_fat_copies n' (f + 1) s cluster value
  end.

Definition set_fat_entry (s : fat D) (cluster value : Z) : outcome (Z * fat D) :=
  set_fat_copies (Z.to_nat (num_fats (fs s))) 0 s cluster value.

(** The loop of [alloc_cluster]: [n] candidates are left, [i] is the next. *)
Fixpoint alloc_loop (n : nat) (i total : Z) (s : fat D) : outcome (Z * fat D) :=
  match n with
  | O => Ret (0, s)
  | S n' =>
      let c := u32 (alloc_hint s + i) in
      let c := if total <=? c then u32 (2 + (c - total)) else c in
      do! (v, s) := next_cluster s c in
      if v =? 0 then
        do! (r, s) := set_fat_entry s c 0x0FFFFFFF in
        if r <? 0 then Ret (0, s)
        else Ret (c, set_hint s (u32 (c + 1)))
      else alloc_loop n' (i + 1) total s
  end.

Definition alloc_cluster (s : fat D) : outcome (Z * fat D) :=
  if total_clusters (fs s) =? 0 then Ret (0, s)
  else
    let total := u32 (total_clusters (fs s) + 2) in
    let s := if alloc_hint s <? 2 then set_hint s 2 else s in
    alloc_loop (Z.to_nat (total_clusters (fs s))) 0 total s.

(** The result of [set_fat_entry] is ignored here. *)
Fixpoint free_chain (fuel : nat) (s : fat D) (c : Z) : outcome (fat D) :=
  if (2 <=? c) && negb (is_eoc c) then
    match fuel with
    | O => OutOfFuel
    | S fuel' =>
        do! (n, s) := next_cluster s c in
        do! (_, s) := set_fat_entry s c 0 in
        free_chain fuel' s n
    end
  else Ret s.

(** ** Directory scans

    [search_dir], [find_free_dirent_in] and [dir_is_empty] share one loop
    nest: the clusters of the chain, the sectors of the cluster, the 16
    entries of the sector.  They differ in what they do with an entry
    ([visit], given the sector's address, the entry's offset and the sector),
    and in the results for a failed read and for the end of the chain. *)

Inductive verdict (R : Type) : Type :=
  | Next                (* continue with the next entry *)
  | Done (r : R).       (* return from the function *)
#[global] Arguments Next {R}.
#[global] Arguments Done {R} r.

Fixpoint scan_entries {R} (n : nat) (i lba : Z) (sec : mem)
    (visit : Z -> Z -> mem -> verdict R) : verdict R :=
  match n with
  | O => Next
  | S n' =>
      match visit lba (i * 32) sec with
      | Done r => Done r
      | Next => scan_entries n' (i + 1) lba sec visit
      end
  end.

Fixpoint scan_sectors {R} (n : nat) (k lba_base : Z) (s : fat D)
    (visit : Z -> Z -> mem -> verdict R) (on_error : R) : outcome (verdict R * fat D) :=
  match n with
  | O => Ret (Next, s)
  | S n' =>
      do! (r, sec, d) := ata_read (dev s) (drive (fs s)) (u32 (lba_base + k)) 1 ∅ in
      let s := set_dev s d in
      if r <? 0 then Ret (Done on_error, s)
      else
        match scan_entries 16 0 (u32 (lba_base + k)) sec visit with
        | Done r => Ret (Done r, s)
        | Next => scan_sectors n' (k + 1) lba_base s visit on_error
        end
  end.

Fixpoint scan_chain {R} (fuel : nat) (s : fat D) (cluster : Z)
    (visit : Z -> Z -> mem -> verdict R) (on_error on_end : R) : outcome (R * fat D) :=
  if in_chain cluster then
    match fuel with
    | O => OutOfFuel
    | S fuel' =>
        do! (v, s) := scan_sectors (Z.to_nat (sectors_per_cluster (fs s))) 0
                        (cluster_to_lba s cluster) s visit on_error in
        match v with
        | Done r => Ret (r, s)
        | Next =>
            do! (c, s) := next_cluster s cluster in
            scan_chain fuel' s c visit on_error on_end
        end
    end
  else Ret (on_end, s).

Record dir_lookup : Type := Lookup { l_entry : dirent; l_lba : Z; l_offset : Z }.

Definition search_visit (target : list Z) (lba off : Z) (sec : mem)
    : verdict (option dir_lookup) :=
  let e := get_dirent sec off in
  if first_byte e =? 0x00 then Done None
  else if skipped e then Next
  else if sname_eq (e_name e) target then Done (Some (Lookup e lba off))
  else Next.

Definition search_dir (fuel : nat) (s : fat D) (start : Z) (target : list Z)
    : outcome (option dir_lookup * fat D) :=
  scan_chain fuel s start (search_visit target) None None.

Definition free_visit (lba off : Z) (sec : mem) : verdict (option (Z * Z)) :=
  let first := load8 sec off in
  if (first =? 0x00) || (first =? 0xE5) then Done (Some (lba, off)) else Next.

Definition find_free_dirent_in (fuel : nat) (s : fat D) (start : Z)
    : outcome (option (Z * Z) * fat D) :=
  scan_chain fuel s start free_visit None None.

Definition empty_visit (lba off : Z) (sec : mem) : verdict bool :=
  let e := get_dirent sec off in
  if first_byte e =? 0x00 then Done true
  else if skipped e then Next
  else if (first_byte e =? ch_dot) &&
          ((char_at (e_name e) 1 =? ch_space) || (char_at (e_name e) 1 =? ch_dot)) then Next
  else Done false.

Definition dir_is_empty (fuel : nat) (s : fat D) (start : Z) : outcome (bool * fat D) :=
  scan_chain fuel s start empty_visit false true.

(** Replace one entry of a sector, or only its first byte. *)
Definition patch_sector (s : fat D) (lba : Z) (patch : mem -> mem) : outcome (Z * fat D) :=
  do! (r, sec, d) := ata_read (dev s) (drive (fs s)) lba 1 ∅ in
  let s := set_dev s d in
  if r <? 0 then Ret (-1, s)
  else
    do! (r, d) := ata_write (dev s) (drive (fs s)) lba 1 (patch sec) in
    Ret (r, set_dev s d).

Definition write_dirent (s : fat D) (lba offset : Z) (e : dirent) : outcome (Z * fat D) :=
  patch_sector s lba (fun sec => put_dirent sec offset e).

Definition mark_deleted (s : fat D) (lba offset : Z) : outcome (Z * fat D) :=
  patch_sector s lba (fun sec => store8 sec offset 0xE5).

(** ** Listing and reading *)

(** The loop over the entries of [cluster_buf]; the flag tells that the end
    of the directory was met. *)
Fixpoint list_entries {C} (n : nat) (i : Z) (buf : mem) (visit : C -> dirent -> C) (ctx : C)
    : bool * C :=
  match n with
  | O => (false, ctx)
  | S n' =>
      let e := get_dirent buf (i * 32) in
      if first_byte e =? 0x00 then (true, ctx)
      else if skipped e then list_entries n' (i + 1) buf visit ctx
      else list_entries n' (i + 1) buf visit (visit ctx e)
  end.

Fixpoint list_chain {C} (fuel : nat) (s : fat D) (cluster : Z) (visit : C -> dirent -> C)
    (ctx : C) : outcome (C * fat D) :=
  if in_chain cluster then
    match fuel with
    | O => OutOfFuel
    | S fuel' =>
        do! (r, s) := read_cluster s cluster in
        if r <? 0 then Ret (ctx, s)
        else
          let n := u32 (sectors_per_cluster (fs s) * 512) / 32 in
          let '(stop, ctx) := list_entries (Z.to_nat n) 0 (cluster_buf s) visit ctx in
          if stop then Ret (ctx, s)
          else
            do! (c, s) := next_cluster s cluster in
            list_chain fuel' s c visit ctx
    end
  else Ret (ctx, s).

Definition fat32_listdir {C} (fuel : nat) (s : fat D) (start : Z) (visit : C -> dirent -> C)
    (ctx : C) : outcome (C * fat D) :=
  if negb (mounted s) then Ret (ctx, s) else list_chain fuel s start visit ctx.

Definition find_visitor (target : list Z) (found : option dirent) (e : dirent) : option dirent :=
  match found with
  | Some _ => found
  | None => if str_eq_ci (format_short_name (e_name e)) target then Some e else None
  end.

Definition find_from (fuel : nat) (s : fat D) (start : Z) (name83 : list Z)
    : outcome (Z * option dirent * fat D) :=
  if negb (mounted s) then Ret (-1, None, s)
  else
    do! (found, s) := fat32_listdir fuel s start (find_visitor name83) None in
    match found with
    | None => Ret (-1, None, s)
    | Some e => Ret (0, Some e, s)
    end.

Definition fat32_find (fuel : nat) (s : fat D) (name83 : list Z) :=
  find_from fuel s (cwd_cluster s) name83.
Definition fat32_find_in_root (fuel : nat) (s : fat D) (name83 : list Z) :=
  find_from fuel s (root_cluster (fs s)) name83.

(** [fat32_read_file] copies at least one byte per iteration, and a whole
    cluster in every iteration but the last. *)
Fixpoint read_loop (n : nat) (s : fat D) (cluster size copied : Z) (dst : mem)
    : outcome (Z * mem * fat D) :=
  if in_chain cluster && (copied <? size) then
    match n with
    | O => OutOfFuel
    | S n' =>
        do! (r, s) := read_cluster s cluster in
        if r <? 0 then Ret (-1, dst, s)
        else
          let bytes := u32 (sectors_per_cluster (fs s) * 512) in
          let remain := u32 (size - copied) in
          let k := if remain <? bytes then remain else bytes in
          let dst := for_range 0 k
            (fun m i => store8 m (copied + i) (load8 (cluster_buf s) i)) dst in
          do! (c, s) := next_cluster s cluster in
          read_loop n' s c size (u32 (copied + k)) dst
    end
  else Ret (i32 copied, dst, s).

(** Enough iterations to move [size] bytes, a sector or more at a time. *)
Definition copy_fuel (size : Z) : nat := S (Z.to_nat (size / 512)).

Definition fat32_read_file (s : fat D) (e : dirent) (buf : mem) (max : Z)
    : outcome (Z * mem * fat D) :=
  if negb (mounted s) then Ret (-1, buf, s)
  else
    let size := if max <? e_size e then max else e_size e in
    read_loop (copy_fuel size) s (start_cluster e) size 0 buf.

(** ** Writing *)

Definition fat32_create (fuel : nat) (s : fat D) (name : list Z) : outcome (Z * fat D) :=
  if negb (mounted s) then Ret (-1, s)
  else
    let target := to_short_name name in
    do! (hit, s) := search_dir fuel s (cwd_cluster s) target in
    match hit with
    | Some _ => Ret (-1, s)
    | None =>
        do! (slot, s) := find_free_dirent_in fuel s (cwd_cluster s) in
        match slot with
        | None => Ret (-1, s)
        | Some (lba, off) => write_dirent s lba off (new_dirent target ATTR_ARCHIVE 0 0)
        end
    end.

Definition is_directory (e : dirent) : bool :=
  truth (Z.land (e_attr e) FAT_ATTR_DIRECTORY).

Definition fat32_remove (fuel : nat) (s : fat D) (name : list Z) : outcome (Z * fat D) :=
  if negb (mounted s) then Ret (-1, s)
  else
    let target := to_short_name name in
    do! (hit, s) := search_dir fuel s (cwd_cluster s) target in
    match hit with
    | None => Ret (-1, s)
    | Some look =>
        if is_directory (l_entry look) then Ret (-1, s)
        else
          let start := start_cluster (l_entry look) in
          do! s := (if 2 <=? start then free_chain fuel s start else Ret s) in
          mark_deleted s (l_lba look) (l_offset look)
    end.

(** The contents of the cluster written at [written]: data, then zeros. *)
Definition cluster_data (data : list Z) (written copy cluster_size : Z) : mem :=
  let buf := for_range 0 copy
    (fun m i => store8 m i (default 0 (data !! Z.to_nat (written + i)))) ∅ in
  for_range copy cluster_size (fun m i => store8 m i 0) buf.

(** The allocation loop of [fat32_write_file]; [None] when it gave up after
    releasing what it had allocated, [Some first] otherwise. *)
Fixpoint write_loop (n fuel : nat) (s : fat D) (data : list Z) (size first prev written : Z)
    : outcome (option Z * fat D) :=
  if written <? size then
    match n with
    | O => OutOfFuel
    | S n' =>
        do! (c, s) := alloc_cluster s in
        if c =? 0 then
          do! s := (if truth first then free_chain fuel s first else Ret s) in
          Ret (None, s)
        else
          let first := if negb (truth first) then c else first in
          do! (r, s) := (if truth prev then set_fat_entry s prev c else Ret (0, s)) in
          if r <? 0 then do! s := free_chain fuel s first in Ret (None, s)
          else
            let cluster_size := u32 (sectors_per_cluster (fs s) * 512) in
            let remain := u32 (size - written) in
            let copy := if remain <? cluster_size then remain else cluster_size in
            let cbuf := cluster_data data written copy cluster_size in
            do! (r, d) := ata_write (dev s) (drive (fs s)) (cluster_to_lba s c)
                            (sectors_per_cluster (fs s)) cbuf in
            let s := set_dev s d in
            if r <? 0 then do! s := free_chain fuel s first in Ret (None, s)
            else write_loop n' fuel s data size first c (u32 (written + copy))
    end
  else Ret (Some first, s).

(** Step 1 of [fat32_write_file]: the entry to fill and where it goes. *)
Definition write_target (fuel : nat) (s : fat D) (target : list Z)
    : outcome (option dir_lookup * fat D) :=
  do! (hit, s) := search_dir fuel s (cwd_cluster s) target in
  match hit with
  | Some look =>
      if is_directory (l_entry look) then Ret (None, s)
      else
        let old_start := start_cluster (l_entry look) in
        do! s := (if 2 <=? old_start then free_chain fuel s old_start else Ret s) in
        Ret (Some (Lookup (with_start (l_entry look) 0 0) (l_lba look) (l_offset look)), s)
  | None =>
      do! (slot, s) := find_free_dirent_in fuel s (cwd_cluster s) in
      match slot with
      | None => Ret (None, s)
      | Some (lba, off) => Ret (Some (Lookup (new_dirent target ATTR_ARCHIVE 0 0) lba off), s)
      end
  end.

Definition fat32_write_file (fuel : nat) (s : fat D) (name data : list Z) (size : Z)
    : outcome (Z * fat D) :=
  if negb (mounted s) then Ret (-1, s)
  else
    let target := to_short_name name in
    do! (look, s) := write_target fuel s target in
    match look with
    | None => Ret (-1, s)
    | Some look =>
        do! (first, s) := write_loop (copy_fuel size) fuel s data size 0 0 0 in
        match first with
        | None => Ret (-1, s)
        | Some first =>
            write_dirent s (l_lba look) (l_offset look) (with_start (l_entry look) first size)
        end
    end.

(** ** Directories *)

Definition DOT : list Z := ch_dot :: replicate 10 ch_space.
Definition DOTDOT : list Z := ch_dot :: ch_dot :: replicate 9 ch_space.

(** The cluster [fat32_mkdir] writes: zeros, then the entries [.] and [..]. *)
Definition dir_cluster_data (cluster_size new_cluster parent : Z) : mem :=
  let cbuf := for_range 0 cluster_size (fun m i => store8 m i 0) ∅ in
  let cbuf := put_dirent cbuf 0 (new_dirent DOT FAT_ATTR_DIRECTORY new_cluster 0) in
  put_dirent cbuf 32 (new_dirent DOTDOT FAT_ATTR_DIRECTORY parent 0).

Definition fat32_mkdir (fuel : nat) (s : fat D) (name : list Z) : outcome (Z * fat D) :=
  if negb (mounted s) then Ret (-1, s)
  else
    let target := to_short_name name in
    do! (hit, s) := search_dir fuel s (cwd_cluster s) target in
    match hit with
    | Some _ => Ret (-1, s)
    | None =>
        do! (slot, s) := find_free_dirent_in fuel s (cwd_cluster s) in
        match slot with
        | None => Ret (-1, s)
        | Some (lba, off) =>
            do! (new_cluster, s) := alloc_cluster s in
            if new_cluster =? 0 then Ret (-1, s)
            else
              let cluster_size := u32 (sectors_per_cluster (fs s) * 512) in
              let parent := if cwd_cluster s =? root_cluster (fs s) then 0 else cwd_cluster s in
              do! (r, d) := ata_write (dev s) (drive (fs s)) (cluster_to_lba s new_cluster)
                              (sectors_per_cluster (fs s))
                              (dir_cluster_data cluster_size new_cluster parent) in
              let s := set_dev s d in
              if r <? 0 then do! s := free_chain fuel s new_cluster in Ret (-1, s)
              else
                do! (r, s) := write_dirent s lba off
                                (new_dirent target FAT_ATTR_DIRECTORY new_cluster 0) in
                if r <? 0 then do! s := free_chain fuel s new_cluster in Ret (-1, s)
                else Ret (0, s)
        end
    end.

(** The names "/", "." and "..". *)
Definition is_root_name (name : list Z) : bool :=
  (char_at name 0 =? ch_slash) && (char_at name 1 =? 0).
Definition is_dot_name (name : list Z) : bool :=
  (char_at name 0 =? ch_dot) && (char_at name 1 =? 0).
Definition is_dotdot_name (name : list Z) : bool :=
  (char_at name 0 =? ch_dot) && (char_at name 1 =? ch_dot) && (char_at name 2 =? 0).

Definition fat32_rmdir (fuel : nat) (s : fat D) (name : list Z) : outcome (Z * fat D) :=
  if negb (mounted s) then Ret (-1, s)
  else if is_dot_name name || is_dotdot_name name then Ret (-1, s)
  else
    let target := to_short_name name in
    do! (hit, s) := search_dir fuel s (cwd_cluster s) target in
    match hit with
    | None => Ret (-1, s)
    | Some look =>
        if negb (is_directory (l_entry look)) then Ret (-1, s)
        else
          let target_cluster := start_cluster (l_entry look) in
          if target_cluster <? 2 then Ret (-1, s)
          else
            do! (empty, s) := dir_is_empty fuel s target_cluster in
            if negb empty then Ret (-1, s)
            else
              do! s := free_chain fuel s target_cluster in
              mark_deleted s (l_lba look) (l_offset look)
    end.

Definition fat32_chdir (fuel : nat) (s : fat D) (name : list Z) : outcome (Z * fat D) :=
  if negb (mounted s) then Ret (-1, s)
  else if is_root_name name then Ret (0, set_cwd s (root_cluster (fs s)))
  else if is_dot_name name then Ret (0, s)
  else if is_dotdot_name name then
    if cwd_cluster s =? root_cluster (fs s) then Ret (0, s)
    else
      do! (hit, s) := search_dir fuel s (cwd_cluster s) DOTDOT in
      match hit with
      | None => Ret (-1, s)
      | Some look =>
          let parent := start_cluster (l_entry look) in
          let parent := if parent =? 0 then root_cluster (fs s) else parent in
          Ret (0, set_cwd s parent)
      end
  else
    do! (hit, s) := search_dir fuel s (cwd_cluster s) (to_short_name name) in
    match hit with
    | None => Ret (-1, s)
    | Some look =>
        if negb (is_directory (l_entry look)) then Ret (-1, s)
        else
          let c := start_cluster (l_entry look) in
          let c := if c =? 0 then root_cluster (fs s) else c in
          Ret (0, set_cwd s c)
    end.

(** A token of at most 15 characters is collected and entered at each slash
    and at the end. *)
Definition enter_token (fuel : nat) (s : fat D) (tok : list Z) : outcome (Z * fat D) :=
  match tok with
  | [] => Ret (0, s)
  | _ =>
      do! (r, s) := fat32_chdir fuel s tok in
      Ret (if r <? 0 then -1 else 0, s)
  end.

Fixpoint chdir_tokens (fuel : nat) (s : fat D) (p tok : list Z) : outcome (Z * fat D) :=
  match p with
  | [] => enter_token fuel s tok
  | c :: p' =>
      if c =? 0 then enter_token fuel s tok
      else if c =? ch_slash then
        do! (r, s) := enter_token fuel s tok in
        if r <? 0 then Ret (-1, s) else chdir_tokens fuel s p' []
      else chdir_tokens fuel s p' (if (length tok <? 15)%nat then tok ++ [c] else tok)
  end.

Definition fat32_chdir_path (fuel : nat) (s : fat D) (path : list Z) : outcome (Z * fat D) :=
  if negb (mounted s) then Ret (-1, s)
  else if char_at path 0 =? ch_slash
  then chdir_tokens fuel (set_cwd s (root_cluster (fs s))) (drop 1 path) []
  else chdir_tokens fuel s path [].

Definition fat32_set_cwd_cluster (s : fat D) (cluster : Z) : fat D :=
  if negb (mounted s) then s
  else set_cwd s (if cluster <? 2 then root_cluster (fs s) else cluster).

(** ** Mounting *)

(** The fields of [bpb32_t] the code reads. *)
Record bpb : Type := Bpb {
  bpb_bytes_per_sector : Z;
  bpb_sectors_per_cluster : Z;
  bpb_reserved_sectors : Z;
  bpb_num_fats : Z;
  bpb_total_sectors_16 : Z;
  bpb_total_sectors_32 : Z;
  bpb_fat_size_32 : Z;
  bpb_root_cluster : Z
}.

Definition read_bpb (boot : mem) : bpb :=
  Bpb (load16 boot 0x0B) (load8 boot 0x0D) (load16 boot 0x0E) (load8 boot 0x10)
    (load16 boot 0x13) (load32 boot 0x20) (load32 boot 0x24) (load32 boot 0x2C).

Definition mount_geo (drive : Z) (b : bpb) : geo :=
  let data_start := u32 (bpb_reserved_sectors b + u32 (bpb_num_fats b * bpb_fat_size_32 b)) in
  let total_sec := if truth (bpb_total_sectors_32 b) then bpb_total_sectors_32 b
                   else bpb_total_sectors_16 b in
  Geo drive (bpb_sectors_per_cluster b) (bpb_num_fats b) (bpb_bytes_per_sector b)
    (bpb_reserved_sectors b) data_start (bpb_fat_size_32 b)
    (u32 (total_sec - data_start) / bpb_sectors_per_cluster b) (bpb_root_cluster b).

Definition fat32_mount (s : fat D) (drive : Z) : outcome (Z * fat D) :=
  do! (r, boot, d) := ata_read (dev s) drive 0 1 ∅ in
  let s := set_dev s d in
  if r <? 0 then Ret (-1, s)
  else
    let b := read_bpb boot in
    if negb (bpb_bytes_per_sector b =? 512) then Ret (-1, s)
    else if bpb_sectors_per_cluster b =? 0 then Ret (-1, s)
    else if bpb_fat_size_32 b =? 0 then Ret (-1, s)
    else if FAT32_CLUSTER_BUF_MAX <? u32 (bpb_sectors_per_cluster b * 512) then Ret (-1, s)
    else
      let g := mount_geo drive b in
      Ret (0, Fat (dev s) g (root_cluster g) 2 true (cluster_buf s) (fat_sector_buf s) NO_LBA).

Definition fat32_is_mounted (s : fat D) : bool := mounted s.
Definition fat32_root_cluster (s : fat D) : Z := root_cluster (fs s).
Definition fat32_cwd_cluster (s : fat D) : Z := cwd_cluster s.

End Operations.
