(* ===== verification/FatName.v ===== *)
(** * FAT32: 8.3 names

    [to_short_name] and [format_short_name] are inverse on 8.3 names, and the
    two ways the code compares names, on formatted strings ([str_eq_ci]) and
    on raw entries ([sname_eq]), agree on them. *)

From S2P Require Import Prelude Memory Interfaces Fat32.

(** ** The written form of a name *)

(** Characters that stand for themselves in a short name. *)
Definition name_char (c : Z) : Prop := is_u8 c /\ c ≠ 0 /\ c ≠ ch_dot /\ c ≠ ch_space.

Definition pad (n : nat) (l : list Z) : list Z := l ++ replicate (n - length l) ch_space.

(** [base.ext] or [base]. *)
Definition name83 (base ext : list Z) : list Z :=
  match ext with [] => base | _ => base ++ ch_dot :: ext end.

Record valid83 (base ext : list Z) : Prop := Valid83 {
  v_base : (1 <= length base <= 8)%nat;
  v_ext : (length ext <= 3)%nat;
  v_chars : Forall name_char (base ++ ext)
}.

Definition raw83 (base ext : list Z) : list Z := pad 8 base ++ pad 3 ext.

(** ** Padding and upper case *)

Lemma length_pad n l : (length l <= n)%nat -> length (pad n l) = n.
Proof. intros. unfold pad. rewrite length_app, length_replicate. lia. Qed.

Lemma to_upper_cases c :
  (to_upper c = c /\ ~ 97 <= c <= 122) \/ (to_upper c = c - 32 /\ 97 <= c <= 122).
Proof. unfold to_upper, ch_a, ch_z. repeat (case_ltb; cbn [andb]); lia. Qed.

Lemma to_upper_nonspace c : c ≠ ch_space -> to_upper c ≠ ch_space.
Proof. unfold ch_space. destruct (to_upper_cases c) as [[-> ?] | [-> ?]]; lia. Qed.

Lemma to_upper_u8 c : is_u8 c -> is_u8 (to_upper c).
Proof. unfold is_u8. destruct (to_upper_cases c) as [[-> ?] | [-> ?]]; lia. Qed.

Lemma to_upper_idem c : to_upper (to_upper c) = to_upper c.
Proof.
  destruct (to_upper_cases (to_upper c)) as [[E ?] | [E ?]]; [done |].
  destruct (to_upper_cases c) as [[E' ?] | [E' ?]]; rewrite E' in *; lia.
Qed.

Lemma to_upper_char c : name_char c -> name_char (to_upper c).
Proof.
  unfold name_char, ch_dot, ch_space. intros (Hu & ? & ? & ?). split; [by apply to_upper_u8 |].
  destruct (to_upper_cases c) as [[-> ?] | [-> ?]]; lia.
Qed.

Lemma until_space_pad n l : Forall (fun c => c ≠ ch_space) l -> until_space (pad n l) = l.
Proof.
  unfold pad. generalize (n - length l)%nat as k. intros k Hl.
  induction Hl as [|c l Hc Hl IH]; simpl.
  - destruct k; simpl; [done |]. done.
  - rewrite (proj2 (Z.eqb_neq _ _) Hc). by rewrite IH.
Qed.

(** ** [to_short_name] *)

Lemma insert_next {A} (pre post : list A) x y :
  <[length pre := x]> (pre ++ y :: post) = (pre ++ [x]) ++ post.
Proof.
  rewrite insert_app_r_alt by lia. rewrite Nat.sub_diag. simpl. by rewrite <- app_assoc.
Qed.

Lemma name_char_tests c : name_char c -> truth c = true /\ (c =? ch_dot) = false.
Proof.
  intros (_ & Hz & Hd & _). unfold truth. rewrite (proj2 (Z.eqb_neq _ _) Hz).
  by rewrite (proj2 (Z.eqb_neq _ _) Hd).
Qed.

(** The rest of the name after the base: nothing, or a dot. *)
Definition base_ends (rest : list Z) : Prop := match rest with [] => True | c :: _ => c = ch_dot end.

Lemma short_base_spec base rest pre post :
  Forall name_char base -> base_ends rest -> (length pre + length base <= 8)%nat ->
  length post = (11 - length pre)%nat ->
  short_base (base ++ rest) (length pre) (pre ++ post) =
  (rest, (pre ++ (to_upper <$> base)) ++ drop (length base) post).
Proof.
  intros Hb Hr. revert pre post. induction Hb as [|c base Hc Hb IH]; intros pre post Hl Hp.
  - simpl. rewrite app_nil_r, drop_0. destruct rest as [|d rest]; simpl in *; [done |].
    subst d. done.
  - destruct post as [|y post]; simpl in Hl, Hp; [lia |].
    destruct (name_char_tests c Hc) as [H1 H2]. simpl. rewrite H1, H2.
    rewrite (proj2 (Nat.ltb_lt _ _)) by lia. simpl. rewrite insert_next.
    replace (S (length pre)) with (length (pre ++ [to_upper c])) by (rewrite length_app; simpl; lia).
    rewrite IH by (rewrite ?length_app; simpl; lia). by rewrite <- (app_assoc pre).
Qed.

Lemma short_ext_spec ext pre post :
  Forall name_char ext -> (8 <= length pre)%nat -> (length pre + length ext <= 11)%nat ->
  length post = (11 - length pre)%nat ->
  short_ext ext (length pre) (pre ++ post) =
  (pre ++ (to_upper <$> ext)) ++ drop (length ext) post.
Proof.
  intros He. revert pre post. induction He as [|c ext Hc He IH]; intros pre post H8 Hl Hp.
  - simpl. by rewrite app_nil_r, drop_0.
  - destruct post as [|y post]; simpl in Hl, Hp; [lia |].
    destruct (name_char_tests c Hc) as [H1 _]. simpl. rewrite H1.
    rewrite (proj2 (Nat.ltb_lt _ _)) by lia. simpl. rewrite insert_next.
    replace (S (length pre)) with (length (pre ++ [to_upper c])) by (rewrite length_app; simpl; lia).
    rewrite IH by (rewrite ?length_app; simpl; lia). by rewrite <- (app_assoc pre).
Qed.

Lemma to_short_name83 base ext :
  valid83 base ext ->
  to_short_name (name83 base ext) = raw83 (to_upper <$> base) (to_upper <$> ext).
Proof.
  intros [Hb He Hc]. apply Forall_app in Hc as [Hcb Hce]. unfold to_short_name, raw83, pad.
  rewrite !length_fmap.
  pose proof (short_base_spec base (drop (length base) (name83 base ext)) []
    (replicate 11 ch_space)) as Hs. cbn [length app] in Hs.
  assert (base ++ drop (length base) (name83 base ext) = name83 base ext) as E.
  { unfold name83. destruct ext; [by rewrite drop_all, app_nil_r | by rewrite drop_app_length]. }
  rewrite E in Hs. rewrite Hs; [| done | | lia | done]. clear Hs E.
  2: { unfold name83. destruct ext; [by rewrite drop_all | by rewrite drop_app_length]. }
  rewrite drop_replicate. unfold name83. destruct ext as [|c ext].
  - rewrite drop_all. change (char_at (skip_to_dot []) 0 =? ch_dot) with false. cbv iota.
    cbn [length fmap list_fmap app]. rewrite <- app_assoc, <- replicate_add. do 2 f_equal. lia.
  - rewrite drop_app_length. change (skip_to_dot (ch_dot :: c :: ext)) with (ch_dot :: c :: ext).
    change (drop 1 (ch_dot :: c :: ext)) with (c :: ext).
    change (char_at (ch_dot :: c :: ext) 0 =? ch_dot) with true. cbv iota.
    replace (11 - length base)%nat with ((8 - length base) + 3)%nat by lia.
    rewrite replicate_add, app_assoc.
    set (p := (to_upper <$> base) ++ replicate (8 - length base) ch_space).
    assert (length p = 8%nat) as Hp by (unfold p; rewrite length_app, length_fmap, length_replicate; lia).
    rewrite <- Hp at 1. rewrite short_ext_spec by (done || (rewrite ?Hp; simpl in *; lia)).
    rewrite drop_replicate, <- app_assoc. done.
Qed.

(** The short name has 11 bytes whatever the string. *)
Lemma short_base_length name o out :
  length (snd (short_base name o out)) = length out.
Proof.
  revert o out. induction name as [|c name IH]; intros o out; simpl; [done |].
  destruct (_ && _); [| done]. by rewrite IH, length_insert.
Qed.

Lemma short_ext_length name e out : length (short_ext name e out) = length out.
Proof.
  revert e out. induction name as [|c name IH]; intros e out; simpl; [done |].
  destruct (_ && _); [| done]. by rewrite IH, length_insert.
Qed.

Lemma to_short_name_length name : length (to_short_name name) = 11%nat.
Proof.
  unfold to_short_name. pose proof (short_base_length name 0 (replicate 11 ch_space)) as Hl.
  destruct (short_base _ _ _) as [rest out]. simpl in Hl.
  destruct (_ =? _); [by rewrite short_ext_length | done].
Qed.

Lemma short_base_u8 name o out :
  Forall is_u8 name -> Forall is_u8 out -> Forall is_u8 (snd (short_base name o out)).
Proof.
  intros Hn. revert o out. induction Hn as [|c name Hc Hn IH]; intros o out Ho; simpl; [done |].
  destruct (_ && _); [| done]. apply IH, Forall_insert; auto using to_upper_u8.
Qed.

Lemma short_ext_u8 name e out :
  Forall is_u8 name -> Forall is_u8 out -> Forall is_u8 (short_ext name e out).
Proof.
  intros Hn. revert e out. induction Hn as [|c name Hc Hn IH]; intros e out Ho; simpl; [done |].
  destruct (_ && _); [| done]. apply IH, Forall_insert; auto using to_upper_u8.
Qed.

Lemma short_base_rest name o out : exists k, fst (short_base name o out) = drop k name.
Proof.
  revert o out. induction name as [|c name IH]; intros o out; simpl; [by exists O |].
  destruct (_ && _); [| by exists O]. destruct (IH (S o) (<[o:=to_upper c]> out)) as [k ->].
  by exists (S k).
Qed.

Lemma skip_to_dot_rest name : exists k, skip_to_dot name = drop k name.
Proof.
  induction name as [|c name [k IH]]; simpl; [by exists O |].
  destruct (_ && _); [exists (S k); done | by exists O].
Qed.

Lemma to_short_name_u8 name : Forall is_u8 name -> Forall is_u8 (to_short_name name).
Proof.
  intros Hn. unfold to_short_name.
  assert (Forall is_u8 (replicate 11 ch_space)) as Hr.
  { apply Forall_replicate. unfold is_u8, ch_space. lia. }
  pose proof (short_base_u8 name 0 _ Hn Hr) as Ho.
  destruct (short_base_rest name 0 (replicate 11 ch_space)) as [k Hk].
  destruct (short_base _ _ _) as [rest out]. simpl in Ho, Hk. subst rest.
  destruct (_ =? _); [| done]. apply short_ext_u8; [| done].
  destruct (skip_to_dot_rest (drop k name)) as [j ->]. by do 3 apply Forall_drop.
Qed.

(** ** [format_short_name] and the comparisons *)

Lemma format_raw83 base ext :
  (1 <= length base <= 8)%nat -> (length ext <= 3)%nat ->
  Forall (fun c => c ≠ ch_space) base -> Forall (fun c => c ≠ ch_space) ext ->
  format_short_name (raw83 base ext) = name83 base ext.
Proof.
  intros Hb He Hcb Hce. unfold format_short_name, raw83.
  pose proof (length_pad 8 base ltac:(lia)) as Hlb.
  assert (take 8 (pad 8 base ++ pad 3 ext) = pad 8 base) as ->.
  { rewrite <- Hlb at 1. by rewrite take_app_length. }
  assert (drop 8 (pad 8 base ++ pad 3 ext) = pad 3 ext) as ->.
  { rewrite <- Hlb at 1. by rewrite drop_app_length. }
  rewrite !until_space_pad by done. unfold char_at.
  rewrite lookup_app_r by lia. rewrite Hlb. simpl.
  destruct ext as [|c ext]; simpl; [done |].
  inversion Hce as [|? ? Hc]; subst. by rewrite (proj2 (Z.eqb_neq _ _) Hc).
Qed.

Lemma str_eq_ci_upper a b :
  Forall (fun c => c ≠ 0) a -> Forall (fun c => c ≠ 0) b ->
  str_eq_ci a b = true <-> (to_upper <$> a) = (to_upper <$> b).
Proof.
  intros Ha. revert b. induction Ha as [|c a Hc Ha IH]; intros b Hb.
  - destruct Hb as [|d b Hd Hb]; simpl; [done |]. unfold char_at. simpl.
    rewrite (proj2 (Z.eqb_neq _ _) Hd). split; [done | discriminate].
  - destruct Hb as [|d b Hd Hb]; simpl.
    + unfold char_at. simpl. rewrite (proj2 (Z.eqb_neq _ _) Hc). split; [done | discriminate].
    + unfold truth. rewrite (proj2 (Z.eqb_neq _ _) Hc), (proj2 (Z.eqb_neq _ _) Hd). simpl.
      destruct (Z.eqb_spec (to_upper c) (to_upper d)) as [E | E]; simpl.
      * etransitivity; [apply (IH b Hb) |]. rewrite E.
        split; [intros Hs; f_equal; exact Hs | by intros [=]].
      * split; [done |]. intros [= ? ?]. done.
Qed.

Lemma name_chars_nonspace base ext :
  Forall name_char (base ++ ext) ->
  Forall (fun c => c ≠ ch_space) (to_upper <$> base) /\
  Forall (fun c => c ≠ ch_space) (to_upper <$> ext).
Proof.
  intros [Hb He]%Forall_app. split; apply Forall_fmap; eapply Forall_impl;
    (exact Hb || exact He || (intros c (_ & _ & _ & Hs); by apply to_upper_nonspace)).
Qed.

Lemma name83_fmap f base ext : f ch_dot = ch_dot -> f <$> name83 base ext = name83 (f <$> base) (f <$> ext).
Proof.
  intros Hf. unfold name83. destruct ext; simpl; [done |]. rewrite fmap_app. simpl. by rewrite Hf.
Qed.

Lemma short_name_ok (base ext base' ext' : list Z) :
  valid83 base ext -> valid83 base' ext' ->
  format_short_name (to_short_name (name83 base ext)) = to_upper <$> name83 base ext /\
  to_short_name (format_short_name (to_short_name (name83 base ext)))
    = to_short_name (name83 base ext) /\
  (str_eq_ci (format_short_name (to_short_name (name83 base' ext'))) (name83 base ext) = true <->
   to_short_name (name83 base' ext') = to_short_name (name83 base ext)).
Proof.
  assert (forall b e, valid83 b e ->
    format_short_name (to_short_name (name83 b e)) = to_upper <$> name83 b e) as Hfmt.
  { intros b e [Hb He Hc]. destruct (name_chars_nonspace b e Hc).
    rewrite to_short_name83 by done.
    rewrite format_raw83 by (rewrite ?length_fmap; done). symmetry. by apply name83_fmap. }
  assert (forall b e, valid83 b e -> valid83 (to_upper <$> b) (to_upper <$> e)) as Hup.
  { intros b e [Hb He Hc]. split; rewrite ?length_fmap; try done.
    rewrite <- fmap_app. apply Forall_fmap. eapply Forall_impl; [exact Hc |].
    apply to_upper_char. }
  assert (forall b e, valid83 b e ->
    to_short_name (to_upper <$> name83 b e) = to_short_name (name83 b e)) as Hshort.
  { intros b e Hv. rewrite name83_fmap, !to_short_name83 by auto.
    unfold raw83. f_equal; f_equal; rewrite <- list_fmap_compose;
      apply list_fmap_ext; intros; apply to_upper_idem. }
  assert (forall b e, valid83 b e -> Forall (fun c => c ≠ 0) (name83 b e)) as Hnz.
  { intros b e [_ _ Hc]. apply Forall_app in Hc as [Hb He].
    assert (forall l, Forall name_char l -> Forall (fun c => c ≠ 0) l) as Hl.
    { intros l Hl. eapply Forall_impl; [exact Hl |]. by intros c (_ & ? & _). }
    unfold name83. destruct e; [by apply Hl |]. apply Forall_app. split; [by apply Hl |].
    constructor; [done | by apply Hl]. }
  intros Hv Hv'. split_and!; [by apply Hfmt | by rewrite Hfmt, Hshort |].
  rewrite Hfmt by done. rewrite str_eq_ci_upper.
  - split; intros E.
    + rewrite <- (Hshort base' ext'), <- (Hshort base ext) by done.
      rewrite <- list_fmap_compose in E.
      assert (to_upper <$> name83 base' ext' = to_upper <$> name83 base ext) as ->; [| done].
      rewrite <- E. apply list_fmap_ext. intros; symmetry; apply to_upper_idem.
    + rewrite <- list_fmap_compose.
      rewrite <- (Hfmt base ext), <- E, Hfmt by done. apply list_fmap_ext.
      intros; apply to_upper_idem.
  - rewrite name83_fmap by done. by apply Hnz, Hup.
  - by apply Hnz.
Qed.

(** ** Property *)

(** For an 8.3 name, [format_short_name] of [to_short_name] is the name in
    upper case; the raw entry name is found again from that string; and the
    comparison [fat32_find] makes (formatted, ignoring case) selects exactly
    the entry whose raw name [search_dir] would match. *)
Theorem short_name_roundtrip (base ext base' ext' : list Z) :
  valid83 base ext -> valid83 base' ext' ->
  format_short_name (to_short_name (name83 base ext)) = to_upper <$> name83 base ext /\
  to_short_name (format_short_name (to_short_name (name83 base ext)))
    = to_short_name (name83 base ext) /\
  (str_eq_ci (format_short_name (to_short_name (name83 base' ext'))) (name83 base ext) = true <->
   to_short_name (name83 base' ext') = to_short_name (name83 base ext)).
Proof. apply short_name_ok. Qed.

Lemma short_name_roundtrip_witness :
  (* readme.TXT *)
  format_short_name (to_short_name [114; 101; 97; 100; 109; 101; 46; 84; 88; 84]) =
    [82; 69; 65; 68; 77; 69; 46; 84; 88; 84] /\
  str_eq_ci [82; 69; 65; 68; 77; 69; 46; 84; 88; 84] [114; 101; 97; 100; 109; 101] = false.
Proof.
  assert (valid83 [114; 101; 97; 100; 109; 101] [84; 88; 84]) as Hv.
  { split; [simpl; lia | simpl; lia |].
    repeat constructor; unfold is_u8, ch_dot, ch_space; lia. }
  split; [exact (proj1 (short_name_roundtrip _ _ _ _ Hv Hv)) | reflexivity].
Defined.
