(* ===== verification/FatTable.v ===== *)
(** * FAT32: the file allocation table

    What the FAT routines of [Fat32] do on a well-formed volume over a device
    that works: [next_cluster] with its cache, [set_fat_entry] on every copy,
    [alloc_cluster], and [free_chain] on any chain, cyclic ones included. *)

From S2P Require Import Prelude Memory Interfaces Fat32.

Section Volume.
  Context {D : Type} `{BlockDeviceLaws D}.
  Implicit Types s : fat D.

(** ** Well-formed volumes *)

Record geo_ok (g : geo) (cap : Z) : Prop := GeoOk {
  go_spc : 1 <= sectors_per_cluster g <= 128;
  go_nfats : 1 <= num_fats g < 256;
  go_start : 1 <= fat_start_lba g;
  go_size : 1 <= fat_size g;
  go_data : data_start_lba g = fat_start_lba g + num_fats g * fat_size g;
  go_total : 0 <= total_clusters g;
  go_covers : 4 * (total_clusters g + 2) <= 512 * fat_size g;
  go_cap : data_start_lba g + total_clusters g * sectors_per_cluster g <= cap
}.

(** The bytes of the mounted drive. *)
Definition bytes (s : fat D) : mem := disk (dev s) (drive (fs s)).

(** The FAT cache holds the sector it claims to hold. *)
Definition cache_ok (s : fat D) : Prop :=
  fat_sector_cached_lba s = NO_LBA \/
  (fat_start_lba (fs s) <= fat_sector_cached_lba s < data_start_lba (fs s) /\
   forall i, 0 <= i < 512 ->
     load8 (fat_sector_buf s) i = load8 (bytes s) (512 * fat_sector_cached_lba s + i)).

Record fs_ok (s : fat D) : Prop := FsOk {
  fo_dev : dev_ok (dev s);
  fo_geo : geo_ok (fs s) (capacity (dev s) (drive (fs s)));
  fo_hint : 0 <= alloc_hint s <= total_clusters (fs s) + 2;
  fo_cache : cache_ok s
}.

Definition valid (g : geo) (c : Z) : Prop := 2 <= c < total_clusters g + 2.

(** The entry of a cluster in the first copy of the FAT. *)
Definition fatv (s : fat D) (c : Z) : Z :=
  Z.land (load32 (bytes s) (512 * fat_start_lba (fs s) + 4 * c)) MASK28.

(** Two states of the same mounted volume. *)
Record same_vol (s s' : fat D) : Prop := SameVol {
  sv_fs : fs s' = fs s;
  sv_cwd : cwd_cluster s' = cwd_cluster s;
  sv_mounted : mounted s' = mounted s;
  sv_cap k : capacity (dev s') k = capacity (dev s) k
}.

(** Nothing but caches and buffers changed. *)
Record same_disk (s s' : fat D) : Prop := SameDisk {
  sd_vol : same_vol s s';
  sd_hint : alloc_hint s' = alloc_hint s;
  sd_bytes x : load8 (bytes s') x = load8 (bytes s) x
}.

(** Only the FAT region changed. *)
Definition data_same (s s' : fat D) : Prop :=
  forall x, x < 512 * fat_start_lba (fs s) \/ 512 * data_start_lba (fs s) <= x ->
    load8 (bytes s') x = load8 (bytes s) x.

Lemma same_vol_refl s : same_vol s s.
Proof. done. Qed.

Lemma same_vol_trans s1 s2 s3 : same_vol s1 s2 -> same_vol s2 s3 -> same_vol s1 s3.
Proof. intros [] []. split; [congruence .. |]. intros k. congruence. Qed.

Lemma same_disk_refl s : same_disk s s.
Proof. done. Qed.

Lemma same_disk_trans s1 s2 s3 : same_disk s1 s2 -> same_disk s2 s3 -> same_disk s1 s3.
Proof.
  intros [V1 ? B1] [V2 ? B2]. split; [by eapply same_vol_trans | congruence |].
  intros x. by rewrite B2, B1.
Qed.

Lemma same_disk_fatv s s' c : same_disk s s' -> fatv s' c = fatv s c.
Proof.
  intros [[Hf _ _ _] _ Hb]. unfold fatv. rewrite Hf. f_equal. apply load32_frame. auto.
Qed.

Lemma same_disk_data s s' : same_disk s s' -> data_same s s'.
Proof. intros [_ _ Hb] x _. apply Hb. Qed.

Lemma data_same_refl s : data_same s s.
Proof. by intros x _. Qed.

Lemma data_same_trans s1 s2 s3 :
  same_vol s1 s2 -> data_same s1 s2 -> data_same s2 s3 -> data_same s1 s3.
Proof.
  intros [Hf _ _ _] D1 D2 x Hx. rewrite D2, D1; [done | done |]. by rewrite Hf.
Qed.

(** The arithmetic of a well-formed volume, ready for [lia]. *)
Lemma geo_facts s :
  fs_ok s ->
  let g := fs s in
  1 <= sectors_per_cluster g <= 128 /\ 1 <= num_fats g < 256 /\ 1 <= fat_start_lba g /\
  1 <= fat_size g /\ data_start_lba g = fat_start_lba g + num_fats g * fat_size g /\
  fat_start_lba g + fat_size g <= data_start_lba g /\
  0 <= total_clusters g /\ 4 * (total_clusters g + 2) <= 512 * fat_size g /\
  data_start_lba g + total_clusters g * sectors_per_cluster g
    <= capacity (dev s) (drive g) <= 2 ^ 28 /\
  data_start_lba g <= 2 ^ 28 /\ total_clusters g + 2 < 0x0FFFFFF0.
Proof.
  intros [Hd [] _ _] g. unfold g. pose proof (capacity_lba28 (dev s) (drive (fs s)) Hd).
  assert (fat_size (fs s) <= num_fats (fs s) * fat_size (fs s)) by nia.
  assert (total_clusters (fs s) <= total_clusters (fs s) * sectors_per_cluster (fs s)) by nia.
  repeat split; try lia.
Qed.

(** ** [next_cluster] *)

(** Updating the device after a successful read. *)
Lemma fs_ok_read s d :
  fs_ok s -> dev_ok d -> (forall dr, capacity d dr = capacity (dev s) dr) ->
  (forall dr x, load8 (disk d dr) x = load8 (disk (dev s) dr) x) ->
  fs_ok (set_dev s d) /\ same_disk s (set_dev s d).
Proof.
  intros [Hd Hg Hh Hc] Hd' Hcap Hb. split; [| split; [done | done | intros x; apply Hb]].
  split; [done | by simpl; rewrite Hcap | done |].
  destruct Hc as [Hc | [Hr Hc]]; [by left | right]. split; [done |].
  intros i Hi. simpl. unfold bytes. simpl. rewrite Hb. by apply Hc.
Qed.

Lemma next_cluster_ok s c :
  fs_ok s -> valid (fs s) c ->
  exists s', next_cluster s c = Ret (fatv s c, s') /\ fs_ok s' /\ same_disk s s'.
Proof.
  intros Hok Hv. pose proof (geo_facts s Hok) as Hg. simpl in Hg. unfold valid in Hv.
  unfold next_cluster. rewrite (u32_small (c * 4)) by lia.
  rewrite (u32_small (fat_start_lba (fs s) + c * 4 / 512)) by zdm.
  set (lba := fat_start_lba (fs s) + c * 4 / 512).
  assert (fat_start_lba (fs s) <= lba < data_start_lba (fs s)) as Hlba by (unfold lba; zdm).
  assert (forall buf, (forall i, 0 <= i < 512 -> load8 buf i = load8 (bytes s) (512 * lba + i)) ->
    Z.land (load32 buf (c * 4 mod 512)) 0x0FFFFFFF = fatv s c) as Hval.
  { intros buf Hbuf. unfold fatv. f_equal. apply load32_shift. intros i Hi.
    rewrite Hbuf by zdm. f_equal. unfold lba. zdm. }
  destruct (Z.eqb_spec lba (fat_sector_cached_lba s)) as [E | E]; simpl.
  - exists s. split; [| split; [done | apply same_disk_refl]]. f_equal. f_equal. apply Hval.
    destruct (fo_cache _ Hok) as [Hc | [_ Hc]].
    + unfold NO_LBA in Hc. lia.
    + intros i Hi. rewrite E. by apply Hc.
  - destruct (ata_read_ok (dev s) (drive (fs s)) lba 1 (fat_sector_buf s) (fo_dev _ Hok))
      as (buf & d & -> & Hd & Hbuf & Hcap & Hb); [lia | lia | lia |].
    cbn [obind]. destruct (fs_ok_read s d Hok Hd Hcap Hb) as [Hok' Hsame]. cbn.
    eexists. split; [f_equal; f_equal; apply Hval |].
    + intros i Hi. rewrite Hbuf, decide_True by lia. done.
    + split; [| split; [done | done | intros x; apply Hb]].
      destruct Hok' as [? ? ? _]. split; [done | done | done |]. right. split; [exact Hlba |].
      intros i Hi. simpl. rewrite Hbuf, decide_True by lia. unfold bytes. simpl. by rewrite Hb.
Qed.

(** ** [set_fat_entry] *)

(** The word [set_fat_entry] stores over [w]. *)
Definition new_word (w value : Z) : Z :=
  Z.lor (Z.land w 0xF0000000) (Z.land value 0x0FFFFFFF).

Lemma new_word_u32 w value : is_u32 w -> is_u32 (new_word w value).
Proof.
  intros Hw. unfold new_word. apply is_u32_lor; [auto with cint |].
  apply is_u32_land_r. unfold is_u32. lia.
Qed.

Lemma new_word_low w value : Z.land (new_word w value) MASK28 = Z.land value MASK28.
Proof.
  unfold new_word, MASK28. rewrite Z.land_lor_distr_l, <- !Z.land_assoc.
  change (Z.land 0xF0000000 0xFFFFFFF) with 0. change (Z.land 0xFFFFFFF 0xFFFFFFF) with 0xFFFFFFF.
  by rewrite Z.land_0_r.
Qed.

(** The top four bits, which the FAT reserves, are kept. *)
Lemma new_word_high w value : Z.land (new_word w value) 0xF0000000 = Z.land w 0xF0000000.
Proof.
  unfold new_word. rewrite Z.land_lor_distr_l, <- !Z.land_assoc.
  change (Z.land 0xFFFFFFF 0xF0000000) with 0. change (Z.land 0xF0000000 0xF0000000) with 0xF0000000.
  by rewrite Z.land_0_r, Z.lor_0_r.
Qed.

(** The byte address of the entry of [c] in copy [f]. *)
Definition entry_addr (g : geo) (f c : Z) : Z :=
  512 * (fat_start_lba g + f * fat_size g) + 4 * c.

Definition in_entry (g : geo) (f c x : Z) : Prop := entry_addr g f c <= x < entry_addr g f c + 4.

Definition fat_word (s : fat D) (f c : Z) : Z := load32 (bytes s) (entry_addr (fs s) f c).

Lemma copy_lba s f c :
  fs_ok s -> valid (fs s) c -> 0 <= f < num_fats (fs s) ->
  let lba := fat_start_lba (fs s) + f * fat_size (fs s) + c * 4 / 512 in
  u32 (c * 4) = c * 4 /\
  u32 (fat_start_lba (fs s) + u32 (f * fat_size (fs s)) + c * 4 / 512) = lba /\
  fat_start_lba (fs s) <= lba < data_start_lba (fs s) /\
  512 * lba + c * 4 mod 512 = entry_addr (fs s) f c.
Proof.
  intros Hok Hv Hf lba. pose proof (geo_facts s Hok) as Hg. simpl in Hg. unfold valid in Hv.
  pose proof (mul_step f (num_fats (fs s)) (fat_size (fs s)) ltac:(lia) ltac:(lia)).
  pose proof (Z.mul_nonneg_nonneg f (fat_size (fs s)) ltac:(lia) ltac:(lia)).
  unfold lba, entry_addr. rewrite (u32_small (c * 4)), (u32_small (f * fat_size (fs s))) by lia.
  rewrite u32_small by zdm. repeat split; zdm.
Qed.

(** A state that is well formed but for its FAT cache. *)
Definition no_cache_ok (s : fat D) : Prop := fs_ok (set_cached s NO_LBA).

Lemma fs_ok_no_cache s : fs_ok s -> no_cache_ok s.
Proof. intros []. split; [done | done | done | by left]. Qed.

(** One copy of the FAT. *)
Lemma set_fat_copy n s f c value :
  no_cache_ok s -> valid (fs s) c -> 0 <= f < num_fats (fs s) ->
  exists s1, set_fat_copies (S n) f s c value = set_fat_copies n (f + 1) s1 c value /\
    same_vol s s1 /\ alloc_hint s1 = alloc_hint s /\ cluster_buf s1 = cluster_buf s /\
    dev_ok (dev s1) /\ (forall dr, capacity (dev s1) dr = capacity (dev s) dr) /\
    fat_word s1 f c = new_word (fat_word s f c) value /\
    forall x, x < entry_addr (fs s) f c \/ entry_addr (fs s) f c + 4 <= x ->
      load8 (bytes s1) x = load8 (bytes s) x.
Proof.
  intros Hok Hv Hf. destruct (copy_lba (set_cached s NO_LBA) f c Hok Hv Hf) as (E1 & E2 & Hlba & Ha).
  cbn [set_cached fs] in E1, E2, Hlba, Ha.
  pose proof (geo_facts (set_cached s NO_LBA) Hok) as Hg. cbn [set_cached fs dev] in Hg.
  cbv zeta in Hg.
  set (lba := fat_start_lba (fs s) + f * fat_size (fs s) + c * 4 / 512) in *.
  set (off := c * 4 mod 512) in *. assert (0 <= off <= 508) as Hoff by (unfold off; zdm).
  cbn [set_fat_copies]. rewrite E1, E2.
  destruct (ata_read_ok (dev s) (drive (fs s)) lba 1 ∅ (fo_dev _ Hok))
    as (buf & d & -> & Hd & Hbuf & Hcap & Hb); [lia | lia | lia |].
  cbn [obind]. change (0 <? 0) with false. cbn [set_dev dev fs].
  set (w := load32 buf off).
  assert (w = fat_word s f c) as Hw.
  { apply load32_shift. intros i Hi. rewrite Hbuf, decide_True by lia.
    unfold bytes. f_equal. lia. }
  fold off. fold w. fold (new_word w value).
  destruct (ata_write_ok d (drive (fs s)) lba 1 (store32 buf off (new_word w value)) Hd)
    as (d2 & -> & Hd2 & Hcap2 & Hb2); [lia | lia | rewrite Hcap; lia |].
  cbn [obind]. change (0 <? 0) with false.
  eexists. split; [reflexivity |]. rewrite <- Hw. split_and!; try done.
  - split; try done. intros dr. cbn. by rewrite Hcap2, Hcap.
  - intros dr. cbn. by rewrite Hcap2, Hcap.
  - unfold fat_word, bytes. cbn [dev set_dev fs].
    transitivity (load32 (store32 buf off (new_word w value)) off).
    + apply load32_shift. intros i Hi. rewrite Hb2, decide_True by lia. f_equal. lia.
    + rewrite load32_store32_same. apply u32_small, new_word_u32, load32_range.
  - intros x Hx. unfold bytes. cbn [dev set_dev fs]. rewrite Hb2.
    case_decide as Hin; [| apply Hb].
    rewrite load8_store32_out by lia. rewrite Hbuf, decide_True by lia.
    f_equal. lia.
Qed.

Lemma set_fat_copies_ok n f s c value :
  no_cache_ok s -> valid (fs s) c -> 0 <= f -> f + Z.of_nat n = num_fats (fs s) ->
  exists s', set_fat_copies n f s c value = Ret (0, s') /\ same_vol s s' /\
    alloc_hint s' = alloc_hint s /\ fat_sector_cached_lba s' = NO_LBA /\
    cluster_buf s' = cluster_buf s /\
    dev_ok (dev s') /\ (forall dr, capacity (dev s') dr = capacity (dev s) dr) /\
    (forall k, f <= k < num_fats (fs s) ->
       fat_word s' k c = new_word (fat_word s k c) value) /\
    (forall x, (forall k, f <= k < num_fats (fs s) ->
       x < entry_addr (fs s) k c \/ entry_addr (fs s) k c + 4 <= x) ->
       load8 (bytes s') x = load8 (bytes s) x).
Proof.
  revert f s. induction n as [|n IH]; intros f s Hok Hv Hf Hn.
  - exists (set_cached s NO_LBA). split_and!; try done; try lia. apply (fo_dev _ Hok).
  - destruct (set_fat_copy n s f c value) as
      (s1 & -> & V1 & Hh1 & Hcb1 & Hd1 & Hcap1 & Hw1 & Hb1); [done | done | lia |].
    pose proof (sv_fs _ _ V1) as Hfs.
    assert (no_cache_ok s1) as Hok1.
    { destruct Hok as [_ Hg Hhint _]. cbn in Hg, Hhint. split; cbn.
      - done.
      - by rewrite Hfs, Hcap1.
      - by rewrite Hh1, Hfs.
      - by left. }
    destruct (IH (f + 1) s1 Hok1) as
      (s' & -> & V2 & Hh2 & Hca & Hcb2 & Hd2 & Hcap2 & Hw2 & Hb2);
      [by rewrite Hfs | lia | rewrite Hfs; lia |].
    exists s'.
    assert (forall k, f < k -> entry_addr (fs s) f c + 4 <= entry_addr (fs s) k c) as Hdis.
    { intros k Hk. pose proof (geo_facts (set_cached s NO_LBA) Hok) as Hg. cbn [set_cached fs dev] in Hg.
  cbv zeta in Hg.
      unfold entry_addr. nia. }
    split; [done |]. split; [by eapply same_vol_trans |].
    split_and!; try done; try congruence.
    + intros k Hk. destruct (decide (k = f)) as [-> | Hne].
      * rewrite <- Hw1. unfold fat_word. rewrite (sv_fs _ _ V2), Hfs. apply load32_frame. intros x Hx. apply Hb2.
        rewrite Hfs. intros k Hk'. specialize (Hdis k). lia.
      * rewrite Hw2 by (rewrite Hfs; lia). f_equal. unfold fat_word. rewrite Hfs.
        apply load32_frame. intros x Hx. apply Hb1. specialize (Hdis k). lia.
    + intros x Hx. rewrite Hb2; [apply Hb1, Hx; lia |].
      intros k Hk. rewrite Hfs in *. apply Hx. lia.
Qed.

(** The whole operation: every copy is updated, no other entry changes, the
    cache is dropped. *)
Lemma set_fat_entry_ok s c value :
  fs_ok s -> valid (fs s) c ->
  exists s', set_fat_entry s c value = Ret (0, s') /\ fs_ok s' /\ same_vol s s' /\
    alloc_hint s' = alloc_hint s /\ data_same s s' /\
    (forall c', valid (fs s) c' ->
       fatv s' c' = if decide (c' = c) then Z.land value MASK28 else fatv s c') /\
    (forall f c', 0 <= f < num_fats (fs s) -> valid (fs s) c' ->
       fat_word s' f c' = if decide (c' = c) then new_word (fat_word s f c) value
                          else fat_word s f c') /\
    (forall x, (forall f, 0 <= f < num_fats (fs s) -> ~ in_entry (fs s) f c x) ->
       load8 (bytes s') x = load8 (bytes s) x).
Proof.
  intros Hok Hv. pose proof (geo_facts s Hok) as Hg. simpl in Hg.
  destruct (set_fat_copies_ok (Z.to_nat (num_fats (fs s))) 0 s c value) as
    (s' & Hs & V & Hh & Hca & _ & Hd & Hcap & Hw & Hb);
    [by apply fs_ok_no_cache | done | lia | lia |].
  exists s'. split; [done |].
  assert (fs_ok s') as Hok'.
  { destruct Hok as [_ Hgeo Hhint _]. destruct V as [Hfs _ _ _]. split.
    - done.
    - rewrite Hfs, Hcap. done.
    - by rewrite Hfs, Hh.
    - by left. }
  assert (forall f c', 0 <= f < num_fats (fs s) -> valid (fs s) c' ->
    fat_word s' f c' = if decide (c' = c) then new_word (fat_word s f c) value
                       else fat_word s f c') as Hwords.
  { intros f c' Hf Hv'. case_decide as E; [subst c'; apply Hw; lia |].
    unfold fat_word. rewrite (sv_fs _ _ V). apply load32_frame.
    intros x Hx. apply Hb. intros k Hk. unfold entry_addr, valid in *.
    destruct (decide (k = f)) as [-> |]; [lia |].
    pose proof (mul_step k f (fat_size (fs s))). pose proof (mul_step f k (fat_size (fs s))).
    lia. }
  split_and!; try done.
  - intros x Hx. apply Hb. intros k Hk. unfold entry_addr, valid in *.
    pose proof (Z.mul_nonneg_nonneg k (fat_size (fs s))).
    pose proof (mul_step k (num_fats (fs s)) (fat_size (fs s))). lia.
  - intros c' Hv'. specialize (Hwords 0 c' ltac:(lia) Hv').
    unfold fat_word, entry_addr in Hwords. rewrite (sv_fs _ _ V), Z.mul_0_l, Z.add_0_r in Hwords.
    unfold fatv. rewrite (sv_fs _ _ V), Hwords.
    case_decide; [| done]. apply new_word_low.
  - intros x Hx. apply Hb. intros k Hk. specialize (Hx k Hk). unfold in_entry in Hx. lia.
Qed.

(** ** Chains *)

(** [chain s c l]: following the FAT from [c] visits the valid clusters [l]
    and then stops, at an end mark or at a value below 2. *)
Fixpoint chain (s : fat D) (c : Z) (l : list Z) : Prop :=
  match l with
  | [] => in_chain c = false
  | x :: l' => x = c /\ valid (fs s) c /\ chain s (fatv s c) l'
  end.

Lemma valid_in_chain s c : fs_ok s -> valid (fs s) c -> in_chain c = true.
Proof.
  intros Hok Hv. pose proof (geo_facts s Hok) as Hg. simpl in Hg. unfold valid in Hv.
  unfold in_chain, is_eoc. change 0x0FFFFFFF with (2 ^ 28 - 1).
  rewrite land_mask, Z.mod_small by lia.
  apply andb_true_iff. split; [apply negb_true_iff, Z.leb_gt | apply Z.leb_le]; lia.
Qed.

Lemma chain_ext s s' c l :
  fs s' = fs s -> (forall x, x ∈ l -> fatv s' x = fatv s x) -> chain s c l -> chain s' c l.
Proof.
  intros Hf. revert c. induction l as [|x l IH]; simpl; intros c He Hc; [done |].
  destruct Hc as (-> & Hv & Hc). rewrite Hf, He by left.
  split_and!; [done | done |]. apply IH; [| done]. intros y Hy. apply He. by right.
Qed.

Lemma chain_valid s c l x : chain s c l -> x ∈ l -> valid (fs s) x.
Proof.
  revert c. induction l as [|y l IH]; simpl; intros c Hc Hx; [by apply not_elem_of_nil in Hx |].
  destruct Hc as (-> & Hv & Hc). apply elem_of_cons in Hx as [-> | Hx]; [done | by eapply IH].
Qed.

Lemma chain_det s c l1 l2 : fs_ok s -> chain s c l1 -> chain s c l2 -> l1 = l2.
Proof.
  intros Hok. revert c l2. induction l1 as [|x l1 IH]; intros c [|y l2]; simpl; intros H1 H2;
    [done | | |].
  - destruct H2 as (_ & Hv & _). by rewrite (valid_in_chain s c Hok Hv) in H1.
  - destruct H1 as (_ & Hv & _). by rewrite (valid_in_chain s c Hok Hv) in H2.
  - destruct H1 as (-> & _ & H1), H2 as (-> & _ & H2). f_equal. by eapply IH.
Qed.

Lemma chain_suffix s c l1 x l2 : chain s c (l1 ++ x :: l2) -> chain s x (x :: l2).
Proof.
  revert c. induction l1 as [|y l1 IH]; simpl; intros c.
  - intros (-> & ? & ?). done.
  - intros (_ & _ & Hc). by eapply IH.
Qed.

(** A chain that ends visits no cluster twice. *)
Lemma chain_NoDup s c l : fs_ok s -> chain s c l -> NoDup l.
Proof.
  intros Hok. revert c. induction l as [|x l IH]; intros c Hc; [constructor |].
  pose proof Hc as (-> & Hv & Hc'). constructor; [| by eapply IH].
  intros (l1 & l2 & ->)%list_elem_of_split.
  pose proof (chain_suffix s _ l1 c l2 Hc') as Hs.
  pose proof (chain_det s c _ _ Hok Hc Hs) as E. apply (f_equal length) in E.
  simpl in E. rewrite length_app in E. simpl in E. lia.
Qed.

(** ** [alloc_cluster] *)

(** The [i]-th cluster the search looks at, starting from the hint and
    wrapping around at the end of the volume. *)
Definition candidate (s : fat D) (i : Z) : Z :=
  let c := alloc_hint s + i in
  if total_clusters (fs s) + 2 <=? c then 2 + (c - (total_clusters (fs s) + 2)) else c.

Lemma candidate_valid s i :
  2 <= alloc_hint s <= total_clusters (fs s) + 2 -> 0 <= i < total_clusters (fs s) ->
  valid (fs s) (candidate s i).
Proof. intros. unfold candidate, valid. case_ltb; lia. Qed.

Lemma candidate_surj s c :
  2 <= alloc_hint s <= total_clusters (fs s) + 2 -> valid (fs s) c ->
  exists i, 0 <= i < total_clusters (fs s) /\ candidate s i = c.
Proof.
  intros Hh Hv. unfold candidate, valid in *.
  exists (if alloc_hint s <=? c then c - alloc_hint s
          else c + total_clusters (fs s) - alloc_hint s).
  repeat case_ltb; lia.
Qed.

(** [c] was free and is now the end of a chain. *)
Record allocated (s : fat D) (c : Z) (s' : fat D) : Prop := Allocated {
  al_valid : valid (fs s) c;
  al_free : fatv s c = 0;
  al_ok : fs_ok s';
  al_vol : same_vol s s';
  al_data : data_same s s';
  al_hint : alloc_hint s' = c + 1;
  al_fat c' : valid (fs s) c' -> fatv s' c' = if decide (c' = c) then EOC else fatv s c'
}.

Lemma allocated_pre s s1 c s' : same_disk s s1 -> allocated s1 c s' -> allocated s c s'.
Proof.
  intros Hs []. pose proof (sd_vol _ _ Hs) as V. pose proof (sv_fs _ _ V) as Hf.
  split.
  - by rewrite <- Hf.
  - by rewrite <- (same_disk_fatv s s1).
  - done.
  - by eapply same_vol_trans.
  - by eapply data_same_trans; [exact V | apply same_disk_data |].
  - done.
  - intros c' Hv. rewrite al_fat0 by (by rewrite Hf). case_decide; [done |].
    by apply same_disk_fatv.
Qed.

Lemma alloc_loop_ok n i s :
  fs_ok s -> 2 <= alloc_hint s -> 0 <= i -> i + Z.of_nat n = total_clusters (fs s) ->
  (exists k s', i <= k < total_clusters (fs s) /\
     alloc_loop n i (total_clusters (fs s) + 2) s = Ret (candidate s k, s') /\
     (forall j, i <= j < k -> fatv s (candidate s j) ≠ 0) /\ allocated s (candidate s k) s') \/
  (exists s', alloc_loop n i (total_clusters (fs s) + 2) s = Ret (0, s') /\
     fs_ok s' /\ same_disk s s' /\
     forall j, i <= j < total_clusters (fs s) -> fatv s (candidate s j) ≠ 0).
Proof.
  revert i s. induction n as [|n IH]; intros i s Hok Hh Hi Hn.
  { right. exists s. split_and!; [done | done | apply same_disk_refl | lia]. }
  pose proof (geo_facts s Hok) as Hg. simpl in Hg. pose proof (fo_hint _ Hok) as Hhint.
  assert (valid (fs s) (candidate s i)) as Hv by (apply candidate_valid; lia).
  cbn [alloc_loop]. rewrite (u32_small (alloc_hint s + i)) by lia.
  assert ((if total_clusters (fs s) + 2 <=? alloc_hint s + i
           then u32 (2 + (alloc_hint s + i - (total_clusters (fs s) + 2)))
           else alloc_hint s + i) = candidate s i) as ->.
  { unfold candidate. case_ltb; [| done]. apply u32_small. lia. }
  destruct (next_cluster_ok s (candidate s i) Hok Hv) as (s1 & -> & Hok1 & Hs1).
  cbn [obind]. pose proof (sd_vol _ _ Hs1) as V1. pose proof (sv_fs _ _ V1) as Hf1.
  assert (forall j, candidate s1 j = candidate s j) as Hcand.
  { intros j. unfold candidate. by rewrite Hf1, (sd_hint _ _ Hs1). }
  destruct (Z.eqb_spec (fatv s (candidate s i)) 0) as [Hz | Hnz].
  - left. destruct (set_fat_entry_ok s1 (candidate s i) 0x0FFFFFFF Hok1)
      as (s2 & -> & Hok2 & V2 & Hh2 & Hd2 & Hf2 & _); [by rewrite Hf1 |].
    cbn [obind]. change (0 <? 0) with false. rewrite (u32_small (candidate s i + 1))
      by (unfold valid in Hv; lia).
    exists i. eexists. split; [lia |]. split; [reflexivity |]. split; [lia |].
    apply (allocated_pre s s1); [done |]. split.
    + by rewrite Hf1.
    + by rewrite (same_disk_fatv s s1).
    + destruct Hok2 as [? ? ? Hc2]. pose proof (sv_fs _ _ V2) as E2. split; [done | done | | done].
      simpl. rewrite E2, Hf1. unfold valid in Hv. lia.
    + destruct V2. by split.
    + exact Hd2.
    + done.
    + intros c' Hc'. exact (Hf2 c' Hc').
  - destruct (IH (i + 1) s1 Hok1) as [(k & s' & Hk & Hr & Hfirst & Ha) | (s' & Hr & Hok' & Hs' & Hall)].
    + rewrite (sd_hint _ _ Hs1). lia.
    + lia.
    + rewrite Hf1. lia.
    + left. exists k, s'. rewrite Hf1, !Hcand in *. split_and!; [lia | lia | done | |].
      * intros j Hj. destruct (decide (j = i)) as [-> | Hne]; [done |].
        rewrite <- (same_disk_fatv s s1), <- Hcand by done. apply Hfirst. lia.
      * by eapply allocated_pre.
    + right. exists s'. rewrite Hf1 in *.
      split_and!; [done | done | by eapply same_disk_trans |].
      intros j Hj. destruct (decide (j = i)) as [-> | Hne]; [done |].
      rewrite <- (same_disk_fatv s s1), <- Hcand by done. apply Hall. lia.
Qed.

Lemma set_hint_ok s h :
  fs_ok s -> 0 <= h <= total_clusters (fs s) + 2 -> fs_ok (set_hint s h).
Proof. intros []. by split. Qed.

Lemma alloc_cluster_ok s :
  fs_ok s ->
  (exists c s', alloc_cluster s = Ret (c, s') /\ allocated s c s') \/
  (exists s', alloc_cluster s = Ret (0, s') /\ fs_ok s' /\ same_vol s s' /\
     (forall x, load8 (bytes s') x = load8 (bytes s) x) /\
     forall c, valid (fs s) c -> fatv s c ≠ 0).
Proof.
  intros Hok. pose proof (geo_facts s Hok) as Hg. simpl in Hg. pose proof (fo_hint _ Hok).
  unfold alloc_cluster. destruct (Z.eqb_spec (total_clusters (fs s)) 0) as [Hz | Hnz].
  { right. exists s. split_and!; try done. intros c Hc. unfold valid in Hc. lia. }
  rewrite u32_small by lia.
  set (s0 := if alloc_hint s <? 2 then set_hint s 2 else s).
  assert (fs_ok s0 /\ 2 <= alloc_hint s0 /\ fs s0 = fs s) as (Hok0 & Hh0 & Hf0).
  { unfold s0. case_ltb; [| split_and!; done].
    split_and!; [apply set_hint_ok; [done | lia] | simpl; lia | done]. }
  assert (forall c s', allocated s0 c s' -> allocated s c s') as Hpre.
  { intros c s'. unfold s0. case_ltb; [| done]. intros []. split; try done. by destruct al_vol0; split. }
  assert (forall c, fatv s0 c = fatv s c) as Hfv by (intros c; unfold s0; by case_ltb).
  rewrite <- Hf0.
  destruct (alloc_loop_ok (Z.to_nat (total_clusters (fs s0))) 0 s0) as
    [(k & s' & Hk & Hr & _ & Ha) | (s' & Hr & Hok' & Hs' & Hall)];
    [done | done | lia | rewrite Hf0; lia | |].
  - left. eauto.
  - right. exists s'. split_and!; [done | done | | |].
    + pose proof (sd_vol _ _ Hs') as V. revert V. unfold s0. case_ltb; intros []; by split.
    + intros x. rewrite (sd_bytes _ _ Hs'). unfold s0. by case_ltb.
    + intros c Hc. pose proof (fo_hint _ Hok0).
      destruct (candidate_surj s0 c) as (i & Hi & <-); [lia | done |].
      rewrite <- Hfv. by apply Hall.
Qed.

(** ** [free_chain] *)

(** Of the drive's bytes, the entries of the clusters [l] are 0 but for their
    reserved bits, in every copy of the FAT, and every other byte is as it
    was. *)
Record freed (s : fat D) (l : list Z) (s' : fat D) : Prop := Freed {
  fr_entry f c : 0 <= f < num_fats (fs s) -> c ∈ l -> fat_word s' f c = Z.land (fat_word s f c) 0xF0000000;
  fr_out x : (forall f c, 0 <= f < num_fats (fs s) -> c ∈ l -> ~ in_entry (fs s) f c x) ->
    load8 (bytes s') x = load8 (bytes s) x
}.

Lemma freed_nil s : freed s [] s.
Proof. split; [by intros f c _ ?%not_elem_of_nil | done]. Qed.

(** A word outside the entries of [l]. *)
Lemma freed_word s l s' f c : fs_ok s -> freed s l s' -> fs s' = fs s -> (forall y, y ∈ l -> valid (fs s) y) ->
  valid (fs s) c -> c ∉ l -> 0 <= f < num_fats (fs s) -> fat_word s' f c = fat_word s f c.
Proof.
  intros Hok Hfr Hfs Hl Hc Hcl Hf. pose proof (geo_facts s Hok) as Hg. simpl in Hg. unfold fat_word. rewrite Hfs.
  apply load32_frame. intros x Hx. apply (fr_out _ _ _ Hfr). intros k y Hk Hy Hin.
  assert (y ≠ c) by (intros ->; done). specialize (Hl y Hy). unfold in_entry, entry_addr, valid in *.
  destruct (decide (k = f)) as [-> |]; [lia |].
  pose proof (mul_step k f (fat_size (fs s))). pose proof (mul_step f k (fat_size (fs s))). lia.
Qed.

Lemma freed_cons s c s1 l s2 : fs_ok s -> fs s1 = fs s -> valid (fs s) c -> (forall y, y ∈ l -> valid (fs s) y) -> c ∉ l ->
  fs s2 = fs s -> fs_ok s1 -> freed s [c] s1 -> freed s1 l s2 -> freed s (c :: l) s2.
Proof.
  intros Hok F1 Hc Hl Hn F2 Hok1 H1 H2. split.
  - intros f y Hf [-> | Hy]%elem_of_cons.
    + rewrite (freed_word s1 l s2) by (rewrite ?F1; done || congruence). apply (fr_entry _ _ _ H1); [done | left].
    + rewrite (fr_entry _ _ _ H2) by (rewrite ?F1; done). f_equal. apply (freed_word s [c]); try done.
      * intros z ->%list_elem_of_singleton. done.
      * by apply Hl.
      * intros ->%list_elem_of_singleton. done.
  - intros x Hx. rewrite (fr_out _ _ _ H2).
    + apply (fr_out _ _ _ H1). intros f y Hf ->%list_elem_of_singleton. apply Hx; [done | left].
    + rewrite F1. intros f y Hf Hy. apply Hx; [done | by right].
Qed.

Lemma freed_pre s s1 l s' : same_disk s s1 -> freed s1 l s' -> freed s l s'.
Proof.
  intros Hs [Hw Ho]. pose proof (sv_fs _ _ (sd_vol _ _ Hs)) as F.
  assert (forall f c, fat_word s1 f c = fat_word s f c) as E.
  { intros f c. unfold fat_word. rewrite F. apply load32_frame. intros x _. apply Hs. }
  split; [intros f c; rewrite <- E, <- F; apply Hw |]. intros x. rewrite <- (sd_bytes _ _ Hs), <- F. apply Ho.
Qed.

Lemma free_chain_step fuel s c :
  fs_ok s -> valid (fs s) c ->
  exists s', free_chain (S fuel) s c = free_chain fuel s' (fatv s c) /\ fs_ok s' /\
    same_vol s s' /\ alloc_hint s' = alloc_hint s /\ data_same s s' /\
    (forall c', valid (fs s) c' -> fatv s' c' = if decide (c' = c) then 0 else fatv s c') /\
    freed s [c] s'.
Proof.
  intros Hok Hv. cbn [free_chain].
  pose proof (valid_in_chain s c Hok Hv) as Hin. unfold in_chain in Hin.
  rewrite andb_comm, Hin.
  destruct (next_cluster_ok s c Hok Hv) as (s1 & -> & Hok1 & Hs1). cbn [obind].
  pose proof (sd_vol _ _ Hs1) as V1. pose proof (sv_fs _ _ V1) as Hf1.
  destruct (set_fat_entry_ok s1 c 0 Hok1) as (s2 & -> & Hok2 & V2 & Hh2 & Hd2 & Hf2 & Hw2 & Ho2);
    [by rewrite Hf1 |].
  cbn [obind]. exists s2. split_and!; [done | done | by eapply same_vol_trans | | | |].
  - by rewrite Hh2, (sd_hint _ _ Hs1).
  - eapply data_same_trans; [exact V1 | by apply same_disk_data | done].
  - intros c' Hc'. rewrite Hf2 by (by rewrite Hf1). case_decide; [done |].
    by apply same_disk_fatv.
  - apply (freed_pre s s1); [done |]. split.
    + intros f x Hf ->%list_elem_of_singleton. rewrite Hw2, decide_True by (rewrite ?Hf1; done || by rewrite <- Hf1).
      unfold new_word. by rewrite Z.land_0_l, Z.lor_0_r.
    + intros x Hx. apply Ho2. intros f Hf. apply (Hx f c Hf). left.
Qed.

Lemma free_chain_stop fuel s c : in_chain c = false -> free_chain fuel s c = Ret s.
Proof. unfold in_chain. rewrite andb_comm. intros E. destruct fuel; simpl; by rewrite E. Qed.

Lemma free_chain_ok fuel s c l :
  fs_ok s -> chain s c l -> (length l <= fuel)%nat ->
  exists s', free_chain fuel s c = Ret s' /\ fs_ok s' /\ same_vol s s' /\
    alloc_hint s' = alloc_hint s /\ data_same s s' /\
    (forall c', valid (fs s) c' -> fatv s' c' = if decide (c' ∈ l) then 0 else fatv s c') /\
    freed s l s'.
Proof.
  revert fuel s c. induction l as [|x l IH]; intros fuel s c Hok Hc Hf.
  - rewrite free_chain_stop by done. exists s. split_and!; try done; apply freed_nil.
  - destruct fuel as [|fuel]; simpl in Hf; [lia |].
    pose proof (chain_NoDup s c _ Hok Hc) as [Hnd _]%NoDup_cons.
    destruct Hc as (-> & Hv & Hc).
    destruct (free_chain_step fuel s c Hok Hv) as (s1 & -> & Hok1 & V1 & Hh1 & Hd1 & Hf1 & Hr1).
    destruct (IH fuel s1 (fatv s c) Hok1) as (s2 & -> & Hok2 & V2 & Hh2 & Hd2 & Hf2 & Hr2); [| lia |].
    + eapply chain_ext; [apply (sv_fs _ _ V1) | | exact Hc].
      intros y Hy. rewrite Hf1 by (by eapply chain_valid). case_decide; [by subst | done].
    + exists s2. split_and!; [done | done | by eapply same_vol_trans | congruence |
        by eapply data_same_trans | |].
      * intros c' Hc'. rewrite Hf2 by (by rewrite (sv_fs _ _ V1)). rewrite Hf1 by done.
        destruct (decide (c' ∈ l)), (decide (c' = c)), (decide (c' ∈ c :: l)); try done;
          rewrite elem_of_cons in *; tauto.
      * pose proof (sv_fs _ _ V1) as F1. apply (freed_cons s c s1); try done.
        -- intros y. by apply (chain_valid s (fatv s c)).
        -- by rewrite (sv_fs _ _ V2).
Qed.

(** Termination on any FAT whose links stay inside the volume. *)
Definition links_valid (s : fat D) : Prop :=
  forall c, valid (fs s) c -> in_chain (fatv s c) = true -> valid (fs s) (fatv s c).

(** The clusters in use. *)
Definition used_clusters (s : fat D) : list Z :=
  filter (fun c => fatv s c ≠ 0) (seqZ 2 (total_clusters (fs s))).

Lemma filter_shorter {A} (P Q : A -> Prop) `{!forall x, Decision (P x)} `{!forall x, Decision (Q x)}
    (l : list A) x :
  (forall y, y ∈ l -> Q y -> P y) -> x ∈ l -> P x -> ~ Q x ->
  (length (filter Q l) < length (filter P l))%nat.
Proof.
  intros HQP Hx HP HQ.
  assert (forall l', (forall y, y ∈ l' -> Q y -> P y) ->
    (length (filter Q l') <= length (filter P l'))%nat) as Hle.
  { induction l' as [|y l' IH]; intros Hl; [done |]. rewrite !filter_cons.
    specialize (IH (fun z Hz => Hl z (list_elem_of_further _ _ _ Hz))).
    pose proof (Hl y (list_elem_of_here _ _)).
    repeat case_decide; simpl; try lia. tauto. }
  apply list_elem_of_split in Hx as (l1 & l2 & ->).
  rewrite !filter_app, !length_app, !filter_cons, decide_False, decide_True by done. simpl.
  pose proof (Hle l1 ltac:(intros y Hy; apply HQP; apply elem_of_app; by left)).
  pose proof (Hle l2 ltac:(intros y Hy; apply HQP; apply elem_of_app; right; by right)). lia.
Qed.

Lemma free_chain_total fuel s c :
  fs_ok s -> links_valid s -> (in_chain c = true -> valid (fs s) c) ->
  (length (used_clusters s) < fuel)%nat ->
  exists s', free_chain fuel s c = Ret s' /\ fs_ok s' /\ data_same s s' /\
    forall c', valid (fs s) c' -> fatv s' c' = fatv s c' \/ fatv s' c' = 0.
Proof.
  revert s c. induction fuel as [|fuel IH]; intros s c Hok Hl Hc Hf; [lia |].
  destruct (in_chain c) eqn:Ein; [| rewrite free_chain_stop by done; eauto 10 using data_same_refl].
  specialize (Hc eq_refl).
  destruct (free_chain_step fuel s c Hok Hc) as (s1 & -> & Hok1 & V1 & _ & Hd1 & Hf1 & _).
  pose proof (sv_fs _ _ V1) as E1.
  destruct (decide (fatv s c = 0)) as [Hz | Hnz].
  { rewrite Hz, free_chain_stop by done. exists s1. split_and!; try done.
    intros c' Hc'. rewrite Hf1 by done. case_decide; auto. }
  destruct (IH s1 (fatv s c) Hok1) as (s2 & -> & Hok2 & Hd2 & Hf2).
  - intros x Hx. rewrite E1 in *. rewrite Hf1 by done. case_decide; [done | by apply Hl].
  - intros Hin. rewrite E1. by apply Hl.
  - enough (length (used_clusters s1) < length (used_clusters s))%nat by lia.
    unfold used_clusters. rewrite E1. apply (filter_shorter _ _ _ c).
    + intros y Hy. apply elem_of_seqZ in Hy. rewrite Hf1 by (unfold valid; lia).
      case_decide; [by intros [] | done].
    + apply elem_of_seqZ. unfold valid in Hc. lia.
    + done.
    + rewrite Hf1, decide_True by done. tauto.
  - exists s2. split_and!; [done | done | by eapply data_same_trans |].
    intros c' Hc'. destruct (Hf2 c') as [-> | ->]; [by rewrite E1 | | auto].
    rewrite Hf1 by done. case_decide; auto.
Qed.

(** ** Properties *)

(** An entry written to the FAT is read back, masked to its 28 bits, by
    [next_cluster], whatever the cache held; no other entry changes, the
    four reserved bits are kept, every copy of the FAT gets the same update,
    and no byte outside the FAT region changes. *)
Theorem fat_entry_roundtrip (s : fat D) (c value : Z) :
  fs_ok s -> valid (fs s) c ->
  exists s1, set_fat_entry s c value = Ret (0, s1) /\ data_same s s1 /\
    (exists s2, next_cluster s1 c = Ret (Z.land value MASK28, s2)) /\
    (forall c', valid (fs s) c' -> c' ≠ c ->
       exists s2, next_cluster s1 c' = Ret (fatv s c', s2)) /\
    (forall f c', 0 <= f < num_fats (fs s) -> valid (fs s) c' ->
       fat_word s1 f c' = if decide (c' = c)
         then Z.lor (Z.land (fat_word s f c) 0xF0000000) (Z.land value MASK28)
         else fat_word s f c').
Proof.
  intros Hok Hv. destruct (set_fat_entry_ok s c value Hok Hv)
    as (s1 & Hs & Hok1 & V1 & _ & Hd1 & Hf1 & Hw1 & _).
  exists s1. pose proof (sv_fs _ _ V1) as E1. split_and!; [done | done | | | done].
  - destruct (next_cluster_ok s1 c Hok1) as (s2 & -> & _); [by rewrite E1 |].
    rewrite Hf1, decide_True by done. eauto.
  - intros c' Hc' Hne. destruct (next_cluster_ok s1 c' Hok1) as (s2 & -> & _); [by rewrite E1 |].
    rewrite Hf1, decide_False by done. eauto.
Qed.

(** [alloc_cluster] returns 0 exactly when no cluster is free; otherwise it
    returns a free cluster, marks it as the end of a chain, and changes
    nothing else in the FAT and nothing outside it.  The search that starts
    at the hint and wraps around misses no cluster. *)
Theorem alloc_cluster_spec (s : fat D) :
  fs_ok s ->
  exists c s', alloc_cluster s = Ret (c, s') /\ fs_ok s' /\ data_same s s' /\
    (c = 0 <-> forall x, valid (fs s) x -> fatv s x ≠ 0) /\
    (c ≠ 0 -> valid (fs s) c /\ fatv s c = 0) /\
    forall x, valid (fs s) x -> fatv s' x = if decide (x = c) then EOC else fatv s x.
Proof.
  intros Hok. destruct (alloc_cluster_ok s Hok)
    as [(c & s' & Hr & []) | (s' & Hr & Hok' & V & Hb & Hfull)].
  - exists c, s'. split_and!; try done.
    split; [unfold valid in *; lia |]. intros Hall. by destruct (Hall c).
  - exists 0, s'. split_and!; [done | done | by intros x _ | done | done |].
    intros x Hx. rewrite decide_False by (unfold valid in Hx; lia).
    unfold fatv. rewrite (sv_fs _ _ V). f_equal. apply load32_frame. auto.
Qed.

(** C30 [free_chain] terminates on every FAT whose links stay inside the
    volume, cyclic chains included, within one iteration more than there
    are clusters in use; on a chain that ends it frees exactly the clusters
    of the chain; no byte outside the FAT region changes. *)
Theorem free_chain_spec (s : fat D) (c : Z) :
  fs_ok s -> links_valid s -> valid (fs s) c ->
  (forall fuel, (length (used_clusters s) < fuel)%nat ->
     exists s', free_chain fuel s c = Ret s' /\ data_same s s') /\
  (forall l fuel, chain s c l -> (length l <= fuel)%nat ->
     exists s', free_chain fuel s c = Ret s' /\ data_same s s' /\
       forall x, valid (fs s) x -> fatv s' x = if decide (x ∈ l) then 0 else fatv s x).
Proof.
  intros Hok Hl Hv. split.
  - intros fuel Hf. destruct (free_chain_total fuel s c Hok Hl) as (s' & -> & _ & Hd & _); eauto.
  - intros l fuel Hc Hf.
    destruct (free_chain_ok fuel s c l Hok Hc Hf) as (s' & -> & _ & _ & _ & Hd & Hfv & _). eauto.
Qed.

End Volume.
