(* ===== verification/FatDir.v ===== *)
(** * FAT32: directories

    The three directory scans of [Fat32] as searches of one list of slots,
    entries written to slots, and the data region they live in. *)

From S2P Require Import Prelude Memory Interfaces Fat32 FatTable.

(** ** Entries in memory *)

Record wf_dirent (e : dirent) : Prop := WfDirent {
  wd_name : length (e_name e) = 11%nat /\ Forall is_u8 (e_name e);
  wd_attr : is_u8 (e_attr e);
  wd_ntres : is_u8 (e_ntres e);
  wd_tenth : is_u8 (e_crt_time_tenth e);
  wd_words : 0 <= e_crt_time e < 2 ^ 16 /\ 0 <= e_crt_date e < 2 ^ 16 /\
    0 <= e_lst_acc_date e < 2 ^ 16 /\ 0 <= e_cluster_hi e < 2 ^ 16 /\
    0 <= e_wrt_time e < 2 ^ 16 /\ 0 <= e_wrt_date e < 2 ^ 16 /\ 0 <= e_cluster_lo e < 2 ^ 16;
  wd_size : is_u32 (e_size e)
}.

Lemma length_load_bytes m a n : length (load_bytes m a n) = n.
Proof. unfold load_bytes. by rewrite length_fmap, length_seq. Qed.

Lemma load_bytes_shift m m' a b n :
  (forall i, 0 <= i < Z.of_nat n -> load8 m (a + i) = load8 m' (b + i)) ->
  load_bytes m a n = load_bytes m' b n.
Proof.
  intros Hb. unfold load_bytes. apply list_fmap_ext. intros k x Hk.
  apply lookup_seq in Hk as [-> Hk]. apply Hb. lia.
Qed.

Lemma load8_store_bytes m a l x :
  load8 (store_bytes m a l) x =
  if decide (a <= x < a + Z.of_nat (length l)) then u8 (default 0 (l !! Z.to_nat (x - a)))
  else load8 m x.
Proof.
  revert m a. induction l as [|b l IH]; intros m a; simpl.
  - rewrite decide_False; [done | lia].
  - rewrite IH, load8_store8. destruct (decide (x = a)) as [-> | Hne].
    + rewrite decide_False, decide_True by lia. by rewrite Z.sub_diag.
    + repeat case_decide; try lia.
      replace (Z.to_nat (x - a)) with (S (Z.to_nat (x - (a + 1)))) by lia. done.
Qed.

(** Equal bytes give equal entries. *)
Lemma get_dirent_shift m m' a b :
  (forall i, 0 <= i < 32 -> load8 m (a + i) = load8 m' (b + i)) ->
  get_dirent m a = get_dirent m' b.
Proof.
  intros Hb. unfold get_dirent, load16, load32.
  assert (forall k off, 0 <= off -> off + Z.of_nat k <= 32 ->
    load_le k m (a + off) = load_le k m' (b + off)) as Hle.
  { intros k off H0 H1. apply load_le_shift. intros i Hi.
    rewrite <- !Z.add_assoc. apply Hb. lia. }
  f_equal; try (apply Hb; lia); try (apply Hle; lia).
  apply load_bytes_shift. intros i Hi. apply Hb. lia.
Qed.

Lemma load_bytes_out m m' a n :
  (forall x, a <= x < a + Z.of_nat n -> load8 m' x = load8 m x) ->
  load_bytes m' a n = load_bytes m a n.
Proof. intros Hb. apply load_bytes_shift. intros i Hi. apply Hb. lia. Qed.

Lemma load_store_bytes m a l :
  Forall is_u8 l -> load_bytes (store_bytes m a l) a (length l) = l.
Proof.
  intros Hl. apply list_eq. intros i. unfold load_bytes. rewrite list_lookup_fmap.
  destruct (decide (i < length l)%nat) as [Hi | Hi].
  - rewrite lookup_seq_lt by done. simpl. rewrite load8_store_bytes, decide_True by lia.
    replace (Z.to_nat (a + Z.of_nat i - a)) with i by lia.
    destruct (lookup_lt_is_Some_2 l i Hi) as [b Hb]. rewrite Hb. simpl. f_equal.
    apply u8_small. by eapply Forall_lookup_1 in Hl.
  - rewrite lookup_seq_ge, lookup_ge_None_2 by lia. done.
Qed.

Lemma load_le_store8_out k m a v x :
  x + Z.of_nat k <= a \/ a + 1 <= x -> load_le k (store8 m a v) x = load_le k m x.
Proof. intros. apply load_le_frame. intros. apply load8_store8_ne. lia. Qed.

Lemma first_byte_get m a : first_byte (get_dirent m a) = load8 m a.
Proof.
  unfold first_byte, char_at, get_dirent, load_bytes. cbn [e_name seq].
  change (load8 m (a + Z.of_nat 0) = load8 m a). f_equal. lia.
Qed.

(** An entry written is read back, and nothing else changes. *)
Lemma put_dirent_out m a e x :
  length (e_name e) = 11%nat -> x < a \/ a + 32 <= x ->
  load8 (put_dirent m a e) x = load8 m x.
Proof.
  intros Hn Hx. unfold put_dirent, store32.
  rewrite !load8_store_le_out, !load8_store8_ne by lia.
  rewrite load8_store_bytes, decide_False by (rewrite Hn; lia). done.
Qed.

Lemma get_put_dirent m a e : wf_dirent e -> get_dirent (put_dirent m a e) a = e.
Proof.
  intros [[Hn Hu] Ha Hr Ht (? & ? & ? & ? & ? & ? & ?) Hs].
  unfold get_dirent, put_dirent, load16, load32, store32.
  assert (forall v, is_u8 v -> u8 v = v) as Hu8 by (intros; by apply u8_small).
  assert (forall v, 0 <= v < 2 ^ 16 -> v mod 2 ^ (8 * Z.of_nat 2) = v) as Hu16
    by (intros; apply Z.mod_small; lia).
  repeat first
    [ rewrite load_le_store_le_same | rewrite load_le_store_le_out by lia
    | rewrite load8_store_le_out by lia
    | rewrite load8_store8_same | rewrite load8_store8_ne by lia ].
  rewrite !Hu8, !Hu16 by done.
  replace (e_size e mod 2 ^ (8 * Z.of_nat 4)) with (e_size e) by (by rewrite Z.mod_small).
  match goal with |- Dirent ?l _ _ _ _ _ _ _ _ _ _ _ = _ => replace l with (e_name e) end;
    [by destruct e |].
  rewrite <- (load_store_bytes m a (e_name e) Hu), Hn at 1. symmetry.
  apply load_bytes_out. intros x Hx. by rewrite !load8_store_le_out, !load8_store8_ne by lia.
Qed.

(** ** Slots *)

Definition slot : Type := (Z * Z)%type.           (* sector, offset *)
Definition slot_addr (sl : slot) : Z := 512 * fst sl + snd sl.

Definition sector_slots (lba : Z) : list slot := (fun i => (lba, i * 32)) <$> seqZ 0 16.
Definition sectors_slots (lba k n : Z) : list slot :=
  seqZ k n ≫= (fun j => sector_slots (lba + j)).

(** A search of a list of slots, the entries read from [m]. *)
Fixpoint scan_list {R} (f : Z -> Z -> dirent -> verdict R) (m : mem) (l : list slot) : verdict R :=
  match l with
  | [] => Next
  | (lba, off) :: l' =>
      match f lba off (get_dirent m (512 * lba + off)) with
      | Done r => Done r
      | Next => scan_list f m l'
      end
  end.

Definition at_slot {R} (f : Z -> Z -> dirent -> verdict R) (m : mem) (sl : slot) : verdict R :=
  f (fst sl) (snd sl) (get_dirent m (slot_addr sl)).

Lemma scan_list_app {R} (f : Z -> Z -> dirent -> verdict R) m l1 l2 :
  scan_list f m (l1 ++ l2) =
  match scan_list f m l1 with Done r => Done r | Next => scan_list f m l2 end.
Proof.
  induction l1 as [|[lba off] l1 IH]; simpl; [done |]. by destruct (f lba off _).
Qed.

Lemma scan_list_Done {R} (f : Z -> Z -> dirent -> verdict R) m l r :
  scan_list f m l = Done r <->
  exists l1 sl l2, l = l1 ++ sl :: l2 /\ (forall x, x ∈ l1 -> at_slot f m x = Next) /\
    at_slot f m sl = Done r.
Proof.
  split.
  - induction l as [|[lba off] l IH]; simpl; [done |].
    destruct (f lba off _) eqn:E; intros Hs.
    + destruct (IH Hs) as (l1 & sl & l2 & -> & H1 & H2).
      exists ((lba, off) :: l1), sl, l2. split_and!; [done | | done].
      intros x [-> | Hx]%elem_of_cons; auto.
    + injection Hs as ->. exists [], (lba, off), l. split_and!; [done | | done].
      intros x []%not_elem_of_nil.
  - intros (l1 & sl & l2 & -> & H1 & H2). rewrite scan_list_app.
    assert (scan_list f m l1 = Next) as ->.
    { induction l1 as [|[lba off] l1 IH]; simpl; [done |].
      pose proof (H1 (lba, off) (list_elem_of_here _ _)) as E. unfold at_slot, slot_addr in E.
      simpl in E. rewrite E. apply IH. intros x Hx. apply H1. by right. }
    destruct sl as [lba off]. simpl. unfold at_slot, slot_addr in H2. simpl in H2. by rewrite H2.
Qed.

Lemma scan_list_Next {R} (f : Z -> Z -> dirent -> verdict R) m l :
  scan_list f m l = Next <-> forall x, x ∈ l -> at_slot f m x = Next.
Proof.
  induction l as [|[lba off] l IH]; simpl.
  - split; [intros _ x []%not_elem_of_nil | done].
  - destruct (f lba off _) eqn:E.
    + rewrite IH. split; [intros Hl x [-> | Hx]%elem_of_cons; auto | intros Hl x Hx].
      apply Hl. by right.
    + split; [done |]. intros Hl. specialize (Hl (lba, off) (list_elem_of_here _ _)).
      unfold at_slot, slot_addr in Hl. simpl in Hl. congruence.
Qed.

Lemma scan_list_ext {R} (f : Z -> Z -> dirent -> verdict R) m m' l :
  (forall x, load8 m' x = load8 m x) -> scan_list f m' l = scan_list f m l.
Proof.
  intros Hb. induction l as [|[lba off] l IH]; simpl; [done |].
  rewrite IH. by rewrite (get_dirent_shift m' m _ (512 * lba + off)).
Qed.

(** A slot inside the data region of a drive. *)
Definition slot_ok (g : geo) (cap : Z) (sl : slot) : Prop :=
  data_start_lba g <= fst sl < cap /\ exists i, 0 <= i < 16 /\ snd sl = i * 32.

Section Scans.
  Context {D : Type} `{BlockDeviceLaws D}.
  Implicit Types s : fat D.

Definition cap (s : fat D) : Z := capacity (dev s) (drive (fs s)).

Definition cluster_lba (g : geo) (c : Z) : Z := data_start_lba g + (c - 2) * sectors_per_cluster g.

Definition cluster_slots (g : geo) (c : Z) : list slot :=
  sectors_slots (cluster_lba g c) 0 (sectors_per_cluster g).
Definition dir_slots (g : geo) (dl : list Z) : list slot := dl ≫= cluster_slots g.

Lemma cluster_lba_ok s c :
  fs_ok s -> valid (fs s) c ->
  cluster_to_lba s c = cluster_lba (fs s) c /\
  data_start_lba (fs s) <= cluster_lba (fs s) c /\
  cluster_lba (fs s) c + sectors_per_cluster (fs s) <= cap s.
Proof.
  intros Hok Hv. pose proof (geo_facts s Hok) as Hg. simpl in Hg. unfold valid in Hv.
  unfold cluster_to_lba, cluster_lba, cap.
  pose proof (mul_step (c - 2) (total_clusters (fs s)) (sectors_per_cluster (fs s))).
  pose proof (Z.mul_nonneg_nonneg (c - 2) (sectors_per_cluster (fs s))).
  rewrite (u32_small (c - 2)), (u32_small ((c - 2) * _)), u32_small by lia. lia.
Qed.

Lemma elem_of_sector_slots lba sl :
  sl ∈ sector_slots lba <-> fst sl = lba /\ exists i, 0 <= i < 16 /\ snd sl = i * 32.
Proof.
  unfold sector_slots. rewrite list_elem_of_fmap. destruct sl as [l o]. simpl. split.
  - intros (i & [= -> ->] & Hi%elem_of_seqZ). split; [done |]. exists i. lia.
  - intros [-> (i & Hi & ->)]. exists i. split; [done |]. apply elem_of_seqZ. lia.
Qed.

Lemma elem_of_cluster_slots g c sl :
  sl ∈ cluster_slots g c <->
  cluster_lba g c <= fst sl < cluster_lba g c + sectors_per_cluster g /\
  exists i, 0 <= i < 16 /\ snd sl = i * 32.
Proof.
  unfold cluster_slots, sectors_slots. rewrite list_elem_of_bind. split.
  - intros (k & [Hl Ho]%elem_of_sector_slots & Hk%elem_of_seqZ). split; [lia | done].
  - intros [Hl Ho]. exists (fst sl - cluster_lba g c). rewrite elem_of_sector_slots, elem_of_seqZ.
    split; [split; [lia | done] | lia].
Qed.

Lemma dir_slots_ok s dl sl :
  fs_ok s -> (forall c, c ∈ dl -> valid (fs s) c) -> sl ∈ dir_slots (fs s) dl ->
  slot_ok (fs s) (cap s) sl.
Proof.
  intros Hok Hdl. unfold dir_slots. rewrite list_elem_of_bind.
  intros (c & [Hl Ho]%elem_of_cluster_slots & Hc). split; [| done].
  destruct (cluster_lba_ok s c Hok (Hdl c Hc)) as (_ & ? & ?). lia.
Qed.

(** ** The scans as searches *)

(** [visit] looks at the sector only through the entry. *)
Definition visits {R} (visit : Z -> Z -> mem -> verdict R) (f : Z -> Z -> dirent -> verdict R)
    : Prop := forall lba off sec, visit lba off sec = f lba off (get_dirent sec off).

Lemma scan_entries_ok {R} visit (f : Z -> Z -> dirent -> verdict R) n i lba sec m :
  visits visit f -> 0 <= i -> i + Z.of_nat n <= 16 ->
  (forall x, 0 <= x < 512 -> load8 sec x = load8 m (512 * lba + x)) ->
  scan_entries n i lba sec visit =
  scan_list f m ((fun i => (lba, i * 32)) <$> seqZ i (Z.of_nat n)).
Proof.
  intros Hv Hi Hn Hsec. revert i Hi Hn. induction n as [|n IH]; intros i Hi Hn; [done |].
  rewrite seqZ_cons by lia. cbn [scan_entries fmap list_fmap scan_list]. rewrite Hv.
  rewrite (get_dirent_shift sec m (i * 32) (512 * lba + i * 32)).
  - rewrite IH by lia. replace (Z.pred (Z.of_nat (S n))) with (Z.of_nat n) by lia. done.
  - intros j Hj. rewrite <- Z.add_assoc. apply Hsec. lia.
Qed.

Lemma scan_sectors_ok {R} visit (f : Z -> Z -> dirent -> verdict R) n k lba s (err : R) :
  visits visit f -> fs_ok s -> 0 <= lba -> 0 <= k -> lba + k + Z.of_nat n <= cap s ->
  exists s', scan_sectors n k lba s visit err =
      Ret (scan_list f (bytes s) (sectors_slots lba k (Z.of_nat n)), s') /\
    fs_ok s' /\ same_disk s s'.
Proof.
  intros Hv. revert k s. induction n as [|n IH]; intros k s Hok Hl Hk Hn.
  { exists s. split_and!; done || apply same_disk_refl. }
  pose proof (geo_facts s Hok) as Hg. simpl in Hg. fold (cap s) in Hg.
  unfold sectors_slots. rewrite seqZ_cons by lia. cbn [mbind list_bind scan_sectors].
  rewrite scan_list_app. rewrite u32_small by lia.
  destruct (ata_read_ok (dev s) (drive (fs s)) (lba + k) 1 ∅ (fo_dev _ Hok))
    as (sec & d & -> & Hd & Hsec & Hcap & Hb); [lia | lia | fold (cap s); lia |].
  cbn [obind]. change (0 <? 0) with false. cbv iota zeta.
  destruct (fs_ok_read s d Hok Hd Hcap Hb) as [Hok1 Hs1].
  rewrite (scan_entries_ok visit f 16 0 (lba + k) sec (bytes s));
    [| done | lia | lia | intros x Hx; rewrite Hsec, decide_True by lia; done].
  change (Z.of_nat 16) with 16. fold (sector_slots (lba + k)).
  assert (cap (set_dev s d) = cap s) as Hcap1 by apply Hcap.
  destruct (scan_list f (bytes s) (sector_slots (lba + k))) as [|r].
  - destruct (IH (k + 1) (set_dev s d) Hok1) as (s2 & -> & Hok2 & Hs2);
      [lia | lia | rewrite Hcap1; lia |].
    exists s2. split_and!; [| done | by eapply same_disk_trans].
    f_equal. f_equal. unfold sectors_slots.
    replace (Z.succ k) with (k + 1) by lia. replace (Z.pred (Z.of_nat (S n))) with (Z.of_nat n) by lia.
    apply scan_list_ext. apply Hs1.
  - exists (set_dev s d). split_and!; done.
Qed.

Lemma scan_chain_ok {R} visit (f : Z -> Z -> dirent -> verdict R) fuel s c dl (err fin : R) :
  visits visit f -> fs_ok s -> chain s c dl -> (length dl <= fuel)%nat ->
  exists s', scan_chain fuel s c visit err fin =
      Ret (match scan_list f (bytes s) (dir_slots (fs s) dl) with Done r => r | Next => fin end, s')
    /\ fs_ok s' /\ same_disk s s'.
Proof.
  intros Hv. revert fuel s c. induction dl as [|x dl IH]; intros fuel s c Hok Hc Hf.
  { simpl in Hc. exists s. split_and!; [| done | apply same_disk_refl].
    destruct fuel; simpl; by rewrite Hc. }
  destruct fuel as [|fuel]; simpl in Hf; [lia |]. destruct Hc as (-> & Hval & Hc).
  cbn [scan_chain]. rewrite (valid_in_chain s c Hok Hval).
  destruct (cluster_lba_ok s c Hok Hval) as (-> & Hlo & Hhi).
  pose proof (geo_facts s Hok) as Hg. simpl in Hg.
  destruct (scan_sectors_ok visit f (Z.to_nat (sectors_per_cluster (fs s))) 0
              (cluster_lba (fs s) c) s err Hv Hok) as (s1 & -> & Hok1 & Hs1);
    [lia | lia | rewrite Z2Nat.id by lia; lia |].
  rewrite Z2Nat.id by lia. fold (cluster_slots (fs s) c). cbn [obind].
  unfold dir_slots. cbn [mbind list_bind]. fold (dir_slots (fs s) dl). rewrite scan_list_app.
  destruct (scan_list f (bytes s) (cluster_slots (fs s) c)) as [|r].
  - pose proof (sv_fs _ _ (sd_vol _ _ Hs1)) as E1.
    destruct (next_cluster_ok s1 c Hok1) as (s2 & -> & Hok2 & Hs2); [by rewrite E1 |].
    cbn [obind]. rewrite (same_disk_fatv s s1) by done.
    pose proof (same_disk_trans _ _ _ Hs1 Hs2) as Hs12.
    pose proof (sv_fs _ _ (sd_vol _ _ Hs12)) as E2.
    destruct (IH fuel s2 (fatv s c) Hok2) as (s3 & -> & Hok3 & Hs3); [| lia |].
    + eapply chain_ext; [exact E2 | | exact Hc]. intros y _. by apply same_disk_fatv.
    + exists s3. split_and!; [| done | by eapply same_disk_trans].
      f_equal. f_equal. rewrite E2.
      by rewrite (scan_list_ext f (bytes s) (bytes s2)) by apply Hs12.
  - exists s1. split_and!; done.
Qed.


(** ** Writing to the data region *)

(** Bytes below the data region, so the FAT, did not change. *)
Definition fat_same (s s' : fat D) : Prop :=
  forall x, x < 512 * data_start_lba (fs s) -> load8 (bytes s') x = load8 (bytes s) x.

Lemma fat_same_fatv s s' c :
  fs_ok s -> fs s' = fs s -> fat_same s s' -> valid (fs s) c -> fatv s' c = fatv s c.
Proof.
  intros Hok Hf Hs Hv. pose proof (geo_facts s Hok) as Hg. simpl in Hg. unfold valid in Hv.
  unfold fatv. rewrite Hf. f_equal. apply load32_frame. intros x Hx. apply Hs. lia.
Qed.

Lemma fs_ok_write s d :
  fs_ok s -> dev_ok d -> (forall k, capacity d k = capacity (dev s) k) ->
  fat_same s (set_dev s d) -> fs_ok (set_dev s d) /\ same_vol s (set_dev s d).
Proof.
  intros [Hd Hg Hh Hc] Hd' Hcap Hs. split; [| by split].
  split; [done | by simpl; rewrite Hcap | done |].
  destruct Hc as [Hc | [Hr Hc]]; [by left | right]. split; [done |].
  intros i Hi. change (fat_sector_buf (set_dev s d)) with (fat_sector_buf s).
  change (fat_sector_cached_lba (set_dev s d)) with (fat_sector_cached_lba s).
  rewrite Hs by lia. by apply Hc.
Qed.

(** A whole-sector write of [n] sectors. *)
Lemma data_write_ok s lba n buf :
  fs_ok s -> data_start_lba (fs s) <= lba -> 0 < n < 256 -> lba + n <= cap s ->
  exists d, ata_write (dev s) (drive (fs s)) lba n buf = Ret (0, d) /\
    fs_ok (set_dev s d) /\ same_vol s (set_dev s d) /\ fat_same s (set_dev s d) /\
    forall x, load8 (bytes (set_dev s d)) x =
      if decide (512 * lba <= x < 512 * lba + 512 * n) then load8 buf (x - 512 * lba)
      else load8 (bytes s) x.
Proof.
  intros Hok Hlo Hn Hhi. pose proof (geo_facts s Hok) as Hg. simpl in Hg. fold (cap s) in Hg.
  destruct (ata_write_ok (dev s) (drive (fs s)) lba n buf (fo_dev _ Hok))
    as (d & -> & Hd & Hcap & Hb); [lia | lia | fold (cap s); lia |].
  exists d. assert (forall x, load8 (bytes (set_dev s d)) x =
      if decide (512 * lba <= x < 512 * lba + 512 * n) then load8 buf (x - 512 * lba)
      else load8 (bytes s) x) as Hbytes.
  { intros x. unfold bytes. cbn [dev set_dev fs]. rewrite Hb. repeat case_decide; tauto || done. }
  assert (fat_same s (set_dev s d)) as Hs.
  { intros x Hx. rewrite Hbytes, decide_False by lia. done. }
  destruct (fs_ok_write s d Hok Hd Hcap Hs) as [Hok' V]. split_and!; done.
Qed.

Lemma patch_ok s lba patch :
  fs_ok s -> data_start_lba (fs s) <= lba < cap s ->
  exists sec s', patch_sector s lba patch = Ret (0, s') /\ fs_ok s' /\ same_vol s s' /\
    alloc_hint s' = alloc_hint s /\ fat_same s s' /\
    (forall i, 0 <= i < 512 -> load8 sec i = load8 (bytes s) (512 * lba + i)) /\
    forall x, load8 (bytes s') x =
      if decide (512 * lba <= x < 512 * lba + 512) then load8 (patch sec) (x - 512 * lba)
      else load8 (bytes s) x.
Proof.
  intros Hok Hlba. pose proof (geo_facts s Hok) as Hg. simpl in Hg. fold (cap s) in Hg.
  unfold patch_sector.
  destruct (ata_read_ok (dev s) (drive (fs s)) lba 1 ∅ (fo_dev _ Hok))
    as (sec & d & -> & Hd & Hsec & Hcap & Hb); [lia | lia | fold (cap s); lia |].
  cbn [obind]. change (0 <? 0) with false. cbv iota zeta.
  destruct (fs_ok_read s d Hok Hd Hcap Hb) as [Hok1 [V1 _ Hb1]].
  assert (cap (set_dev s d) = cap s) as Hc1 by apply Hcap.
  destruct (data_write_ok (set_dev s d) lba 1 (patch sec) Hok1) as (d2 & -> & Hok2 & V2 & Hf2 & Hb2);
    [apply Hlba | lia | rewrite Hc1; lia |].
  exists sec. eexists. split; [reflexivity |]. split; [exact Hok2 |].
  split; [by eapply same_vol_trans |]. split; [done |]. split.
  { intros x Hx. change (load8 (bytes (set_dev (set_dev s d) d2)) x = load8 (bytes s) x).
    rewrite <- Hb1. by apply Hf2. }
  split.
  - intros i Hi. rewrite Hsec, decide_True by lia. done.
  - intros x. change (bytes (set_dev (set_dev s d) d2)) with
      (bytes (set_dev (set_dev s d) d2)). rewrite Hb2, Hb1. done.
Qed.

(** What a write to one slot does. *)
Record slot_written (s : fat D) (sl : slot) (s' : fat D) : Prop := SlotWritten {
  sw_ok : fs_ok s';
  sw_vol : same_vol s s';
  sw_hint : alloc_hint s' = alloc_hint s;
  sw_fat : fat_same s s';
  sw_out x : x < slot_addr sl \/ slot_addr sl + 32 <= x -> load8 (bytes s') x = load8 (bytes s) x
}.

Lemma slot_written_other s sl s' sl' :
  slot_written s sl s' -> slot_ok (fs s) (cap s) sl -> slot_ok (fs s) (cap s) sl' -> sl' ≠ sl ->
  get_dirent (bytes s') (slot_addr sl') = get_dirent (bytes s) (slot_addr sl').
Proof.
  intros Hw [_ (i & Hi & Ho)] [_ (j & Hj & Ho')] Hne. apply get_dirent_shift.
  intros k Hk. apply (sw_out _ _ _ Hw). unfold slot_addr.
  assert (fst sl' ≠ fst sl \/ i ≠ j).
  { destruct (decide (fst sl' = fst sl)); [right | by left]. intros ->. apply Hne.
    destruct sl, sl'; simpl in *. congruence. }
  lia.
Qed.

Lemma write_dirent_ok s sl e :
  fs_ok s -> slot_ok (fs s) (cap s) sl -> wf_dirent e ->
  exists s', write_dirent s (fst sl) (snd sl) e = Ret (0, s') /\ slot_written s sl s' /\
    get_dirent (bytes s') (slot_addr sl) = e.
Proof.
  intros Hok [Hl (i & Hi & Ho)] He. unfold write_dirent.
  destruct (patch_ok s (fst sl) (fun sec => put_dirent sec (snd sl) e) Hok Hl)
    as (sec & s' & -> & Hok' & V & Hh & Hf & Hsec & Hb).
  exists s'. split; [done |]. destruct He as [[Hn Hu] ? ? ? ? ?]. split.
  - split; try done. intros x Hx. unfold slot_addr in Hx. rewrite Hb. case_decide; [| done].
    rewrite put_dirent_out by (done || lia). rewrite Hsec by lia. f_equal. lia.
  - rewrite <- (get_put_dirent sec (snd sl) e) by done. apply get_dirent_shift.
    intros j Hj. unfold slot_addr. rewrite Hb, decide_True by lia. f_equal. lia.
Qed.

Lemma mark_deleted_ok s sl :
  fs_ok s -> slot_ok (fs s) (cap s) sl ->
  exists s', mark_deleted s (fst sl) (snd sl) = Ret (0, s') /\ slot_written s sl s' /\
    first_byte (get_dirent (bytes s') (slot_addr sl)) = 0xE5 /\
    forall x, x ≠ slot_addr sl -> load8 (bytes s') x = load8 (bytes s) x.
Proof.
  intros Hok [Hl (i & Hi & Ho)]. unfold mark_deleted.
  destruct (patch_ok s (fst sl) (fun sec => store8 sec (snd sl) 0xE5) Hok Hl)
    as (sec & s' & -> & Hok' & V & Hh & Hf & Hsec & Hb).
  exists s'. split; [done |].
  assert (forall x, x ≠ slot_addr sl -> load8 (bytes s') x = load8 (bytes s) x) as Hother.
  { intros x Hx. unfold slot_addr in Hx. rewrite Hb. case_decide; [| done].
    rewrite load8_store8_ne by lia. rewrite Hsec by lia. f_equal. lia. }
  split; [| split; [| exact Hother]].
  - split; try done. intros x Hx. apply Hother. lia.
  - rewrite first_byte_get. unfold slot_addr. rewrite Hb, decide_True by lia.
    replace (512 * fst sl + snd sl - 512 * fst sl) with (snd sl) by lia.
    by rewrite load8_store8_same.
Qed.

(** ** The three searches *)

Definition search_f (target : list Z) (lba off : Z) (e : dirent) : verdict (option dir_lookup) :=
  if first_byte e =? 0x00 then Done None
  else if skipped e then Next
  else if sname_eq (e_name e) target then Done (Some (Lookup e lba off))
  else Next.

Definition free_f (lba off : Z) (e : dirent) : verdict (option (Z * Z)) :=
  if (first_byte e =? 0x00) || (first_byte e =? 0xE5) then Done (Some (lba, off)) else Next.

Definition empty_f (lba off : Z) (e : dirent) : verdict bool :=
  if first_byte e =? 0x00 then Done true
  else if skipped e then Next
  else if (first_byte e =? ch_dot) &&
          ((char_at (e_name e) 1 =? ch_space) || (char_at (e_name e) 1 =? ch_dot)) then Next
  else Done false.

Lemma free_visit_f : visits free_visit free_f.
Proof. intros lba off sec. unfold free_visit, free_f. by rewrite first_byte_get. Qed.

(** The slots of the current directory. *)
Definition dir_at (s : fat D) (c : Z) (dl : list Z) : Prop := chain s c dl.

Definition lookup_in (m : mem) (l : list slot) (target : list Z) : option dir_lookup :=
  match scan_list (search_f target) m l with Done r => r | Next => None end.
Definition free_in (m : mem) (l : list slot) : option slot :=
  match scan_list free_f m l with Done r => r | Next => None end.

Lemma search_dir_ok fuel s c dl target :
  fs_ok s -> chain s c dl -> (length dl <= fuel)%nat ->
  exists s', search_dir fuel s c target =
      Ret (lookup_in (bytes s) (dir_slots (fs s) dl) target, s') /\ fs_ok s' /\ same_disk s s'.
Proof. intros. by apply (scan_chain_ok _ (search_f target)). Qed.

Lemma find_free_ok fuel s c dl :
  fs_ok s -> chain s c dl -> (length dl <= fuel)%nat ->
  exists s', find_free_dirent_in fuel s c =
      Ret (free_in (bytes s) (dir_slots (fs s) dl), s') /\ fs_ok s' /\ same_disk s s'.
Proof. intros. apply (scan_chain_ok _ free_f); [apply free_visit_f | done ..]. Qed.

Lemma dir_is_empty_ok fuel s c dl :
  fs_ok s -> chain s c dl -> (length dl <= fuel)%nat ->
  exists s', dir_is_empty fuel s c =
      Ret (match scan_list empty_f (bytes s) (dir_slots (fs s) dl) with
           | Done r => r | Next => true end, s') /\ fs_ok s' /\ same_disk s s'.
Proof. intros. by apply (scan_chain_ok _ empty_f). Qed.

(** A live entry with the name, at [sl], and no end mark or match before. *)
Lemma lookup_in_Some m l target look :
  lookup_in m l target = Some look <->
  exists l1 sl l2, l = l1 ++ sl :: l2 /\
    (forall x, x ∈ l1 -> at_slot (search_f target) m x = Next) /\
    let e := get_dirent m (slot_addr sl) in
    first_byte e ≠ 0 /\ skipped e = false /\ sname_eq (e_name e) target = true /\
    look = Lookup e (fst sl) (snd sl).
Proof.
  unfold lookup_in. split.
  - destruct (scan_list _ _ _) as [|r] eqn:E; [done |]. intros ->.
    apply scan_list_Done in E as (l1 & sl & l2 & -> & H1 & H2).
    exists l1, sl, l2. split; [done |]. split; [done |].
    unfold at_slot, search_f in H2. destruct (Z.eqb_spec (first_byte (get_dirent m (slot_addr sl))) 0);
      [done |].
    destruct (skipped _) eqn:Es; [done |]. destruct (sname_eq _ _) eqn:En; [| done].
    injection H2 as <-. done.
  - intros (l1 & sl & l2 & -> & H1 & Hf & Hs & Hn & ->).
    assert (scan_list (search_f target) m (l1 ++ sl :: l2) =
            Done (Some (Lookup (get_dirent m (slot_addr sl)) (fst sl) (snd sl)))) as ->; [| done].
    apply scan_list_Done. exists l1, sl, l2. split_and!; [done | done |].
    unfold at_slot, search_f. by rewrite (proj2 (Z.eqb_neq _ _) Hf), Hs, Hn.
Qed.

Lemma free_in_Some m l sl :
  free_in m l = Some sl ->
  exists l1 l2, l = l1 ++ sl :: l2 /\
    (forall x, x ∈ l1 -> first_byte (get_dirent m (slot_addr x)) ≠ 0 /\
       first_byte (get_dirent m (slot_addr x)) ≠ 0xE5) /\
    (first_byte (get_dirent m (slot_addr sl)) = 0 \/
     first_byte (get_dirent m (slot_addr sl)) = 0xE5).
Proof.
  unfold free_in. destruct (scan_list _ _ _) as [|r] eqn:E; [done |]. intros ->.
  apply scan_list_Done in E as (l1 & [lba off] & l2 & -> & H1 & H2).
  unfold at_slot, free_f in *.
  assert (sl = (lba, off)) as ->.
  { destruct (_ || _); [| done]. injection H2 as <-. done. }
  exists l1, l2. split_and!; [done | |].
  - intros x Hx. specialize (H1 x Hx). destruct (_ || _) eqn:Eo in H1; [done |].
    apply orb_false_iff in Eo as [?%Z.eqb_neq ?%Z.eqb_neq]. done.
  - destruct (_ || _) eqn:Eo; [| done]. apply orb_true_iff in Eo as [?%Z.eqb_eq | ?%Z.eqb_eq]; auto.
Qed.

(** ** Storing an entry under a name *)

Lemma sname_eq_refl a : sname_eq a a = true.
Proof. unfold sname_eq. apply forallb_forall. intros i _. apply Z.eqb_refl. Qed.

Lemma sname_eq_spec a b :
  length a = 11%nat -> length b = 11%nat -> sname_eq a b = true <-> a = b.
Proof.
  intros Ha Hb. split; [| intros ->; apply sname_eq_refl].
  unfold sname_eq. rewrite forallb_forall. intros Hall. apply list_eq. intros i.
  destruct (decide (i < 11)%nat) as [Hi | Hi]; [| by rewrite !lookup_ge_None_2 by lia].
  specialize (Hall i). rewrite in_seq, Z.eqb_eq in Hall. unfold char_at in Hall.
  destruct (lookup_lt_is_Some_2 a i) as [x Hx]; [lia |].
  destruct (lookup_lt_is_Some_2 b i) as [y Hy]; [lia |].
  rewrite Hx, Hy in *. simpl in Hall. f_equal. apply Hall. lia.
Qed.

(** The slot where a name goes: where it is, or the first free slot. *)
Definition place (m : mem) (l : list slot) (target : list Z) : option slot :=
  match lookup_in m l target with
  | Some look => Some (l_lba look, l_offset look)
  | None => free_in m l
  end.

(** Before the place of a name, the search for it passes every slot. *)
Lemma place_split m l target sl :
  place m l target = Some sl ->
  exists l1 l2, l = l1 ++ sl :: l2 /\
    forall x, x ∈ l1 -> at_slot (search_f target) m x = Next /\ x ≠ sl.
Proof.
  unfold place. destruct (lookup_in m l target) as [look|] eqn:E.
  - intros [= <-]. apply lookup_in_Some in E as (l1 & sl & l2 & -> & H1 & Hf & Hs & Hn & ->).
    exists l1, l2. destruct sl as [lba off]. cbn [l_lba l_offset fst snd]. split; [done |].
    intros x Hx. split; [by apply H1 |].
    intros ->. specialize (H1 _ Hx). unfold at_slot, search_f in H1.
    by rewrite (proj2 (Z.eqb_neq _ _) Hf), Hs, Hn in H1.
  - intros Hf. apply free_in_Some in Hf as (l1 & l2 & -> & H1 & Hfree).
    exists l1, l2. split; [done |].
    assert (scan_list (search_f target) m l1 = Next) as Es.
    { destruct (scan_list (search_f target) m l1) as [|r] eqn:E1; [done |]. exfalso.
      unfold lookup_in in E. rewrite scan_list_app, E1 in E. subst r.
      apply scan_list_Done in E1 as (k1 & sl' & k2 & -> & _ & E2).
      destruct (H1 sl') as [Hz _]; [apply elem_of_app; right; left |].
      unfold at_slot, search_f in E2. rewrite (proj2 (Z.eqb_neq _ _) Hz) in E2.
      destruct (skipped _); [done |]. by destruct (sname_eq _ _). }
    rewrite scan_list_Next in Es. intros x Hx. split; [by apply Es |].
    intros ->. destruct (H1 sl Hx). tauto.
Qed.

(** After an entry with that name was written there, the search finds it. *)
Lemma place_written s s' l target sl e :
  (forall x, x ∈ l -> slot_ok (fs s) (cap s) x) ->
  place (bytes s) l target = Some sl -> slot_written s sl s' ->
  get_dirent (bytes s') (slot_addr sl) = e ->
  e_name e = target -> first_byte e ≠ 0 -> skipped e = false ->
  lookup_in (bytes s') l target = Some (Lookup e (fst sl) (snd sl)).
Proof.
  intros Hl Hp Hw He Hn Hf Hs. destruct (place_split _ _ _ _ Hp) as (l1 & l2 & -> & H1).
  apply lookup_in_Some. exists l1, sl, l2. split; [done |]. split.
  - intros x Hx. destruct (H1 x Hx) as [Hnext Hne]. unfold at_slot in *.
    rewrite (slot_written_other s sl s' x); [done | done | | | done];
      apply Hl, elem_of_app; [right; left | by left].
  - cbv zeta. rewrite He, Hn. split_and!; try done. apply sname_eq_refl.
Qed.

(** ** Moving between states *)

Lemma scan_list_ext_on {R} (f : Z -> Z -> dirent -> verdict R) m m' l :
  (forall sl, sl ∈ l -> get_dirent m' (slot_addr sl) = get_dirent m (slot_addr sl)) ->
  scan_list f m' l = scan_list f m l.
Proof.
  induction l as [|[lba off] l IH]; simpl; intros Hb; [done |].
  pose proof (Hb (lba, off) (list_elem_of_here _ _)) as E. unfold slot_addr in E. simpl in E.
  rewrite E, IH; [done |]. intros sl Hsl. apply Hb. by right.
Qed.

Lemma same_disk_cap s s' : same_disk s s' -> cap s' = cap s.
Proof. intros [[Hf _ _ Hc] _ _]. unfold cap. by rewrite Hf, Hc. Qed.

Lemma same_disk_chain s s' c l : same_disk s s' -> chain s c l -> chain s' c l.
Proof.
  intros Hs. apply chain_ext; [apply Hs |]. intros x _. by apply same_disk_fatv.
Qed.

Lemma same_disk_lookup s s' l target :
  same_disk s s' -> lookup_in (bytes s') l target = lookup_in (bytes s) l target.
Proof. intros Hs. unfold lookup_in. by rewrite (scan_list_ext _ (bytes s)) by apply Hs. Qed.

Lemma same_disk_free s s' l :
  same_disk s s' -> free_in (bytes s') l = free_in (bytes s) l.
Proof. intros Hs. unfold free_in. by rewrite (scan_list_ext _ (bytes s)) by apply Hs. Qed.

Lemma slot_written_pre s s1 sl s' :
  same_disk s s1 -> slot_written s1 sl s' -> slot_written s sl s'.
Proof.
  intros Hs []. pose proof (sd_vol _ _ Hs) as V. split; try done.
  - by eapply same_vol_trans.
  - rewrite sw_hint0. apply Hs.
  - intros x Hx. rewrite <- (sd_bytes _ _ Hs). apply sw_fat0. by rewrite (sv_fs _ _ V).
  - intros x Hx. rewrite <- (sd_bytes _ _ Hs). by apply sw_out0.
Qed.

(** Clusters occupy disjoint sectors. *)
Lemma cluster_disjoint s c c' :
  fs_ok s -> c ≠ c' ->
  cluster_lba (fs s) c + sectors_per_cluster (fs s) <= cluster_lba (fs s) c' \/
  cluster_lba (fs s) c' + sectors_per_cluster (fs s) <= cluster_lba (fs s) c.
Proof.
  intros Hok Hne. pose proof (geo_facts s Hok) as Hg. simpl in Hg. unfold cluster_lba.
  pose proof (mul_step (c - 2) (c' - 2) (sectors_per_cluster (fs s))).
  pose proof (mul_step (c' - 2) (c - 2) (sectors_per_cluster (fs s))). lia.
Qed.

(** The bytes of a cluster. *)
Definition in_cluster (g : geo) (c x : Z) : Prop :=
  512 * cluster_lba g c <= x < 512 * cluster_lba g c + 512 * sectors_per_cluster g.

Lemma slot_in_cluster g dl sl :
  sl ∈ dir_slots g dl -> exists c, c ∈ dl /\
    forall x, slot_addr sl <= x < slot_addr sl + 32 -> in_cluster g c x.
Proof.
  unfold dir_slots. rewrite list_elem_of_bind.
  intros (c & [Hl (i & Hi & Ho)]%elem_of_cluster_slots & Hc). exists c. split; [done |].
  intros x Hx. unfold slot_addr, in_cluster in *. lia.
Qed.

Lemma in_cluster_inj s c c' x :
  fs_ok s -> in_cluster (fs s) c x -> in_cluster (fs s) c' x -> c = c'.
Proof.
  intros Hok Hc Hc'. destruct (decide (c = c')) as [| Hne]; [done |].
  destruct (cluster_disjoint s c c' Hok Hne); unfold in_cluster in *; lia.
Qed.

(** Entries of a directory survive changes to other clusters. *)
Lemma dir_ext s s' dl :
  (forall c x, c ∈ dl -> in_cluster (fs s) c x -> load8 (bytes s') x = load8 (bytes s) x) ->
  forall sl, sl ∈ dir_slots (fs s) dl ->
    get_dirent (bytes s') (slot_addr sl) = get_dirent (bytes s) (slot_addr sl).
Proof.
  intros Hb sl Hsl. destruct (slot_in_cluster _ _ _ Hsl) as (c & Hc & Hin).
  apply get_dirent_shift. intros i Hi. apply (Hb c); [done |]. apply Hin. lia.
Qed.

End Scans.

(** ** New entries *)

Lemma start_cluster_split c :
  is_u32 c ->
  Z.lor (u32 (Z.shiftl (Z.land (Z.shiftr c 16) 0xFFFF) 16)) (Z.land c 0xFFFF) = c.
Proof.
  intros Hc. change 0xFFFF with (2 ^ 16 - 1). rewrite !land_mask, shiftr_div by lia.
  rewrite Z.shiftl_mul_pow2 by lia. unfold is_u32 in Hc.
  rewrite u32_small by zdm. rewrite (lor_disjoint _ _ 16); [zdm | lia | | zdm].
  apply Z.mod_mul. lia.
Qed.

Lemma start_cluster_with_start e c size : is_u32 c -> start_cluster (with_start e c size) = c.
Proof. apply start_cluster_split. Qed.

Lemma start_cluster_new n a c size : is_u32 c -> start_cluster (new_dirent n a c size) = c.
Proof. apply start_cluster_split. Qed.

Lemma cluster_halves c :
  0 <= Z.land (Z.shiftr c 16) 0xFFFF < 2 ^ 16 /\ 0 <= Z.land c 0xFFFF < 2 ^ 16.
Proof. change 0xFFFF with (2 ^ 16 - 1). rewrite !land_mask by lia. split; zdm. Qed.

Lemma new_dirent_wf n a c size :
  length n = 11%nat -> Forall is_u8 n -> is_u8 a -> is_u32 size -> wf_dirent (new_dirent n a c size).
Proof.
  intros Hn Hu Ha Hs. pose proof (cluster_halves c).
  split; simpl; try done; unfold is_u8; lia.
Qed.

Lemma with_start_wf e c size : wf_dirent e -> is_u32 size -> wf_dirent (with_start e c size).
Proof.
  intros [? ? ? ? ? ?] Hs. pose proof (cluster_halves c). split; simpl; try done. tauto.
Qed.

Lemma get_dirent_wf m a : wf_dirent (get_dirent m a).
Proof.
  unfold get_dirent, load16, load32. split; cbn [e_name e_attr e_ntres e_crt_time_tenth e_crt_time
    e_crt_date e_lst_acc_date e_cluster_hi e_wrt_time e_wrt_date e_cluster_lo e_size].
  - split; [apply length_load_bytes |]. unfold load_bytes. apply Forall_fmap, Forall_forall.
    intros i _. apply load8_range.
  - apply load8_range.
  - apply load8_range.
  - apply load8_range.
  - pose proof (load_le_range 2 m). split_and!; apply (load_le_range 2).
  - apply (load_le_range 4).
Qed.
