(* ===== verification/FatOps.v ===== *)
(** * FAT32: creating, removing and entering

    What [fat32_create], [fat32_remove], [fat32_mkdir], [fat32_rmdir] and
    [fat32_chdir] do to a well-formed volume whose current directory is the
    chain of clusters [dl]. *)

From S2P Require Import Prelude Memory Interfaces Fat32 FatName FatTable FatDir.

Section Ops.
  Context {D : Type} `{BlockDeviceLaws D}.
  Implicit Types s : fat D.

(** The current directory is the chain [dl], which [fuel] is enough to walk,
    and all its clusters are in use. *)
Record in_dir (fuel : nat) (s : fat D) (dl : list Z) : Prop := InDir {
  id_ok : fs_ok s;
  id_mounted : mounted s = true;
  id_chain : chain s (cwd_cluster s) dl;
  id_fuel : (length dl <= fuel)%nat;
  id_used x : x ∈ dl -> fatv s x ≠ 0
}.

Definition slots (s : fat D) (dl : list Z) : list slot := dir_slots (fs s) dl.

(** The directory stays the current one as long as its clusters keep their
    FAT entries. *)
Lemma in_dir_kept fuel s s' dl :
  in_dir fuel s dl -> fs_ok s' -> same_vol s s' -> (forall x, x ∈ dl -> fatv s' x = fatv s x) ->
  in_dir fuel s' dl.
Proof.
  intros [Hok Hm Hc Hf Hu] Hok' V Hdl. split.
  - done.
  - by rewrite (sv_mounted _ _ V).
  - rewrite (sv_cwd _ _ V). by eapply chain_ext; [apply V | |].
  - done.
  - intros x Hx. rewrite Hdl by done. by apply Hu.
Qed.

Lemma in_dir_same fuel s s' dl : in_dir fuel s dl -> fs_ok s' -> same_disk s s' -> in_dir fuel s' dl.
Proof.
  intros Hd Hok' Hs. apply (in_dir_kept fuel s); [done | done | apply Hs |].
  intros x _. by apply same_disk_fatv.
Qed.

Lemma in_dir_slots_ok fuel s dl sl :
  in_dir fuel s dl -> sl ∈ slots s dl -> slot_ok (fs s) (cap s) sl.
Proof.
  intros [Hok _ Hc _ _] Hsl. eapply dir_slots_ok; [done | | done].
  intros c Hc'. by eapply chain_valid.
Qed.

Lemma search_cwd fuel s dl target :
  in_dir fuel s dl ->
  exists s', search_dir fuel s (cwd_cluster s) target =
      Ret (lookup_in (bytes s) (slots s dl) target, s') /\ fs_ok s' /\ same_disk s s'.
Proof. intros [Hok _ Hc Hf _]. by apply search_dir_ok. Qed.

Lemma free_cwd fuel s dl :
  in_dir fuel s dl ->
  exists s', find_free_dirent_in fuel s (cwd_cluster s) =
      Ret (free_in (bytes s) (slots s dl), s') /\ fs_ok s' /\ same_disk s s'.
Proof. intros [Hok _ Hc Hf _]. by apply find_free_ok. Qed.

Lemma free_in_slot s dl sl : free_in (bytes s) (slots s dl) = Some sl -> sl ∈ slots s dl.
Proof.
  intros (l1 & l2 & E & _)%free_in_Some. rewrite E. apply elem_of_app. right. left.
Qed.

Lemma lookup_in_slot m l target look :
  lookup_in m l target = Some look ->
  (l_lba look, l_offset look) ∈ l /\
  l_entry look = get_dirent m (slot_addr (l_lba look, l_offset look)) /\
  first_byte (l_entry look) ≠ 0 /\ skipped (l_entry look) = false /\
  sname_eq (e_name (l_entry look)) target = true.
Proof.
  intros (l1 & [lba off] & l2 & -> & _ & Hf & Hs & Hn & ->)%lookup_in_Some. simpl.
  split_and!; try done. apply elem_of_app. right. left.
Qed.

(** Looking for the place of a name changes nothing on the disk. *)
Lemma search_then_free fuel s dl target :
  in_dir fuel s dl -> lookup_in (bytes s) (slots s dl) target = None ->
  exists s1 s2, search_dir fuel s (cwd_cluster s) target = Ret (None, s1) /\
    find_free_dirent_in fuel s1 (cwd_cluster s1) = Ret (free_in (bytes s) (slots s dl), s2) /\
    fs_ok s2 /\ same_disk s s2.
Proof.
  intros Hd Hl. destruct (search_cwd fuel s dl target Hd) as (s1 & E1 & Hok1 & Hs1).
  rewrite Hl in E1.
  destruct (free_cwd fuel s1 dl) as (s2 & E2 & Hok2 & Hs2); [by eapply in_dir_same |].
  exists s1, s2. split_and!; [done | | done | by eapply same_disk_trans].
  rewrite E2. f_equal. f_equal. unfold slots. rewrite (sv_fs _ _ (sd_vol _ _ Hs1)).
  by apply same_disk_free.
Qed.

Lemma target_wf name : Forall is_u8 name ->
  length (to_short_name name) = 11%nat /\ Forall is_u8 (to_short_name name).
Proof. intros Hn. split; [apply to_short_name_length | by apply to_short_name_u8]. Qed.

(** A live entry under a fresh name. *)
Lemma new_dirent_live name a c size :
  first_byte (new_dirent name a c size) ≠ 0xE5 -> a = ATTR_ARCHIVE \/ a = FAT_ATTR_DIRECTORY ->
  skipped (new_dirent name a c size) = false.
Proof.
  intros Hf Ha. unfold skipped. rewrite (proj2 (Z.eqb_neq _ _) Hf).
  by destruct Ha as [-> | ->].
Qed.

Lemma short_first_nonzero name : char_at (to_short_name name) 0 ≠ 0.
Proof.
  assert (forall n o out, (0 < o)%nat -> char_at out 0 ≠ 0 ->
    char_at (snd (short_base n o out)) 0 ≠ 0) as Hb.
  { induction n as [|c n IH]; intros o out Ho Hz; simpl; [done |].
    destruct (_ && _); [| done]. apply IH; [lia |]. unfold char_at in *.
    by rewrite list_lookup_insert_ne by lia. }
  assert (forall n e out, (0 < e)%nat -> char_at out 0 ≠ 0 -> char_at (short_ext n e out) 0 ≠ 0)
    as He.
  { induction n as [|c n IH]; intros e out Ho Hz; simpl; [done |].
    destruct (_ && _); [| done]. apply IH; [lia |]. unfold char_at in *.
    by rewrite list_lookup_insert_ne by lia. }
  unfold to_short_name. destruct name as [|c name]; [done |].
  assert (char_at (snd (short_base (c :: name) 0 (replicate 11 ch_space))) 0 ≠ 0) as Hz.
  { simpl. destruct (truth c && negb (c =? ch_dot)) eqn:Ec; simpl; [| done].
    apply Hb; [lia |]. unfold char_at. simpl.
    apply andb_true_iff in Ec as [Ht _]. unfold truth in Ht.
    apply negb_true_iff, Z.eqb_neq in Ht.
    destruct (to_upper_cases c) as [[-> ?] | [-> ?]]; lia. }
  destruct (short_base _ _ _) as [rest out]. simpl in Hz.
  destruct (_ =? _); [apply He; [lia | done] | done].
Qed.

(** ** Create *)

(** C31 [fat32_create] fails, changing nothing on the disk, when the name exists
    or the directory has no free slot; otherwise it writes one new, empty
    entry into the first free slot, touches no other byte of the disk, and
    the name is found from then on. *)
Theorem fat32_create_spec fuel s dl name :
  in_dir fuel s dl -> Forall is_u8 name ->
  let target := to_short_name name in
  match lookup_in (bytes s) (slots s dl) target, free_in (bytes s) (slots s dl) with
  | None, Some sl =>
      exists s', fat32_create fuel s name = Ret (0, s') /\ slot_written s sl s' /\
        get_dirent (bytes s') (slot_addr sl) = new_dirent target ATTR_ARCHIVE 0 0 /\
        (char_at target 0 ≠ 0xE5 ->
         lookup_in (bytes s') (slots s dl) target =
           Some (Lookup (new_dirent target ATTR_ARCHIVE 0 0) (fst sl) (snd sl)))
  | _, _ => exists s', fat32_create fuel s name = Ret (-1, s') /\ fs_ok s' /\ same_disk s s'
  end.
Proof.
  intros Hd Hn target. pose proof (id_mounted _ _ _ Hd) as Hm.
  destruct (target_wf name Hn) as [Hlen Hu8]. fold target in Hlen, Hu8.
  unfold fat32_create. rewrite Hm. cbn [negb]. fold target.
  destruct (lookup_in (bytes s) (slots s dl) target) as [look|] eqn:El.
  { destruct (search_cwd fuel s dl target Hd) as (s1 & -> & Hok1 & Hs1). rewrite El. cbn. eauto. }
  destruct (search_then_free fuel s dl target Hd El) as (s1 & s2 & -> & E2 & Hok2 & Hs2).
  cbn [obind]. rewrite E2. cbn [obind].
  destruct (free_in (bytes s) (slots s dl)) as [[lba off]|] eqn:Ef; [| eauto].
  assert (slot_ok (fs s) (cap s) (lba, off)) as Hsl
    by (eapply in_dir_slots_ok; [done | by apply free_in_slot]).
  destruct (write_dirent_ok s2 (lba, off) (new_dirent target ATTR_ARCHIVE 0 0) Hok2)
    as (s3 & Hw & Hsw & Hg).
  - by rewrite (sv_fs _ _ (sd_vol _ _ Hs2)), (same_disk_cap s s2).
  - by apply new_dirent_wf.
  - apply (slot_written_pre s) in Hsw; [| done]. exists s3. cbn [fst snd] in Hw.
    split_and!; [done | done | done |]. intros Hfirst. eapply place_written; try done.
    + intros x Hx. by eapply in_dir_slots_ok.
    + unfold place. by rewrite El.
    + apply short_first_nonzero.
    + apply new_dirent_live; [done | by left].
Qed.

(** ** Remove *)

(** The clusters of a file given back; a file without clusters has none. *)
Lemma free_file_ok fuel s s1 e l :
  fs_ok s1 -> same_disk s s1 -> chain s (start_cluster e) l -> (length l <= fuel)%nat ->
  exists s2, (if 2 <=? start_cluster e then free_chain fuel s1 (start_cluster e) else Ret s1) = Ret s2 /\
    fs_ok s2 /\ same_vol s s2 /\
    (forall x, valid (fs s) x -> fatv s2 x = if decide (x ∈ l) then 0 else fatv s x) /\ freed s l s2.
Proof.
  intros Hok1 Hs1 Hc Hl. pose proof (sd_vol _ _ Hs1) as V1.
  destruct (free_chain_ok fuel s1 (start_cluster e) l Hok1) as (s2 & E2 & Hok2 & V2 & _ & _ & Hf2 & Hr2);
    [by eapply same_disk_chain | done |].
  exists s2. split_and!.
  - case_ltb; [done |]. rewrite free_chain_stop in E2; [done |]. unfold in_chain.
    by rewrite (proj2 (Z.leb_gt _ _)), andb_false_r.
  - done.
  - by eapply same_vol_trans.
  - intros x Hx. rewrite Hf2 by (by rewrite (sv_fs _ _ V1)). by rewrite (same_disk_fatv s s1).
  - by apply (freed_pre s s1).
Qed.

(** Marking a slot keeps what [freed] says of the FAT. *)
Lemma freed_marked s l s2 s3 sl :
  freed s l s2 -> fs_ok s2 -> same_vol s s2 -> same_vol s2 s3 -> slot_ok (fs s) (cap s) sl ->
  (forall x, x ∈ l -> valid (fs s) x) ->
  (forall x, x ≠ slot_addr sl -> load8 (bytes s3) x = load8 (bytes s2) x) ->
  (forall f c, 0 <= f < num_fats (fs s) -> c ∈ l -> fat_word s3 f c = Z.land (fat_word s f c) 0xF0000000) /\
  (forall x, x ≠ slot_addr sl -> (forall f c, 0 <= f < num_fats (fs s) -> c ∈ l -> ~ in_entry (fs s) f c x) ->
     load8 (bytes s3) x = load8 (bytes s) x).
Proof.
  intros Hr Hok V2 V3 [[Hlo _] (i & Hi & Ho)] Hl Hb. pose proof (sv_fs _ _ V2) as F2. pose proof (sv_fs _ _ V3) as F3. split.
  - intros f c Hf Hc. rewrite <- (fr_entry _ _ _ Hr) by done. unfold fat_word. rewrite F3. apply load32_frame.
    intros x Hx. apply Hb. specialize (Hl c Hc). pose proof (geo_facts s2 Hok) as Hg. simpl in Hg. rewrite F2 in *.
    pose proof (mul_step f (num_fats (fs s)) (fat_size (fs s)) ltac:(lia) ltac:(lia)).
    unfold slot_addr, entry_addr, valid in *. lia.
  - intros x Hx Hout. rewrite Hb by done. by apply (fr_out _ _ _ Hr).
Qed.

(** Once its slot is marked the name is found only if another slot has it. *)
Lemma marked_not_found s s' l target sl :
  (forall sl', sl' ∈ l -> slot_ok (fs s) (cap s) sl') -> slot_ok (fs s) (cap s) sl ->
  first_byte (get_dirent (bytes s') (slot_addr sl)) = 0xE5 ->
  (forall x, 512 * data_start_lba (fs s) <= x -> x ≠ slot_addr sl -> load8 (bytes s') x = load8 (bytes s) x) ->
  (forall sl', sl' ∈ l -> sl' ≠ sl -> sname_eq (e_name (get_dirent (bytes s) (slot_addr sl'))) target = false) ->
  lookup_in (bytes s') l target = None.
Proof.
  intros Hl [_ (i & Hi & Ho)] Hdel Hb Huniq. destruct (lookup_in (bytes s') l target) as [look'|] eqn:El; [| done].
  exfalso. destruct (lookup_in_slot _ _ _ _ El) as (Hin & He & _ & Hs & Hn). set (sl' := (l_lba look', l_offset look')) in *.
  destruct (decide (sl' = sl)) as [E | Hne].
  - rewrite E in He. rewrite He in Hs. unfold skipped in Hs. by rewrite Hdel in Hs.
  - assert (get_dirent (bytes s') (slot_addr sl') = get_dirent (bytes s) (slot_addr sl')) as Eq.
    { destruct (Hl sl' Hin) as [[Hlo _] (j & Hj & Ho')]. apply get_dirent_shift. intros k Hk.
      assert (fst sl' ≠ fst sl \/ i ≠ j).
      { destruct (decide (fst sl' = fst sl)); [right | by left]. intros ->. apply Hne.
        destruct sl', sl; cbn [fst snd] in *. congruence. }
      unfold slot_addr in *. apply Hb; lia. }
    rewrite He, Eq in Hn. by rewrite (Huniq _ Hin Hne) in Hn.
Qed.

(** C32 [fat32_remove] fails, changing no byte of the drive, on an unknown name
    and on a directory; on a file it frees exactly the clusters of the
    file's chain, in every copy of the FAT and with the four reserved bits of
    each entry kept, overwrites the first byte of exactly that slot with the
    mark of a deleted entry, changes no other byte of the drive, and no
    longer finds the name unless the directory held it twice. *)
Theorem fat32_remove_spec fuel s dl name :
  in_dir fuel s dl ->
  let target := to_short_name name in
  match lookup_in (bytes s) (slots s dl) target with
  | None => exists s', fat32_remove fuel s name = Ret (-1, s') /\ fs_ok s' /\ same_disk s s'
  | Some look =>
      if is_directory (l_entry look) then
        exists s', fat32_remove fuel s name = Ret (-1, s') /\ fs_ok s' /\ same_disk s s'
      else forall l, chain s (start_cluster (l_entry look)) l -> (length l <= fuel)%nat ->
        let sl := (l_lba look, l_offset look) in
        exists s', fat32_remove fuel s name = Ret (0, s') /\ fs_ok s' /\ same_vol s s' /\
          (forall x, valid (fs s) x -> fatv s' x = if decide (x ∈ l) then 0 else fatv s x) /\
          load8 (bytes s') (slot_addr sl) = 0xE5 /\
          (forall f c, 0 <= f < num_fats (fs s) -> c ∈ l ->
             fat_word s' f c = Z.land (fat_word s f c) 0xF0000000) /\
          (forall x, x ≠ slot_addr sl ->
             (forall f c, 0 <= f < num_fats (fs s) -> c ∈ l -> ~ in_entry (fs s) f c x) ->
             load8 (bytes s') x = load8 (bytes s) x) /\
          ((forall sl', sl' ∈ slots s dl -> sl' ≠ sl ->
              sname_eq (e_name (get_dirent (bytes s) (slot_addr sl'))) target = false) ->
           lookup_in (bytes s') (slots s dl) target = None)
  end.
Proof.
  intros Hd target. unfold fat32_remove. rewrite (id_mounted _ _ _ Hd). cbn [negb]. fold target.
  destruct (search_cwd fuel s dl target Hd) as (s1 & E1 & Hok1 & Hs1).
  destruct (lookup_in (bytes s) (slots s dl) target) as [look|] eqn:El; [| rewrite E1; cbn; eauto].
  destruct (lookup_in_slot _ _ _ _ El) as (Hin & _).
  destruct (is_directory (l_entry look)) eqn:Edir; [rewrite E1; cbn; rewrite Edir; eauto |].
  intros l Hc Hl. set (sl := (l_lba look, l_offset look)) in *. rewrite E1. cbn [obind]. rewrite Edir.
  destruct (free_file_ok fuel s s1 (l_entry look) l Hok1 Hs1 Hc Hl) as (s2 & -> & Hok2 & V2 & Hf2 & Hr2). cbn [obind].
  pose proof (in_dir_slots_ok _ _ _ _ Hd Hin) as Hsl.
  destruct (mark_deleted_ok s2 sl Hok2) as (s3 & E3 & [Hok3 V3 _ Hfat3 _] & Hdel & Hb3).
  { unfold cap. rewrite (sv_fs _ _ V2), (sv_cap _ _ V2). exact Hsl. }
  destruct (freed_marked s l s2 s3 sl Hr2 Hok2 V2 V3 Hsl) as [Hw Ho]; [intros x Hx; exact (chain_valid _ _ _ _ Hc Hx) | exact Hb3 |].
  exists s3. split_and!; [exact E3 | done | by eapply same_vol_trans | | by rewrite <- first_byte_get | exact Hw | exact Ho |].
  - intros x Hx. rewrite <- Hf2 by done. apply fat_same_fatv; [done | apply V3 | done |]. by rewrite (sv_fs _ _ V2).
  - apply (marked_not_found s); [intros x Hx; by eapply in_dir_slots_ok | done | done |].
    intros x Hx Hne. apply Ho; [done |]. intros f c Hf Hcl. pose proof (chain_valid _ _ _ _ Hc Hcl).
    pose proof (geo_facts s (id_ok _ _ _ Hd)) as Hg. simpl in Hg.
    pose proof (mul_step f (num_fats (fs s)) (fat_size (fs s)) ltac:(lia) ltac:(lia)).
    unfold in_entry, entry_addr, valid in *. lia.
Qed.

(** ** Directories *)

(** Entering a name that is not one of the special ones. *)
Lemma chdir_plain fuel s dl name :
  in_dir fuel s dl ->
  is_root_name name = false -> is_dot_name name = false -> is_dotdot_name name = false ->
  exists s1, fs_ok s1 /\ same_disk s s1 /\
    fat32_chdir fuel s name =
    match lookup_in (bytes s) (slots s dl) (to_short_name name) with
    | Some look =>
        if is_directory (l_entry look) then
          Ret (0, set_cwd s1 (if start_cluster (l_entry look) =? 0 then root_cluster (fs s)
                              else start_cluster (l_entry look)))
        else Ret (-1, s1)
    | None => Ret (-1, s1)
    end.
Proof.
  intros Hd H1 H2 H3. unfold fat32_chdir. rewrite (id_mounted _ _ _ Hd), H1, H2, H3. cbn [negb].
  destruct (search_cwd fuel s dl (to_short_name name) Hd) as (s1 & -> & Hok1 & Hs1).
  exists s1. split; [done |]. split; [done |]. cbn [obind].
  destruct (lookup_in _ _ _) as [look|]; [| done].
  destruct (is_directory _); cbn [negb]; [| done].
  by rewrite (sv_fs _ _ (sd_vol _ _ Hs1)).
Qed.

(** The first two entries [fat32_mkdir] writes. *)
Lemma DOT_wf : length DOT = 11%nat /\ Forall is_u8 DOT.
Proof.
  split; [reflexivity |]. unfold DOT, ch_dot, ch_space.
  repeat constructor; unfold is_u8; lia.
Qed.

Lemma DOTDOT_wf : length DOTDOT = 11%nat /\ Forall is_u8 DOTDOT.
Proof.
  split; [reflexivity |]. unfold DOTDOT, ch_dot, ch_space.
  repeat constructor; unfold is_u8; lia.
Qed.

Lemma dir_data_entries size c parent :
  get_dirent (dir_cluster_data size c parent) 0 = new_dirent DOT FAT_ATTR_DIRECTORY c 0 /\
  get_dirent (dir_cluster_data size c parent) 32 = new_dirent DOTDOT FAT_ATTR_DIRECTORY parent 0.
Proof.
  destruct DOT_wf as [Hd1 Hd2], DOTDOT_wf as [Hdd1 Hdd2].
  assert (is_u8 FAT_ATTR_DIRECTORY /\ is_u32 0) as [Ha Hz]
    by (unfold is_u8, is_u32, FAT_ATTR_DIRECTORY; lia).
  unfold dir_cluster_data. split.
  - etransitivity; [| apply get_put_dirent, (new_dirent_wf DOT FAT_ATTR_DIRECTORY c 0); done].
    apply get_dirent_shift. intros i Hi. apply put_dirent_out; [done | lia].
  - by apply get_put_dirent, new_dirent_wf.
Qed.

(** The slots of a cluster start with its first two entries. *)
Lemma cluster_slots_head g c :
  1 <= sectors_per_cluster g ->
  exists rest, cluster_slots g c = (cluster_lba g c, 0) :: (cluster_lba g c, 32) :: rest.
Proof.
  intros Hspc. unfold cluster_slots, sectors_slots.
  rewrite seqZ_cons by lia. cbn [mbind list_bind]. rewrite Z.add_0_r.
  unfold sector_slots at 1. rewrite (seqZ_cons 0), (seqZ_cons (Z.succ 0)) by lia.
  cbn [fmap list_fmap app]. eexists. reflexivity.
Qed.

(** [..] is found in a cluster that holds what [fat32_mkdir] writes. *)
Lemma dotdot_found s c parent size :
  fs_ok s -> is_u32 parent ->
  (forall x, 0 <= x < 64 ->
     load8 (bytes s) (512 * cluster_lba (fs s) c + x) = load8 (dir_cluster_data size c parent) x) ->
  exists look, lookup_in (bytes s) (dir_slots (fs s) [c]) DOTDOT = Some look /\
    start_cluster (l_entry look) = parent.
Proof.
  intros Hok Hp Hb. pose proof (geo_facts s Hok) as Hg. simpl in Hg.
  destruct (dir_data_entries size c parent) as [E0 E1].
  destruct (cluster_slots_head (fs s) c ltac:(lia)) as [rest Hr].
  assert (get_dirent (bytes s) (slot_addr (cluster_lba (fs s) c, 0)) =
          new_dirent DOT FAT_ATTR_DIRECTORY c 0) as F0.
  { rewrite <- E0. apply get_dirent_shift. intros i Hi. unfold slot_addr. cbn [fst snd].
    rewrite Z.add_0_r, Z.add_0_l. apply Hb. lia. }
  assert (get_dirent (bytes s) (slot_addr (cluster_lba (fs s) c, 32)) =
          new_dirent DOTDOT FAT_ATTR_DIRECTORY parent 0) as F1.
  { rewrite <- E1. apply get_dirent_shift. intros i Hi. unfold slot_addr. cbn [fst snd].
    rewrite <- Z.add_assoc. apply Hb. lia. }
  exists (Lookup (new_dirent DOTDOT FAT_ATTR_DIRECTORY parent 0) (cluster_lba (fs s) c) 32).
  split; [| by apply start_cluster_new].
  apply lookup_in_Some. unfold dir_slots. cbn [mbind list_bind]. rewrite Hr, app_nil_r.
  exists [(cluster_lba (fs s) c, 0)], (cluster_lba (fs s) c, 32), rest. split; [done |]. split.
  - intros x ->%list_elem_of_singleton. unfold at_slot. by rewrite F0.
  - cbv zeta. rewrite F1. done.
Qed.

(** What [fat32_mkdir] did to the volume. *)
Record made_dir (s : fat D) (dl : list Z) (name : list Z) (c : Z) (s' : fat D) : Prop := MadeDir {
  md_ok : fs_ok s';
  md_vol : same_vol s s';
  md_valid : valid (fs s) c;
  md_free : fatv s c = 0;
  md_fat x : valid (fs s) x -> fatv s' x = if decide (x = c) then EOC else fatv s x;
  md_lookup : exists look, lookup_in (bytes s') (slots s dl) (to_short_name name) = Some look /\
    is_directory (l_entry look) = true /\ start_cluster (l_entry look) = c;
  md_dotdot : exists look, lookup_in (bytes s') (dir_slots (fs s) [c]) DOTDOT = Some look /\
    start_cluster (l_entry look) =
      if cwd_cluster s =? root_cluster (fs s) then 0 else cwd_cluster s
}.

(** What a write inside a cluster that is not the directory's, or below the
    data area, leaves of the directory's entries. *)
Lemma dir_entries_kept fuel s s' dl c sl :
  in_dir fuel s dl -> c ∉ dl ->
  (forall x, in_cluster (fs s) c x \/ load8 (bytes s') x = load8 (bytes s) x \/
             x < 512 * data_start_lba (fs s)) ->
  sl ∈ slots s dl -> get_dirent (bytes s') (slot_addr sl) = get_dirent (bytes s) (slot_addr sl).
Proof.
  intros Hd Hcdl Hb. revert sl. apply dir_ext. intros x y Hx Hy.
  destruct (Hb y) as [Hc | [? | Hlow]]; [| done |].
  - exfalso. assert (x = c) as ->; [| done].
    exact (in_cluster_inj s x c y (id_ok _ _ _ Hd) Hy Hc).
  - destruct (cluster_lba_ok s x (id_ok _ _ _ Hd)) as (_ & ? & _).
    + eapply chain_valid; [apply (id_chain _ _ _ Hd) | done].
    + unfold in_cluster in Hy. lia.
Qed.

(** A slot of the directory is outside any cluster that is not the directory's. *)
Lemma slot_outside fuel s dl c sl x :
  in_dir fuel s dl -> valid (fs s) c -> c ∉ dl -> sl ∈ slots s dl -> in_cluster (fs s) c x ->
  x < slot_addr sl \/ slot_addr sl + 32 <= x.
Proof.
  intros Hd Hv Hcdl Hsl Hx. destruct (slot_in_cluster (fs s) dl sl) as (c' & Hc' & Hin); [done |].
  destruct (cluster_disjoint s c c' (id_ok _ _ _ Hd)) as [Hdis | Hdis]; [by intros -> | |];
    pose proof (Hin (slot_addr sl) ltac:(lia)) as Hi1;
    pose proof (Hin (slot_addr sl + 31) ltac:(lia)) as Hi2; unfold in_cluster in *; lia.
Qed.

Lemma fat32_mkdir_ok fuel s dl name sl :
  in_dir fuel s dl -> Forall is_u8 name -> char_at (to_short_name name) 0 ≠ 0xE5 ->
  lookup_in (bytes s) (slots s dl) (to_short_name name) = None ->
  free_in (bytes s) (slots s dl) = Some sl ->
  (exists c, valid (fs s) c /\ fatv s c = 0) -> is_u32 (cwd_cluster s) ->
  exists c s', fat32_mkdir fuel s name = Ret (0, s') /\ made_dir s dl name c s'.
Proof.
  intros Hd Hn Hfirst El Ef Hfree Hcwd32. destruct (target_wf name Hn) as [Hlen Hu8].
  set (target := to_short_name name) in *.
  unfold fat32_mkdir. rewrite (id_mounted _ _ _ Hd). cbn [negb]. fold target.
  destruct (search_then_free fuel s dl target Hd El) as (s1 & s2 & -> & E2 & Hok2 & Hs2).
  cbn [obind]. rewrite E2, Ef. destruct sl as [lba off]. cbn [obind].
  pose proof (sd_vol _ _ Hs2) as V2. pose proof (sv_fs _ _ V2) as F2.
  destruct (alloc_cluster_ok s2 Hok2) as [(c & s3 & E3 & A3) | (s3 & _ & _ & _ & _ & Hfull)].
  2: { destruct Hfree as (c & Hv & Hz). exfalso. apply (Hfull c); [by rewrite F2 |].
       by rewrite (same_disk_fatv s s2). }
  rewrite E3. cbn [obind]. destruct (allocated_pre s s2 c s3 Hs2 A3) as [Hv Hz Hok3 V3 Hd3 _ Hf3].
  pose proof (sv_fs _ _ V3) as F3. pose proof (geo_facts s (id_ok _ _ _ Hd)) as Hg. simpl in Hg.
  rewrite (proj2 (Z.eqb_neq c 0)) by (unfold valid in Hv; lia).
  rewrite F3, (sv_cwd _ _ V3). rewrite u32_small by lia.
  set (parent := if cwd_cluster s =? root_cluster (fs s) then 0 else cwd_cluster s).
  destruct (cluster_lba_ok s3 c Hok3) as (-> & Hlo & Hhi); [by rewrite F3 |].
  rewrite F3 in Hlo, Hhi |- *.
  set (data := dir_cluster_data (sectors_per_cluster (fs s) * 512) c parent).
  destruct (data_write_ok s3 (cluster_lba (fs s) c) (sectors_per_cluster (fs s)) data Hok3)
    as (d & E4 & Hok4 & V4 & Hfat4 & Hb4); [by rewrite F3 | lia | done |].
  rewrite F3 in E4. rewrite E4. cbn [obind]. change (0 <? 0) with false. cbv iota.
  set (s4 := set_dev s3 d) in *.
  pose proof (same_vol_trans _ _ _ V3 V4) as V34. pose proof (sv_fs _ _ V34) as F4.
  assert (cap s4 = cap s) as C4 by (unfold cap; by rewrite F4, (sv_cap _ _ V34)).
  assert (c ∉ dl) as Hcdl by (intros Hin; by apply (id_used _ _ _ Hd c)).
  assert (forall sl, sl ∈ slots s dl ->
    get_dirent (bytes s4) (slot_addr sl) = get_dirent (bytes s) (slot_addr sl)) as Hdir4.
  { intros sl. apply (dir_entries_kept fuel s s4 dl c sl Hd Hcdl). intros x. rewrite Hb4.
    case_decide as Hin; [left; unfold in_cluster; lia |].
    right. destruct (decide (x < 512 * data_start_lba (fs s))); [by right | left].
    apply Hd3. lia. }
  assert (slot_ok (fs s) (cap s) (lba, off)) as Hsl
    by (eapply in_dir_slots_ok; [done | by apply free_in_slot]).
  destruct (write_dirent_ok s4 (lba, off) (new_dirent target FAT_ATTR_DIRECTORY c 0) Hok4)
    as (s5 & E5 & W5 & G5); [by rewrite F4, C4 | by apply new_dirent_wf |].
  cbn [fst snd] in E5. rewrite E5. cbn [obind]. change (0 <? 0) with false. cbv iota.
  exists c, s5. split; [done |]. pose proof W5 as [Hok5 V5 _ Hfat5 Hout5].
  pose proof (same_vol_trans _ _ _ V34 V5) as V. split; try done.
  - intros x Hx. rewrite <- Hf3 by done. pose proof Hv as Hv'.
    rewrite (fat_same_fatv s4 s5), (fat_same_fatv s3 s4); try done; try apply V5; try apply V4.
    + by rewrite F3.
    + by rewrite F4.
  - exists (Lookup (new_dirent target FAT_ATTR_DIRECTORY c 0) lba off).
    split; [| split; [done | apply start_cluster_new; unfold valid, is_u32 in *; lia]].
    apply (place_written s4 s5 (slots s dl) target (lba, off)); try done.
    + intros x Hx. rewrite F4, C4. by eapply in_dir_slots_ok.
    + unfold place, lookup_in, free_in. rewrite !(scan_list_ext_on _ (bytes s) (bytes s4)) by done.
      fold (lookup_in (bytes s) (slots s dl) target). fold (free_in (bytes s) (slots s dl)).
      by rewrite El, Ef.
    + apply short_first_nonzero.
    + apply new_dirent_live; [done | by right].
  - fold parent. rewrite <- (sv_fs _ _ V).
    apply (dotdot_found s5 c parent (sectors_per_cluster (fs s) * 512)); [done | |].
    + unfold parent, is_u32 in *. case_ltb; lia.
    + intros x Hx. rewrite (sv_fs _ _ V). rewrite Hout5.
      * rewrite Hb4, decide_True by lia. f_equal. lia.
      * apply (slot_outside fuel s dl c (lba, off)); [done | done | done | by apply free_in_slot |].
        unfold in_cluster. lia.
Qed.

(** C33 A directory made with [fat32_mkdir] can be entered under its name, and
    [..] leads back to where it was made; its cluster was free before, and no
    other cluster's FAT entry changed. *)
Theorem fat32_mkdir_chdir fuel s dl name sl :
  in_dir fuel s dl -> (1 <= fuel)%nat -> Forall is_u8 name ->
  is_root_name name = false -> is_dot_name name = false -> is_dotdot_name name = false ->
  char_at (to_short_name name) 0 ≠ 0xE5 ->
  lookup_in (bytes s) (slots s dl) (to_short_name name) = None ->
  free_in (bytes s) (slots s dl) = Some sl ->
  (exists c, valid (fs s) c /\ fatv s c = 0) -> is_u32 (cwd_cluster s) ->
  valid (fs s) (root_cluster (fs s)) -> fatv s (root_cluster (fs s)) ≠ 0 ->
  exists c s1 s2 s3,
    fat32_mkdir fuel s name = Ret (0, s1) /\
    fat32_chdir fuel s1 name = Ret (0, s2) /\ cwd_cluster s2 = c /\
    fat32_chdir fuel s2 [ch_dot; ch_dot] = Ret (0, s3) /\ cwd_cluster s3 = cwd_cluster s /\
    valid (fs s) c /\ fatv s c = 0 /\
    forall x, valid (fs s) x -> x ≠ c -> fatv s3 x = fatv s x.
Proof.
  intros Hd Hfuel Hn R1 R2 R3 Hfirst El Ef Hfree Hcwd32 Hroot Hrootused.
  destruct (fat32_mkdir_ok fuel s dl name sl Hd Hn Hfirst El Ef Hfree Hcwd32)
    as (c & s1 & E1 & [Hok1 V1 Hv Hz Hf1 (look & L1 & Ldir & Lstart) (dd & L2 & Dstart)]).
  pose proof (sv_fs _ _ V1) as F1.
  assert (in_dir fuel s1 dl) as Hd1.
  { apply (in_dir_kept fuel s); [done | done | done |]. intros x Hx. rewrite Hf1, decide_False.
    - done.
    - intros ->. by apply (id_used _ _ _ Hd c).
    - eapply chain_valid; [apply (id_chain _ _ _ Hd) | done]. }
  destruct (chdir_plain fuel s1 dl name Hd1 R1 R2 R3) as (s2 & Hok2 & Hs2 & E2).
  assert (c ≠ root_cluster (fs s)) as Hcr by (intros ->; done).
  assert (c ≠ 0) as Hc0 by (unfold valid in Hv; lia).
  unfold slots in E2. rewrite F1 in E2. fold (slots s dl) in E2.
  rewrite L1, Ldir, Lstart, (proj2 (Z.eqb_neq c 0) Hc0) in E2.
  set (s2' := set_cwd s2 c) in *.
  assert (fs_ok s2') as Hok2' by (destruct Hok2; by split).
  pose proof (sv_fs _ _ (sd_vol _ _ Hs2)) as F2.
  assert (fs s2' = fs s) as F2' by (simpl; congruence).
  assert (forall x, valid (fs s) x -> fatv s2' x = if decide (x = c) then EOC else fatv s x) as Hf2.
  { intros x Hx. rewrite <- Hf1 by done. change (fatv s2' x) with (fatv s2 x).
    by apply same_disk_fatv. }
  destruct (search_dir_ok fuel s2' c [c] DOTDOT Hok2') as (s3 & E3 & Hok3 & Hs3).
  { cbn [chain]. split; [done |]. split; [by rewrite F2' |]. by rewrite Hf2, decide_True. }
  { simpl. lia. }
  rewrite F2' in E3. change (bytes s2') with (bytes s2) in E3.
  rewrite (same_disk_lookup s1 s2), L2 in E3 by done.
  exists c, s1, s2'. eexists. split; [done |]. split; [exact E2 |]. split; [done |]. split.
  { unfold fat32_chdir. change (mounted s2') with (mounted s2).
    rewrite (sv_mounted _ _ (sd_vol _ _ Hs2)), (id_mounted _ _ _ Hd1). cbn [negb].
    change (is_root_name [ch_dot; ch_dot]) with false. change (is_dot_name [ch_dot; ch_dot]) with false.
    change (is_dotdot_name [ch_dot; ch_dot]) with true. cbv iota.
    change (cwd_cluster s2') with c. rewrite F2', (proj2 (Z.eqb_neq c _) Hcr).
    rewrite E3. cbn [obind]. rewrite Dstart. reflexivity. }
  split; [| split; [done | split; [done |]]].
  - cbn [set_cwd cwd_cluster]. rewrite (sv_fs _ _ (sd_vol _ _ Hs3)), F2'.
    destruct (Z.eqb_spec (cwd_cluster s) (root_cluster (fs s))) as [Ecr | Ecr].
    + by rewrite Z.eqb_refl.
    + destruct (Z.eqb_spec (cwd_cluster s) 0) as [Ec0 | _]; [| done].
      exfalso. (* the directory has a slot, so its chain is not empty *)
      apply free_in_slot in Ef. destruct dl as [|x dl].
      * by apply not_elem_of_nil in Ef.
      * destruct (id_chain _ _ _ Hd) as (_ & Hvc & _). unfold valid in Hvc. lia.
  - intros x Hx Hne.
    match goal with |- fatv (set_cwd s3 ?p) x = _ => change (fatv (set_cwd s3 p) x) with (fatv s3 x) end.
    rewrite (same_disk_fatv s2' s3), Hf2, decide_False by done. done.
Qed.

End Ops.
