(* ===== verification/FatFile.v ===== *)
(** * FAT32: file contents

    [fat32_read_file] reads the bytes of a chain, [fat32_write_file] builds
    one; a file written is read back, and what happens when the disk fills
    up in the middle of an overwrite. *)

From S2P Require Import Prelude Memory Interfaces Fat32 FatName FatTable FatDir FatOps.

Section Files.
  Context {D : Type} `{BlockDeviceLaws D}.
  Implicit Types s : fat D.

(** ** The bytes of a chain *)

Definition cluster_size (g : geo) : Z := 512 * sectors_per_cluster g.

Definition file_byte (s : fat D) (l : list Z) (j : Z) : Z :=
  match l !! Z.to_nat (j / cluster_size (fs s)) with
  | Some c => load8 (bytes s) (512 * cluster_lba (fs s) c + j mod cluster_size (fs s))
  | None => 0
  end.

Lemma cluster_size_range s : fs_ok s -> 512 <= cluster_size (fs s) <= 65536.
Proof. intros Hok. pose proof (geo_facts s Hok) as Hg. simpl in Hg. unfold cluster_size. lia. Qed.

Lemma same_disk_file_byte s s' l j : same_disk s s' -> file_byte s' l j = file_byte s l j.
Proof.
  intros [[Hf _ _ _] _ Hb]. unfold file_byte. rewrite Hf. by destruct (l !! _).
Qed.

(** ** Reading *)

Lemma read_cluster_ok s c :
  fs_ok s -> valid (fs s) c ->
  exists s', read_cluster s c = Ret (0, s') /\ fs_ok s' /\ same_disk s s' /\
    forall i, 0 <= i < cluster_size (fs s) ->
      load8 (cluster_buf s') i = load8 (bytes s) (512 * cluster_lba (fs s) c + i).
Proof.
  intros Hok Hv. pose proof (geo_facts s Hok) as Hg. simpl in Hg. unfold read_cluster.
  destruct (cluster_lba_ok s c Hok Hv) as (-> & Hlo & Hhi).
  destruct (ata_read_ok (dev s) (drive (fs s)) (cluster_lba (fs s) c)
    (sectors_per_cluster (fs s)) (cluster_buf s) (fo_dev _ Hok))
    as (buf & d & -> & Hd & Hbuf & Hcap & Hb); [lia | lia | exact Hhi |].
  cbn [obind]. destruct (fs_ok_read s d Hok Hd Hcap Hb) as [Hok1 [V1 _ Hb1]].
  eexists. split; [reflexivity |]. split; [by destruct Hok1; split |]. split; [by split; destruct V1 |].
  intros i Hi. unfold cluster_size in Hi. cbn [cluster_buf set_cluster_buf].
  rewrite Hbuf, decide_True by lia. done.
Qed.

Lemma load8_copy (m : mem) (src : mem) a n x :
  0 <= n ->
  load8 (for_range 0 n (fun m i => store8 m (a + i) (load8 src i)) m) x =
  if decide (a <= x < a + n) then load8 src (x - a) else load8 m x.
Proof.
  intros Hn.
  refine (for_range_ind (fun i m' => load8 m' x =
    if decide (a <= x < a + i) then load8 src (x - a) else load8 m x) 0 n _ m Hn _ _).
  - rewrite decide_False; [done | lia].
  - intros i m' Hi IH. rewrite load8_store8, IH. repeat case_decide; try lia.
    subst. rewrite u8_small by apply load8_range. f_equal. lia.
Qed.

Lemma in_chain_valid s c l : fs_ok s -> chain s c l -> in_chain c = negb (bool_decide (l = [])).
Proof.
  intros Hok Hc. destruct l as [|x l]; simpl in Hc; [done |].
  destruct Hc as (_ & Hv & _). by rewrite (valid_in_chain s c Hok Hv).
Qed.

(** The loop that stops once [copied] bytes, all there are, were read. *)
Lemma read_stop s l copied total dst :
  fs_ok s -> total = copied ->
  exists dst' s', Ret (i32 copied, dst, s) = Ret (i32 total, dst', s') /\
    fs_ok s' /\ same_disk s s' /\
    forall x, load8 dst' x = if decide (copied <= x < total) then file_byte s l x
                             else load8 dst x.
Proof.
  intros Hok ->. exists dst, s. split_and!; [done | done | apply same_disk_refl |].
  intros x. by rewrite decide_False by lia.
Qed.

(** All the bytes that were asked for: no more than the chain holds. *)
Lemma read_all_total (l : list Z) (k : nat) cs size :
  0 <= cs -> (k <= length l)%nat -> size <= Z.of_nat k * cs ->
  Z.min size (Z.of_nat (length l) * cs) = size.
Proof.
  intros Hcs Hk Hs. pose proof (Z.mul_le_mono_nonneg_r (Z.of_nat k) (Z.of_nat (length l)) cs). lia.
Qed.

Lemma read_loop_ok n s c l k size copied dst :
  fs_ok s -> chain s c (drop k l) -> 0 <= size < 2 ^ 32 ->
  copied = Z.min size (Z.of_nat k * cluster_size (fs s)) ->
  size - copied <= 512 * Z.of_nat n -> (k <= length l)%nat ->
  let total := Z.min size (Z.of_nat (length l) * cluster_size (fs s)) in
  exists dst' s', read_loop n s c size copied dst = Ret (i32 total, dst', s') /\
    fs_ok s' /\ same_disk s s' /\
    forall x, load8 dst' x = if decide (copied <= x < total) then file_byte s l x
                             else load8 dst x.
Proof.
  revert s c k copied dst. induction n as [|n IH]; intros s c k copied dst Hok Hc Hsz Hcop Hn Hk total;
    pose proof (cluster_size_range s Hok) as Hcs;
    pose proof (in_chain_valid s c (drop k l) Hok Hc) as Hin.
  - simpl. rewrite (proj2 (Z.ltb_ge copied size)), andb_false_r by lia. apply read_stop; [done |].
    unfold total. rewrite (read_all_total l k); lia.
  - cbn [read_loop]. destruct (Z.ltb_spec copied size) as [Hlt | Hge].
    2: { rewrite andb_false_r. apply read_stop; [done |]. unfold total.
      rewrite (read_all_total l k); lia. }
    rewrite andb_true_r. assert (copied = Z.of_nat k * cluster_size (fs s)) as Ecop by lia.
    destruct (drop k l) as [|y l'] eqn:Ed; simpl in Hin.
    { rewrite Hin. assert (k = length l) as Ekl.
      { apply (f_equal length) in Ed. rewrite length_drop in Ed. simpl in Ed. lia. }
      apply read_stop; [done |]. unfold total. rewrite <- Ekl. lia. }
    rewrite Hin. destruct Hc as (-> & Hv & Hc).
    assert (l !! k = Some c) as Hlk by (by rewrite <- (Nat.add_0_r k), <- lookup_drop, Ed).
    assert (drop (S k) l = l') as Ed'.
    { pose proof (drop_S _ _ _ Hlk) as E. rewrite Ed in E. congruence. }
    assert (S k <= length l)%nat as Hk' by (apply lookup_lt_Some in Hlk; lia).
    destruct (read_cluster_ok s c Hok Hv) as (s1 & -> & Hok1 & Hs1 & Hbuf).
    cbn [obind]. change (0 <? 0) with false. cbv iota zeta.
    pose proof (sv_fs _ _ (sd_vol _ _ Hs1)) as F1. rewrite F1.
    rewrite (u32_small (sectors_per_cluster (fs s) * 512)) by (unfold cluster_size in Hcs; lia).
    replace (sectors_per_cluster (fs s) * 512) with (cluster_size (fs s))
      by (unfold cluster_size; lia).
    rewrite (u32_small (size - copied)) by lia.
    set (cnt := if size - copied <? cluster_size (fs s) then size - copied else cluster_size (fs s)).
    assert (cnt = Z.min (size - copied) (cluster_size (fs s))) as Ecnt
      by (unfold cnt; case_ltb; lia).
    destruct (next_cluster_ok s1 c Hok1) as (s2 & -> & Hok2 & Hs2); [by rewrite F1 |].
    cbn [obind]. rewrite (same_disk_fatv s s1) by done. rewrite (u32_small (copied + cnt)) by lia.
    pose proof (same_disk_trans _ _ _ Hs1 Hs2) as Hs12.
    pose proof (sv_fs _ _ (sd_vol _ _ Hs12)) as F2.
    set (dst1 := for_range 0 cnt _ dst).
    destruct (IH s2 (fatv s c) (S k) (copied + cnt) dst1 Hok2) as (dst' & s3 & -> & Hok3 & Hs3 & Hb3).
    + rewrite Ed'. by eapply same_disk_chain.
    + done.
    + rewrite F2. lia.
    + lia.
    + done.
    + rewrite F2. fold total. exists dst', s3.
      split_and!; [done | done | by eapply same_disk_trans |].
      assert (copied + cnt <= total) as Htot.
      { unfold total. pose proof (Z.mul_le_mono_nonneg_r (Z.of_nat (S k)) (Z.of_nat (length l))
          (cluster_size (fs s))). lia. }
      intros x. rewrite Hb3, F2. fold total. rewrite (same_disk_file_byte s s2) by done.
      destruct (decide (copied + cnt <= x < total)) as [Hx | Hx];
        [by rewrite decide_True by lia |].
      unfold dst1. rewrite load8_copy by lia.
      destruct (decide (copied <= x < copied + cnt)) as [Hx' | Hx'].
      * rewrite decide_True, Hbuf by lia. unfold file_byte.
        assert (x / cluster_size (fs s) = Z.of_nat k) as ->.
        { symmetry. apply (Z.div_unique x _ _ (x - copied)); [left |]; lia. }
        assert (x mod cluster_size (fs s) = x - copied) as ->.
        { symmetry. apply (Z.mod_unique x _ (Z.of_nat k)); [left |]; lia. }
        by rewrite Nat2Z.id, Hlk.
      * by rewrite decide_False by lia.
Qed.

Lemma read_file_ok s e l buf max :
  fs_ok s -> mounted s = true -> chain s (start_cluster e) l ->
  is_u32 (e_size e) -> 0 <= max < 2 ^ 31 ->
  let n := Z.min (Z.min (e_size e) max) (Z.of_nat (length l) * cluster_size (fs s)) in
  exists buf' s', fat32_read_file s e buf max = Ret (n, buf', s') /\
    fs_ok s' /\ same_disk s s' /\
    forall x, load8 buf' x = if decide (0 <= x < n) then file_byte s l x else load8 buf x.
Proof.
  intros Hok Hm Hc Hsz Hmax n. unfold fat32_read_file. rewrite Hm. cbn [negb].
  pose proof (cluster_size_range s Hok) as Hcs. unfold is_u32 in Hsz.
  assert ((if max <? e_size e then max else e_size e) = Z.min (e_size e) max) as ->
    by (case_ltb; lia).
  assert (0 <= Z.of_nat (length l) * cluster_size (fs s)) by lia.
  destruct (read_loop_ok (copy_fuel (Z.min (e_size e) max)) s (start_cluster e) l 0
              (Z.min (e_size e) max) 0 buf Hok) as (buf' & s' & -> & Hok' & Hs' & Hb).
  - done.
  - lia.
  - lia.
  - unfold copy_fuel. zdm.
  - lia.
  - fold n. exists buf', s'. split_and!; [| done | done | done].
    f_equal. f_equal. f_equal. unfold i32. rewrite u32_small by lia. case_ltb; lia.
Qed.

(** [fat32_read_file] returns the smaller of the entry's size, the caller's
    limit and the bytes of the chain, and fills exactly that much of the
    buffer with the bytes of the chain's clusters in order; it terminates
    on every chain and changes nothing on the disk. *)
Theorem fat32_read_file_spec s e l buf max :
  fs_ok s -> mounted s = true -> chain s (start_cluster e) l ->
  is_u32 (e_size e) -> 0 <= max < 2 ^ 31 ->
  let n := Z.min (Z.min (e_size e) max) (Z.of_nat (length l) * cluster_size (fs s)) in
  exists buf' s', fat32_read_file s e buf max = Ret (n, buf', s') /\
    fs_ok s' /\ same_disk s s' /\
    forall x, load8 buf' x = if decide (0 <= x < n) then file_byte s l x else load8 buf x.
Proof. apply read_file_ok. Qed.

(** ** Writing: the allocation loop *)

(** The byte the file holds at [j]: the data, then zeros. *)
Definition data_byte (data : list Z) (size j : Z) : Z :=
  if j <? size then u8 (default 0 (data !! Z.to_nat j)) else 0.

Lemma load8_cluster_data data w copy cs i :
  0 <= copy <= cs -> 0 <= i < cs ->
  load8 (cluster_data data w copy cs) i =
  if i <? copy then u8 (default 0 (data !! Z.to_nat (w + i))) else 0.
Proof.
  intros Hc Hi. unfold cluster_data.
  set (buf := for_range 0 copy _ ∅).
  assert (forall x, 0 <= x < copy -> load8 buf x = u8 (default 0 (data !! Z.to_nat (w + x)))) as Hb.
  { assert (forall x, 0 <= x < copy ->
      load8 buf x = u8 (default 0 (data !! Z.to_nat (w + x)))) as Hx; [| exact Hx].
    unfold buf.
    refine (for_range_ind (fun k m => forall x, 0 <= x < k ->
      load8 m x = u8 (default 0 (data !! Z.to_nat (w + x)))) 0 copy _ _ _ _ _); [lia | lia |].
    intros k m Hk IH x Hx. rewrite load8_store8. case_decide; [by subst | apply IH; lia]. }
  assert ((i < copy -> load8 (for_range copy cs (fun m i => store8 m i 0) buf) i = load8 buf i) /\
    (copy <= i < cs -> load8 (for_range copy cs (fun m i => store8 m i 0) buf) i = 0)) as [H1 H2].
  { refine (for_range_ind (fun k m => (i < copy -> load8 m i = load8 buf i) /\
      (copy <= i < k -> load8 m i = 0)) copy cs _ buf _ _ _); [lia | split; [done | lia] |].
    intros k m Hk [I1 I2]. rewrite load8_store8. case_decide; [subst; split; [lia | done] |].
    split; [done |]. intros Hik. apply I2. lia. }
  case_ltb; [rewrite H1 by done; apply Hb; lia | apply H2; lia].
Qed.

(** The clusters [l] allocated since [s0] form a chain that ends in [s], hold
    the beginning of the data, and are the only thing that changed. *)
Record written_to (s0 : fat D) (data : list Z) (size : Z) (l : list Z) (s : fat D) : Prop := {
  wt_ok : fs_ok s;
  wt_vol : same_vol s0 s;
  wt_nodup : NoDup l;
  wt_free c : c ∈ l -> valid (fs s0) c /\ fatv s0 c = 0;
  wt_link k c : l !! k = Some c ->
    fatv s c = match l !! S k with Some d => d | None => EOC end;
  wt_fat x : valid (fs s0) x -> x ∉ l -> fatv s x = fatv s0 x;
  wt_data k c i : l !! k = Some c -> 0 <= i < cluster_size (fs s0) ->
    load8 (bytes s) (512 * cluster_lba (fs s0) c + i) =
    data_byte data size (Z.of_nat k * cluster_size (fs s0) + i);
  wt_out x : 512 * data_start_lba (fs s0) <= x -> (forall c, c ∈ l -> ~ in_cluster (fs s0) c x) ->
    load8 (bytes s) x = load8 (bytes s0) x
}.

Lemma written_nil s0 data size : fs_ok s0 -> written_to s0 data size [] s0.
Proof. intros Hok. split; try done. - constructor. - by intros c []%not_elem_of_nil. Qed.

(** Distinct valid clusters: at most as many as the volume has. *)
Lemma valid_length s l :
  fs_ok s -> NoDup l -> (forall c, c ∈ l -> valid (fs s) c) ->
  Z.of_nat (length l) <= total_clusters (fs s).
Proof.
  intros Hok Hnd Hv. pose proof (geo_facts s Hok) as Hg. simpl in Hg.
  assert (length l <= length (seqZ 2 (total_clusters (fs s))))%nat as Hle.
  { apply submseteq_length, NoDup_submseteq; [done |]. intros c Hc%Hv.
    apply elem_of_seqZ. unfold valid in Hc. lia. }
  rewrite length_seqZ in Hle. lia.
Qed.

(** A written list is a chain. *)
Lemma written_chain s0 data size l s k c :
  written_to s0 data size l s -> l !! k = Some c -> chain s c (drop k l).
Proof.
  intros Hw. remember (length l - k)%nat as n eqn:En. revert k c En.
  induction n as [|n IH]; intros k c En Hk.
  - apply lookup_lt_Some in Hk. lia.
  - rewrite (drop_S l c k Hk). simpl. split; [done |]. split.
    + rewrite (sv_fs _ _ (wt_vol _ _ _ _ _ Hw)).
      apply (wt_free _ _ _ _ _ Hw). by eapply list_elem_of_lookup_2.
    + rewrite (wt_link _ _ _ _ _ Hw _ _ Hk). destruct (l !! S k) as [d|] eqn:Ed.
      * apply IH; [lia | done].
      * rewrite drop_ge by (apply lookup_ge_None in Ed; lia). done.
Qed.

Lemma written_used s0 data size l s c :
  fs_ok s0 -> written_to s0 data size l s -> c ∈ l -> fatv s c ≠ 0.
Proof.
  intros Hok Hw (k & Hk)%list_elem_of_lookup. rewrite (wt_link _ _ _ _ _ Hw _ _ Hk).
  destruct (l !! S k) as [d|] eqn:Ed; [| done].
  destruct (wt_free _ _ _ _ _ Hw d) as [Hv _]; [by eapply list_elem_of_lookup_2 |].
  unfold valid in Hv. lia.
Qed.

Lemma written_bytes s0 data size l s j :
  fs_ok s0 -> written_to s0 data size l s ->
  0 <= j < size -> size <= Z.of_nat (length l) * cluster_size (fs s0) ->
  file_byte s l j = data_byte data size j.
Proof.
  intros Hok Hw Hj Hl. pose proof (cluster_size_range s0 Hok) as Hcs.
  unfold file_byte. rewrite (sv_fs _ _ (wt_vol _ _ _ _ _ Hw)).
  assert (0 <= j / cluster_size (fs s0) < Z.of_nat (length l)) as Hk.
  { split; [apply Z.div_pos; lia | apply Z.div_lt_upper_bound; lia]. }
  destruct (lookup_lt_is_Some_2 l (Z.to_nat (j / cluster_size (fs s0)))) as [c Hc]; [lia |].
  rewrite Hc. rewrite (wt_data _ _ _ _ _ Hw _ _ _ Hc) by (apply Z.mod_pos_bound; lia).
  f_equal. rewrite Z2Nat.id by lia. pose proof (Z.div_mod j (cluster_size (fs s0))). lia.
Qed.

(** The cluster that ends the chain so far, or no cluster, made to name [c]. *)
Definition link_to (s1 : fat D) (last_c : option Z) (c : Z) (s2 : fat D) : Prop :=
  match last_c with
  | Some p => set_fat_entry s1 p c = Ret (0, s2)
  | None => s2 = s1
  end.

Lemma link_to_ok s1 lc c s2 :
  fs_ok s1 -> valid (fs s1) c -> (forall p, lc = Some p -> valid (fs s1) p) -> link_to s1 lc c s2 ->
  fs_ok s2 /\ same_vol s1 s2 /\ data_same s1 s2 /\
  forall x, valid (fs s1) x -> fatv s2 x = if decide (lc = Some x) then c else fatv s1 x.
Proof.
  intros Hok Hv Hlc Hl. destruct lc as [p|]; simpl in Hl; [| by subst s2].
  destruct (set_fat_entry_ok s1 p c Hok (Hlc p eq_refl)) as (s2' & E & Hok2 & V2 & _ & Hd2 & Hf2 & _).
  rewrite Hl in E. apply Ret_inj in E. injection E as <-.
  split_and!; try done. intros x Hx. rewrite Hf2 by done.
  destruct (decide (x = p)) as [-> | Hne].
  - rewrite decide_True by done. pose proof (geo_facts s1 Hok) as Hg. simpl in Hg.
    unfold MASK28. change 0x0FFFFFFF with (2 ^ 28 - 1).
    rewrite land_mask, Z.mod_small; unfold valid in Hv; lia.
  - rewrite decide_False; [done | congruence].
Qed.

(** A table whose chain [l] is extended by [c]: what each cluster then holds. *)
Definition snoc_fat (f0 f1 : Z -> Z) (l : list Z) (c x : Z) : Prop :=
  f1 x = if decide (last l = Some x) then c else if decide (x = c) then EOC else f0 x.

Lemma snoc_fat_link f0 f1 (l : list Z) c k x :
  NoDup l -> c ∉ l -> (l ++ [c]) !! k = Some x -> snoc_fat f0 f1 l c x ->
  (l !! k = Some x -> f0 x = default EOC (l !! S k)) ->
  f1 x = default EOC ((l ++ [c]) !! S k).
Proof.
  intros Hnd Hcl Hk Hx Hl. red in Hx. rewrite Hx. apply lookup_snoc_Some in Hk as [[Hkl Hk] | [-> <-]].
  - assert (x ∈ l) as Hin by (by eapply list_elem_of_lookup_2).
    assert (x ≠ c) as Hxc by (intros ->; done).
    destruct (decide (S k = length l)) as [Ek | Ek].
    + assert (last l = Some x) as El by (rewrite last_lookup, <- Ek; simpl; exact Hk).
      rewrite decide_True by done. rewrite lookup_app_r by lia. by rewrite Ek, Nat.sub_diag.
    + rewrite lookup_app_l by lia. rewrite decide_False.
      * rewrite decide_False by done. by apply Hl.
      * rewrite last_lookup. intros El. pose proof (NoDup_lookup _ _ _ _ Hnd Hk El). lia.
  - rewrite decide_False, decide_True.
    + by rewrite lookup_ge_None_2 by (rewrite length_app; simpl; lia).
    + done.
    + intros [l' ->]%last_Some. apply Hcl, elem_of_app. right. left.
Qed.

Lemma snoc_fat_out f0 f1 (l : list Z) c x : x ∉ l ++ [c] -> snoc_fat f0 f1 l c x -> f1 x = f0 x.
Proof.
  intros Hnin Hx. red in Hx. rewrite elem_of_app, list_elem_of_singleton in Hnin.
  rewrite Hx, decide_False, decide_False; [done | tauto |].
  intros [l' ->]%last_Some. apply Hnin. left. apply elem_of_app. right. left.
Qed.

(** One iteration: a free cluster is linked to the end and filled. *)
Lemma written_snoc s0 data size l s c s1 s2 s3 d buf :
  fs_ok s0 -> written_to s0 data size l s -> allocated s c s1 ->
  link_to s1 (last l) c s2 ->
  ata_write (dev s2) (drive (fs s2)) (cluster_to_lba s2 c) (sectors_per_cluster (fs s2)) buf
    = Ret (0, d) -> s3 = set_dev s2 d ->
  (forall i, 0 <= i < cluster_size (fs s0) -> load8 buf i =
     data_byte data size (Z.of_nat (length l) * cluster_size (fs s0) + i)) ->
  written_to s0 data size (l ++ [c]) s3.
Proof.
  intros Hok0 Hw Ha Hlink Hwr -> Hbuf.
  pose proof (wt_vol _ _ _ _ _ Hw) as V. pose proof (sv_fs _ _ V) as F.
  destruct Ha as [Hv Hz Hok1 V1 Hd1 _ Hf1]. rewrite F in Hv.
  assert (c ∉ l) as Hcl by (intros Hin; by apply (written_used _ _ _ _ _ _ Hok0 Hw Hin)).
  pose proof (same_vol_trans _ _ _ V V1) as V01. pose proof (sv_fs _ _ V01) as F1.
  pose proof (geo_facts s0 Hok0) as Hg. simpl in Hg.
  destruct (link_to_ok s1 (last l) c s2) as (Hok2 & V2 & Hd2 & Hf2); [done | by rewrite F1 | | done |].
  { intros p [l' ->]%last_Some. rewrite F1. apply (wt_free _ _ _ _ _ Hw), elem_of_app. right. left. }
  rewrite F1 in Hf2.
  pose proof (same_vol_trans _ _ _ V01 V2) as V02. pose proof (sv_fs _ _ V02) as F2.
  destruct (cluster_lba_ok s2 c Hok2) as (Elba & Hlo & Hhi); [by rewrite F2 |].
  rewrite Elba in Hwr.
  destruct (data_write_ok s2 (cluster_lba (fs s2) c) (sectors_per_cluster (fs s2)) buf Hok2)
    as (d' & Hwr' & Hok3 & V3 & Hfat3 & Hb3); [done | rewrite F2; lia | done |].
  rewrite Hwr in Hwr'. apply Ret_inj in Hwr'. injection Hwr' as <-.
  pose proof (same_vol_trans _ _ _ V02 V3) as V03. pose proof (sv_fs _ _ V03) as F3.
  rewrite F2 in Hb3.
  assert (forall x, valid (fs s0) x -> snoc_fat (fatv s) (fatv (set_dev s2 d)) l c x) as Hf3.
  { intros x Hx. red. rewrite (fat_same_fatv s2 _ x) by (done || (by rewrite F2)).
    rewrite Hf2 by done. case_decide; [done |]. apply Hf1. by rewrite F. }
  split.
  - done.
  - done.
  - apply NoDup_app. split_and!; [apply (wt_nodup _ _ _ _ _ Hw) | | apply NoDup_singleton].
    intros x Hx ->%list_elem_of_singleton. done.
  - intros x [Hx | ->%list_elem_of_singleton]%elem_of_app; [by apply (wt_free _ _ _ _ _ Hw) |].
    split; [done |]. rewrite <- (wt_fat _ _ _ _ _ Hw) by done. done.
  - intros k x Hk. eapply snoc_fat_link; [apply (wt_nodup _ _ _ _ _ Hw) | done | done | |].
    + apply Hf3. apply list_elem_of_lookup_2, elem_of_app in Hk as [Hx | ->%list_elem_of_singleton];
        [by apply (wt_free _ _ _ _ _ Hw) | done].
    + apply (wt_link _ _ _ _ _ Hw).
  - intros x Hx Hnin. rewrite (snoc_fat_out _ _ _ _ _ Hnin (Hf3 x Hx)).
    apply (wt_fat _ _ _ _ _ Hw); [done |]. intros Hin. by apply Hnin, elem_of_app; left.
  - intros k x i Hk Hi. unfold cluster_size in *. rewrite Hb3.
    apply lookup_snoc_Some in Hk as [[Hkl Hk] | [-> <-]].
    + assert (x ∈ l) as Hx by (by eapply list_elem_of_lookup_2).
      assert (x ≠ c) as Hxc by (intros ->; done).
      destruct (wt_free _ _ _ _ _ Hw x Hx) as [Hvx _].
      destruct (cluster_lba_ok s0 x Hok0 Hvx) as (_ & Hlox & _).
      pose proof (cluster_disjoint s0 x c Hok0 Hxc).
      rewrite decide_False by lia.
      rewrite Hd2, Hd1; [by apply (wt_data _ _ _ _ _ Hw) | right; rewrite F; lia |
        right; rewrite F1; lia].
    + rewrite decide_True by lia. rewrite <- Hbuf by lia. f_equal. lia.
  - intros x Hx Hnin. rewrite Hb3.
    assert (~ in_cluster (fs s0) c x) as Hc
      by (apply Hnin, elem_of_app; right; left). unfold in_cluster in Hc.
    rewrite decide_False by tauto.
    rewrite Hd2, Hd1; [| right; rewrite F; lia | right; rewrite F1; lia].
    apply (wt_out _ _ _ _ _ Hw); [done |]. intros y Hy. apply Hnin, elem_of_app. by left.
Qed.

(** How the loop ends. *)
Definition write_done (s0 : fat D) (data : list Z) (size : Z) (o : outcome (option Z * fat D)) : Prop :=
  exists l s', o = Ret (Some (default 0 (head l)), s') /\ written_to s0 data size l s' /\
    size <= Z.of_nat (length l) * cluster_size (fs s0).

(** The disk was full: everything allocated is free again; [l] was all the
    free space, and it was too small. *)
Definition write_full (s0 : fat D) (data : list Z) (size : Z) (o : outcome (option Z * fat D)) : Prop :=
  exists l s', o = Ret (None, s') /\ fs_ok s' /\ same_vol s0 s' /\
    (forall x, valid (fs s0) x -> fatv s' x = fatv s0 x) /\
    (forall x, 512 * data_start_lba (fs s0) <= x ->
       (forall c, c ∈ l -> ~ in_cluster (fs s0) c x) -> load8 (bytes s') x = load8 (bytes s0) x) /\
    (forall x, x ∈ l <-> valid (fs s0) x /\ fatv s0 x = 0) /\ NoDup l /\
    Z.of_nat (length l) * cluster_size (fs s0) < size.

Lemma head_nonzero s0 data size l s :
  written_to s0 data size l s -> truth (default 0 (head l)) = negb (bool_decide (l = [])).
Proof.
  intros Hw. destruct l as [|c l]; [done |]. simpl.
  destruct (wt_free _ _ _ _ _ Hw c ltac:(left)) as [Hv _]. unfold valid in Hv.
  unfold truth. by rewrite (proj2 (Z.eqb_neq c 0)) by lia.
Qed.

Lemma last_nonzero s0 data size l s :
  written_to s0 data size l s ->
  truth (default 0 (last l)) = match last l with Some _ => true | None => false end.
Proof.
  intros Hw. destruct (last l) as [c|] eqn:El; [| done]. simpl.
  apply last_Some in El as [l' ->].
  destruct (wt_free _ _ _ _ _ Hw c) as [Hv _]; [apply elem_of_app; right; left |].
  unfold valid in Hv. unfold truth. by rewrite (proj2 (Z.eqb_neq c 0)) by lia.
Qed.

(** Giving up: the chain built so far is released. *)
Lemma write_give_up fuel s0 s data size l s1 :
  fs_ok s0 -> written_to s0 data size l s -> fs_ok s1 -> same_vol s s1 ->
  (forall x, load8 (bytes s1) x = load8 (bytes s) x) ->
  (forall x, valid (fs s0) x -> fatv s x ≠ 0) ->
  total_clusters (fs s0) <= Z.of_nat fuel ->
  Z.of_nat (length l) * cluster_size (fs s0) < size ->
  write_full s0 data size
    (do! s2 := (if truth (default 0 (head l)) then free_chain fuel s1 (default 0 (head l))
                else Ret s1) in Ret (None, s2)).
Proof.
  intros Hok0 Hw Hok1 V1 Hb1 Hfull Hfuel Hlt.
  pose proof (wt_vol _ _ _ _ _ Hw) as V. pose proof (sv_fs _ _ V) as F.
  pose proof (same_vol_trans _ _ _ V V1) as V01. pose proof (sv_fs _ _ V01) as F1.
  assert (forall x, fatv s1 x = fatv s x) as Hf1.
  { intros x. unfold fatv. rewrite (sv_fs _ _ V1). f_equal. apply load32_frame. auto. }
  assert (exists s2, (if truth (default 0 (head l)) then free_chain fuel s1 (default 0 (head l))
                      else Ret s1) = Ret s2 /\ fs_ok s2 /\ same_vol s1 s2 /\ data_same s1 s2 /\
    forall x, valid (fs s0) x -> fatv s2 x = if decide (x ∈ l) then 0 else fatv s1 x)
    as (s2 & E & Hok2 & V2 & Hd2 & Hf2).
  { rewrite (head_nonzero _ _ _ _ _ Hw). destruct l as [|c l]; simpl.
    - exists s1. split_and!; done.
    - destruct (free_chain_ok fuel s1 c (c :: l) Hok1) as (s2 & E & ? & ? & _ & ? & Hf2 & _).
      + eapply (chain_ext s); [apply V1 | by intros x _ |].
        by apply (written_chain s0 data size (c :: l) s 0 c).
      + pose proof (valid_length s0 (c :: l) Hok0 (wt_nodup _ _ _ _ _ Hw)
          (fun x Hx => proj1 (wt_free _ _ _ _ _ Hw x Hx))). lia.
      + exists s2. split_and!; try done. intros x Hx. apply Hf2. by rewrite F1. }
  rewrite E. cbn [obind]. exists l, s2.
  split_and!; [done | done | by eapply same_vol_trans | | | | apply (wt_nodup _ _ _ _ _ Hw) | done].
  - intros x Hx. rewrite Hf2, Hf1 by done. case_decide as Hin.
    + by destruct (wt_free _ _ _ _ _ Hw x Hin) as [_ ->].
    + by apply (wt_fat _ _ _ _ _ Hw).
  - intros x Hx Hnin. rewrite Hd2 by (right; by rewrite F1). rewrite Hb1.
    by apply (wt_out _ _ _ _ _ Hw).
  - intros x. split; [apply (wt_free _ _ _ _ _ Hw) |]. intros [Hv Hz].
    destruct (decide (x ∈ l)) as [| Hnin]; [done |]. exfalso. apply (Hfull x Hv).
    by rewrite (wt_fat _ _ _ _ _ Hw).
Qed.

Lemma write_loop_ok n fuel s0 s data size l written :
  fs_ok s0 -> written_to s0 data size l s -> 0 <= size < 2 ^ 32 ->
  written = Z.min size (Z.of_nat (length l) * cluster_size (fs s0)) ->
  size - written <= 512 * Z.of_nat n -> total_clusters (fs s0) <= Z.of_nat fuel ->
  let o := write_loop n fuel s data size (default 0 (head l)) (default 0 (last l)) written in
  write_done s0 data size o \/ write_full s0 data size o.
Proof.
  intros Hok0. revert s l written.
  induction n as [|n IH]; intros s l written Hw Hsz Hwr Hn Hfuel o;
    pose proof (cluster_size_range s0 Hok0) as Hcs.
  { left. exists l, s. unfold o. simpl. rewrite (proj2 (Z.ltb_ge _ _)) by lia.
    split_and!; [done | done | lia]. }
  unfold o. cbn [write_loop]. destruct (Z.ltb_spec written size) as [Hlt | Hge].
  2: { left. exists l, s. split_and!; [done | done | lia]. }
  pose proof (wt_vol _ _ _ _ _ Hw) as V. pose proof (sv_fs _ _ V) as F.
  destruct (alloc_cluster_ok s (wt_ok _ _ _ _ _ Hw))
    as [(c & s1 & -> & Ha) | (s1 & -> & Hok1 & V1 & Hb1 & Hfull)]; cbn [obind].
  2: { right. eapply write_give_up; try done; [| lia]. intros x Hx. apply Hfull. by rewrite F. }
  pose proof Ha as [Hv _ Hok1 V1 _ _ _]. rewrite F in Hv.
  pose proof (same_vol_trans _ _ _ V V1) as V01. pose proof (sv_fs _ _ V01) as F1.
  rewrite (proj2 (Z.eqb_neq c 0)) by (unfold valid in Hv; lia).
  assert ((if negb (truth (default 0 (head l))) then c else default 0 (head l)) =
          default 0 (head (l ++ [c]))) as ->.
  { rewrite (head_nonzero _ _ _ _ _ Hw). by destruct l. }
  assert (exists s2, (if truth (default 0 (last l)) then set_fat_entry s1 (default 0 (last l)) c
                      else Ret (0, s1)) = Ret (0, s2) /\ same_vol s1 s2 /\ fs_ok s2 /\
    match last l with Some p => set_fat_entry s1 p c = Ret (0, s2) | None => s2 = s1 end)
    as (s2 & E2 & V2 & Hok2 & Hlink).
  { rewrite (last_nonzero _ _ _ _ _ Hw). destruct (last l) as [p|] eqn:El; simpl.
    - destruct (set_fat_entry_ok s1 p c Hok1) as (s2 & E2 & ? & ? & _); [| eauto].
      rewrite F1. apply (wt_free _ _ _ _ _ Hw). apply last_Some in El as [l' ->].
      apply elem_of_app. right. left.
    - exists s1. by split_and!. }
  rewrite E2. cbn [obind]. change (0 <? 0) with false. cbv iota zeta.
  pose proof (same_vol_trans _ _ _ V01 V2) as V02. pose proof (sv_fs _ _ V02) as F2.
  rewrite F2. rewrite (u32_small (sectors_per_cluster (fs s0) * 512)) by (unfold cluster_size in Hcs; lia).
  rewrite (u32_small (size - written)) by lia.
  replace (sectors_per_cluster (fs s0) * 512) with (cluster_size (fs s0)) by (unfold cluster_size; lia).
  set (copy := if size - written <? cluster_size (fs s0) then size - written
               else cluster_size (fs s0)).
  assert (copy = Z.min (size - written) (cluster_size (fs s0))) as Ecopy by (unfold copy; case_ltb; lia).
  set (buf := cluster_data data written copy (cluster_size (fs s0))).
  destruct (cluster_lba_ok s2 c Hok2) as (Elba & Hlo & Hhi); [by rewrite F2 |].
  pose proof (geo_facts s0 Hok0) as Hg. simpl in Hg.
  destruct (data_write_ok s2 (cluster_to_lba s2 c) (sectors_per_cluster (fs s2)) buf Hok2)
    as (d & E3 & _); [lia | rewrite F2; lia | lia |].
  pose proof E3 as E3'. rewrite F2 in E3. rewrite E3. cbn [obind]. change (0 <? 0) with false. cbv iota.
  assert (written_to s0 data size (l ++ [c]) (set_dev s2 d)) as Hw'.
  { eapply written_snoc; [done | done | done | exact Hlink | exact E3' | done |].
    intros i Hi. unfold buf. rewrite load8_cluster_data by lia. unfold data_byte.
    assert (written = Z.of_nat (length l) * cluster_size (fs s0)) as <- by lia.
    repeat case_ltb; done || lia. }
  rewrite u32_small by lia.
  assert (written + copy = Z.min size (Z.of_nat (length (l ++ [c])) * cluster_size (fs s0))) as Ewr.
  { rewrite length_app. simpl. lia. }
  pose proof (IH (set_dev s2 d) (l ++ [c]) (written + copy) Hw' Hsz Ewr ltac:(lia) Hfuel) as HI.
  rewrite last_snoc in HI. exact HI.
Qed.

(** ** Finding the entry to write *)

Definition free_list (s : fat D) : list Z :=
  filter (fun c => fatv s c = 0) (seqZ 2 (total_clusters (fs s))).

Lemma elem_of_free_list s c : c ∈ free_list s <-> valid (fs s) c /\ fatv s c = 0.
Proof.
  unfold free_list, valid. rewrite list_elem_of_filter, elem_of_seqZ. split; intros []; split; lia.
Qed.

Lemma free_list_NoDup s : NoDup (free_list s).
Proof. apply NoDup_filter, NoDup_seqZ. Qed.

(** A file that may be overwritten: not a directory, its chain apart from the
    clusters of the directory it is in. *)
Definition old_file (s : fat D) (dl : list Z) (look : dir_lookup) (lo : list Z) : Prop :=
  is_directory (l_entry look) = false /\ chain s (start_cluster (l_entry look)) lo /\
  forall x, x ∈ lo -> x ∉ dl.

Lemma write_target_old fuel s dl target look lo :
  in_dir fuel s dl -> total_clusters (fs s) <= Z.of_nat fuel ->
  lookup_in (bytes s) (slots s dl) target = Some look -> old_file s dl look lo ->
  exists s1, write_target fuel s target =
      Ret (Some (Lookup (with_start (l_entry look) 0 0) (l_lba look) (l_offset look)), s1) /\
    in_dir fuel s1 dl /\ same_vol s s1 /\ data_same s s1 /\
    forall x, valid (fs s) x -> fatv s1 x = if decide (x ∈ lo) then 0 else fatv s x.
Proof.
  intros Hd Hfuel El (Edir & Hlo & Hdis). unfold write_target.
  destruct (search_cwd fuel s dl target Hd) as (s1 & -> & Hok1 & Hs1). rewrite El.
  cbn [obind]. rewrite Edir. pose proof (sd_vol _ _ Hs1) as V1. pose proof (sv_fs _ _ V1) as F1.
  pose proof (chain_NoDup s _ _ (id_ok _ _ _ Hd) Hlo) as Hnd.
  destruct (free_chain_ok fuel s1 (start_cluster (l_entry look)) lo Hok1)
    as (s2 & E2 & Hok2 & V2 & _ & Hd2 & Hf2 & _); [by eapply same_disk_chain | |].
  { pose proof (valid_length s lo (id_ok _ _ _ Hd) Hnd
      (fun x => chain_valid s _ lo x Hlo)). lia. }
  pose proof (same_vol_trans _ _ _ V1 V2) as V12.
  exists s2. split.
  { case_ltb; [by rewrite E2 |]. rewrite free_chain_stop in E2.
    - apply Ret_inj in E2. by subst.
    - unfold in_chain. by rewrite (proj2 (Z.leb_gt _ _)), andb_false_r. }
  assert (forall x, valid (fs s) x -> fatv s2 x = if decide (x ∈ lo) then 0 else fatv s x) as Hf.
  { intros x Hx. rewrite Hf2 by (by rewrite F1). by rewrite (same_disk_fatv s s1). }
  assert (forall x, x ∈ dl -> fatv s2 x = fatv s x) as Hdl.
  { intros x Hx. rewrite Hf by (eapply chain_valid; [apply (id_chain _ _ _ Hd) | done]).
    rewrite decide_False; [done |]. intros Hin. by apply (Hdis x). }
  split_and!; [| done | | done].
  - by apply (in_dir_kept fuel s).
  - eapply data_same_trans; [exact V1 | by apply same_disk_data | done].
Qed.

Lemma write_target_new fuel s dl target sl :
  in_dir fuel s dl -> lookup_in (bytes s) (slots s dl) target = None ->
  free_in (bytes s) (slots s dl) = Some sl ->
  exists s1, write_target fuel s target =
      Ret (Some (Lookup (new_dirent target ATTR_ARCHIVE 0 0) (fst sl) (snd sl)), s1) /\
    in_dir fuel s1 dl /\ same_disk s s1.
Proof.
  intros Hd El Ef. unfold write_target.
  destruct (search_then_free fuel s dl target Hd El) as (s1 & s2 & -> & E2 & Hok2 & Hs2).
  cbn [obind]. rewrite E2, Ef. destruct sl as [lba off]. cbn [obind fst snd].
  exists s2. split_and!; [done | by eapply in_dir_same | done].
Qed.

(** Either way: the entry, its slot, and the free clusters afterwards. *)
Lemma write_target_ok fuel s dl name sl :
  in_dir fuel s dl -> total_clusters (fs s) <= Z.of_nat fuel -> Forall is_u8 name ->
  let target := to_short_name name in
  place (bytes s) (slots s dl) target = Some sl ->
  (forall look, lookup_in (bytes s) (slots s dl) target = Some look -> exists lo, old_file s dl look lo) ->
  exists e s1, write_target fuel s target = Ret (Some (Lookup e (fst sl) (snd sl)), s1) /\
    in_dir fuel s1 dl /\ same_vol s s1 /\ data_same s s1 /\ wf_dirent e /\
    e_name e = target /\ first_byte e ≠ 0 /\ (char_at target 0 ≠ 0xE5 -> skipped e = false) /\
    is_directory e = false /\
    forall x, valid (fs s) x -> fatv s x = 0 -> fatv s1 x = 0.
Proof.
  intros Hd Hfuel Hn target Hp Hold. destruct (target_wf name Hn) as [Hlen Hu8].
  fold target in Hlen, Hu8. unfold place in Hp.
  destruct (lookup_in (bytes s) (slots s dl) target) as [look|] eqn:El.
  - injection Hp as <-. destruct (Hold look eq_refl) as [lo Hlo].
    destruct (write_target_old fuel s dl target look lo Hd Hfuel El Hlo)
      as (s1 & E & Hd1 & V1 & Hs1 & Hf1).
    destruct (lookup_in_slot _ _ _ _ El) as (_ & He & Hf & Hs & Hnm).
    assert (wf_dirent (l_entry look)) as Hwf by (rewrite He; apply get_dirent_wf).
    exists (with_start (l_entry look) 0 0), s1. cbn [fst snd].
    split_and!; try done.
    + apply with_start_wf; [done | unfold is_u32; lia].
    + apply sname_eq_spec; [apply Hwf | done | done].
    + apply Hlo.
    + intros x Hx Hz. rewrite Hf1 by done. by case_decide.
  - destruct (write_target_new fuel s dl target sl Hd El Hp) as (s1 & E & Hd1 & Hs1).
    exists (new_dirent target ATTR_ARCHIVE 0 0), s1.
    split_and!; [done | done | apply Hs1 | by apply same_disk_data | by apply new_dirent_wf
      | done | apply short_first_nonzero | | done | ].
    + intros Hfirst. apply new_dirent_live; [done | by left].
    + intros x Hx Hz. by rewrite (same_disk_fatv s s1).
Qed.

(** The directory is the same after writing to free clusters. *)
Lemma written_dir fuel s s1 data size l s2 dl :
  in_dir fuel s1 dl -> fs s1 = fs s -> written_to s1 data size l s2 ->
  (forall x, x ∈ dl -> fatv s1 x ≠ 0) ->
  forall sl, sl ∈ slots s dl ->
    get_dirent (bytes s2) (slot_addr sl) = get_dirent (bytes s1) (slot_addr sl).
Proof.
  intros Hd F Hw Hu sl Hsl. apply (dir_ext s1 s2 dl); [| by rewrite F].
  intros c x Hc Hx.
  destruct (cluster_lba_ok s1 c (id_ok _ _ _ Hd)) as (_ & ? & _);
    [eapply chain_valid; [apply (id_chain _ _ _ Hd) | done] |].
  apply (wt_out _ _ _ _ _ Hw); [unfold in_cluster in Hx; lia |].
  intros y Hy Hxy. pose proof (in_cluster_inj s1 c y x (id_ok _ _ _ Hd) Hx Hxy) as <-.
  destruct (wt_free _ _ _ _ _ Hw c Hy) as [_ Hz]. by apply (Hu c).
Qed.

Lemma place_ext m m' l target :
  (forall sl, sl ∈ l -> get_dirent m' (slot_addr sl) = get_dirent m (slot_addr sl)) ->
  place m' l target = place m l target.
Proof.
  intros Hb. unfold place, lookup_in, free_in. by rewrite !(scan_list_ext_on _ m m').
Qed.

Lemma with_start_live e c size : skipped e = false -> skipped (with_start e c size) = false.
Proof. done. Qed.

(** What [fat32_write_file] leaves behind: the entry [e] in the slot [sl], its
    chain [l] holding the data, the directory otherwise unchanged. *)
Record file_written (fuel : nat) (s : fat D) (dl : list Z) (name data : list Z) (size : Z) (sl : slot)
    (e : dirent) (l : list Z) (s' : fat D) : Prop := FileWritten {
  fw_dir : in_dir fuel s' dl;
  fw_vol : same_vol s s';
  fw_lookup : lookup_in (bytes s') (slots s dl) (to_short_name name) = Some (Lookup e (fst sl) (snd sl));
  fw_entry : get_dirent (bytes s') (slot_addr sl) = e;
  fw_name : e_name e = to_short_name name;
  fw_size : e_size e = size;
  fw_file : is_directory e = false;
  fw_chain : chain s' (start_cluster e) l;
  fw_length : size <= Z.of_nat (length l) * cluster_size (fs s);
  fw_data j : 0 <= j < size -> file_byte s' l j = default 0 (data !! Z.to_nat j);
  fw_other sl' : sl' ∈ slots s dl -> sl' ≠ sl ->
    get_dirent (bytes s') (slot_addr sl') = get_dirent (bytes s) (slot_addr sl')
}.

(** The clusters are written: what is left is the directory entry. *)
Lemma entry_written fuel s s1 s2 dl name data size sl e l :
  in_dir fuel s1 dl -> same_vol s s1 -> data_same s s1 -> written_to s1 data size l s2 ->
  sl ∈ slots s dl -> slot_ok (fs s) (cap s) sl -> (forall sl', sl' ∈ slots s dl -> slot_ok (fs s) (cap s) sl') ->
  place (bytes s) (slots s dl) (to_short_name name) = Some sl ->
  wf_dirent e -> e_name e = to_short_name name -> first_byte e ≠ 0 -> skipped e = false -> is_directory e = false ->
  Forall is_u8 data -> size = Z.of_nat (length data) -> size < 2 ^ 31 ->
  Z.of_nat (length l) * cluster_size (fs s1) >= size ->
  let first := default 0 (head l) in
  exists s3, write_dirent s2 (fst sl) (snd sl) (with_start e first size) = Ret (0, s3) /\
    file_written fuel s dl name data size sl (with_start e first size) l s3.
Proof.
  intros Hd1 V1 Hs1 Hw Hslin Hsl Hsls Hp Hwf Hnm Hf0 Hlive Hfile Hdata Hsize Hmax Hlen first.
  pose proof (sv_fs _ _ V1) as F1. pose proof (id_ok _ _ _ Hd1) as Hok1.
  pose proof (cluster_size_range s1 Hok1) as Hcs.
  pose proof (wt_vol _ _ _ _ _ Hw) as V2. pose proof (sv_fs _ _ V2) as F2.
  pose proof (same_vol_trans _ _ _ V1 V2) as V12. pose proof (sv_fs _ _ V12) as F12.
  assert (cap s2 = cap s) as C2 by (unfold cap; by rewrite F12, (sv_cap _ _ V12)).
  assert (is_u32 first) as Hfirst32.
  { unfold first, is_u32. destruct l as [|c l]; simpl; [lia |].
    destruct (wt_free _ _ _ _ _ Hw c ltac:(left)) as [Hv _].
    pose proof (geo_facts s1 Hok1) as Hg. simpl in Hg. unfold valid in Hv. lia. }
  set (e' := with_start e first size).
  assert (wf_dirent e') as Hwf' by (apply with_start_wf; [done | unfold is_u32; lia]).
  destruct (write_dirent_ok s2 sl e' (wt_ok _ _ _ _ _ Hw)) as (s3 & E3 & W3 & G3);
    [by rewrite F12, C2 | done |].
  exists s3. split; [done |]. pose proof W3 as [Hok3 V3 _ Hfat3 Hout3]. pose proof (sv_fs _ _ V3) as F3.
  assert (forall sl', sl' ∈ slots s dl ->
    get_dirent (bytes s2) (slot_addr sl') = get_dirent (bytes s) (slot_addr sl')) as Hdir.
  { intros sl' Hsl'. rewrite (written_dir fuel s s1 data size l s2 dl) by (done || apply (id_used _ _ _ Hd1)).
    apply get_dirent_shift. intros i Hi. apply Hs1. right.
    destruct (Hsls _ Hsl') as [[? _] (k & Hk & Ek)]. unfold slot_addr. lia. }
  assert (forall x, valid (fs s1) x -> fatv s3 x = fatv s2 x) as Hfv.
  { intros x Hx. apply fat_same_fatv; [apply Hw | done | done | by rewrite F2]. }
  assert (forall x, x ∈ dl -> valid (fs s1) x) as Hdlv.
  { intros x Hx. eapply chain_valid; [apply (id_chain _ _ _ Hd1) | done]. }
  assert (forall x, x ∈ dl -> fatv s3 x = fatv s1 x) as Hdl.
  { intros x Hx. rewrite Hfv by auto. apply (wt_fat _ _ _ _ _ Hw); [auto |]. intros Hin.
    destruct (wt_free _ _ _ _ _ Hw x Hin) as [_ Hz]. by apply (id_used _ _ _ Hd1 x). }
  pose proof (same_vol_trans _ _ _ V2 V3) as V23.
  split; try done.
  - by apply (in_dir_kept fuel s1).
  - by eapply same_vol_trans.
  - apply (place_written s2 s3 (slots s dl) (to_short_name name) sl); try done.
    + intros x Hx. rewrite F12, C2. by apply Hsls.
    + rewrite <- Hp. by apply place_ext.
  - unfold e'. rewrite start_cluster_with_start by done.
    apply (chain_ext s2); [done | |].
    + intros x Hx. apply Hfv. by apply (wt_free _ _ _ _ _ Hw).
    + unfold first. destruct l as [|c l]; simpl; [done |].
      by apply (written_chain s1 data size (c :: l) s2 0 c).
  - rewrite <- F1. lia.
  - intros j Hj. transitivity (file_byte s2 l j).
    + unfold file_byte. rewrite F3. destruct (l !! _) as [c|] eqn:Ec; [| done].
      apply Hout3. rewrite F2.
      destruct (slot_in_cluster (fs s) dl sl Hslin) as (c' & Hc' & Hin).
      assert (c ≠ c') as Hne.
      { intros ->. destruct (wt_free _ _ _ _ _ Hw c') as [_ Hz]; [by eapply list_elem_of_lookup_2 |].
        by apply (id_used _ _ _ Hd1 c'). }
      pose proof (Hin (slot_addr sl) ltac:(lia)) as Hi1.
      pose proof (Hin (slot_addr sl + 31) ltac:(lia)) as Hi2.
      pose proof (cluster_disjoint s1 c c' Hok1 Hne) as Hdis.
      pose proof (Z.mod_pos_bound j (cluster_size (fs s1))).
      rewrite <- F1 in Hi1, Hi2. unfold in_cluster, cluster_size in *. lia.
    + rewrite (written_bytes s1 data size) by (done || lia). unfold data_byte.
      rewrite (proj2 (Z.ltb_lt j size)) by lia.
      destruct (lookup_lt_is_Some_2 data (Z.to_nat j)) as [b Hb]; [lia |]. rewrite Hb. simpl.
      apply u8_small. by eapply Forall_lookup_1 in Hdata.
  - intros sl' Hsl' Hne. rewrite (slot_written_other s2 sl s3 sl'); [by apply Hdir | done | | | done];
      rewrite F12, C2; by apply Hsls.
Qed.

Lemma write_file_ok fuel s dl name data size sl :
  in_dir fuel s dl -> total_clusters (fs s) <= Z.of_nat fuel -> Forall is_u8 name ->
  char_at (to_short_name name) 0 ≠ 0xE5 ->
  place (bytes s) (slots s dl) (to_short_name name) = Some sl ->
  (forall look, lookup_in (bytes s) (slots s dl) (to_short_name name) = Some look ->
     exists lo, old_file s dl look lo) ->
  Forall is_u8 data -> size = Z.of_nat (length data) -> size < 2 ^ 31 ->
  size <= Z.of_nat (length (free_list s)) * cluster_size (fs s) ->
  exists s1 e l, fat32_write_file fuel s name data size = Ret (0, s1) /\
    file_written fuel s dl name data size sl e l s1.
Proof.
  intros Hd Hfuel Hn Hfirst Hp Hold Hdata Hsize Hmax Hspace.
  destruct (write_target_ok fuel s dl name sl Hd Hfuel Hn Hp Hold)
    as (e & s1 & E1 & Hd1 & V1 & Hs1 & Hwf & Hnm & Hf0 & Hlive & Hfile & Hfr).
  pose proof (sv_fs _ _ V1) as F1. pose proof (id_ok _ _ _ Hd1) as Hok1.
  pose proof (cluster_size_range s1 Hok1) as Hcs.
  unfold fat32_write_file. rewrite (id_mounted _ _ _ Hd). cbn [negb]. rewrite E1. cbn [obind].
  destruct (write_loop_ok (copy_fuel size) fuel s1 s1 data size [] 0 Hok1 (written_nil s1 data size Hok1))
    as [(l & s2 & E2 & Hw & Hl) | (l & s2 & _ & _ & _ & _ & _ & Hl & Hnd & Hlt)];
    [lia | simpl; lia | unfold copy_fuel; zdm | by rewrite F1 | |].
  2: { exfalso. assert (length (free_list s) <= length l)%nat as Hle.
       { apply submseteq_length, NoDup_submseteq; [apply free_list_NoDup |].
         intros x [Hx Hz]%elem_of_free_list. apply Hl. rewrite F1. auto. }
       rewrite F1 in *. nia. }
  change (default 0 (head (@nil Z))) with 0 in E2. change (default 0 (last (@nil Z))) with 0 in E2.
  rewrite E2. cbn [obind l_lba l_offset l_entry].
  assert (sl ∈ slots s dl) as Hslin.
  { destruct (place_split _ _ _ _ Hp) as (l1 & l2 & -> & _). apply elem_of_app. right. left. }
  destruct (entry_written fuel s s1 s2 dl name data size sl e l) as (s3 & E3 & Hfw); try done; auto.
  - by eapply in_dir_slots_ok.
  - intros sl' Hsl'. by eapply in_dir_slots_ok.
  - lia.
  - exists s3. eauto.
Qed.

(** ** Properties of writing *)

(** C7 A file written with [fat32_write_file] is found under its name with its
    size, and reading it back gives exactly the bytes written, whether the
    name is new or replaces a file, provided the directory has a slot and
    the volume enough free clusters. *)
Theorem fat32_write_read fuel s dl name data size sl buf max :
  in_dir fuel s dl -> total_clusters (fs s) <= Z.of_nat fuel -> Forall is_u8 name ->
  char_at (to_short_name name) 0 ≠ 0xE5 ->
  place (bytes s) (slots s dl) (to_short_name name) = Some sl ->
  (forall look, lookup_in (bytes s) (slots s dl) (to_short_name name) = Some look ->
     exists lo, old_file s dl look lo) ->
  Forall is_u8 data -> size = Z.of_nat (length data) -> size <= max < 2 ^ 31 ->
  size <= Z.of_nat (length (free_list s)) * cluster_size (fs s) ->
  exists s1 e buf' s2,
    fat32_write_file fuel s name data size = Ret (0, s1) /\
    lookup_in (bytes s1) (slots s dl) (to_short_name name) = Some (Lookup e (fst sl) (snd sl)) /\
    e_size e = size /\
    fat32_read_file s1 e buf max = Ret (size, buf', s2) /\
    forall j, 0 <= j < size -> load8 buf' j = default 0 (data !! Z.to_nat j).
Proof.
  intros Hd Hfuel Hn Hfirst Hp Hold Hdata Hsize Hmax Hspace.
  destruct (write_file_ok fuel s dl name data size sl) as (s1 & e & l & E & Hw); try done; [lia |].
  destruct (read_file_ok s1 e l buf max) as (buf' & s2 & E2 & _ & _ & Hb).
  - apply (fw_dir _ _ _ _ _ _ _ _ _ _ Hw).
  - apply (fw_dir _ _ _ _ _ _ _ _ _ _ Hw).
  - apply (fw_chain _ _ _ _ _ _ _ _ _ _ Hw).
  - rewrite (fw_size _ _ _ _ _ _ _ _ _ _ Hw). unfold is_u32. lia.
  - lia.
  - pose proof (fw_length _ _ _ _ _ _ _ _ _ _ Hw) as Hlen.
    rewrite (fw_size _ _ _ _ _ _ _ _ _ _ Hw), (sv_fs _ _ (fw_vol _ _ _ _ _ _ _ _ _ _ Hw)) in E2, Hb.
    rewrite (Z.min_l size max), Z.min_l in E2, Hb by lia.
    exists s1, e, buf', s2. split_and!; try done; [apply Hw | apply Hw |].
    intros j Hj. rewrite Hb, decide_True by lia. by apply (fw_data _ _ _ _ _ _ _ _ _ _ Hw).
Qed.

(** When the disk fills up while a file is being overwritten,
    [fat32_write_file] returns -1 with the old clusters already freed, but
    the directory entry still names them: the file keeps its old size and
    start cluster while every cluster of its chain is free to be given to
    another file. *)
Theorem fat32_overwrite_full fuel s dl name data size look lo :
  in_dir fuel s dl -> total_clusters (fs s) <= Z.of_nat fuel -> 0 <= size < 2 ^ 32 ->
  lookup_in (bytes s) (slots s dl) (to_short_name name) = Some look -> old_file s dl look lo ->
  Z.of_nat (length (free_list s) + length lo) * cluster_size (fs s) < size ->
  exists s1, fat32_write_file fuel s name data size = Ret (-1, s1) /\ fs_ok s1 /\
    lookup_in (bytes s1) (slots s dl) (to_short_name name) = Some look /\
    forall x, x ∈ lo -> fatv s1 x = 0.
Proof.
  intros Hd Hfuel Hsize El Hlo Hfull.
  destruct (write_target_old fuel s dl _ look lo Hd Hfuel El Hlo) as (s1 & E1 & Hd1 & V1 & Hs1 & Hf1).
  pose proof (sv_fs _ _ V1) as F1. pose proof (id_ok _ _ _ Hd1) as Hok1.
  pose proof (cluster_size_range s1 Hok1) as Hcs.
  unfold fat32_write_file. rewrite (id_mounted _ _ _ Hd). cbn [negb]. rewrite E1. cbn [obind].
  assert (forall l, NoDup l -> (forall x, x ∈ l -> valid (fs s1) x /\ fatv s1 x = 0) ->
    (length l <= length (free_list s) + length lo)%nat) as Hcount.
  { intros l Hnd Hl. rewrite <- length_app. apply submseteq_length, NoDup_submseteq; [done |].
    intros x Hx. destruct (Hl x Hx) as [Hv Hz]. rewrite F1 in Hv. rewrite Hf1 in Hz by done.
    apply elem_of_app. destruct (decide (x ∈ lo)); [by right | left].
    by apply elem_of_free_list. }
  destruct (write_loop_ok (copy_fuel size) fuel s1 s1 data size [] 0 Hok1 (written_nil s1 data size Hok1))
    as [(l & s2 & E2 & Hw & Hl) | (l & s2 & E2 & Hok2 & V2 & Hfat & Hout & Hl & Hnd & Hlt)];
    [lia | simpl; lia | unfold copy_fuel; zdm | by rewrite F1 | |].
  { exfalso. pose proof (Hcount l (wt_nodup _ _ _ _ _ Hw) (wt_free _ _ _ _ _ Hw)).
    rewrite F1 in *. nia. }
  change (default 0 (head (@nil Z))) with 0 in E2. change (default 0 (last (@nil Z))) with 0 in E2.
  rewrite E2. cbn [obind]. exists s2. split_and!; [done | done | |].
  - rewrite <- El. unfold lookup_in. rewrite (scan_list_ext_on _ (bytes s) (bytes s2)); [done |].
    intros sl Hsl. transitivity (get_dirent (bytes s1) (slot_addr sl)).
    + apply (dir_ext s1 s2 dl); [| by rewrite F1]. intros c x Hc Hx.
      destruct (cluster_lba_ok s1 c Hok1) as (_ & ? & _);
        [eapply chain_valid; [apply (id_chain _ _ _ Hd1) | done] |].
      apply Hout; [unfold in_cluster in Hx; lia |].
      intros y Hy Hxy. pose proof (in_cluster_inj s1 c y x Hok1 Hx Hxy) as <-.
      apply Hl in Hy as [_ Hz]. by apply (id_used _ _ _ Hd1 c).
    + apply get_dirent_shift. intros i Hi. apply Hs1. right.
      destruct (in_dir_slots_ok _ _ _ _ Hd Hsl) as [[? _] (k & Hk & Ek)]. unfold slot_addr. lia.
  - intros x Hx. destruct Hlo as (_ & Hc & _).
    assert (valid (fs s) x) as Hv by (by eapply chain_valid).
    rewrite Hfat by (by rewrite F1). rewrite Hf1, decide_True by done. done.
Qed.

End Files.
