(* ===== verification/FatMount.v ===== *)
(** * FAT32: mounting, and a small volume

    [fat32_mount] turns the parameter block of the boot sector into the
    geometry the other operations rely on.  The rest of the file builds an
    image with two copies of the FAT and one file of two clusters, mounts it
    on the concrete bus of the ATA model, and evaluates the theorems of the
    file system on it. *)

From S2P Require Import Prelude Memory Interfaces Ata Fat32 FatName FatTable FatDir FatOps FatFile.

Section Mounting.
  Context {D : Type} `{BlockDeviceLaws D}.
  Implicit Types s : fat D.

(** The boot sector of a drive. *)
Definition disk_bpb (s : fat D) (drive : Z) : bpb := read_bpb (disk (dev s) drive).

Lemma read_bpb_ext m m' :
  (forall i, 0 <= i < 512 -> load8 m i = load8 m' i) -> read_bpb m = read_bpb m'.
Proof.
  intros Hb. unfold read_bpb, load16, load32.
  assert (forall k off, 0 <= off -> off + Z.of_nat k <= 512 -> load_le k m off = load_le k m' off) as Hk.
  { intros k off Hlo Hhi. apply load_le_shift. intros i Hi. apply Hb. lia. }
  by rewrite !Hk, !Hb by (simpl; lia).
Qed.

(** What the code checks. *)
Definition bpb_accepted (b : bpb) : Prop :=
  bpb_bytes_per_sector b = 512 /\ bpb_sectors_per_cluster b ≠ 0 /\ bpb_fat_size_32 b ≠ 0 /\
  bpb_sectors_per_cluster b <= 128.

(** What a formatted volume has besides: a reserved sector, a copy of the
    FAT, and regions that follow each other on the drive. *)
Definition total_sec (b : bpb) : Z :=
  if truth (bpb_total_sectors_32 b) then bpb_total_sectors_32 b else bpb_total_sectors_16 b.
Definition data_start (b : bpb) : Z :=
  bpb_reserved_sectors b + bpb_num_fats b * bpb_fat_size_32 b.
Definition clusters (b : bpb) : Z :=
  (total_sec b - data_start b) / bpb_sectors_per_cluster b.

Record formatted (b : bpb) (cap : Z) : Prop := Formatted {
  fm_reserved : 1 <= bpb_reserved_sectors b;
  fm_fats : 1 <= bpb_num_fats b;
  fm_data : data_start b <= total_sec b <= cap;
  fm_covers : 4 * (clusters b + 2) <= 512 * bpb_fat_size_32 b
}.

Lemma disk_bpb_range s k :
  let b := disk_bpb s k in
  0 <= bpb_sectors_per_cluster b < 256 /\ 0 <= bpb_num_fats b < 256 /\
  0 <= bpb_fat_size_32 b < 2 ^ 32 /\ 0 <= bpb_reserved_sectors b < 2 ^ 16.
Proof.
  cbv zeta. unfold disk_bpb, read_bpb. cbn [bpb_sectors_per_cluster bpb_num_fats bpb_fat_size_32 bpb_reserved_sectors].
  split_and!; try apply load8_range; try apply (load_le_range 4); apply (load_le_range 2).
Qed.

Lemma mount_geo_ok s k :
  let b := disk_bpb s k in
  bpb_accepted b -> formatted b (capacity (dev s) k) -> capacity (dev s) k <= 2 ^ 28 ->
  geo_ok (mount_geo k b) (capacity (dev s) k).
Proof.
  intros b (_ & Hspc & Hsz & Hmax) [Hres Hnf [Hd Ht] Hcov] Hcap.
  pose proof (disk_bpb_range s k) as Hr. cbv zeta in Hr. fold b in Hr.
  unfold data_start in *.
  assert (0 <= bpb_num_fats b * bpb_fat_size_32 b) by nia.
  unfold mount_geo. rewrite (u32_small (_ * _)) by lia.
  rewrite (u32_small (bpb_reserved_sectors b + _)) by lia. fold (total_sec b).
  rewrite u32_small by lia. unfold clusters, data_start in Hcov.
  set (q := (total_sec b - _) / _) in *.
  assert (0 <= q /\ q * bpb_sectors_per_cluster b <= total_sec b - (bpb_reserved_sectors b +
    bpb_num_fats b * bpb_fat_size_32 b)) as [Hq0 Hq1].
  { unfold q. split; [apply Z.div_pos; lia |]. rewrite Z.mul_comm. apply Z.mul_div_le. lia. }
  clearbody b q. split; cbn; lia.
Qed.

(** ** Mounting *)

Lemma mount_ok s k :
  dev_ok (dev s) -> 0 < capacity (dev s) k ->
  let b := disk_bpb s k in
  exists r s', fat32_mount s k = Ret (r, s') /\ (r = 0 \/ r = -1) /\
    (r = 0 <-> bpb_accepted b) /\ dev_ok (dev s') /\
    (forall dr x, load8 (disk (dev s') dr) x = load8 (disk (dev s) dr) x) /\
    (r = -1 -> s' = set_dev s (dev s')) /\
    (r = 0 -> mounted s' = true /\ cwd_cluster s' = bpb_root_cluster b /\ fs s' = mount_geo k b /\
       alloc_hint s' = 2 /\ fat_sector_cached_lba s' = NO_LBA /\
       (formatted b (capacity (dev s) k) -> fs_ok s')).
Proof.
  intros Hdev Hcap0 b. unfold fat32_mount.
  destruct (ata_read_ok (dev s) k 0 1 ∅ Hdev) as (buf & d & -> & Hd & Hbuf & Hcap & Hb); [lia .. |].
  cbn [obind]. change (0 <? 0) with false. cbv iota zeta.
  assert (read_bpb buf = b) as ->.
  { apply read_bpb_ext. intros i Hi. rewrite Hbuf, decide_True by lia. f_equal. }
  pose proof (disk_bpb_range s k) as Hr. cbv zeta in Hr. fold b in Hr.
  destruct (decide (bpb_accepted b)) as [Ha | Ha].
  - pose proof Ha as (-> & Hspc & Hsz & Hmax). change (negb (512 =? 512)) with false. cbv iota.
    rewrite (proj2 (Z.eqb_neq _ _) Hspc), (proj2 (Z.eqb_neq _ _) Hsz), u32_small by lia.
    unfold FAT32_CLUSTER_BUF_MAX. rewrite (proj2 (Z.ltb_ge _ _)) by lia.
    eexists 0, _. split; [reflexivity |]. split_and!; [by left | done | done | exact Hb | lia |].
    intros _. split_and!; [done | done | done | done | done |]. intros Hf.
    pose proof (mount_geo_ok s k Ha Hf (proj2 (capacity_lba28 _ k Hdev))) as Hg.
    pose proof (go_total _ _ Hg) as Ht. split; cbn [dev fs alloc_hint]; [done | | | by left].
    + by rewrite Hcap.
    + change (total_clusters (mount_geo k (disk_bpb s k))) with (total_clusters (mount_geo k b)) in Ht. lia.
  - exists (-1), (set_dev s d). split; [| by split_and!; [right | split; [lia | tauto] | | | |]].
    destruct (Z.eqb_spec (bpb_bytes_per_sector b) 512) as [E1 |]; [| done].
    destruct (Z.eqb_spec (bpb_sectors_per_cluster b) 0) as [| E2]; [done |].
    destruct (Z.eqb_spec (bpb_fat_size_32 b) 0) as [| E3]; [done |].
    rewrite u32_small by lia. unfold FAT32_CLUSTER_BUF_MAX. cbn [negb].
    destruct (Z.ltb_spec (128 * 512) (bpb_sectors_per_cluster b * 512)); [done |].
    exfalso. apply Ha. split_and!; [done .. | lia].
Qed.

(** ** The property *)

(** C34 On a drive that answers, [fat32_mount] writes nothing to any drive and
    accepts a boot sector if and only if it passes the four checks of the
    code: sectors of 512 bytes, a FAT of at least one sector, and 1 to 128
    sectors in a cluster.  After a refused mount the whole state but the
    device is what it was -- the volume mounted before, its directory, the
    allocation hint, the cached sector and the buffers.  After an accepted
    one the geometry is that of the boot sector, the root directory is
    entered, the hint and the cache are reset, and if the volume is formatted
    -- which these checks do not ensure: it has besides a reserved sector, a
    copy of the FAT, regions that follow each other on the drive, and a FAT
    for all its clusters -- every invariant of the file system holds. *)
Theorem fat32_mount_spec s k :
  dev_ok (dev s) -> 0 < capacity (dev s) k ->
  let b := disk_bpb s k in
  exists r s', fat32_mount s k = Ret (r, s') /\ (r = 0 \/ r = -1) /\
    (r = 0 <-> bpb_accepted b) /\ dev_ok (dev s') /\
    (forall dr x, load8 (disk (dev s') dr) x = load8 (disk (dev s) dr) x) /\
    (r = -1 -> s' = set_dev s (dev s')) /\
    (r = 0 -> mounted s' = true /\ cwd_cluster s' = bpb_root_cluster b /\ fs s' = mount_geo k b /\
       alloc_hint s' = 2 /\ fat_sector_cached_lba s' = NO_LBA /\
       (formatted b (capacity (dev s) k) -> fs_ok s')).
Proof. apply mount_ok. Qed.

End Mounting.

(** ** A small volume

    One sector per cluster, nine clusters; the root directory is cluster 2
    and holds A.TXT, 600 bytes in clusters 3 and 4. *)

Definition wit_name : list Z := [0x41; 0x2E; 0x54; 0x58; 0x54].      (* "A.TXT" *)
Definition wit_entry : dirent := new_dirent (to_short_name wit_name) ATTR_ARCHIVE 3 600.

Definition wit_fat_sector (m : mem) (a : Z) : mem :=
  store32 (store32 (store32 m (a + 8) EOC) (a + 12) 4) (a + 16) EOC.

Definition wit_boot : mem :=
  let m := store_le 2 ∅ 0x0B 512 in
  let m := store8 m 0x0D 1 in
  let m := store_le 2 m 0x0E 1 in
  let m := store8 m 0x10 2 in
  let m := store32 m 0x20 12 in
  store32 (store32 m 0x24 1) 0x2C 2.

Definition wit_image : mem :=
  let m := wit_fat_sector (wit_fat_sector wit_boot 512) 1024 in
  let m := put_dirent m 1536 wit_entry in
  store8 (store8 m 2048 0x41) (2560 + 87) 0x5A.

Definition wit_disk : ide := Ide {[0 := wit_image]} ∅ Idle 0.
Definition wit_unmounted : fat ide :=
  Fat wit_disk (Geo 0 0 0 0 0 0 0 0 0) 0 0 false ∅ ∅ NO_LBA.
Definition wit_geo : geo := Geo 0 1 2 512 1 3 1 9 2.
Definition wit_fat : fat ide := Fat wit_disk wit_geo 2 2 true ∅ ∅ NO_LBA.

Lemma wit_capacity : capacity wit_disk 0 = 4096.
Proof. reflexivity. Qed.

Lemma fat32_mount_spec_witness :
  formatted (disk_bpb wit_unmounted 0) (capacity (dev wit_unmounted) 0) /\
  exists s', fat32_mount wit_unmounted 0 = Ret (0, s') /\ fs_ok s' /\ fs s' = wit_geo.
Proof.
  assert (formatted (disk_bpb wit_unmounted 0) (capacity (dev wit_unmounted) 0)) as Hf
    by (split; vm_compute; intuition discriminate).
  split; [exact Hf |].
  destruct (fat32_mount_spec wit_unmounted 0) as (r & s' & E & _ & Hr & _ & _ & _ & Hok).
  - reflexivity.
  - reflexivity.
  - assert (r = 0) as -> by (apply Hr; vm_compute; intuition discriminate).
    exists s'. split; [exact E |]. destruct (Hok eq_refl) as (_ & _ & -> & _ & _ & Hfs).
    split; [by apply Hfs | vm_compute; reflexivity].
Defined.

Lemma wit_fat_ok : fs_ok wit_fat.
Proof.
  split; [reflexivity | | | by left].
  - split; vm_compute; intuition discriminate.
  - vm_compute. intuition discriminate.
Qed.

(** Membership of the nine clusters, one case each. *)
Lemma wit_valid_cases (P : Z -> Prop) :
  P 2 -> P 3 -> P 4 -> P 5 -> P 6 -> P 7 -> P 8 -> P 9 -> P 10 ->
  forall x, valid (fs wit_fat) x -> P x.
Proof.
  intros P2 P3 P4 P5 P6 P7 P8 P9 P10 x Hx. unfold valid in Hx.
  change (total_clusters (fs wit_fat) + 2) with 11 in Hx.
  assert (x = 2 \/ x = 3 \/ x = 4 \/ x = 5 \/ x = 6 \/ x = 7 \/ x = 8 \/ x = 9 \/ x = 10)
    as [-> | [-> | [-> | [-> | [-> | [-> | [-> | [-> | ->]]]]]]]] by lia; done.
Qed.

Lemma wit_links : links_valid wit_fat.
Proof.
  unfold links_valid.
  apply (wit_valid_cases (fun c => in_chain (fatv wit_fat c) = true -> valid (fs wit_fat) (fatv wit_fat c)));
    vm_compute; intuition discriminate.
Qed.

Lemma wit_dir : in_dir 9 wit_fat [2].
Proof.
  split.
  - exact wit_fat_ok.
  - reflexivity.
  - vm_compute. intuition discriminate.
  - simpl. lia.
  - intros x [-> | []%elem_of_nil]%elem_of_cons. vm_compute. discriminate.
Qed.

Lemma wit_chain : chain wit_fat 3 [3; 4].
Proof. vm_compute. intuition discriminate. Qed.

Lemma fat_entry_roundtrip_witness :
  exists s1 s2, set_fat_entry wit_fat 5 9 = Ret (0, s1) /\ next_cluster s1 5 = Ret (9, s2).
Proof.
  destruct (fat_entry_roundtrip wit_fat 5 9) as (s1 & E1 & _ & (s2 & E2) & _ & _).
  - exact wit_fat_ok.
  - vm_compute. intuition discriminate.
  - exists s1, s2. split; [exact E1 | exact E2].
Defined.

Lemma alloc_cluster_spec_witness :
  exists c s', alloc_cluster wit_fat = Ret (c, s') /\ c ≠ 0 /\ fatv s' c = EOC.
Proof.
  destruct (alloc_cluster_spec wit_fat wit_fat_ok) as (c & s' & E & _ & _ & Hz & Hv & Hf).
  exists c, s'. split; [exact E |].
  assert (c ≠ 0) as Hc.
  { intros Hc. apply (proj1 Hz Hc 5); vm_compute; intuition discriminate. }
  split; [exact Hc |]. rewrite Hf by (by apply Hv). by rewrite decide_True.
Defined.

Lemma free_chain_spec_witness :
  exists s', free_chain 2 wit_fat 3 = Ret s' /\ fatv s' 3 = 0 /\ fatv s' 4 = 0.
Proof.
  destruct (free_chain_spec wit_fat 3) as [_ Hl].
  - exact wit_fat_ok.
  - exact wit_links.
  - vm_compute. intuition discriminate.
  - destruct (Hl [3; 4] 2%nat wit_chain) as (s' & E & _ & Hf); [simpl; lia |].
    exists s'. split; [exact E |].
    split; (rewrite Hf by (vm_compute; intuition discriminate)); reflexivity.
Defined.

Definition wit_new : list Z := [0x42].                                (* "B" *)

Lemma fat32_create_spec_witness :
  exists s', fat32_create 9 wit_fat wit_new = Ret (0, s') /\
    get_dirent (bytes s') (512 * 3 + 32) = new_dirent (to_short_name wit_new) ATTR_ARCHIVE 0 0.
Proof.
  pose proof (fat32_create_spec 9 wit_fat [2] wit_new wit_dir) as Hs. cbv zeta in Hs.
  assert (lookup_in (bytes wit_fat) (slots wit_fat [2]) (to_short_name wit_new) = None) as El
    by (vm_compute; reflexivity).
  assert (free_in (bytes wit_fat) (slots wit_fat [2]) = Some (3, 32)) as Ef
    by (vm_compute; reflexivity).
  rewrite El, Ef in Hs. destruct Hs as (s' & E & _ & Hg & _).
  - repeat constructor; vm_compute; intuition discriminate.
  - exists s'. split; [exact E | exact Hg].
Defined.

Definition wit_look : dir_lookup := Lookup wit_entry 3 0.

Lemma wit_lookup :
  lookup_in (bytes wit_fat) (slots wit_fat [2]) (to_short_name wit_name) = Some wit_look.
Proof. vm_compute. reflexivity. Qed.

Lemma fat32_remove_spec_witness :
  exists s', fat32_remove 9 wit_fat wit_name = Ret (0, s') /\ fatv s' 3 = 0 /\ fatv s' 4 = 0.
Proof.
  pose proof (fat32_remove_spec 9 wit_fat [2] wit_name wit_dir) as Hs. cbv zeta in Hs.
  rewrite wit_lookup in Hs. change (is_directory (l_entry wit_look)) with false in Hs.
  destruct (Hs [3; 4]) as (s' & E & _ & _ & Hf & _).
  - exact wit_chain.
  - simpl. lia.
  - exists s'. split; [exact E |].
    split; (rewrite Hf by (vm_compute; intuition discriminate)); reflexivity.
Defined.

Lemma fat32_mkdir_chdir_witness :
  exists c s1 s2 s3, fat32_mkdir 9 wit_fat wit_new = Ret (0, s1) /\
    fat32_chdir 9 s1 wit_new = Ret (0, s2) /\ cwd_cluster s2 = c /\
    fat32_chdir 9 s2 [ch_dot; ch_dot] = Ret (0, s3) /\ cwd_cluster s3 = 2.
Proof.
  destruct (fat32_mkdir_chdir 9 wit_fat [2] wit_new (3, 32)) as (c & s1 & s2 & s3 & E1 & E2 & Ec & E3 & Eb & _).
  - exact wit_dir.
  - lia.
  - repeat constructor; vm_compute; intuition discriminate.
  - reflexivity.
  - reflexivity.
  - reflexivity.
  - vm_compute. discriminate.
  - vm_compute. reflexivity.
  - vm_compute. reflexivity.
  - exists 5. vm_compute. intuition discriminate.
  - vm_compute. intuition discriminate.
  - vm_compute. intuition discriminate.
  - vm_compute. discriminate.
  - exists c, s1, s2, s3. repeat split; assumption.
Defined.

Lemma fat32_read_file_spec_witness :
  exists buf s', fat32_read_file wit_fat wit_entry ∅ 1000 = Ret (600, buf, s') /\
    load8 buf 0 = 0x41 /\ load8 buf 599 = 0x5A.
Proof.
  destruct (fat32_read_file_spec wit_fat wit_entry [3; 4] ∅ 1000) as (buf & s' & E & _ & _ & Hb).
  - exact wit_fat_ok.
  - reflexivity.
  - exact wit_chain.
  - vm_compute. intuition discriminate.
  - lia.
  - exists buf, s'. split; [exact E |]. rewrite !Hb. vm_compute. split; reflexivity.
Defined.

(** The bytes 0, 1, ..., 255, 0, ... *)
Definition wit_data (n : Z) : list Z := (fun i => i mod 256) <$> seqZ 0 n.

Lemma wit_old_file : old_file wit_fat [2] wit_look [3; 4].
Proof.
  split_and!; [reflexivity | exact wit_chain |].
  intros x Hx [-> | []%elem_of_nil]%elem_of_cons. rewrite !elem_of_cons, elem_of_nil in Hx.
  intuition discriminate.
Qed.

Lemma fat32_write_read_witness :
  exists s1 e buf s2, fat32_write_file 9 wit_fat wit_name (wit_data 700) 700 = Ret (0, s1) /\
    fat32_read_file s1 e ∅ 1000 = Ret (700, buf, s2) /\ load8 buf 600 = 600 mod 256.
Proof.
  destruct (fat32_write_read 9 wit_fat [2] wit_name (wit_data 700) 700 (3, 0) ∅ 1000)
    as (s1 & e & buf & s2 & E1 & _ & _ & E2 & Hb).
  - exact wit_dir.
  - vm_compute. discriminate.
  - repeat constructor; vm_compute; intuition discriminate.
  - vm_compute. discriminate.
  - vm_compute. reflexivity.
  - intros look Hl. rewrite wit_lookup in Hl. injection Hl as <-. exists [3; 4]. exact wit_old_file.
  - apply Forall_fmap, Forall_forall. intros x _. unfold compose, is_u8. zdm.
  - reflexivity.
  - lia.
  - vm_compute. discriminate.
  - exists s1, e, buf, s2. split; [exact E1 |]. split; [exact E2 |].
    rewrite Hb by lia. vm_compute. reflexivity.
Defined.

Lemma fat32_overwrite_full_witness :
  exists s1, fat32_write_file 9 wit_fat wit_name [] 5000 = Ret (-1, s1) /\
    fatv s1 3 = 0 /\ fatv s1 4 = 0.
Proof.
  destruct (fat32_overwrite_full 9 wit_fat [2] wit_name [] 5000 wit_look [3; 4])
    as (s1 & E & _ & _ & Hf).
  - exact wit_dir.
  - vm_compute. discriminate.
  - lia.
  - exact wit_lookup.
  - exact wit_old_file.
  - vm_compute. reflexivity.
  - exists s1. split; [exact E |]. split; apply Hf; rewrite !elem_of_cons; tauto.
Defined.
