(* ===== verification/FatList.v ===== *)
(** * FAT32: listing a directory

    [fat32_listdir] visits the live entries of a directory in the order of
    its slots, up to the end mark; [fat32_find], which compares formatted
    names ignoring case, agrees on 8.3 names with the search on raw names
    that the other operations use. *)

From S2P Require Import Prelude Memory Interfaces Ata Fat32 FatName FatTable FatDir FatOps FatFile FatMount.

(** The entries of the slots [l] that a visitor sees. *)
Fixpoint live_entries (m : mem) (l : list slot) : list dirent :=
  match l with
  | [] => []
  | sl :: l' =>
      let e := get_dirent m (slot_addr sl) in
      if first_byte e =? 0x00 then []
      else if skipped e then live_entries m l' else e :: live_entries m l'
  end.

(** No end mark among the slots. *)
Fixpoint no_end (m : mem) (l : list slot) : bool :=
  match l with
  | [] => true
  | sl :: l' => negb (first_byte (get_dirent m (slot_addr sl)) =? 0x00) && no_end m l'
  end.

Lemma live_entries_app m l1 l2 :
  live_entries m (l1 ++ l2) = live_entries m l1 ++ (if no_end m l1 then live_entries m l2 else []).
Proof.
  induction l1 as [|sl l1 IH]; cbn [app live_entries no_end]; [done |]. cbv zeta.
  destruct (_ =? _); cbn [negb andb]; [done |]. rewrite IH. by destruct (skipped _).
Qed.

Lemma live_entries_ext m m' l :
  (forall sl, sl ∈ l -> get_dirent m' (slot_addr sl) = get_dirent m (slot_addr sl)) ->
  live_entries m' l = live_entries m l.
Proof.
  induction l as [|sl l IH]; intros Hl; cbn [live_entries]; [done |].
  rewrite Hl by apply list_elem_of_here. rewrite IH; [done |]. intros x Hx. apply Hl. by apply list_elem_of_further.
Qed.

(** The slots of a cluster are one every 32 bytes. *)
Lemma sectors_slots_flat lba (n : nat) :
  sectors_slots lba 0 (Z.of_nat n) = (fun i => (lba + i / 16, (i mod 16) * 32)) <$> seqZ 0 (16 * Z.of_nat n).
Proof.
  induction n as [|n IH]; [done |]. unfold sectors_slots in *.
  replace (Z.of_nat (S n)) with (Z.of_nat n + 1) by lia. rewrite Z.mul_add_distr_l, !seqZ_app, fmap_app, bind_app by lia.
  rewrite IH. f_equal. cbn [seqZ Z.to_nat Pos.to_nat Pos.iter_op seq fmap list_fmap mbind list_bind].
  change (seqZ (0 + Z.of_nat n) 1) with [Z.of_nat 0 + (0 + Z.of_nat n)]. cbn [mbind list_bind]. rewrite app_nil_r.
  unfold sector_slots. apply list_eq. intros i. rewrite !list_lookup_fmap.
  destruct (decide (i < 16)%nat) as [Hi | Hi].
  - rewrite !lookup_seqZ_lt by lia. cbn [fmap option_fmap option_map]. f_equal. f_equal; zdm.
  - by rewrite !lookup_seqZ_ge by lia.
Qed.

Section Listing.
  Context {D : Type} `{BlockDeviceLaws D}.
  Implicit Types s : fat D.

Lemma list_entries_ok {C} n i buf m lba visit (ctx : C) :
  0 <= i -> (forall x, 0 <= x < 32 * (i + Z.of_nat n) -> load8 buf x = load8 m (512 * lba + x)) ->
  let l := (fun i => (lba + i / 16, (i mod 16) * 32)) <$> seqZ i (Z.of_nat n) in
  list_entries n i buf visit ctx = (negb (no_end m l), foldl visit ctx (live_entries m l)).
Proof.
  revert i ctx. induction n as [|n IH]; intros i ctx Hi Hb; [done |]. cbv zeta. rewrite seqZ_cons by lia.
  cbn [list_entries fmap list_fmap live_entries no_end]. cbv zeta.
  rewrite (get_dirent_shift buf m (i * 32) (slot_addr (lba + i / 16, i mod 16 * 32))).
  2: { intros j Hj. rewrite Hb by lia. f_equal. unfold slot_addr. cbn [fst snd]. zdm. }
  destruct (first_byte _ =? _); cbn [negb andb]; [done |].
  replace (Z.pred (Z.of_nat (S n))) with (Z.of_nat n) by lia. replace (Z.succ i) with (i + 1) by lia.
  destruct (skipped _); cbn [foldl]; apply IH; try lia; intros x Hx; apply Hb; lia.
Qed.

Lemma list_chain_ok {C} fuel s c dl visit (ctx : C) :
  fs_ok s -> chain s c dl -> (length dl <= fuel)%nat ->
  exists s', list_chain fuel s c visit ctx =
      Ret (foldl visit ctx (live_entries (bytes s) (dir_slots (fs s) dl)), s') /\ fs_ok s' /\ same_disk s s'.
Proof.
  revert fuel s c ctx. induction dl as [|x dl IH]; intros fuel s c ctx Hok Hc Hf.
  { simpl in Hc. exists s. split_and!; [| done | apply same_disk_refl]. destruct fuel; simpl; by rewrite Hc. }
  destruct fuel as [|fuel]; simpl in Hf; [lia |]. destruct Hc as (-> & Hval & Hc).
  cbn [list_chain]. rewrite (valid_in_chain s c Hok Hval).
  destruct (read_cluster_ok s c Hok Hval) as (s1 & -> & Hok1 & Hs1 & Hb). cbn [obind]. change (0 <? 0) with false.
  cbv iota zeta. pose proof (sv_fs _ _ (sd_vol _ _ Hs1)) as E1. rewrite E1.
  pose proof (geo_facts s Hok) as Hg. simpl in Hg. rewrite u32_small by lia.
  replace (sectors_per_cluster (fs s) * 512 / 32) with (16 * sectors_per_cluster (fs s)) by zdm.
  assert (cluster_slots (fs s) c = (fun i => (cluster_lba (fs s) c + i / 16, i mod 16 * 32)) <$>
    seqZ 0 (Z.of_nat (Z.to_nat (16 * sectors_per_cluster (fs s))))) as Ecs.
  { unfold cluster_slots. rewrite <- (Z2Nat.id (sectors_per_cluster (fs s))) at 1 by lia.
    rewrite sectors_slots_flat, !Z2Nat.id by lia. done. }
  rewrite (list_entries_ok _ 0 (cluster_buf s1) (bytes s) (cluster_lba (fs s) c)), <- Ecs;
    [| lia | intros i Hi; apply Hb; unfold cluster_size; lia].
  unfold dir_slots. cbn [mbind list_bind]. fold (dir_slots (fs s) dl). rewrite live_entries_app, foldl_app.
  destruct (no_end _ _); cbn [negb]; [| by exists s1].
  destruct (next_cluster_ok s1 c Hok1) as (s2 & -> & Hok2 & Hs2); [by rewrite E1 |].
  cbn [obind]. rewrite (same_disk_fatv s s1) by done.
  pose proof (same_disk_trans _ _ _ Hs1 Hs2) as Hs12. pose proof (sv_fs _ _ (sd_vol _ _ Hs12)) as E2.
  destruct (IH fuel s2 (fatv s c) (foldl visit ctx (live_entries (bytes s) (cluster_slots (fs s) c))) Hok2)
    as (s3 & -> & Hok3 & Hs3); [| lia |].
  - eapply chain_ext; [exact E2 | | exact Hc]. intros y _. by apply same_disk_fatv.
  - exists s3. split_and!; [| done | by eapply same_disk_trans]. rewrite E2.
    rewrite (live_entries_ext (bytes s) (bytes s2)); [done |]. intros sl _.
    apply get_dirent_shift. intros j _. apply Hs12.
Qed.

(** *** Finding *)

(** The name [nm] selects an entry by either comparison, or by none. *)
Definition agrees (nm : list Z) (e : dirent) : Prop :=
  str_eq_ci (format_short_name (e_name e)) nm = sname_eq (e_name e) (to_short_name nm).

Lemma find_fold nm found l :
  foldl (find_visitor nm) found l =
    match found with Some e => Some e | None => list_find (fun e => str_eq_ci (format_short_name (e_name e)) nm = true) l ≫= (fun p => Some (snd p)) end.
Proof.
  revert found. induction l as [|e l IH]; intros found; cbn [foldl]; [by destruct found |].
  rewrite IH. unfold find_visitor at 1. destruct found as [e' |]; [done |]. cbn [list_find].
  destruct (str_eq_ci _ nm) eqn:E; [by rewrite decide_True |]. rewrite decide_False by done.
  by destruct (list_find _ l) as [[? ?] |].
Qed.

Lemma find_live nm m l : Forall (agrees nm) (live_entries m l) ->
  foldl (find_visitor nm) None (live_entries m l) = l_entry <$> lookup_in m l (to_short_name nm).
Proof.
  unfold lookup_in. induction l as [|[lba off] l IH]; [done |]. cbn [live_entries scan_list].
  change (slot_addr (lba, off)) with (512 * lba + off). set (e := get_dirent m (512 * lba + off)). unfold search_f at 1.
  destruct (first_byte e =? 0); [done |]. destruct (skipped e); [apply IH |].
  intros [He Hl]%Forall_cons. cbn [foldl]. unfold find_visitor at 2. rewrite He.
  destruct (sname_eq (e_name e) _); [by rewrite find_fold | by apply IH].
Qed.

Lemma find_ok fuel s dl nm :
  in_dir fuel s dl -> Forall (agrees nm) (live_entries (bytes s) (slots s dl)) ->
  exists s', fat32_find fuel s nm =
      Ret (match lookup_in (bytes s) (slots s dl) (to_short_name nm) with
           | Some look => (0, Some (l_entry look), s') | None => (-1, None, s') end) /\
    fs_ok s' /\ same_disk s s'.
Proof.
  intros [Hok Hm Hc Hf _] Hn. unfold fat32_find, find_from, fat32_listdir. rewrite Hm. cbn [negb].
  destruct (list_chain_ok fuel s (cwd_cluster s) dl (find_visitor nm) None Hok Hc Hf) as (s' & -> & Hok' & Hs').
  cbn [obind]. fold (slots s dl). rewrite find_live by done. exists s'.
  by destruct (lookup_in _ _ _) as [look |].
Qed.

End Listing.

(** ** 8.3 names *)

(** Named like an 8.3 file, or one of the entries of a directory itself. *)
Definition named83 (e : dirent) : Prop :=
  (exists base ext, valid83 base ext /\ e_name e = to_short_name (name83 base ext)) \/
  e_name e = DOT \/ e_name e = DOTDOT.

Definition names83 (m : mem) (l : list slot) : Prop :=
  forall sl, sl ∈ l -> let e := get_dirent m (slot_addr sl) in
    first_byte e ≠ 0 -> skipped e = false -> named83 e.

Lemma live_entries_elem m l e : e ∈ live_entries m l ->
  exists sl, sl ∈ l /\ e = get_dirent m (slot_addr sl) /\ first_byte e ≠ 0 /\ skipped e = false.
Proof.
  induction l as [|sl l IH]; cbn [live_entries]; [by intros ?%not_elem_of_nil |]. cbv zeta.
  destruct (Z.eqb_spec (first_byte (get_dirent m (slot_addr sl))) 0) as [| Hf]; [by intros ?%not_elem_of_nil |].
  assert (e ∈ live_entries m l -> exists sl', sl' ∈ sl :: l /\ e = get_dirent m (slot_addr sl') /\
    first_byte e ≠ 0 /\ skipped e = false) as Hl.
  { intros He. destruct (IH He) as (sl' & Hin & Hr). exists sl'. split; [by apply list_elem_of_further | exact Hr]. }
  destruct (skipped (get_dirent m (slot_addr sl))) eqn:Es; [exact Hl |].
  intros [-> | He]%elem_of_cons; [| by apply Hl]. exists sl. split; [apply list_elem_of_here | done].
Qed.

Lemma upper_dot c : to_upper c = ch_dot -> c = ch_dot.
Proof. unfold ch_dot. destruct (to_upper_cases c) as [[-> ?] | [-> ?]]; lia. Qed.

Lemma agrees_dot e base ext : valid83 base ext -> e_name e = DOT \/ e_name e = DOTDOT -> agrees (name83 base ext) e.
Proof.
  intros Hv He. pose proof Hv as [Hb Hx Hc]. unfold agrees. destruct base as [|c base]; [cbn in Hb; lia |].
  assert (c ≠ 0 /\ to_upper c ≠ ch_dot) as [Hc0 Hcd].
  { apply Forall_cons in Hc as [(_ & ? & ? & _) _]. split; [done |]. by intros ?%upper_dot. }
  rewrite to_short_name83 by done.
  assert (forall l, sname_eq (ch_dot :: l) (raw83 (to_upper <$> c :: base) (to_upper <$> ext)) = false) as Hs.
  { intros l. unfold sname_eq. cbn [seq forallb]. change (char_at (ch_dot :: l) 0) with ch_dot.
    change (char_at (raw83 (to_upper <$> c :: base) (to_upper <$> ext)) 0) with (to_upper c).
    by rewrite (proj2 (Z.eqb_neq ch_dot (to_upper c))) by congruence. }
  assert (exists q, name83 (c :: base) ext = c :: q) as [q ->] by (destruct ext; eexists; reflexivity).
  assert (forall l, str_eq_ci (ch_dot :: l) (c :: q) = false) as Hq.
  { intros l. cbn [str_eq_ci]. unfold truth. rewrite (proj2 (Z.eqb_neq c 0) Hc0).
    change (to_upper ch_dot) with ch_dot. by rewrite (proj2 (Z.eqb_neq ch_dot (to_upper c))) by congruence. }
  destruct He as [-> | ->]; unfold DOT, DOTDOT; rewrite Hs; [apply (Hq []) | apply (Hq [ch_dot])].
Qed.

Lemma agrees_named e base ext : valid83 base ext -> named83 e -> agrees (name83 base ext) e.
Proof.
  intros Hv [(b & x & Hv' & He) | He]; [| by apply agrees_dot].
  unfold agrees. rewrite He. destruct (short_name_ok base ext b x Hv Hv') as (_ & _ & Hiff).
  apply eq_true_iff_eq. rewrite Hiff, sname_eq_spec by apply to_short_name_length. done.
Qed.

Lemma names_agree m l base ext : valid83 base ext -> names83 m l -> Forall (agrees (name83 base ext)) (live_entries m l).
Proof.
  intros Hv Hn. apply Forall_forall. intros e He. destruct (live_entries_elem _ _ _ He) as (sl & Hsl & -> & Hf & Hs).
  apply agrees_named; [done |]. by apply (Hn sl).
Qed.

(** ** Properties *)

(** C39 [fat32_find] finds what the other operations find: in a directory
    whose entries have 8.3 names it returns the entry that [search_dir] finds
    under the name, in whatever case it is given, and changes nothing on the
    disk; [fat32_listdir] shows its visitor the live entries in the order of
    the directory and stops at the end mark. *)
Theorem fat32_find_spec {D : Type} `{BlockDeviceLaws D} fuel (s : fat D) dl base ext :
  in_dir fuel s dl -> valid83 base ext -> names83 (bytes s) (slots s dl) ->
  (exists s', fat32_find fuel s (name83 base ext) =
      Ret (match lookup_in (bytes s) (slots s dl) (to_short_name (name83 base ext)) with
           | Some look => (0, Some (l_entry look), s') | None => (-1, None, s') end) /\
    fs_ok s' /\ same_disk s s') /\
  (forall (C : Type) (visit : C -> dirent -> C) ctx,
     exists s', fat32_listdir fuel s (cwd_cluster s) visit ctx =
       Ret (foldl visit ctx (live_entries (bytes s) (slots s dl)), s') /\ fs_ok s' /\ same_disk s s').
Proof.
  intros Hd Hv Hn. split; [by apply find_ok, names_agree |].
  intros C visit ctx. unfold fat32_listdir. rewrite (id_mounted _ _ _ Hd). cbn [negb].
  apply list_chain_ok; apply Hd.
Qed.

Lemma wit_names83 : names83 (bytes wit_fat) (slots wit_fat [2]).
Proof.
  assert (forallb (fun sl => let e := get_dirent (bytes wit_fat) (slot_addr sl) in
    bool_decide (e_name e = to_short_name wit_name) || (first_byte e =? 0)) (slots wit_fat [2]) = true) as Hs
    by (vm_compute; reflexivity).
  intros sl Hsl. cbv zeta. intros Hf _. rewrite forallb_forall in Hs.
  specialize (Hs sl (proj1 (list_elem_of_In _ _) Hsl)). cbv zeta in Hs.
  apply orb_true_iff in Hs as [Hn%bool_decide_eq_true | Hn%Z.eqb_eq]; [| by destruct (Hf Hn)].
  left. exists [0x41], [0x54; 0x58; 0x54]. split; [| exact Hn].
  split; [simpl; lia | simpl; lia |]. repeat constructor; vm_compute; intuition discriminate.
Qed.

(** "a.txt" finds the file A.TXT of the witness volume. *)
Lemma fat32_find_spec_witness :
  exists s1 s2, fat32_find 9 wit_fat [0x61; 0x2E; 0x74; 0x78; 0x74] = Ret (0, Some wit_entry, s1) /\
    fat32_listdir 9 wit_fat 2 (fun l e => l ++ [e_name e]) [] = Ret ([to_short_name wit_name], s2).
Proof.
  destruct (fat32_find_spec 9 wit_fat [2] [0x61] [0x74; 0x78; 0x74]) as [(s1 & E1 & _) Hv].
  - exact wit_dir.
  - split; [simpl; lia | simpl; lia |]. repeat constructor; vm_compute; intuition discriminate.
  - exact wit_names83.
  - destruct (Hv _ (fun l e => l ++ [e_name e]) []) as (s2 & E2 & _).
    exists s1, s2. split; [exact E1 | exact E2].
Defined.

(** A name that is not in 8.3 form: the file is created under the name cut
    down to that form, and is not found under the name that was given. *)
Definition long_name : list Z := [108; 111; 110; 103; 102; 105; 108; 101; 110; 97; 109; 101; 46; 116; 120; 116].

Example long_name_lost :
  match fat32_create 9 wit_fat long_name with
  | Ret (r, v) =>
      match fat32_find 9 v long_name, fat32_find 9 v [76; 79; 78; 71; 70; 73; 76; 69; 46; 84; 88; 84] with
      | Ret (r1, e1, _), Ret (r2, e2, _) => bool_decide ((r, r1, r2) = (0, -1, 0))
      | _, _ => false
      end
  | _ => false
  end = true.
Proof. vm_compute. reflexivity. Qed.
