(* ===== verification/FatKeep.v ===== *)
(** * FAT32: what no operation touches

    Whatever the device answers and whatever is on the volume, an operation
    of [fs/fat32.c] that returns leaves the geometry, the mount flag and,
    [fat32_chdir] apart, the working directory as they were.  The errors of
    the device are included, so no invariant of the volume is needed. *)

From S2P Require Import Prelude Memory Interfaces Fat32.

(** If the outcome is a value, it satisfies [Q]. *)
Definition ensures {A} (o : outcome A) (Q : A -> Prop) : Prop :=
  match o with Ret a => Q a | _ => True end.

Lemma ensures_bind {A B} (o : outcome A) (k : A -> outcome B) (Q : A -> Prop) (R : B -> Prop) :
  ensures o Q -> (forall a, Q a -> ensures (k a) R) -> ensures (obind o k) R.
Proof. destruct o; cbn; auto. Qed.

Lemma ensures_any {A B} (o : outcome A) (k : A -> outcome B) (R : B -> Prop) :
  (forall a, ensures (k a) R) -> ensures (obind o k) R.
Proof. destruct o; cbn; auto. Qed.

Create HintDb fat_keep.

Section Keep.
  Context {D : Type} `{BlockDevice D}.
  Implicit Types s : fat D.

Record same_set s s' : Prop := SameSet {
  ss_fs : fs s' = fs s;
  ss_mounted : mounted s' = mounted s;
  ss_cwd : cwd_cluster s' = cwd_cluster s
}.

Definition keeps {R} s (o : outcome (R * fat D)) : Prop := ensures o (fun '(_, s') => same_set s s').

Lemma same_set_refl s : same_set s s.
Proof. done. Qed.

Lemma same_set_trans s1 s2 s3 : same_set s1 s2 -> same_set s2 s3 -> same_set s1 s3.
Proof. intros [] []. split; congruence. Qed.

Lemma keeps_ret {R} s (r : R) s' : same_set s s' -> keeps s (Ret (r, s')).
Proof. done. Qed.

Lemma keeps_bind {A R} s (o : outcome (A * fat D)) (k : A * fat D -> outcome (R * fat D)) :
  keeps s o -> (forall a s1, same_set s s1 -> keeps s1 (k (a, s1))) -> keeps s (obind o k).
Proof.
  intros Ho Hk. apply (ensures_bind _ _ _ _ Ho). intros [a s1] H1. specialize (Hk a s1 H1). unfold keeps, ensures in *.
  destruct (k (a, s1)) as [[r s2] | |]; [| done ..]. by eapply same_set_trans.
Qed.

Lemma keeps_weaken {R} s s1 (o : outcome (R * fat D)) : same_set s s1 -> keeps s1 o -> keeps s o.
Proof. unfold keeps, ensures. destruct o as [[r s2] | |]; [| done ..]. apply same_set_trans. Qed.

(** A transfer: the device changes, the rest of the state does not. *)
Lemma keeps_read {R} s d0 dr lba n buf (k : Z * mem * D -> outcome (R * fat D)) :
  (forall r b d, keeps s (k (r, b, d))) -> keeps s (do! x := ata_read d0 dr lba n buf in k x).
Proof. intros Hk. apply ensures_any. intros [[r b] d]. apply Hk. Qed.

Lemma keeps_write {R} s d0 dr lba n buf (k : Z * D -> outcome (R * fat D)) :
  (forall r d, keeps s (k (r, d))) -> keeps s (do! x := ata_write d0 dr lba n buf in k x).
Proof. intros Hk. apply ensures_any. intros [r d]. apply Hk. Qed.

Ltac keep :=
  repeat first
    [ progress (cbv beta iota zeta)
    | match goal with
      | |- keeps _ (Ret (_, _)) => apply keeps_ret; solve [done | split; done]
      | |- keeps _ (if ?b then _ else _) => destruct b
      | |- keeps _ (match ?x with _ => _ end) => destruct x
      | |- keeps _ OutOfFuel => exact I
      | |- keeps _ (obind (ata_read _ _ _ _ _) _) => apply keeps_read; intros
      | |- keeps _ (obind (ata_write _ _ _ _ _) _) => apply keeps_write; intros
      | |- keeps _ (obind _ _) => apply keeps_bind; [| intros]
      | |- keeps _ _ => solve [eauto with fat_keep | eapply keeps_weaken; [| solve [eauto with fat_keep]]; by split]
      end ].

Lemma next_cluster_keeps s c : keeps s (next_cluster s c).
Proof. unfold next_cluster. keep. Qed.
#[local] Hint Resolve next_cluster_keeps : fat_keep.

Lemma read_cluster_keeps s c : keeps s (read_cluster s c).
Proof. unfold read_cluster. keep. Qed.
#[local] Hint Resolve read_cluster_keeps : fat_keep.

Lemma set_fat_copies_keeps n f s c v : keeps s (set_fat_copies n f s c v).
Proof. revert f s. induction n as [|n IH]; intros f s; cbn [set_fat_copies]; keep. Qed.

Lemma set_fat_entry_keeps s c v : keeps s (set_fat_entry s c v).
Proof. apply set_fat_copies_keeps. Qed.
#[local] Hint Resolve set_fat_entry_keeps : fat_keep.

Lemma alloc_loop_keeps n i total s : keeps s (alloc_loop n i total s).
Proof. revert i s. induction n as [|n IH]; intros i s; cbn [alloc_loop]; keep. Qed.
#[local] Hint Resolve alloc_loop_keeps : fat_keep.

Lemma alloc_cluster_keeps s : keeps s (alloc_cluster s).
Proof. unfold alloc_cluster. destruct (alloc_hint s <? 2); keep. Qed.
#[local] Hint Resolve alloc_cluster_keeps : fat_keep.

(** [free_chain] returns the state alone. *)
Definition keeps1 s (o : outcome (fat D)) : Prop := ensures o (same_set s).

Lemma keeps1_bind {R} s (o : outcome (fat D)) (k : fat D -> outcome (R * fat D)) :
  keeps1 s o -> (forall s1, same_set s s1 -> keeps s1 (k s1)) -> keeps s (obind o k).
Proof.
  intros Ho Hk. apply (ensures_bind _ _ _ _ Ho). intros s1 H1. by apply (keeps_weaken s s1), Hk.
Qed.

Lemma free_chain_keeps fuel s c : keeps1 s (free_chain fuel s c).
Proof.
  revert s c. induction fuel as [|fuel IH]; intros s c; cbn [free_chain]; destruct (_ && _); try done.
  apply (ensures_bind _ _ _ _ (next_cluster_keeps s c)). intros [n s1] H1.
  apply (ensures_bind _ _ _ _ (set_fat_entry_keeps s1 c 0)). intros [r s2] H2.
  specialize (IH s2 n). unfold keeps1, ensures in *. destruct (free_chain fuel s2 n); [| done ..].
  by eapply same_set_trans, same_set_trans.
Qed.

Lemma free_if_keeps (b : bool) fuel s c : keeps1 s (if b then free_chain fuel s c else Ret s).
Proof. destruct b; [apply free_chain_keeps | done]. Qed.
#[local] Hint Resolve free_chain_keeps free_if_keeps : fat_keep.

Lemma keeps1_weaken s s1 (o : outcome (fat D)) : same_set s s1 -> keeps1 s1 o -> keeps1 s o.
Proof. unfold keeps1, ensures. destruct o as [s2 | |]; [| done ..]. apply same_set_trans. Qed.

Ltac keep ::=
  repeat first
    [ progress (cbv beta iota zeta)
    | match goal with
      | |- keeps _ (Ret (_, _)) => apply keeps_ret; solve [done | split; done]
      | |- keeps _ (if ?b then _ else _) => destruct b
      | |- keeps _ (match ?x with _ => _ end) => destruct x
      | |- keeps _ OutOfFuel => exact I
      | |- keeps _ (obind (ata_read _ _ _ _ _) _) => apply keeps_read; intros
      | |- keeps _ (obind (ata_write _ _ _ _ _) _) => apply keeps_write; intros
      | |- keeps _ (obind (free_chain _ _ _) _) =>
          apply keeps1_bind; [solve [eauto with fat_keep | eapply keeps1_weaken; [| eauto with fat_keep]; by split] | intros]
      | |- keeps _ (obind (if _ then free_chain _ _ _ else Ret _) _) =>
          apply keeps1_bind; [solve [eauto with fat_keep] | intros]
      | |- keeps _ (obind _ _) => apply keeps_bind; [| intros]
      | |- keeps _ _ => solve [eauto with fat_keep | eapply keeps_weaken; [| solve [eauto with fat_keep]]; by split]
      end ].

(** *** Directories *)

Lemma scan_sectors_keeps {R} n k lba s visit (err : R) : keeps s (scan_sectors n k lba s visit err).
Proof. revert k s. induction n as [|n IH]; intros k s; cbn [scan_sectors]; keep. Qed.
#[local] Hint Resolve scan_sectors_keeps : fat_keep.

Lemma scan_chain_keeps {R} fuel s c visit (err fin : R) : keeps s (scan_chain fuel s c visit err fin).
Proof. revert s c. induction fuel as [|fuel IH]; intros s c; cbn [scan_chain]; keep. Qed.

Lemma search_dir_keeps fuel s c target : keeps s (search_dir fuel s c target).
Proof. apply scan_chain_keeps. Qed.
Lemma find_free_keeps fuel s c : keeps s (find_free_dirent_in fuel s c).
Proof. apply scan_chain_keeps. Qed.
Lemma dir_is_empty_keeps fuel s c : keeps s (dir_is_empty fuel s c).
Proof. apply scan_chain_keeps. Qed.

Lemma patch_sector_keeps s lba patch : keeps s (patch_sector s lba patch).
Proof. unfold patch_sector. keep. Qed.
Lemma write_dirent_keeps s lba off e : keeps s (write_dirent s lba off e).
Proof. apply patch_sector_keeps. Qed.
Lemma mark_deleted_keeps s lba off : keeps s (mark_deleted s lba off).
Proof. apply patch_sector_keeps. Qed.
#[local] Hint Resolve search_dir_keeps find_free_keeps dir_is_empty_keeps write_dirent_keeps mark_deleted_keeps : fat_keep.

Lemma list_chain_keeps {C} fuel s c visit (ctx : C) : keeps s (list_chain fuel s c visit ctx).
Proof. revert s c ctx. induction fuel as [|fuel IH]; intros s c ctx; cbn [list_chain]; keep. Qed.
#[local] Hint Resolve list_chain_keeps : fat_keep.

Lemma listdir_keeps {C} fuel s c visit (ctx : C) : keeps s (fat32_listdir fuel s c visit ctx).
Proof. unfold fat32_listdir. keep. Qed.
#[local] Hint Resolve listdir_keeps : fat_keep.

(** What a visitor keeps true of its context. *)
Lemma list_entries_inv {C} (Q : C -> Prop) n i buf visit (ctx : C) :
  (forall ctx e, Q ctx -> Q (visit ctx e)) -> Q ctx -> Q (snd (list_entries n i buf visit ctx)).
Proof.
  intros Hv. revert i ctx. induction n as [|n IH]; intros i ctx Hc; cbn [list_entries]; [done |].
  cbv zeta. destruct (_ =? _); [done |]. destruct (skipped _); [by apply IH | by apply IH, Hv].
Qed.

Lemma listdir_inv {C} (Q : C -> Prop) fuel s c visit (ctx : C) :
  (forall ctx e, Q ctx -> Q (visit ctx e)) -> Q ctx ->
  ensures (fat32_listdir fuel s c visit ctx) (fun '(ctx', s') => Q ctx' /\ same_set s s').
Proof.
  intros Hv Hc. assert (ensures (fat32_listdir fuel s c visit ctx) (fun '(ctx', _) => Q ctx')) as Hq.
  { unfold fat32_listdir. destruct (negb (mounted s)); [done |]. revert s c ctx Hc.
    induction fuel as [|fuel IH]; intros s c ctx Hc; cbn [list_chain]; destruct (in_chain c); try done.
    apply ensures_any. intros [r s1]. destruct (r <? 0); [done |]. cbv zeta.
    pose proof (list_entries_inv Q (Z.to_nat (u32 (sectors_per_cluster (fs s1) * 512) / 32)) 0 (cluster_buf s1)
      visit ctx Hv Hc) as Hq. destruct (list_entries _ _ _ _ _) as [stop ctx1]. cbn [snd] in Hq.
    destruct stop; [done |]. apply ensures_any. intros [c2 s2]. by apply IH. }
  pose proof (listdir_keeps fuel s c visit ctx) as Hk. unfold keeps, ensures in *.
  by destruct (fat32_listdir fuel s c visit ctx) as [[ctx' s'] | |].
Qed.

Lemma find_keeps fuel s name : keeps s (fat32_find fuel s name).
Proof. unfold fat32_find, find_from. keep. Qed.

Lemma read_loop_keeps n s c size copied dst : keeps s (read_loop n s c size copied dst).
Proof. revert s c copied dst. induction n as [|n IH]; intros s c copied dst; cbn [read_loop]; keep. Qed.
#[local] Hint Resolve read_loop_keeps : fat_keep.

Lemma read_file_keeps s e b max : keeps s (fat32_read_file s e b max).
Proof. unfold fat32_read_file. keep. Qed.

Lemma create_keeps fuel s name : keeps s (fat32_create fuel s name).
Proof. unfold fat32_create. keep. Qed.

Lemma remove_keeps fuel s name : keeps s (fat32_remove fuel s name).
Proof. unfold fat32_remove. keep. Qed.

Lemma write_target_keeps fuel s target : keeps s (write_target fuel s target).
Proof. unfold write_target. keep. Qed.

Lemma write_loop_keeps n fuel s data size first prev written :
  keeps s (write_loop n fuel s data size first prev written).
Proof. revert s first prev written. induction n as [|n IH]; intros s first prev written; cbn [write_loop]; keep. Qed.
#[local] Hint Resolve write_target_keeps write_loop_keeps : fat_keep.

Lemma write_file_keeps fuel s name data size : keeps s (fat32_write_file fuel s name data size).
Proof. unfold fat32_write_file. keep. Qed.

Lemma mkdir_keeps fuel s name : keeps s (fat32_mkdir fuel s name).
Proof. unfold fat32_mkdir. keep. Qed.

Lemma rmdir_keeps fuel s name : keeps s (fat32_rmdir fuel s name).
Proof. unfold fat32_rmdir. keep. Qed.

(** *** The working directory *)

(** Moves may change the working directory, a failed one does not. *)
Definition moves s (o : outcome (Z * fat D)) : Prop :=
  ensures o (fun '(r, s') => fs s' = fs s /\ mounted s' = mounted s /\ (r < 0 -> same_set s s')).

Lemma chdir_moves fuel s name : moves s (fat32_chdir fuel s name).
Proof.
  unfold fat32_chdir, moves. destruct (mounted s) eqn:Em; cbn [negb]; [| by split_and!].
  destruct (is_root_name name); [split_and!; [done | done | lia] |].
  destruct (is_dot_name name); [split_and!; [done | done | lia] |].
  destruct (is_dotdot_name name).
  - destruct (cwd_cluster s =? _); [split_and!; [done | done | lia] |].
    apply (ensures_bind _ _ _ _ (search_dir_keeps fuel s _ _)). intros [[look |] s1] H1; cbv zeta; cbn [ensures].
    + destruct H1 as [F1 M1 _]. split_and!; [done | cbn; congruence | lia].
    + destruct H1 as [F1 M1 C1]. split_and!; [done | congruence | by split].
  - apply (ensures_bind _ _ _ _ (search_dir_keeps fuel s _ _)). intros [[look |] s1] H1; cbv zeta; cbn [ensures].
    + destruct H1 as [F1 M1 C1]. destruct (negb (is_directory _)); cbn [ensures];
        (split_and!; [done | cbn; congruence | lia || by split]).
    + destruct H1 as [F1 M1 C1]. split_and!; [done | congruence | by split].
Qed.

(** Several moves. *)
Definition same_place s s' : Prop := fs s' = fs s /\ mounted s' = mounted s.

Lemma enter_token_moves fuel s tok : ensures (enter_token fuel s tok) (fun '(_, s') => same_place s s').
Proof.
  unfold enter_token. destruct tok; [done |].
  apply (ensures_bind _ _ _ _ (chdir_moves fuel s _)). by intros [r s1] (? & ? & _).
Qed.

Lemma chdir_tokens_moves fuel s p tok : ensures (chdir_tokens fuel s p tok) (fun '(_, s') => same_place s s').
Proof.
  revert s tok. induction p as [|c p IH]; intros s tok; cbn [chdir_tokens]; [apply enter_token_moves |].
  destruct (c =? 0); [apply enter_token_moves |]. destruct (c =? ch_slash); [| apply IH].
  apply (ensures_bind _ _ _ _ (enter_token_moves fuel s tok)). intros [r s1] [F1 M1]. destruct (r <? 0); [done |].
  specialize (IH s1 []). unfold ensures, same_place in *. destruct (chdir_tokens fuel s1 p []) as [[r2 s2] | |]; [| done ..].
  destruct IH. split; congruence.
Qed.

Lemma chdir_path_moves fuel s path : ensures (fat32_chdir_path fuel s path) (fun '(_, s') => same_place s s').
Proof.
  unfold fat32_chdir_path. destruct (mounted s) eqn:Em; cbn [negb]; [| done].
  destruct (_ =? _); [| apply chdir_tokens_moves].
  exact (chdir_tokens_moves fuel (set_cwd s (root_cluster (fs s))) (drop 1 path) []).
Qed.

End Keep.
