(* ===== verification/Keyboard.v ===== *)
(** * Keyboard

    The PS/2 keyboard driver of [drivers/keyboard.c]: the interrupt handler
    that decodes scancode set 1 and the circular buffer between it and
    [keyboard_getchar].  The buffer is shown to be a FIFO queue of at most
    255 characters. *)

From S2P Require Import Prelude.

(** ** The driver *)

Definition BUF_SIZE : Z := 256.

(** The tables, as character codes. *)
Definition sc_normal : list Z := [
  0; 27; 49; 50; 51; 52; 53; 54; 55; 56;
  57; 48; 45; 61; 8; 9; 113; 119; 101; 114;
  116; 121; 117; 105; 111; 112; 91; 93; 10; 0;
  97; 115; 100; 102; 103; 104; 106; 107; 108; 59;
  39; 96; 0; 92; 122; 120; 99; 118; 98; 110;
  109; 44; 46; 47; 0; 42; 0; 32].
Definition sc_shifted : list Z := [
  0; 27; 33; 64; 35; 36; 37; 94; 38; 42;
  40; 41; 95; 43; 8; 9; 81; 87; 69; 82;
  84; 89; 85; 73; 79; 80; 123; 125; 10; 0;
  65; 83; 68; 70; 71; 72; 74; 75; 76; 58;
  34; 126; 0; 124; 90; 88; 67; 86; 66; 78;
  77; 60; 62; 63; 0; 42; 0; 32].

Definition table_at (t : list Z) (sc : Z) : Z := default 0 (t !! Z.to_nat sc).

(** The static variables of the file. *)
Record keyboard : Type := Kbd {
  buf : list Z;
  head : Z;             (* write position *)
  tail : Z;             (* read position *)
  shift : Z;
  caps : Z
}.

Definition keyboard0 : keyboard := Kbd (replicate 256 0) 0 0 0 0.

Definition set_shift (k : keyboard) (v : Z) : keyboard :=
  Kbd (buf k) (head k) (tail k) v (caps k).
Definition set_caps (k : keyboard) (v : Z) : keyboard :=
  Kbd (buf k) (head k) (tail k) (shift k) v.

Definition buf_push (k : keyboard) (c : Z) : keyboard :=
  let next := (head k + 1) mod BUF_SIZE in
  if negb (next =? tail k)
  then Kbd (<[Z.to_nat (head k) := c]> (buf k)) next (tail k) (shift k) (caps k)
  else k.

(** [kb_irq_handler], [sc] being the byte read from port [KB_DATA]. *)
Definition kb_irq_handler (k : keyboard) (sc : Z) : keyboard :=
  if truth (Z.land sc 0x80) then
    let sc := Z.land sc 0x7F in
    if (sc =? 0x2A) || (sc =? 0x36) then set_shift k 0 else k
  else if (sc =? 0x2A) || (sc =? 0x36) then set_shift k 1
  else if sc =? 0x3A then set_caps k (Z.lxor (caps k) 1)
  else if (sc =? 0x1D) || (sc =? 0x38) then k
  else if 58 <=? sc then k
  else
    let base := table_at sc_normal sc in
    let use_shift :=
      if truth (caps k) && ((97 <=? base) && (base <=? 122))
      then Z.lxor (shift k) 1 else shift k in
    let c := if truth use_shift then table_at sc_shifted sc else table_at sc_normal sc in
    if truth c then buf_push k c else k.

Definition keyboard_haschar (k : keyboard) : bool := negb (head k =? tail k).

(** The end of [keyboard_getchar], once there is a character. *)
Definition take_char (k : keyboard) : Z * keyboard :=
  (default 0 (buf k !! Z.to_nat (tail k)),
   Kbd (buf k) (head k) ((tail k + 1) mod BUF_SIZE) (shift k) (caps k)).

(** An interrupt that wakes the [hlt]: the keyboard's, with its scancode, or
    another one. *)
Inductive interrupt : Type :=
  | Irq1 (sc : Z)
  | OtherIrq.

Definition handle (k : keyboard) (i : interrupt) : keyboard :=
  match i with Irq1 sc => kb_irq_handler k sc | OtherIrq => k end.

(** [keyboard_getchar] sleeps until an interrupt while the buffer is empty;
    [irqs] are the interrupts still to come, and [OutOfFuel] stands for
    waiting after the last of them. *)
Fixpoint keyboard_getchar (irqs : list interrupt) (k : keyboard)
    : outcome (Z * list interrupt * keyboard) :=
  if keyboard_haschar k then
    let '(c, k) := take_char k in Ret (c, irqs, k)
  else
    match irqs with
    | [] => OutOfFuel
    | i :: irqs' => keyboard_getchar irqs' (handle k i)
    end.

(** ** The specification: decoding, and a bounded queue *)

Definition is_letter (c : Z) : bool := (97 <=? c) && (c <=? 122).
Definition is_shift (sc : Z) : bool := (sc =? 0x2A) || (sc =? 0x36).
Definition is_modifier (sc : Z) : bool :=
  is_shift sc || (sc =? 0x3A) || (sc =? 0x1D) || (sc =? 0x38).

(** The character a scancode stands for, under the modifiers. *)
Definition decode (sh cp : bool) (sc : Z) : option Z :=
  if (128 <=? sc) || is_modifier sc then None
  else
    let base := table_at sc_normal sc in
    let c := if xorb sh (cp && is_letter base) then table_at sc_shifted sc else base in
    if truth c then Some c else None.

Record kspec : Type := KSpec { queue : list Z; sshift : bool; scaps : bool }.

Definition spec_key (s : kspec) (sc : Z) : kspec :=
  KSpec
    (match decode (sshift s) (scaps s) sc with
     | Some c => if decide (length (queue s) < 255)%nat then queue s ++ [c] else queue s
     | None => queue s
     end)
    (if is_shift sc then true else if is_shift (sc - 128) then false else sshift s)
    (if sc =? 0x3A then negb (scaps s) else scaps s).

Definition spec_handle (s : kspec) (i : interrupt) : kspec :=
  match i with Irq1 sc => spec_key s sc | OtherIrq => s end.

(** What the queue holds once the first character has come, and the rest. *)
Fixpoint spec_getchar (irqs : list interrupt) (s : kspec) : option (Z * list interrupt * kspec) :=
  match queue s with
  | c :: q => Some (c, irqs, KSpec q (sshift s) (scaps s))
  | [] =>
      match irqs with
      | [] => None
      | i :: irqs' => spec_getchar irqs' (spec_handle s i)
      end
  end.

(** A use of the driver: interrupts, polls with [keyboard_haschar], reads. *)
Inductive event : Type :=
  | Interrupt (i : interrupt)
  | Poll
  | Read (irqs : list interrupt).     (* the interrupts that come while waiting *)

Inductive answer : Type :=
  | Ready (b : bool)
  | Char (c : Z) (unused : list interrupt)
  | Waiting.

Fixpoint run (evs : list event) (k : keyboard) : list answer * keyboard :=
  match evs with
  | [] => ([], k)
  | Interrupt i :: evs' => run evs' (handle k i)
  | Poll :: evs' =>
      let '(l, k') := run evs' k in (Ready (keyboard_haschar k) :: l, k')
  | Read irqs :: evs' =>
      match keyboard_getchar irqs k with
      | Ret (c, rest, k) => let '(l, k') := run evs' k in (Char c rest :: l, k')
      | _ => ([Waiting], k)
      end
  end.

Fixpoint spec_run (evs : list event) (s : kspec) : list answer :=
  match evs with
  | [] => []
  | Interrupt i :: evs' => spec_run evs' (spec_handle s i)
  | Poll :: evs' => Ready (match queue s with [] => false | _ => true end) :: spec_run evs' s
  | Read irqs :: evs' =>
      match spec_getchar irqs s with
      | Some (c, rest, s') => Char c rest :: spec_run evs' s'
      | None => [Waiting]
      end
  end.

(** ** The representation *)

Record repr (k : keyboard) (s : kspec) : Prop := Repr {
  rp_len : length (buf k) = 256%nat;
  rp_tail : 0 <= tail k < 256;
  rp_head : head k = (tail k + Z.of_nat (length (queue s))) mod 256;
  rp_bound : (length (queue s) <= 255)%nat;
  rp_shift : shift k = Z.b2z (sshift s);
  rp_caps : caps k = Z.b2z (scaps s);
  rp_queue i c : queue s !! i = Some c ->
    buf k !! Z.to_nat ((tail k + Z.of_nat i) mod 256) = Some c
}.

Lemma repr_init : repr keyboard0 (KSpec [] false false).
Proof. split; simpl; (done || lia || by intros ? ? ?). Qed.

(** Distinct offsets below 256 name distinct cells. *)
Lemma cell_inj t i j :
  0 <= t < 256 -> 0 <= i < 256 -> 0 <= j < 256 -> (t + i) mod 256 = (t + j) mod 256 -> i = j.
Proof. intros. zdm. Qed.

Lemma repr_haschar k s :
  repr k s -> keyboard_haschar k = match queue s with [] => false | _ => true end.
Proof.
  intros [_ Ht Hh Hb _ _ _]. unfold keyboard_haschar. rewrite Hh.
  destruct (queue s) as [|c q]; simpl in *; case_ltb; simpl; try done; zdm.
Qed.

Lemma repr_push k s c :
  repr k s ->
  repr (buf_push k c) (KSpec (if decide (length (queue s) < 255)%nat then queue s ++ [c] else queue s)
                         (sshift s) (scaps s)).
Proof.
  intros [Hl Ht Hh Hb Hs Hc Hq]. unfold buf_push, BUF_SIZE.
  destruct (decide _) as [Hlt | Hge];
    destruct (Z.eqb_spec ((head k + 1) mod 256) (tail k)) as [E | E]; cbn [negb];
    try (exfalso; zdm).
  2: by split.
  split; simpl; try done.
  - by rewrite length_insert.
  - rewrite length_app. simpl. zdm.
  - rewrite length_app. simpl. lia.
  - intros i x [[Hi Hx] | [-> <-]]%lookup_snoc_Some.
    + rewrite list_lookup_insert_ne; [by apply Hq |]. intros E'.
      apply Z2Nat.inj in E'; [| zdm | zdm].
      rewrite Hh in E'. apply cell_inj in E'; lia.
    + rewrite <- Hh. apply list_lookup_insert_eq. rewrite Hl. zdm.
Qed.

Lemma repr_take k s c q :
  repr k s -> queue s = c :: q ->
  exists k', take_char k = (c, k') /\ repr k' (KSpec q (sshift s) (scaps s)).
Proof.
  intros [Hl Ht Hh Hb Hs Hc Hq] Eq. unfold take_char, BUF_SIZE. rewrite Eq in *. simpl in *.
  pose proof (Hq O c eq_refl) as H0. rewrite Z.add_0_r, Z.mod_small in H0 by lia. rewrite H0.
  eexists. split; [reflexivity |]. split; simpl; try done.
  - zdm.
  - rewrite Hh. zdm.
  - lia.
  - intros i x Hi. rewrite <- (Hq (S i) x Hi). f_equal. f_equal. zdm.
Qed.

(** A boolean fact about all bytes, by evaluation. *)
Lemma all_bytes (P : Z -> bool) z : forallb P (seqZ 0 256) = true -> is_u8 z -> P z = true.
Proof.
  intros H Hz. rewrite forallb_forall in H. apply H. apply list_elem_of_In, elem_of_seqZ.
  unfold is_u8 in Hz. lia.
Qed.

Lemma release_bit sc : is_u8 sc -> truth (Z.land sc 0x80) = (128 <=? sc).
Proof.
  intros H. apply eqb_prop.
  by apply (all_bytes (fun sc => Bool.eqb (truth (Z.land sc 0x80)) (128 <=? sc))).
Qed.

Lemma release_code sc : is_u8 sc -> Z.land sc 0x7F = if 128 <=? sc then sc - 128 else sc.
Proof.
  intros H. apply Z.eqb_eq.
  by apply (all_bytes (fun sc => Z.land sc 0x7F =? if 128 <=? sc then sc - 128 else sc)).
Qed.

(** Beyond the tables there is nothing to decode. *)
Lemma decode_beyond sh cp sc : 58 <= sc -> decode sh cp sc = None.
Proof.
  intros H. unfold decode. destruct (_ || _); [done |].
  assert (forall t, length t = 58%nat -> table_at t sc = 0) as Ht.
  { intros t Hl. unfold table_at. rewrite lookup_ge_None_2; [done | lia]. }
  rewrite !Ht by done. by destruct (xorb _ _).
Qed.

Lemma repr_modifiers k s sh cp :
  repr k s -> repr (Kbd (buf k) (head k) (tail k) (Z.b2z sh) (Z.b2z cp)) (KSpec (queue s) sh cp).
Proof. intros []. by split. Qed.

Lemma kbd_eta k : Kbd (buf k) (head k) (tail k) (shift k) (caps k) = k.
Proof. by destruct k. Qed.

Lemma repr_key k s sc : repr k s -> is_u8 sc -> repr (kb_irq_handler k sc) (spec_key s sc).
Proof.
  intros Hr Hsc. pose proof (rp_shift _ _ Hr) as Hsh. pose proof (rp_caps _ _ Hr) as Hcp.
  unfold kb_irq_handler, spec_key. rewrite release_bit, release_code by done.
  unfold is_shift. unfold is_u8 in Hsc. destruct (Z.leb_spec 128 sc) as [Hrel | Hpress].
  - rewrite !decode_beyond by lia. rewrite !(proj2 (Z.eqb_neq sc _)) by lia. cbn [orb].
    destruct ((sc - 128 =? 0x2A) || (sc - 128 =? 0x36)).
    + unfold set_shift. rewrite Hcp. by apply (repr_modifiers _ _ false).
    + by destruct s.
  - rewrite !(proj2 (Z.eqb_neq (sc - 128) _)) by lia. cbn [orb].
    unfold decode, is_modifier, is_shift. rewrite (proj2 (Z.leb_gt 128 sc)) by lia. cbn [orb].
    destruct ((sc =? 0x2A) || (sc =? 0x36)) eqn:E1; cbn [orb].
    { assert ((sc =? 0x3A) = false) as -> by (apply orb_true_iff in E1; rewrite !Z.eqb_eq in E1; apply Z.eqb_neq; lia).
      unfold set_shift. rewrite Hcp. by apply (repr_modifiers _ _ true). }
    destruct (sc =? 0x3A) eqn:E2; cbn [orb].
    { unfold set_caps. rewrite Hsh, Hcp.
      assert (Z.lxor (Z.b2z (scaps s)) 1 = Z.b2z (negb (scaps s))) as -> by (by destruct (scaps s)).
      by apply repr_modifiers. }
    destruct ((sc =? 0x1D) || (sc =? 0x38)) eqn:E3.
    { by destruct s. }
    destruct (Z.leb_spec 58 sc) as [Hb | Hb].
    { pose proof (decode_beyond (sshift s) (scaps s) sc Hb) as Hd. unfold decode, is_modifier, is_shift in Hd.
      rewrite (proj2 (Z.leb_gt 128 sc)), E1, E2 in Hd by lia. cbn [orb] in Hd. rewrite E3 in Hd. cbv zeta in Hd. rewrite Hd. by destruct s. }
    fold (is_letter (table_at sc_normal sc)).
    set (base := table_at sc_normal sc). rewrite Hsh, Hcp.
    assert (truth (if truth (Z.b2z (scaps s)) && is_letter base
                   then Z.lxor (Z.b2z (sshift s)) 1 else Z.b2z (sshift s)) =
            xorb (sshift s) (scaps s && is_letter base)) as ->
      by (by destruct (scaps s), (is_letter base), (sshift s)).
    set (c := if xorb _ _ then _ else _). destruct (truth c); [by apply repr_push | by destruct s].
Qed.

Definition irq_ok (i : interrupt) : Prop := match i with Irq1 sc => is_u8 sc | OtherIrq => True end.
Definition event_ok (e : event) : Prop :=
  match e with Interrupt i => irq_ok i | Poll => True | Read irqs => Forall irq_ok irqs end.

Lemma repr_handle k s i : repr k s -> irq_ok i -> repr (handle k i) (spec_handle s i).
Proof. intros Hr Hi. destruct i; [by apply repr_key | done]. Qed.

(** Waiting in [keyboard_getchar] is waiting for the queue to fill. *)
Lemma getchar_sim irqs k s :
  repr k s -> Forall irq_ok irqs ->
  match spec_getchar irqs s with
  | Some (c, rest, s') => exists k', keyboard_getchar irqs k = Ret (c, rest, k') /\ repr k' s'
  | None => keyboard_getchar irqs k = OutOfFuel
  end.
Proof.
  intros Hr Hi. revert k s Hr. induction Hi as [|i irqs Hi His IH]; intros k s Hr;
    cbn [spec_getchar keyboard_getchar];
    rewrite (repr_haschar k s Hr); destruct (queue s) as [|c q] eqn:Eq; try done.
  - destruct (repr_take k s c q Hr Eq) as (k' & E & Hr'). rewrite E. eauto.
  - by apply IH, repr_handle.
  - destruct (repr_take k s c q Hr Eq) as (k' & E & Hr'). rewrite E. eauto.
Qed.

Lemma run_sim evs k s : repr k s -> Forall event_ok evs -> fst (run evs k) = spec_run evs s.
Proof.
  intros Hr He. revert k s Hr. induction He as [|e evs He Hes IH]; intros k s Hr; [done |].
  destruct e as [i | | irqs]; cbn [run spec_run].
  - by apply IH, repr_handle.
  - rewrite <- (IH k s Hr), (repr_haschar k s Hr). by destruct (run evs k).
  - pose proof (getchar_sim irqs k s Hr He) as Hg.
    destruct (spec_getchar irqs s) as [[[c rest] s']|].
    + destruct Hg as (k' & -> & Hr'). rewrite <- (IH k' s' Hr'). by destruct (run evs k').
    + by rewrite Hg.
Qed.

(** ** Properties *)

(** C21 The keyboard driver is a queue of at most 255 decoded characters: for
    every sequence of interrupts, polls and blocking reads after boot,
    [keyboard_haschar] and [keyboard_getchar] answer what the queue answers,
    in the order the keys were pressed; a key pressed when 255 characters
    wait is dropped, and a read on an empty buffer waits exactly until an
    interrupt delivers a character. *)
Theorem keyboard_fifo (evs : list event) :
  Forall event_ok evs -> fst (run evs keyboard0) = spec_run evs (KSpec [] false false).
Proof. intros. apply run_sim; [apply repr_init | done]. Qed.

(** Shift, a, release shift, b; then three reads, the last one waiting for
    the c that follows a timer interrupt. *)
Definition wit_events : list event :=
  [Interrupt (Irq1 0x2A); Interrupt (Irq1 0x1E); Interrupt (Irq1 0xAA); Interrupt (Irq1 0x30);
   Poll; Read []; Read []; Read [OtherIrq; Irq1 0x2E]; Poll].

Lemma keyboard_fifo_witness :
  fst (run wit_events keyboard0) =
  [Ready true; Char 65 []; Char 98 []; Char 99 []; Ready false].
Proof.
  rewrite (keyboard_fifo wit_events).
  - vm_compute. reflexivity.
  - repeat constructor; vm_compute; intuition discriminate.
Defined.

(** The letters of the layout, in both tables. *)
Definition letter_ok (sc : Z) : bool :=
  let c := table_at sc_normal sc in
  if is_letter c then table_at sc_shifted sc =? c - 32 else true.

Definition typed (c : Z) : bool :=
  existsb (fun sc => bool_decide (decode false false sc = Some c)
                     || bool_decide (decode true false sc = Some c)) (seqZ 0 58).

(** The layout: a letter comes out in upper case exactly when one of Shift
    and Caps Lock is on; Caps Lock does not change any other key; every
    printable ASCII character can be typed, and whatever is typed is a
    character code from 1 to 127. *)
Theorem keyboard_layout (sh cp : bool) (sc c : Z) :
  is_u8 sc ->
  (is_letter (table_at sc_normal sc) = true ->
     decode sh cp sc = Some (table_at sc_normal sc - (if xorb sh cp then 32 else 0))) /\
  (is_letter (table_at sc_normal sc) = false -> decode sh cp sc = decode sh false sc) /\
  (32 <= c <= 126 -> exists sc', decode false false sc' = Some c \/ decode true false sc' = Some c) /\
  (forall x, decode sh cp sc = Some x -> 1 <= x <= 127).
Proof.
  intros Hsc.
  assert (forall P : Z -> bool, forallb P (seqZ 0 256) = true -> P sc = true) as Hall
    by (intros P HP; by apply all_bytes).
  split_and!.
  - intros Hl. pose proof (Hall (fun sc => negb (is_letter (table_at sc_normal sc)) ||
      bool_decide (decode sh cp sc = Some (table_at sc_normal sc - (if xorb sh cp then 32 else 0))))) as H.
    cbv beta in H. rewrite Hl in H. cbn [negb orb] in H. eapply bool_decide_eq_true_1, H.
    destruct sh, cp; vm_compute; reflexivity.
  - intros Hl. unfold decode. by rewrite Hl, andb_false_r.
  - intros Hc. assert (forallb typed (seqZ 32 95) = true) as H by (vm_compute; reflexivity).
    rewrite forallb_forall in H. pose proof (H c) as Ht. unfold typed in Ht.
    rewrite existsb_exists in Ht. destruct Ht as (sc' & _ & Hd).
    { apply list_elem_of_In, elem_of_seqZ. lia. }
    exists sc'. rewrite orb_true_iff, !bool_decide_eq_true in Hd. exact Hd.
  - intros x Hx. pose proof (Hall (fun sc => match decode sh cp sc with
      | Some x => (1 <=? x) && (x <=? 127) | None => true end)) as H. cbv beta in H.
    rewrite Hx, andb_true_iff, !Z.leb_le in H. apply H.
    destruct sh, cp; vm_compute; reflexivity.
Qed.

Lemma keyboard_layout_witness : decode false true 0x1E = Some 65 /\ decode true true 0x1E = Some 97.
Proof.
  split.
  - apply (keyboard_layout false true 0x1E 65); vm_compute; intuition discriminate.
  - apply (keyboard_layout true true 0x1E 97); vm_compute; intuition discriminate.
Defined.
