(* ===== verification/Screen.v ===== *)
(** * Screen and serial port

    The VGA text console of [drivers/screen.c] and the COM1 output of
    [drivers/serial.c] it mirrors every character to.  The video memory is
    shown to hold an abstract terminal, a list of 25 rows, after any output. *)

From S2P Require Import Prelude Memory.

(** ** Serial port *)

Definition COM1_BASE : Z := 0x3F8.
Definition COM1_DATA : Z := COM1_BASE + 0.
Definition COM1_IER : Z := COM1_BASE + 1.
Definition COM1_DLL : Z := COM1_BASE + 0.
Definition COM1_DLM : Z := COM1_BASE + 1.
Definition COM1_FCR : Z := COM1_BASE + 2.
Definition COM1_LCR : Z := COM1_BASE + 3.
Definition COM1_MCR : Z := COM1_BASE + 4.
Definition LSR_THR_EMPTY : Z := 0x20.

(** The UART: the [n]-th read of its line status register gives [lsr n]; it
    reports an empty transmitter at least once in [tx_bound] reads. *)
Class Uart : Type := {
  lsr : nat -> Z;
  tx_bound : nat;
  tx_ready n : exists k, (k < tx_bound)%nat /\ truth (Z.land (lsr (n + k)) LSR_THR_EMPTY) = true
}.

Record serial : Type := Serial {
  g_initialized : bool;
  port_log : list (Z * Z);      (* the writes to the ports, in order *)
  lsr_reads : nat
}.

Definition outb (s : serial) (p v : Z) : serial :=
  Serial (g_initialized s) (port_log s ++ [(p, u8 v)]) (lsr_reads s).

Definition serial_init (s : serial) : serial :=
  let s := outb s COM1_IER 0x00 in
  let s := outb s COM1_LCR 0x80 in
  let s := outb s COM1_DLL 0x01 in
  let s := outb s COM1_DLM 0x00 in
  let s := outb s COM1_LCR 0x03 in
  let s := outb s COM1_FCR 0xC7 in
  let s := outb s COM1_MCR 0x0B in
  Serial true (port_log s) (lsr_reads s).

Definition serial_is_ready (s : serial) : bool := g_initialized s.

Definition ch_nl : Z := 10.
Definition ch_cr : Z := 13.
Definition ch_tab : Z := 9.
Definition ch_bs : Z := 8.
Definition ch_sp : Z := 32.
Definition ch_0 : Z := 48.

Section Serial_port.
  Context `{Uart}.

(** [while (!(inb(COM1_LSR) & LSR_THR_EMPTY)) ;] *)
Fixpoint wait_tx_loop (fuel : nat) (s : serial) : outcome serial :=
  match fuel with
  | O => OutOfFuel
  | S fuel' =>
      let v := lsr (lsr_reads s) in
      let s := Serial (g_initialized s) (port_log s) (S (lsr_reads s)) in
      if truth (Z.land v LSR_THR_EMPTY) then Ret s else wait_tx_loop fuel' s
  end.

Definition wait_tx_empty (s : serial) : outcome serial := wait_tx_loop tx_bound s.

Definition serial_putc (s : serial) (c : Z) : outcome serial :=
  if negb (g_initialized s) then Ret s
  else
    do! s := (if c =? ch_nl then
                do! s := wait_tx_empty s in Ret (outb s COM1_DATA ch_cr)
              else Ret s) in
    do! s := wait_tx_empty s in
    Ret (outb s COM1_DATA c).

Fixpoint serial_puts (s : serial) (str : list Z) : outcome serial :=
  match str with
  | [] => Ret s
  | c :: str' =>
      if c =? 0 then Ret s
      else do! s := serial_putc s c in serial_puts s str'
  end.

End Serial_port.

(** ** Screen *)

Definition VGA_BASE : Z := 0xB8000.
Definition COLS : Z := 80.
Definition ROWS : Z := 25.
Definition VGA_BLACK : Z := 0.
Definition VGA_LIGHT_GREY : Z := 7.

Definition vga_color (fg bg : Z) : Z := u8 (Z.lor fg (Z.shiftl bg 4)).

Record screen : Type := Screen {
  vram : mem;
  cur_col : Z;
  cur_row : Z;
  com1 : serial
}.

Definition set_vram (s : screen) (m : mem) : screen := Screen m (cur_col s) (cur_row s) (com1 s).
Definition set_cursor (s : screen) (col row : Z) : screen := Screen (vram s) col row (com1 s).
Definition set_com1 (s : screen) (p : serial) : screen := Screen (vram s) (cur_col s) (cur_row s) p.

(** [VGA_BASE[pos] = c; VGA_BASE[pos + 1] = attr]. *)
Definition put_cell (m : mem) (pos c attr : Z) : mem :=
  store8 (store8 m (VGA_BASE + pos) c) (VGA_BASE + pos + 1) attr.

(** The body of the copying loop of [scroll_up]. *)
Definition copy_cell (row : Z) (m : mem) (col : Z) : mem :=
  let src := ((row + 1) * COLS + col) * 2 in
  let dst := (row * COLS + col) * 2 in
  let m := store8 m (VGA_BASE + dst) (load8 m (VGA_BASE + src)) in
  store8 m (VGA_BASE + dst + 1) (load8 m (VGA_BASE + src + 1)).

Definition scroll_up (s : screen) : screen :=
  let blank := vga_color VGA_LIGHT_GREY VGA_BLACK in
  let m := for_range 0 (ROWS - 1)
             (fun m row => for_range 0 COLS (copy_cell row) m) (vram s) in
  let m := for_range 0 COLS
             (fun m col => put_cell m (((ROWS - 1) * COLS + col) * 2) ch_sp blank) m in
  Screen m (cur_col s) (ROWS - 1) (com1 s).

Definition clear_screen (s : screen) : screen :=
  let attr := vga_color VGA_LIGHT_GREY VGA_BLACK in
  Screen (for_range 0 (ROWS * COLS) (fun m i => put_cell m (i * 2) ch_sp attr) (vram s))
    0 0 (com1 s).

(** The two tests at the end of [kputchar_color]. *)
Definition wrap_cursor (s : screen) : screen :=
  let s := if COLS <=? cur_col s then set_cursor s 0 (cur_row s + 1) else s in
  if ROWS <=? cur_row s then scroll_up s else s.

Definition cursor_pos (s : screen) : Z := (cur_row s * COLS + cur_col s) * 2.

(** What [kputchar_color] does after [serial_putc]. *)
Definition draw_char (s : screen) (c attr : Z) : screen :=
  if c =? ch_nl then wrap_cursor (set_cursor s 0 (cur_row s + 1))
  else if c =? ch_cr then wrap_cursor (set_cursor s 0 (cur_row s))
  else if c =? ch_tab then
    wrap_cursor (set_cursor s (Z.land (cur_col s + 8) (Z.lnot 7)) (cur_row s))
  else if c =? ch_bs then
    let s := if 0 <? cur_col s then set_cursor s (cur_col s - 1) (cur_row s)
             else if 0 <? cur_row s then set_cursor s (COLS - 1) (cur_row s - 1) else s in
    set_vram s (put_cell (vram s) (cursor_pos s) ch_sp attr)
  else
    let s := set_vram s (put_cell (vram s) (cursor_pos s) c attr) in
    wrap_cursor (set_cursor s (cur_col s + 1) (cur_row s)).

Section Output.
  Context `{Uart}.

Definition kputchar_color (s : screen) (c fg bg : Z) : outcome screen :=
  let attr := vga_color fg bg in
  do! p := serial_putc (com1 s) c in
  Ret (draw_char (set_com1 s p) c attr).

Definition kputchar (s : screen) (c : Z) : outcome screen :=
  kputchar_color s c VGA_LIGHT_GREY VGA_BLACK.

(** A C string: a list of bytes up to its first zero. *)
Fixpoint kprint_color (s : screen) (str : list Z) (fg bg : Z) : outcome screen :=
  match str with
  | [] => Ret s
  | c :: str' =>
      if c =? 0 then Ret s
      else do! s := kputchar_color s c fg bg in kprint_color s str' fg bg
  end.

Definition kprint (s : screen) (str : list Z) : outcome screen :=
  kprint_color s str VGA_LIGHT_GREY VGA_BLACK.

End Output.

(** *** Numbers *)

(** "0123456789ABCDEF" *)
Definition hex_digit (d : Z) : Z := if d <? 10 then 48 + d else 55 + d.

(** [for (i = 7; i >= 0; i--) { buf[i] = hex[n & 0xF]; n >>= 4; }] with
    [k] digits left, [i = k - 1]. *)
Fixpoint hex_loop (k : nat) (n : Z) (buf : list Z) : list Z :=
  match k with
  | O => buf
  | S i => hex_loop i (Z.shiftr n 4) (<[i := hex_digit (Z.land n 0xF)]> buf)
  end.

(** [while (start < 7 && buf[start] == '0') start++], on the digits from
    [start] on; [k] digits may still be skipped. *)
Fixpoint skip_zeros (k : nat) (buf : list Z) : list Z :=
  match k, buf with
  | S k', c :: buf' => if c =? ch_0 then skip_zeros k' buf' else buf
  | _, _ => buf
  end.

Definition hex_string (n : Z) : list Z := skip_zeros 7 (hex_loop 8 n (replicate 9 0)).

(** [while (n > 0) { buf[--i] = '0' + n % 10; n /= 10; }]: the index and the
    buffer at the end.  [OutOfFuel] when a digit would be stored before the
    buffer. *)
Fixpoint dec_loop (i : nat) (n : Z) (buf : list Z) : outcome (nat * list Z) :=
  if 0 <? n then
    match i with
    | O => OutOfFuel
    | S i' => dec_loop i' (n / 10) (<[i' := ch_0 + n mod 10]> buf)
    end
  else Ret (i, buf).

Section Numbers.
  Context `{Uart}.

Definition kprint_hex (s : screen) (n : Z) : outcome screen :=
  do! s := kprint s [48; 120] in      (* "0x" *)
  kprint s (hex_string n).

Definition kprint_dec (s : screen) (n : Z) : outcome screen :=
  if n =? 0 then kputchar s ch_0
  else
    do! (i, buf) := dec_loop 10 n (replicate 11 0) in
    kprint s (drop i buf).

End Numbers.

Definition kget_cursor (s : screen) : Z * Z := (cur_col s, cur_row s).

(** ** Cells of the video memory *)

Definition cell : Type := (Z * Z)%type.       (* character, attribute *)

Definition cell_at (m : mem) (row col : Z) : cell :=
  (load8 m (VGA_BASE + (row * COLS + col) * 2), load8 m (VGA_BASE + (row * COLS + col) * 2 + 1)).

(** Nothing outside the 4000 bytes of the text buffer changed. *)
Definition same_out (m m' : mem) : Prop :=
  forall x, x < VGA_BASE \/ VGA_BASE + ROWS * COLS * 2 <= x -> load8 m' x = load8 m x.

Lemma same_out_refl m : same_out m m.
Proof. done. Qed.

Lemma same_out_trans m1 m2 m3 : same_out m1 m2 -> same_out m2 m3 -> same_out m1 m3.
Proof. intros H1 H2 x Hx. by rewrite H2, H1. Qed.

Definition on_screen (row col : Z) : Prop := 0 <= row < ROWS /\ 0 <= col < COLS.

Lemma cell_put m row col c attr :
  on_screen row col ->
  same_out m (put_cell m ((row * COLS + col) * 2) c attr) /\
  forall row' col', on_screen row' col' ->
    cell_at (put_cell m ((row * COLS + col) * 2) c attr) row' col' =
    if decide (row' = row /\ col' = col) then (u8 c, u8 attr) else cell_at m row' col'.
Proof.
  unfold on_screen, same_out, cell_at, put_cell, ROWS, COLS. intros [Hr Hc]. split.
  - intros x Hx. rewrite !load8_store8. repeat case_decide; lia || done.
  - intros row' col' [Hr' Hc']. rewrite !load8_store8. repeat case_decide; done || lia.
Qed.

Lemma copy_cell_ok m row col :
  0 <= row < ROWS - 1 -> 0 <= col < COLS ->
  same_out m (copy_cell row m col) /\
  forall row' col', on_screen row' col' ->
    cell_at (copy_cell row m col) row' col' =
    if decide (row' = row /\ col' = col) then cell_at m (row + 1) col else cell_at m row' col'.
Proof.
  unfold on_screen, same_out, cell_at, copy_cell, ROWS, COLS. intros Hr Hc. cbv zeta. split.
  - intros x Hx. rewrite !load8_store8. repeat case_decide; lia || done.
  - intros row' col' [Hr' Hc'].
    rewrite !load8_store8.
    rewrite (decide_False (P := VGA_BASE + ((row + 1) * 80 + col) * 2 + 1 = _)) by lia.
    rewrite !u8_small by apply load8_range. repeat case_decide; done || lia.
Qed.

(** One row copied up, then all of them. *)
Lemma copy_row_ok m row :
  0 <= row < ROWS - 1 ->
  let m' := for_range 0 COLS (copy_cell row) m in
  same_out m m' /\
  forall row' col', on_screen row' col' ->
    cell_at m' row' col' = cell_at m (if decide (row' = row) then row + 1 else row') col'.
Proof.
  intros Hr.
  assert (let m' := for_range 0 COLS (copy_cell row) m in
    same_out m m' /\ forall row' col', on_screen row' col' ->
      cell_at m' row' col' =
      if decide (row' = row /\ col' < COLS) then cell_at m (row + 1) col' else cell_at m row' col')
    as [Ho Hc].
  { refine (for_range_ind (fun i m' => same_out m m' /\ forall row' col', on_screen row' col' ->
      cell_at m' row' col' =
      if decide (row' = row /\ col' < i) then cell_at m (row + 1) col' else cell_at m row' col')
      0 COLS _ m _ _ _).
    - unfold COLS. lia.
    - split; [done |]. intros row' col' [_ ?]. rewrite decide_False by lia. done.
    - intros i m' Hi [Ho Hc]. destruct (copy_cell_ok m' row i Hr Hi) as [Ho' Hc'].
      split; [by eapply same_out_trans |]. intros row' col' Hrc.
      assert (on_screen (row + 1) i) by (unfold on_screen, ROWS in *; lia).
      rewrite Hc', !Hc by done. repeat case_decide; try done; try lia.
      by replace col' with i by lia. }
  split; [done |]. intros row' col' [? ?]. rewrite Hc by done. repeat case_decide; try done; lia.
Qed.

Lemma copy_rows_ok m :
  let m' := for_range 0 (ROWS - 1) (fun m row => for_range 0 COLS (copy_cell row) m) m in
  same_out m m' /\
  forall row' col', on_screen row' col' ->
    cell_at m' row' col' = cell_at m (if decide (row' < ROWS - 1) then row' + 1 else row') col'.
Proof.
  refine (for_range_ind (fun i m' => same_out m m' /\ forall row' col', on_screen row' col' ->
      cell_at m' row' col' = cell_at m (if decide (row' < i) then row' + 1 else row') col')
      0 (ROWS - 1) _ m _ _ _).
  - unfold ROWS. lia.
  - split; [done |]. intros row' col' [? _]. rewrite decide_False by lia. done.
  - intros i m' Hi [Ho Hc]. destruct (copy_row_ok m' i Hi) as [Ho' Hc'].
    split; [by eapply same_out_trans |]. intros row' col' [Hr Hcol].
    rewrite Hc' by done. case_decide as E.
    + subst. rewrite Hc by (unfold on_screen, ROWS in *; lia).
      rewrite decide_False, decide_True by lia. done.
    + rewrite Hc by done. repeat case_decide; done || lia.
Qed.

(** A range of cells of one row set to the same cell. *)
Lemma fill_cells_ok m row n c attr :
  0 <= row < ROWS -> 0 <= n <= COLS ->
  let m' := for_range 0 n (fun m col => put_cell m ((row * COLS + col) * 2) c attr) m in
  same_out m m' /\
  forall row' col', on_screen row' col' ->
    cell_at m' row' col' =
    if decide (row' = row /\ col' < n) then (u8 c, u8 attr) else cell_at m row' col'.
Proof.
  intros Hr Hn.
  refine (for_range_ind (fun i m' => same_out m m' /\ forall row' col', on_screen row' col' ->
      cell_at m' row' col' =
      if decide (row' = row /\ col' < i) then (u8 c, u8 attr) else cell_at m row' col') 0 n _ m _ _ _).
  - lia.
  - split; [done |]. intros row' col' [_ ?]. rewrite decide_False by lia. done.
  - intros i m' Hi [Ho Hc].
    destruct (cell_put m' row i c attr) as [Ho' Hc']; [unfold on_screen; lia |].
    split; [by eapply same_out_trans |]. intros row' col' Hrc.
    rewrite Hc' by done. case_decide; [by rewrite decide_True by lia |].
    rewrite Hc by done. repeat case_decide; done || lia.
Qed.

Definition blank : cell := (ch_sp, vga_color VGA_LIGHT_GREY VGA_BLACK).

Lemma scroll_up_ok s :
  let s' := scroll_up s in
  cur_row s' = ROWS - 1 /\ cur_col s' = cur_col s /\ com1 s' = com1 s /\
  same_out (vram s) (vram s') /\
  forall row col, on_screen row col ->
    cell_at (vram s') row col =
    if decide (row < ROWS - 1) then cell_at (vram s) (row + 1) col else blank.
Proof.
  cbv zeta. split_and!; [done .. | |]; unfold scroll_up; cbn [vram];
    destruct (copy_rows_ok (vram s)) as [Ho Hc]; set (m1 := for_range 0 (ROWS - 1) _ (vram s)) in *;
    destruct (fill_cells_ok m1 (ROWS - 1) COLS ch_sp (vga_color VGA_LIGHT_GREY VGA_BLACK))
      as [Ho' Hc']; try (unfold ROWS, COLS; lia).
  - by eapply same_out_trans.
  - intros row col Hrc. pose proof Hrc as [Hr Hcol]. rewrite Hc' by done. case_decide.
    + by rewrite decide_False by lia.
    + rewrite Hc by done. repeat case_decide; done || lia.
Qed.

Lemma fill_screen_ok m :
  let m' := for_range 0 (ROWS * COLS)
              (fun m i => put_cell m (i * 2) ch_sp (vga_color VGA_LIGHT_GREY VGA_BLACK)) m in
  same_out m m' /\ forall row col, on_screen row col ->
    cell_at m' row col = if decide (row * COLS + col < ROWS * COLS) then blank else cell_at m row col.
Proof.
  refine (for_range_ind (fun i m' => same_out m m' /\ forall row col, on_screen row col ->
      cell_at m' row col = if decide (row * COLS + col < i) then blank else cell_at m row col)
      0 (ROWS * COLS) _ m _ _ _).
  - done.
  - split; [done |]. intros row col [? ?]. by rewrite decide_False by (unfold COLS in *; lia).
  - intros i m' Hi [Ho Hc]. unfold ROWS, COLS in Hi.
    destruct (cell_put m' (i / 80) (i mod 80) ch_sp (vga_color VGA_LIGHT_GREY VGA_BLACK))
      as [Ho' Hc']; [unfold on_screen, ROWS, COLS; zdm |].
    replace ((i / 80 * COLS + i mod 80) * 2) with (i * 2) in Ho', Hc' by (unfold COLS; zdm).
    split; [by eapply same_out_trans |]. intros row col Hrc. rewrite Hc' by done.
    pose proof Hrc as [Hr Hcol]. unfold ROWS, COLS in Hr, Hcol |- *.
    case_decide as E; [by rewrite decide_True by zdm |]. rewrite Hc by done. unfold COLS.
    assert (row * 80 + col ≠ i) by (intros <-; apply E; zdm).
    repeat case_decide; done || lia.
Qed.

Lemma clear_screen_ok s :
  let s' := clear_screen s in
  cur_row s' = 0 /\ cur_col s' = 0 /\ com1 s' = com1 s /\ same_out (vram s) (vram s') /\
  forall row col, on_screen row col -> cell_at (vram s') row col = blank.
Proof.
  cbv zeta. destruct (fill_screen_ok (vram s)) as [Ho Hc].
  split_and!; [done .. | exact Ho |].
  intros row col Hrc. pose proof Hrc as [? ?]. unfold clear_screen. cbn [vram].
  rewrite Hc, decide_True by (done || unfold ROWS, COLS in *; lia). done.
Qed.

(** ** The abstract terminal *)

Record term : Type := Term { rows : list (list cell); tcol : Z; trow : Z }.

Definition blank_row : list cell := replicate 80 blank.
Definition term0 : term := Term (replicate 25 blank_row) 0 0.

(** One more row, the first one being lost at the bottom of the screen. *)
Definition next_row (t : term) (col : Z) : term :=
  if decide (trow t + 1 < ROWS) then Term (rows t) col (trow t + 1)
  else Term (drop 1 (rows t) ++ [blank_row]) col (ROWS - 1).

Definition goto_col (t : term) (col : Z) : term :=
  if decide (col < COLS) then Term (rows t) col (trow t) else next_row t 0.

Definition back (t : term) : term :=
  if decide (0 < tcol t) then Term (rows t) (tcol t - 1) (trow t)
  else if decide (0 < trow t) then Term (rows t) (COLS - 1) (trow t - 1) else t.

Definition put_here (t : term) (c : cell) : term :=
  Term (alter (fun r => <[Z.to_nat (tcol t) := c]> r) (Z.to_nat (trow t)) (rows t)) (tcol t) (trow t).

Definition term_char (attr : Z) (t : term) (c : Z) : term :=
  if c =? ch_nl then next_row t 0
  else if c =? ch_cr then goto_col t 0
  else if c =? ch_tab then goto_col t ((tcol t / 8 + 1) * 8)
  else if c =? ch_bs then put_here (back t) (ch_sp, attr)
  else goto_col (put_here t (u8 c, attr)) (tcol t + 1).

Record shows (s : screen) (t : term) : Prop := Shows {
  sh_col : cur_col s = tcol t;
  sh_row : cur_row s = trow t;
  sh_cursor : on_screen (trow t) (tcol t);
  sh_rows : length (rows t) = 25%nat;
  sh_cell row col : on_screen row col ->
    rows t !! Z.to_nat row ≫= (.!! Z.to_nat col) = Some (cell_at (vram s) row col)
}.

Lemma sh_width s t i r : shows s t -> rows t !! i = Some r -> (80 <= length r)%nat.
Proof.
  intros [_ _ _ Hl Hc] Hi. pose proof (lookup_lt_Some _ _ _ Hi) as Hlt.
  pose proof (Hc (Z.of_nat i) 79) as H. rewrite Nat2Z.id, Hi in H. simpl in H.
  assert (is_Some (r !! Z.to_nat 79)) as Hs%lookup_lt_is_Some.
  { eexists. apply H. unfold on_screen, ROWS, COLS. lia. }
  lia.
Qed.

Lemma shows_clear s : shows (clear_screen s) term0.
Proof.
  destruct (clear_screen_ok s) as (Hr & Hc & _ & _ & Hcell).
  split; [by rewrite Hc | by rewrite Hr | unfold on_screen, ROWS, COLS; simpl; lia | done |].
  intros row col Hrc. rewrite Hcell by done. destruct Hrc as [Hrow Hcol]. unfold ROWS, COLS in *.
  unfold term0, blank_row. cbn [rows].
  rewrite lookup_replicate_2 by lia. cbn [mbind option_bind].
  rewrite lookup_replicate_2 by lia. done.
Qed.

(** Moving the cursor. *)
Lemma shows_goto s t col row :
  shows s t -> on_screen row col ->
  shows (set_cursor s col row) (Term (rows t) col row).
Proof. intros [] Hrc. by split. Qed.

(** At the end of the last row the screen scrolls. *)
Lemma shows_wrap s t col row :
  shows s t -> 0 <= row <= ROWS -> 0 <= col < COLS ->
  shows (wrap_cursor (set_cursor s col row))
    (if decide (row < ROWS) then Term (rows t) col row
     else Term (drop 1 (rows t) ++ [blank_row]) col (ROWS - 1)).
Proof.
  intros Hs Hr Hc. unfold wrap_cursor. cbn [cur_col set_cursor].
  rewrite (proj2 (Z.leb_gt COLS col)) by lia. cbn [cur_row set_cursor]. case_decide.
  { rewrite (proj2 (Z.leb_gt ROWS row)) by lia. apply shows_goto; [done | unfold on_screen; lia]. }
  rewrite (proj2 (Z.leb_le ROWS row)) by lia.
  destruct (scroll_up_ok (set_cursor s col row)) as (Hrow & Hcol & _ & _ & Hcell).
  destruct Hs as [_ _ _ Hl Hcells]. split; cbn [rows tcol trow].
  - by rewrite Hcol.
  - by rewrite Hrow.
  - unfold on_screen, ROWS in *. lia.
  - rewrite length_app, length_drop, Hl. done.
  - intros row' col' Hrc. rewrite Hcell by done. cbn [vram set_cursor].
    destruct Hrc as [Hr' Hc']. unfold ROWS, COLS in *. case_decide.
    + rewrite <- Hcells by (unfold on_screen, ROWS, COLS; lia).
      rewrite lookup_app_l by (rewrite length_drop; lia). rewrite lookup_drop.
      do 2 f_equal. lia.
    + rewrite lookup_app_r by (rewrite length_drop; lia). rewrite length_drop, Hl.
      replace (Z.to_nat row' - (25 - 1))%nat with O by lia. cbn [lookup list_lookup mbind option_bind].
      unfold blank_row. rewrite lookup_replicate_2; [done | lia].
Qed.

(** Writing the cell under the cursor. *)
Lemma shows_put s t c attr :
  shows s t ->
  shows (set_vram s (put_cell (vram s) (cursor_pos s) c attr)) (put_here t (u8 c, u8 attr)).
Proof.
  intros Hs. pose proof Hs as [Hc Hr Hrc Hl Hcells]. unfold cursor_pos. rewrite Hc, Hr.
  destruct (cell_put (vram s) (trow t) (tcol t) c attr Hrc) as [_ Hcell].
  split; cbn [rows tcol trow put_here cur_col cur_row set_vram vram]; try done.
  { by rewrite length_alter. }
  intros row col Hrc'. rewrite Hcell by done. pose proof Hrc' as [Hr' Hc']. destruct Hrc as [Hr0 Hc0].
  pose proof (Hcells row col Hrc') as Hold.
  destruct (decide (row = trow t)) as [-> | Hne].
  - rewrite list_lookup_alter_eq. destruct (rows t !! Z.to_nat (trow t)) as [r|] eqn:Er; [| done].
    pose proof (sh_width _ _ _ _ Hs Er) as Hw. cbn [fmap option_fmap option_map mbind option_bind] in *.
    case_decide as E.
    + destruct E as [_ ->]. apply list_lookup_insert_eq. unfold COLS in *. lia.
    + rewrite list_lookup_insert_ne; [done |]. intros E'. apply E. lia.
  - rewrite list_lookup_alter_ne by lia. rewrite decide_False by tauto. done.
Qed.

Lemma tab_stop col : 0 <= col -> Z.land (col + 8) (Z.lnot 7) = (col / 8 + 1) * 8.
Proof.
  intros. rewrite <- Z.ldiff_land. change 7 with (Z.ones 3).
  rewrite Z.ldiff_ones_r, Z.shiftl_mul_pow2, Z.shiftr_div_pow2 by lia. zdm.
Qed.

Lemma shows_goto_col s t col :
  shows s t -> 0 <= col ->
  shows (wrap_cursor (set_cursor s col (cur_row s))) (goto_col t col).
Proof.
  intros Hs Hcol. pose proof (sh_cursor _ _ Hs) as [Hr _]. rewrite (sh_row _ _ Hs).
  unfold goto_col. case_decide as E.
  - pose proof (shows_wrap s t col (trow t) Hs) as Hw. rewrite decide_True in Hw by lia.
    apply Hw; lia.
  - assert (wrap_cursor (set_cursor s col (trow t)) = wrap_cursor (set_cursor s 0 (trow t + 1))) as ->.
    { unfold wrap_cursor. cbn [cur_col set_cursor]. by rewrite (proj2 (Z.leb_le COLS col)) by lia. }
    apply shows_wrap; [done | lia | unfold COLS; lia].
Qed.

Lemma shows_next_row s t :
  shows s t -> shows (wrap_cursor (set_cursor s 0 (cur_row s + 1))) (next_row t 0).
Proof.
  intros Hs. pose proof (sh_cursor _ _ Hs) as [Hr _]. rewrite (sh_row _ _ Hs).
  apply shows_wrap; [done | lia | unfold COLS; lia].
Qed.

Lemma draw_char_ok s t c attr :
  shows s t -> is_u8 attr -> shows (draw_char s c attr) (term_char attr t c).
Proof.
  intros Hs Ha. pose proof (sh_cursor _ _ Hs) as [Hr Hc]. pose proof (sh_col _ _ Hs) as Ec.
  pose proof (sh_row _ _ Hs) as Er. unfold draw_char, term_char.
  destruct (c =? ch_nl); [by apply shows_next_row |].
  destruct (c =? ch_cr); [by apply shows_goto_col |].
  destruct (c =? ch_tab).
  { rewrite Ec, tab_stop by lia. apply shows_goto_col; [done | zdm]. }
  pose proof (u8_small attr Ha) as Ea. destruct (c =? ch_bs).
  - change (ch_sp, attr) with (u8 ch_sp, attr). rewrite <- Ea at 2. apply shows_put.
    unfold back. rewrite Ec, Er. unfold on_screen, ROWS, COLS in *.
    repeat case_ltb; repeat case_decide; try lia; try done; apply shows_goto; try done;
      unfold on_screen, ROWS, COLS; lia.
  - pose proof (shows_put s t c attr Hs) as Hp. rewrite Ea in Hp.
    pose proof (shows_goto_col _ _ (tcol t + 1) Hp ltac:(lia)) as Hg.
    cbv zeta. cbn [cur_col set_vram]. rewrite Ec. exact Hg.
Qed.

(** Only the text buffer is written. *)
Lemma draw_char_out s t c attr : shows s t -> same_out (vram s) (vram (draw_char s c attr)).
Proof.
  intros Hs. pose proof (sh_cursor _ _ Hs) as Hrc. pose proof (sh_col _ _ Hs) as Ec.
  pose proof (sh_row _ _ Hs) as Er.
  assert (forall s' col row, same_out (vram s') (vram (wrap_cursor (set_cursor s' col row)))) as Hw.
  { intros s' col row. unfold wrap_cursor. cbv zeta. set (s2 := if COLS <=? _ then _ else _).
    assert (vram s2 = vram s') as <- by (unfold s2; by case_ltb).
    case_ltb; [by destruct (scroll_up_ok s2) as (_ & _ & _ & ? & _) | done]. }
  assert (forall s' c', on_screen (cur_row s') (cur_col s') ->
    same_out (vram s') (put_cell (vram s') (cursor_pos s') c' attr)) as Hp.
  { intros s' c' H'. by destruct (cell_put (vram s') (cur_row s') (cur_col s') c' attr H'). }
  unfold draw_char. repeat match goal with |- context [c =? ?x] => destruct (c =? x) end; try apply Hw.
  - rewrite <- Ec, <- Er in Hrc. unfold on_screen, ROWS, COLS in *.
    destruct (Z.ltb_spec 0 (cur_col s)); [| destruct (Z.ltb_spec 0 (cur_row s))];
      [ apply (Hp (set_cursor s (cur_col s - 1) (cur_row s)))
      | apply (Hp (set_cursor s (80 - 1) (cur_row s - 1))) | apply Hp ];
      cbn [cur_row cur_col set_cursor]; lia.
  - eapply same_out_trans; [| apply Hw]. apply Hp. by rewrite Ec, Er.
Qed.

(** ** Output to both consoles *)

(** The part of a list of characters that is a C string. *)
Fixpoint c_string (l : list Z) : list Z :=
  match l with
  | [] => []
  | c :: l' => if c =? 0 then [] else c :: c_string l'
  end.

(** What goes out on COM1 for a character. *)
Definition sent (c : Z) : list (Z * Z) :=
  (fun b => (COM1_DATA, u8 b)) <$> (if c =? ch_nl then [ch_cr; c] else [c]).

Section Output_facts.
  Context `{Uart}.

(** Same UART, with [l] written to its ports. *)
Definition wrote (p p' : serial) (l : list (Z * Z)) : Prop :=
  g_initialized p' = g_initialized p /\ port_log p' = port_log p ++ l.

Lemma wrote_trans p1 p2 p3 l1 l2 : wrote p1 p2 l1 -> wrote p2 p3 l2 -> wrote p1 p3 (l1 ++ l2).
Proof. intros [G1 L1] [G2 L2]. split; [congruence |]. by rewrite L2, L1, app_assoc. Qed.

Lemma wait_tx_ok p : exists p', wait_tx_empty p = Ret p' /\ wrote p p' [].
Proof.
  unfold wait_tx_empty. destruct (tx_ready (lsr_reads p)) as (k & Hk & Hb).
  revert p k Hk Hb. induction tx_bound as [|n IH]; intros p k Hk Hb; [lia |].
  cbn [wait_tx_loop]. cbv zeta.
  destruct (truth (Z.land (lsr (lsr_reads p)) LSR_THR_EMPTY)) eqn:E.
  { eexists. split; [reflexivity |]. split; [done |]. by rewrite app_nil_r. }
  destruct k as [|k]; [by rewrite Nat.add_0_r, E in Hb |].
  destruct (IH (Serial (g_initialized p) (port_log p) (S (lsr_reads p))) k) as (p' & -> & Hw); [lia | |].
  - cbn [lsr_reads]. by rewrite Nat.add_succ_l, <- Nat.add_succ_r.
  - exists p'. by split.
Qed.

Lemma serial_putc_ok p c :
  exists p', serial_putc p c = Ret p' /\ wrote p p' (if g_initialized p then sent c else []).
Proof.
  unfold serial_putc, sent. destruct (g_initialized p) eqn:G; cbn [negb].
  2: { exists p. split; [done |]. split; [done |]. by rewrite app_nil_r. }
  assert (forall p b, wrote p (outb p COM1_DATA b) [(COM1_DATA, u8 b)]) as Hout by (intros; by split).
  destruct (c =? ch_nl).
  - destruct (wait_tx_ok p) as (p1 & -> & W1). cbn [obind].
    destruct (wait_tx_ok (outb p1 COM1_DATA ch_cr)) as (p2 & -> & W2). cbn [obind].
    eexists. split; [reflexivity |].
    exact (wrote_trans _ _ _ _ _ W1 (wrote_trans _ _ _ _ _ (Hout p1 ch_cr)
             (wrote_trans _ _ _ _ _ W2 (Hout p2 c)))).
  - cbn [obind]. destruct (wait_tx_ok p) as (p1 & -> & W1). cbn [obind].
    eexists. split; [reflexivity |]. exact (wrote_trans _ _ _ _ _ W1 (Hout p1 c)).
Qed.

Definition mirrored (p : serial) (l : list Z) : list (Z * Z) :=
  if g_initialized p then l ≫= sent else [].

Lemma wrote_nil p : wrote p p [].
Proof. split; [done |]. by rewrite app_nil_r. Qed.

Lemma wrote_mirrored p1 p2 p3 l1 l2 :
  wrote p1 p2 (mirrored p1 l1) -> wrote p2 p3 (mirrored p2 l2) -> wrote p1 p3 (mirrored p1 (l1 ++ l2)).
Proof.
  intros W1 W2. pose proof (wrote_trans _ _ _ _ _ W1 W2) as W. destruct W1 as [G1 _].
  unfold mirrored in *. rewrite G1 in W. destruct (g_initialized p1); [| done]. by rewrite bind_app.
Qed.

Lemma kputchar_color_ok s t c fg bg :
  shows s t ->
  exists s', kputchar_color s c fg bg = Ret s' /\ shows s' (term_char (vga_color fg bg) t c) /\
    same_out (vram s) (vram s') /\ wrote (com1 s) (com1 s') (mirrored (com1 s) [c]).
Proof.
  intros Hs. unfold kputchar_color. destruct (serial_putc_ok (com1 s) c) as (p & -> & W). cbn [obind].
  assert (shows (set_com1 s p) t) as Hs1 by (destruct Hs; by split).
  eexists. split; [reflexivity |]. split_and!.
  - by apply draw_char_ok, u8_range.
  - exact (draw_char_out _ _ c (vga_color fg bg) Hs1).
  - assert (forall s, com1 (draw_char s c (vga_color fg bg)) = com1 s) as ->.
    { intros s0. unfold draw_char, wrap_cursor. by repeat case_match. }
    cbn [com1 set_com1]. unfold mirrored. cbn [mbind list_bind]. by rewrite app_nil_r.
Qed.

Lemma kprint_color_ok s t str fg bg :
  shows s t ->
  exists s', kprint_color s str fg bg = Ret s' /\
    shows s' (foldl (term_char (vga_color fg bg)) t (c_string str)) /\
    same_out (vram s) (vram s') /\ wrote (com1 s) (com1 s') (mirrored (com1 s) (c_string str)).
Proof.
  assert (forall p, wrote p p (mirrored p [])) as Hnil.
  { intros p. unfold mirrored. destruct (g_initialized p); apply wrote_nil. }
  revert s t. induction str as [|c str IH]; intros s t Hs; cbn [kprint_color c_string]; [by exists s |].
  destruct (c =? 0); [by exists s |].
  destruct (kputchar_color_ok s t c fg bg Hs) as (s1 & -> & Hs1 & Ho1 & W1). cbn [obind].
  destruct (IH _ _ Hs1) as (s' & -> & Hs' & Ho' & W2).
  exists s'. split_and!; [done | exact Hs' | by eapply same_out_trans |].
  exact (wrote_mirrored _ _ _ _ _ W1 W2).
Qed.

End Output_facts.

(** ** Numerals *)

Definition is_digit (c : Z) : Prop := ch_0 <= c < ch_0 + 10.
Definition dec_value (l : list Z) : Z := foldl (fun v c => 10 * v + (c - ch_0)) 0 l.

Definition is_hex (c : Z) : Prop := 48 <= c < 58 \/ 65 <= c < 71.
Definition hex_val (c : Z) : Z := if c <? 58 then c - 48 else c - 55.
Definition hex_value (l : list Z) : Z := foldl (fun v c => 16 * v + hex_val c) 0 l.

Lemma dec_value_snoc l c : dec_value (l ++ [c]) = 10 * dec_value l + (c - ch_0).
Proof. unfold dec_value. by rewrite foldl_snoc. Qed.

Lemma hex_value_snoc l c : hex_value (l ++ [c]) = 16 * hex_value l + hex_val c.
Proof. unfold hex_value. by rewrite foldl_snoc. Qed.

Lemma drop_insert_here {A} i (x : A) l :
  (i < length l)%nat -> drop i (<[i := x]> l) = x :: drop (S i) l.
Proof.
  revert l. induction i as [|i IH]; intros [|y l] Hi; simpl in *; try lia; [by rewrite !drop_0 |].
  rewrite IH by lia. done.
Qed.

(** The digits of [n > 0], without leading zero, are put before index [i]. *)
Lemma dec_loop_ok i n buf :
  0 <= n < 10 ^ Z.of_nat i -> (i <= length buf)%nat ->
  exists j buf' ds, dec_loop i n buf = Ret (j, buf') /\ drop j buf' = ds ++ drop i buf /\
    Forall is_digit ds /\ dec_value ds = n /\
    (n = 0 -> ds = []) /\ (n ≠ 0 -> exists d ds', ds = d :: ds' /\ d ≠ ch_0).
Proof.
  revert n buf. induction i as [|i IH]; intros n buf Hn Hi.
  { assert (n = 0) as -> by (simpl in Hn; lia). exists O, buf, []. by split_and!. }
  cbn [dec_loop]. destruct (Z.ltb_spec 0 n) as [Hpos | Hz].
  2: { assert (n = 0) as -> by lia. exists (S i), buf, []. by split_and!. }
  set (c := ch_0 + n mod 10). pose proof (Z.mod_pos_bound n 10) as Hm.
  destruct (IH (n / 10) (<[i := c]> buf)) as (j & buf' & ds & -> & Hd & Hf & Hv & Hz & Hnz).
  { replace (Z.of_nat (S i)) with (1 + Z.of_nat i) in Hn by lia. rewrite Z.pow_add_r in Hn by lia.
    split; [zdm |]. apply Z.div_lt_upper_bound; lia. }
  { rewrite length_insert. lia. }
  exists j, buf', (ds ++ [c]). split_and!; [done | | | | lia |].
  - rewrite Hd, drop_insert_here, <- app_assoc by lia. done.
  - apply Forall_app. split; [done |]. apply Forall_singleton. unfold is_digit, c. lia.
  - rewrite dec_value_snoc, Hv. unfold c. zdm.
  - intros _. destruct (decide (n / 10 = 0)) as [E | E].
    + exists c, []. rewrite (Hz E). split; [done |]. unfold c. zdm.
    + destruct (Hnz E) as (d & ds' & -> & ?). by exists d, (ds' ++ [c]).
Qed.

Lemma hex_digit_ok n :
  let c := hex_digit (Z.land n 0xF) in hex_val c = n mod 16 /\ is_hex c.
Proof.
  cbv zeta. change 0xF with (2 ^ 4 - 1). rewrite land_mask by lia. change (2 ^ 4) with 16.
  pose proof (Z.mod_pos_bound n 16). unfold hex_val, is_hex, hex_digit. repeat case_ltb; lia.
Qed.

Definition hex_ok (l : list Z) : Prop := Forall is_hex l.

Lemma hex_loop_ok k n buf :
  0 <= n -> (k <= length buf)%nat ->
  exists ds, hex_loop k n buf = ds ++ drop k buf /\ length ds = k /\ hex_ok ds /\
    hex_value ds = n mod 16 ^ Z.of_nat k.
Proof.
  revert n buf. induction k as [|i IH]; intros n buf Hn Hk.
  { exists []. split_and!; [done | done | by constructor | by rewrite Z.mod_1_r]. }
  cbn [hex_loop]. rewrite Z.shiftr_div_pow2 by lia. change (2 ^ 4) with 16.
  set (c := hex_digit (Z.land n 0xF)). destruct (hex_digit_ok n) as (Hv & Hc). fold c in Hv, Hc.
  destruct (IH (n / 16) (<[i := c]> buf)) as (ds & -> & Hl & Hok & Hds);
    [zdm | rewrite length_insert; lia |].
  exists (ds ++ [c]). rewrite drop_insert_here, <- app_assoc, length_app by lia. split_and!.
  - done.
  - simpl. lia.
  - apply Forall_app. split; [done | by constructor].
  - rewrite hex_value_snoc, Hds, Hv. replace (Z.of_nat (S i)) with (1 + Z.of_nat i) by lia.
    rewrite Z.pow_add_r, Z.rem_mul_r by lia. change (16 ^ 1) with 16. lia.
Qed.

Lemma skip_zeros_ok k ds e :
  length ds = S k -> hex_ok ds ->
  exists ds', skip_zeros k (ds ++ e) = ds' ++ e /\ hex_ok ds' /\ hex_value ds' = hex_value ds /\
    exists d r, ds' = d :: r /\ (d = ch_0 -> r = []).
Proof.
  revert ds. induction k as [|k IH]; intros ds Hl Hok.
  { destruct ds as [|d [|? ?]]; try done. exists [d]. cbn [skip_zeros]. split_and!; [done .. |].
    by exists d, []. }
  destruct ds as [|d ds]; [done |]. cbn [skip_zeros app]. destruct (Z.eqb_spec d ch_0) as [-> | Hd].
  - destruct (IH ds) as (ds' & E & Hok' & Hv & Hh); [simpl in Hl; lia | by inversion Hok |].
    exists ds'. split_and!; [done | done | by rewrite Hv | done].
  - exists (d :: ds). split_and!; [done .. |]. by exists d, ds.
Qed.

Lemma hex_nonzero l : hex_ok l -> Forall (fun c => c ≠ 0) l.
Proof. intros Hl. eapply Forall_impl; [exact Hl |]. unfold is_hex. lia. Qed.

Lemma c_string_app l : Forall (fun c => c ≠ 0) l -> c_string (l ++ [0]) = l.
Proof.
  induction 1 as [|c l Hc _ IH]; [done |]. cbn [c_string app].
  by rewrite (proj2 (Z.eqb_neq c 0) Hc), IH.
Qed.

Lemma kprint_c_string `{Uart} s str : kprint s str = kprint s (c_string str).
Proof.
  unfold kprint. revert s. induction str as [|c str IH]; intros s; [done |].
  cbn [c_string kprint_color]. destruct (c =? 0) eqn:E; [done |].
  cbn [kprint_color]. rewrite E. destruct (kputchar_color _ _ _ _); simpl; auto.
Qed.

(** ** Properties *)

(** Several strings, each with its colours. *)
Fixpoint print_all `{Uart} (s : screen) (outs : list (list Z * Z * Z)) : outcome screen :=
  match outs with
  | [] => Ret s
  | (str, fg, bg) :: outs' => do! s := kprint_color s str fg bg in print_all s outs'
  end.

Definition term_all (t : term) (outs : list (list Z * Z * Z)) : term :=
  foldl (fun t '(str, fg, bg) => foldl (term_char (vga_color fg bg)) t (c_string str)) t outs.

(** C20 After [clear_screen] and any sequence of [kprint_color] calls, the
    video memory holds exactly what an abstract terminal of 25 rows of 80
    cells displays, and the cursor is on the screen; the calls terminate,
    write no byte outside the 4000 of the text buffer, and send the same
    characters to an initialised COM1, with CR LF for each newline. *)
Theorem screen_refines_terminal `{Uart} (s : screen) (outs : list (list Z * Z * Z)) :
  exists s', print_all (clear_screen s) outs = Ret s' /\
    shows s' (term_all term0 outs) /\ same_out (vram s) (vram s') /\
    wrote (com1 s) (com1 s')
      (if g_initialized (com1 s) then outs ≫= (fun '(str, _, _) => c_string str ≫= sent) else []).
Proof.
  destruct (clear_screen_ok s) as (_ & _ & Hcom & Hout & _).
  assert (forall s0 t, shows s0 t -> exists s', print_all s0 outs = Ret s' /\
    shows s' (term_all t outs) /\ same_out (vram s0) (vram s') /\
    wrote (com1 s0) (com1 s')
      (if g_initialized (com1 s0) then outs ≫= (fun '(str, _, _) => c_string str ≫= sent) else [])) as Hgen.
  { clear. induction outs as [|[[str fg] bg] outs IH]; intros s t Hs; cbn [print_all].
    { exists s. split_and!; [done .. |]. split; [done |]. destruct (g_initialized _); by rewrite app_nil_r. }
    destruct (kprint_color_ok s t str fg bg Hs) as (s1 & -> & Hs1 & Ho1 & W1). cbn [obind].
    destruct (IH s1 _ Hs1) as (s' & -> & Hs' & Ho' & W2).
    exists s'. split_and!; [done | done | by eapply same_out_trans |].
    pose proof (wrote_trans _ _ _ _ _ W1 W2) as W. destruct W1 as [G1 _]. rewrite G1 in W.
    unfold mirrored in W. by destruct (g_initialized (com1 s)). }
  destruct (Hgen _ _ (shows_clear s)) as (s' & E & Hs' & Ho & W).
  exists s'. rewrite Hcom in W. split_and!; [done | done | by eapply same_out_trans | done].
Qed.

(** [kprint_dec] and [kprint_hex] print a numeral of their argument: its
    digits have the value printed, there is no leading zero, and no digit is
    stored outside the local buffer. *)
Theorem print_numbers `{Uart} (s : screen) (n : Z) :
  is_u32 n ->
  (exists ds, kprint_dec s n = kprint s ds /\ Forall is_digit ds /\ dec_value ds = n /\
     exists d r, ds = d :: r /\ (d = ch_0 -> r = [])) /\
  (exists ds, kprint_hex s n = (do! s := kprint s [48; 120] in kprint s ds) /\
     hex_ok ds /\ hex_value ds = n /\ exists d r, ds = d :: r /\ (d = ch_0 -> r = [])).
Proof.
  intros Hn. unfold is_u32 in Hn. split.
  - unfold kprint_dec. destruct (Z.eqb_spec n 0) as [-> | Hnz].
    { exists [ch_0]. split_and!; [| apply Forall_singleton; unfold is_digit, ch_0; lia | done | by exists ch_0, []].
      unfold kprint. cbn [kprint_color]. change (ch_0 =? 0) with false. cbv iota.
      unfold kputchar. by destruct (kputchar_color _ _ _ _). }
    destruct (dec_loop_ok 10 n (replicate 11 0)) as (j & buf & ds & -> & Hd & Hf & Hv & _ & Hnz').
    { change (10 ^ Z.of_nat 10) with 10000000000. lia. }
    { simpl. lia. }
    cbn [obind]. exists ds. rewrite kprint_c_string, Hd. change (drop 10 (replicate 11 0)) with [0].
    rewrite c_string_app.
    + split_and!; [done .. |]. destruct (Hnz' Hnz) as (d & r & -> & ?). by exists d, r.
    + eapply Forall_impl; [exact Hf |]. intros c. unfold is_digit, ch_0. lia.
  - destruct (hex_loop_ok 8 n (replicate 9 0)) as (ds & E & Hl & Hok & Hv); [lia | simpl; lia |].
    destruct (skip_zeros_ok 7 ds [0] Hl Hok) as (ds' & E' & Hok' & Hv' & Hh).
    exists ds'. split_and!; [| done | | done].
    + unfold kprint_hex, hex_string. rewrite E. change (drop 8 (replicate 9 0)) with [0].
      rewrite E'. destruct (kprint s [48; 120]) as [s1 | |]; [| done | done]. cbn [obind].
      by rewrite (kprint_c_string s1), c_string_app by by apply hex_nonzero.
    + rewrite Hv', Hv. apply Z.mod_small. change (16 ^ Z.of_nat 8) with (2 ^ 32). lia.
Qed.

(** A UART whose transmitter is busy for two reads out of three. *)
#[export] Instance wit_uart : Uart.
Proof.
  refine {| lsr n := if Nat.eqb (n mod 3) 2 then 0x60 else 0x40; tx_bound := 3 |}.
  intros n. destruct (n mod 3)%nat as [|[|[|m]]] eqn:E.
  - exists 2%nat. split; [lia |].
    replace ((n + 2) mod 3)%nat with 2%nat by (rewrite Nat.Div0.add_mod, E; done). done.
  - exists 1%nat. split; [lia |].
    replace ((n + 1) mod 3)%nat with 2%nat by (rewrite Nat.Div0.add_mod, E; done). done.
  - exists O. rewrite Nat.add_0_r, E. split; [lia | done].
  - pose proof (Nat.mod_upper_bound n 3). lia.
Defined.

Definition wit_screen : screen := Screen ∅ 79 24 (serial_init (Serial false [] 0)).

Lemma screen_refines_terminal_witness :
  exists s', print_all (clear_screen wit_screen) [([72; 105; 10], 15, 4)] = Ret s' /\
    kget_cursor s' = (0, 1) /\ cell_at (vram s') 0 1 = (105, 79).
Proof.
  destruct (screen_refines_terminal wit_screen [([72; 105; 10], 15, 4)]) as (s' & E & Hs & _).
  exists s'. split; [exact E |]. destruct Hs as [Hc Hr _ _ Hcell]. split.
  - unfold kget_cursor. rewrite Hc, Hr. vm_compute. reflexivity.
  - pose proof (Hcell 0 1) as H. vm_compute in H. symmetry.
    apply (inj Some), H. split; split; congruence.
Defined.

Lemma print_numbers_witness :
  exists ds, kprint_dec wit_screen 4294967295 = kprint wit_screen ds /\ dec_value ds = 4294967295.
Proof.
  destruct (print_numbers wit_screen 4294967295) as [(ds & E & _ & Hv & _) _].
  - unfold is_u32. lia.
  - exists ds. split; [exact E | exact Hv].
Defined.
