(* ===== verification/Irq.v ===== *)
(** * Interrupts, the timer and system calls

    [cpu/isr.c], [drivers/timer.c] and [proc/syscall.c]: the dispatch of an
    interrupt to its handler, the end-of-interrupt and the reschedule that
    follow a hardware interrupt, the tick counter, and the four system calls
    on the scheduler, the screen and the timer. *)

From S2P Require Import Prelude Memory Keyboard Screen Interfaces Cpu Task TaskRing TaskSpec TaskSched TaskCreate.
From S2P Require Import TaskProps TaskSwitch.

(** ** Data *)

(** [registers_t]. *)
Record registers_t : Type := Frame {
  fr_gs : Z; fr_fs : Z; fr_es : Z; fr_ds : Z;
  fr_edi : Z; fr_esi : Z; fr_ebp : Z; fr_esp : Z; fr_ebx : Z; fr_edx : Z; fr_ecx : Z; fr_eax : Z;
  int_no : Z; err_code : Z;
  fr_eip : Z; fr_cs : Z; fr_eflags : Z; fr_useresp : Z; fr_ss : Z
}.

Definition set_eax (v : Z) (f : registers_t) : registers_t :=
  Frame (fr_gs f) (fr_fs f) (fr_es f) (fr_ds f) (fr_edi f) (fr_esi f) (fr_ebp f) (fr_esp f)
    (fr_ebx f) (fr_edx f) (fr_ecx f) v (int_no f) (err_code f) (fr_eip f) (fr_cs f) (fr_eflags f)
    (fr_useresp f) (fr_ss f).

(** The functions that are registered as handlers. *)
Inductive handler : Type := page_fault_handler | timer_irq_handler | keyboard_irq_handler.

Definition TIMER_HZ : Z := 100.
Definition PIT_CH0_DATA : Z := 0x40.
Definition PIT_COMMAND : Z := 0x43.
Definition PIT_BASE_HZ : Z := 1193182.
Definition IRQ0_VECTOR : Z := 32.
Definition SYS_EXIT : Z := 0.
Definition SYS_WRITE : Z := 1.
Definition SYS_GETPID : Z := 2.
Definition SYS_SLEEP_MS : Z := 3.

Record kernel (M P : Type) : Type := Kernel {
  ksched : sched M;
  kscreen : screen;
  kkbd : keyboard;
  kports : P;
  g_ticks : Z;
  handlers : gmap Z handler
}.
Arguments Kernel {M P}. Arguments ksched {M P}. Arguments kscreen {M P}. Arguments kkbd {M P}.
Arguments kports {M P}. Arguments g_ticks {M P}. Arguments handlers {M P}.

(** What one interrupt meets outside the kernel's memory: the registers at
    the call of [context_switch] if there is one, the byte at port 0x60, CR2,
    the byte at an address through the MMU, and the states a sleeping task
    finds each time it goes on after [hlt]. *)
Record env (M P : Type) : Type := Env {
  at_switch : regs; scancode : Z; cr2 : Z; peek : Z -> outcome Z; wakes : list (kernel M P)
}.
Arguments Env {M P}. Arguments at_switch {M P}. Arguments scancode {M P}. Arguments cr2 {M P}.
Arguments peek {M P}. Arguments wakes {M P}.

Section Dispatch.
  Context {M : Type} `{ProcessMemory M} `{TaskCode} `{Uart} {P : Type} (outb : P -> Z -> Z -> P).
  Implicit Types k : kernel M P.

Definition with_sched k (s : sched M) : kernel M P :=
  Kernel s (kscreen k) (kkbd k) (kports k) (g_ticks k) (handlers k).
Definition with_screen k (v : screen) : kernel M P :=
  Kernel (ksched k) v (kkbd k) (kports k) (g_ticks k) (handlers k).
Definition with_kbd k (v : keyboard) : kernel M P :=
  Kernel (ksched k) (kscreen k) v (kports k) (g_ticks k) (handlers k).
Definition with_ports k (p : P) : kernel M P :=
  Kernel (ksched k) (kscreen k) (kkbd k) p (g_ticks k) (handlers k).
Definition with_ticks k (v : Z) : kernel M P :=
  Kernel (ksched k) (kscreen k) (kkbd k) (kports k) v (handlers k).

Definition isr_register k (num : Z) (h : handler) : kernel M P :=
  Kernel (ksched k) (kscreen k) (kkbd k) (kports k) (g_ticks k) (<[u8 num := h]> (handlers k)).

(** ** Timer *)

Definition timer_irq k : outcome (kernel M P) :=
  let k := with_ticks k (u32 (g_ticks k + 1)) in
  do! s := task_tick (ksched k) in Ret (with_sched k s).

Definition pit_divisor : Z :=
  let divisor := PIT_BASE_HZ / TIMER_HZ in
  let divisor := if divisor =? 0 then 1 else divisor in
  if 0xFFFF <? divisor then 0xFFFF else divisor.

Definition timer_init k : kernel M P :=
  let p := outb (kports k) PIT_COMMAND 0x36 in
  let p := outb p PIT_CH0_DATA (u8 (Z.land pit_divisor 0xFF)) in
  let p := outb p PIT_CH0_DATA (u8 (Z.land (Z.shiftr pit_divisor 8) 0xFF)) in
  isr_register (with_ports k p) IRQ0_VECTOR timer_irq_handler.

Definition timer_ticks k : Z := g_ticks k.
Definition timer_uptime_seconds k : Z := g_ticks k / TIMER_HZ.

(** [while (g_ticks < target) hlt]: each [hlt] is followed by one of the
    states of [seen]. *)
Fixpoint sleep_loop (seen : list (kernel M P)) k (target : Z) : outcome (kernel M P) :=
  if g_ticks k <? target then
    match seen with
    | [] => OutOfFuel
    | k' :: seen' => sleep_loop seen' k' target
    end
  else Ret k.

Definition ticks_to_wait (ms : Z) : Z :=
  u32 (u32 (ms + 1000 / TIMER_HZ) - 1) / (1000 / TIMER_HZ).

Definition timer_sleep_ms (e : env M P) k (ms : Z) : outcome (kernel M P) :=
  let target := u32 (g_ticks k + ticks_to_wait ms) in
  sleep_loop (wakes e) k target.

Definition keyboard_init k : kernel M P := isr_register k 33 keyboard_irq_handler.

(** ** System calls *)

Definition sys_exit_impl (e : env M P) k : outcome (regs * kernel M P) :=
  do! (r, s) := task_exit (at_switch e) (ksched k) in Ret (r, with_sched k s).

Definition sys_write_impl (e : env M P) k (fd buf n : Z) : outcome (Z * kernel M P) :=
  if negb (fd =? 1) && negb (fd =? 2) then Ret (-1, k)
  else if negb (truth buf) then Ret (-1, k)
  else
    do! v := for_range 0 n (fun ov i =>
               do! v := ov in do! c := peek e (u32 (buf + i)) in kputchar v c) (Ret (kscreen k)) in
    Ret (i32 n, with_screen k v).

Definition sys_getpid_impl k : outcome Z :=
  if negb (truth (task_current (ksched k))) then Ret (-1)
  else do! t := get (ksched k) (task_current (ksched k)) in Ret (i32 (id t)).

Definition sys_sleep_ms_impl (e : env M P) k (ms : Z) : outcome (Z * kernel M P) :=
  let ms := if 60000 <? ms then 60000 else ms in
  do! k := timer_sleep_ms e k ms in Ret (0, k).

(** [Some r]: the processor went on in another task with the registers [r],
    as for [task_yield]; only [SYS_EXIT] does, and for good. *)
Definition syscall_dispatch (e : env M P) (f : registers_t) k
    : outcome (option regs * registers_t * kernel M P) :=
  let num := fr_eax f in
  if num =? SYS_EXIT then do! (r, k) := sys_exit_impl e k in Ret (Some r, f, k)
  else if num =? SYS_WRITE then
    do! (ret, k) := sys_write_impl e k (fr_ebx f) (fr_ecx f) (fr_edx f) in
    Ret (None, set_eax (u32 ret) f, k)
  else if num =? SYS_GETPID then
    do! ret := sys_getpid_impl k in Ret (None, set_eax (u32 ret) f, k)
  else if num =? SYS_SLEEP_MS then
    do! (ret, k) := sys_sleep_ms_impl e k (fr_ebx f) in Ret (None, set_eax (u32 ret) f, k)
  else Ret (None, set_eax (u32 (-1)) f, k).

(** ** Dispatch *)

Definition run_handler (h : handler) (e : env M P) k : outcome (kernel M P) :=
  match h with
  | page_fault_handler => Halt (PageFault (cr2 e))
  | timer_irq_handler => timer_irq k
  | keyboard_irq_handler => Ret (with_kbd k (kb_irq_handler (kkbd k) (scancode e)))
  end.

Definition isr_handler (e : env M P) (f : registers_t) k
    : outcome (option regs * registers_t * kernel M P) :=
  if int_no f <? 32 then
    match handlers k !! int_no f with
    | Some h => do! k := run_handler h e k in Ret (None, f, k)
    | None => Halt (Exception (int_no f))
    end
  else if int_no f <? 48 then
    let irq := u8 (int_no f - 32) in
    do! k := match handlers k !! int_no f with
             | Some h => run_handler h e k
             | None => Ret k
             end in
    let k := with_ports k (Pic.pic_send_eoi outb (kports k) irq) in
    let '(b, s) := task_should_resched (ksched k) in
    let k := with_sched k s in
    if b then do! (o, s) := task_yield (at_switch e) (ksched k) in Ret (o, f, with_sched k s)
    else Ret (None, f, k)
  else if int_no f =? 128 then syscall_dispatch e f k
  else Ret (None, f, k).

End Dispatch.

(** ** Lemmas *)

Section Slices.
  Context {M : Type} `{ProcessMemoryLaws M} `{TaskCode} {P : Type}.
  Implicit Types s : sched M.

(** The task [t] gets the processor with the [n]-th timer interrupt from now
    on, if nobody gives it up before. *)
Definition due s (t n : Z) : Prop :=
  exists l, sched_ok s l /\ g_need_resched s = false /\
    ((n = 0 /\ g_current s = t /\ state_of s t = Some TASK_RUNNING) \/
     (exists i d, runnable s (tl l) !! i = Some t /\ tasks s !! g_current s = Some d /\
        1 <= slice_left d /\ n = slice_left d + TASK_TIME_SLICE * Z.of_nat i)).

(** What a timer interrupt does to the scheduler. *)
Definition timer_step (r : regs) s : outcome (sched M) :=
  do! s := task_tick s in
  let '(b, s) := task_should_resched s in
  if b then exec (Yield r) s else Ret s.

Lemma queue_runnable s l s' l' : queue s' l' = queue s l ->
  g_current s' = g_current s /\ runnable s' (tl l') = runnable s (tl l).
Proof. by intros [= -> ->]. Qed.

(** A switch gives the chosen task a whole slice. *)
Lemma switched_slice s c x t zs rest r r' s' :
  ring_ok s (c :: zs ++ x :: rest) -> switched s c x t zs r r' s' ->
  exists d, tasks s' !! x = Some d /\ slice_left d = TASK_TIME_SLICE.
Proof.
  intros Hr Hsw. pose proof (ro_nodup _ _ Hr) as [Hc Hn]%NoDup_cons.
  apply NoDup_app in Hn as (_ & Hd & _).
  assert (x ∈ zs ++ x :: rest) as Hx by (apply elem_of_app; right; apply list_elem_of_here).
  destruct (ring_dom _ _ x (ro_ring _ _ Hr)) as [u Hu]; [by apply list_elem_of_further |].
  pose proof (sw_tasks _ _ _ _ _ _ _ _ Hsw x) as Ht.
  rewrite decide_False, Hu in Ht by (intros Hin; apply (Hd x Hin), list_elem_of_here).
  destruct (tasks s' !! x) as [d |]; [| done]. apply (inj Some) in Ht. exists d. split; [done |].
  change (slice_left d) with (slice_left (set_next 0 d)). rewrite Ht. unfold switch_task.
  rewrite decide_False by (intros <-; done). by rewrite decide_True.
Qed.

Lemma due_yield r s c l i t :
  sched_ok s (c :: l) -> g_need_resched s = false -> runnable s l !! i = Some t ->
  exists s', exec (Yield r) s = Ret s' /\ due s' t (TASK_TIME_SLICE * Z.of_nat i).
Proof.
  intros Hok Hnr Hi. pose proof (sk_ring _ _ Hok) as Hr.
  destruct (split_zombies_cases s l) as [(zs & x & rest & -> & Hs) | Hs];
    rewrite (runnable_split _ _ _ _ Hs) in Hi; [| done].
  destruct (yield_switch r s c x rest zs Hr Hs) as (u & r' & s' & _ & E & Hr' & Hsw).
  exists s'. cbn [exec]. rewrite E. split; [done |].
  destruct (switched_runnable _ _ _ _ _ _ _ _ _ Hr Hsw) as [Hst Hq].
  destruct (switched_slice _ _ _ _ _ _ _ _ _ Hr Hsw) as (d & Hd & Hsl).
  pose proof (sw_current _ _ _ _ _ _ _ _ Hsw) as Hcur.
  exists (x :: rest ++ [c]). split; [split; [done | by rewrite Hcur] |].
  split; [by rewrite (sw_need _ _ _ _ _ _ _ _ Hsw) |]. rewrite Hcur. cbn [tl].
  destruct i as [|i]; [left | right].
  - injection Hi as ->. done.
  - exists i, d. rewrite Hq, Hsl. split; [rewrite lookup_app_l; [done | by eapply lookup_lt_Some] |].
    split; [done |]. unfold TASK_TIME_SLICE. lia.
Qed.

Lemma due_step r s t n : due s t n -> 0 < n ->
  exists s', timer_step r s = Ret s' /\ due s' t (n - 1).
Proof.
  intros (l & Hok & Hnr & [(-> & _) | (i & d & Hi & Hd & Hsl & ->)]) Hpos; [lia |].
  destruct (tick_ok s l Hok) as (s1 & d' & E & Hok1 & Hq1 & Hd' & Hc1 & Hsl1 & _ & _ & Hn1 & _).
  rewrite Hd in Hd'. injection Hd' as <-. destruct (queue_runnable _ _ _ _ Hq1) as [_ Hrun].
  rewrite (proj2 (Z.leb_le 0 _)), andb_true_r, Hnr in Hn1 by lia. cbn [orb] in Hn1.
  rewrite (proj2 (Z.ltb_lt 0 _)) in Hsl1 by lia.
  unfold timer_step. rewrite E. cbn [obind]. unfold task_should_resched. rewrite Hn1.
  destruct (Z.leb_spec (slice_left d) 1) as [Hle | Hgt]; cbn [negb].
  - set (s2 := with_need s1 false).
    destruct (sched_ok_ext s1 s2 l Hok1 eq_refl eq_refl eq_refl eq_refl) as [Hok2 Hq2].
    destruct (queue_runnable _ _ _ _ Hq2) as [_ Hrun2].
    destruct (sched_ok_head _ _ Hok2) as [l' El]. rewrite El in *. cbn [tl] in *.
    destruct (due_yield r s2 _ l' i t Hok2 eq_refl) as (s' & E' & Hdue); [by rewrite Hrun2, Hrun |].
    exists s'. split; [done |]. assert (slice_left d = 1) as -> by lia.
    by replace (1 + TASK_TIME_SLICE * Z.of_nat i - 1) with (TASK_TIME_SLICE * Z.of_nat i) by lia.
  - exists s1. split; [done |]. exists l. split; [done |]. split; [done |]. right.
    destruct (tasks s1 !! g_current s) as [d1 |] eqn:Hd1; [| done]. injection Hsl1 as Hsl1.
    exists i, d1. rewrite Hrun, Hc1. split; [done |]. split; [done |]. lia.
Qed.

End Slices.

Section Sleep.
  Context {M P : Type}.
  Implicit Types k : kernel M P.

Lemma ticks_to_wait_ok ms : 0 <= ms < 2 ^ 32 - 10 -> ms <= 10 * ticks_to_wait ms < ms + 10.
Proof.
  intros Hms. unfold ticks_to_wait. change (1000 / TIMER_HZ) with 10. rewrite (u32_small (ms + 10)), u32_small by lia. zdm.
Qed.

Lemma sleep_loop_ok pre k k' post target :
  g_ticks k < target -> Forall (fun w => g_ticks w < target) pre -> target <= g_ticks k' ->
  sleep_loop (pre ++ k' :: post) k target = Ret k'.
Proof.
  intros Hlt Hpre Hk'. revert k Hlt. induction pre as [|w pre IH]; intros k0 Hlt; cbn [app sleep_loop];
    rewrite (proj2 (Z.ltb_lt _ _)) by done.
  - destruct post; cbn [sleep_loop]; by rewrite (proj2 (Z.ltb_ge _ _)) by lia.
  - apply Forall_cons in Hpre as [Hw Hpre]. by apply IH.
Qed.

(** A sleep of [n] ticks, the tick counter not wrapping in the time, ends in
    the first of the states found in which they have passed. *)
Lemma sleep_first (e : env M P) k (ms n : Z) pre k' post :
  0 <= ms < 2 ^ 32 - 10 -> 10 * (n - 1) < ms <= 10 * n -> 0 <= g_ticks k -> g_ticks k + n < 2 ^ 32 ->
  k :: wakes e = pre ++ k' :: post -> Forall (fun w => g_ticks w < g_ticks k + n) pre -> g_ticks k + n <= g_ticks k' ->
  timer_sleep_ms e k ms = Ret k'.
Proof.
  intros Hms Hn Hk Hw Hs Hpre Hk'. pose proof (ticks_to_wait_ok ms Hms). assert (ticks_to_wait ms = n) as E by lia.
  unfold timer_sleep_ms. cbv zeta. rewrite E, u32_small by (unfold is_u32; lia). destruct pre as [|k0 pre].
  - injection Hs as -> _. destruct (wakes e); cbn [sleep_loop]; by rewrite (proj2 (Z.ltb_ge _ _)) by lia.
  - injection Hs as <- ->. apply Forall_cons in Hpre as [Hlt Hpre]. by apply sleep_loop_ok.
Qed.

End Sleep.

Section Interrupts.
  Context {M : Type} `{ProcessMemoryLaws M} `{TaskCode} `{Uart} {P : Type} (outb : P -> Z -> Z -> P).
  Implicit Types k : kernel M P.

(** A run of interrupts, each at whatever the processor was doing. *)
Fixpoint interrupts (es : list (env M P * registers_t)) k : outcome (kernel M P) :=
  match es with
  | [] => Ret k
  | (e, f) :: es' => do! (_, k) := isr_handler outb e f k in interrupts es' k
  end.

Definition is_timer (ef : env M P * registers_t) : Prop := int_no (snd ef) = IRQ0_VECTOR.
Definition is_irq (ef : env M P * registers_t) : Prop := 32 <= int_no (snd ef) < 48.
#[local] Instance is_timer_dec ef : Decision (is_timer ef).
Proof. unfold is_timer. apply _. Defined.

(** The handlers as the kernel registers them: the timer on its own vector. *)
Definition timer_only (h : gmap Z handler) : Prop :=
  h !! IRQ0_VECTOR = Some timer_irq_handler /\
  forall n, 32 < n < 48 -> h !! n = None \/ h !! n = Some keyboard_irq_handler.

Lemma timer_interrupt e f k s' :
  timer_only (handlers k) -> int_no f = IRQ0_VECTOR -> timer_step (at_switch e) (ksched k) = Ret s' ->
  exists o k', isr_handler outb e f k = Ret (o, f, k') /\ ksched k' = s' /\ handlers k' = handlers k /\
    g_ticks k' = u32 (g_ticks k + 1).
Proof.
  intros [Hh _] Hf Hs. unfold isr_handler. rewrite Hf, Hh. change (IRQ0_VECTOR <? 32) with false.
  change (IRQ0_VECTOR <? 48) with true. cbn [run_handler]. unfold timer_irq, timer_step in *. cbv zeta.
  cbn [ksched with_ticks]. destruct (task_tick (ksched k)) as [s1 | |]; try done. cbn [obind] in *.
  cbn [ksched with_ports with_sched]. destruct (task_should_resched s1) as [b s2]. destruct b.
  - cbn [exec] in Hs. cbn [ksched with_sched]. destruct (task_yield _ s2) as [[o s3] | |]; try done.
    cbn [obind] in *. injection Hs as ->. eexists _, _. split; [reflexivity |]. done.
  - injection Hs as ->. eexists _, _. split; [reflexivity |]. done.
Qed.

Lemma other_interrupt e f k :
  timer_only (handlers k) -> 32 < int_no f < 48 -> g_need_resched (ksched k) = false ->
  exists k', isr_handler outb e f k = Ret (None, f, k') /\ ksched k' = ksched k /\ handlers k' = handlers k /\
    g_ticks k' = g_ticks k.
Proof.
  intros [_ Hh] Hf Hn. unfold isr_handler. rewrite (proj2 (Z.ltb_ge _ _)), (proj2 (Z.ltb_lt _ _)) by lia.
  destruct (Hh (int_no f) Hf) as [-> | ->]; cbn [run_handler obind]; cbn [ksched with_ports with_kbd];
    unfold task_should_resched; rewrite Hn; cbn [negb]; eexists; (split; [reflexivity |]); done.
Qed.

Lemma due_interrupts es k t n :
  timer_only (handlers k) -> due (ksched k) t n -> Forall is_irq es ->
  Z.of_nat (length (filter is_timer es)) = n ->
  exists k', interrupts es k = Ret k' /\ due (ksched k') t 0 /\ handlers k' = handlers k /\
    g_ticks k' mod 2 ^ 32 = (g_ticks k + n) mod 2 ^ 32.
Proof.
  revert k n. induction es as [|[e f] es IH]; intros k n Hh Hd Hes Hlen; cbn [interrupts].
  { cbn in Hlen. subst n. exists k. rewrite Z.add_0_r. done. }
  apply Forall_cons in Hes as [He Hes]. rewrite filter_cons in Hlen. unfold is_irq in He. cbn [snd] in He.
  destruct (decide (is_timer (e, f))) as [Ht | Ht].
  - cbn [length] in Hlen. destruct (due_step (at_switch e) _ t n Hd) as (s' & Hs & Hd'); [lia |].
    destruct (timer_interrupt e f k s' Hh Ht Hs) as (o & k1 & -> & <- & Hh1 & Ht1). cbn [obind].
    destruct (IH k1 (n - 1)) as (k' & E & Hd2 & Hh2 & Ht2); [by rewrite Hh1 | done | done | lia |].
    exists k'. split_and!; [done | done | by rewrite Hh2 |]. rewrite Ht2, Ht1. unfold u32.
    rewrite Zplus_mod_idemp_l. f_equal. lia.
  - assert (g_need_resched (ksched k) = false) as Hn by (by destruct Hd as (? & _ & ? & _)).
    unfold is_timer in Ht. cbn [snd] in Ht. unfold IRQ0_VECTOR in Ht.
    destruct (other_interrupt e f k Hh) as (k1 & -> & Hs1 & Hh1 & Ht1); [lia | done |]. cbn [obind].
    destruct (IH k1 n) as (k' & E & Hd2 & Hh2 & Ht2); [by rewrite Hh1 | by rewrite Hs1 | done | done |].
    exists k'. split_and!; [done | done | by rewrite Hh2 | by rewrite Ht2, Ht1].
Qed.

(** ** System calls *)

Lemma kputchars_ok k e n v t bs buf :
  shows v t -> (forall i b, bs !! i = Some b -> peek e (u32 (buf + (n + Z.of_nat i))) = Ret b) ->
  exists v', for_range n (n + Z.of_nat (length bs)) (fun ov i =>
      do! v := ov in do! c := peek (e : env M P) (u32 (buf + i)) in kputchar v c) (Ret v) = Ret v' /\
    shows v' (foldl (term_char (vga_color VGA_LIGHT_GREY VGA_BLACK)) t bs) /\
    wrote (com1 v) (com1 v') (mirrored (com1 v) bs).
Proof.
  revert n v t. induction bs as [|b bs IH]; intros n v t Hv Hb; cbn [length].
  { rewrite for_range_empty by lia. exists v. split_and!; [done | done |].
    unfold mirrored. destruct (g_initialized _); apply wrote_nil. }
  rewrite for_range_step by lia. cbn [obind].
  pose proof (Hb 0%nat b eq_refl) as Hb0. rewrite Z.add_0_r in Hb0. rewrite Hb0. cbn [obind].
  unfold kputchar at 2.
  destruct (kputchar_color_ok v t b VGA_LIGHT_GREY VGA_BLACK Hv) as (v1 & -> & Hv1 & _ & W1).
  destruct (IH (n + 1) v1 _ Hv1) as (v' & E & Hv' & W2).
  { intros i b' Hi. rewrite <- (Hb (S i) b' Hi). do 2 f_equal. lia. }
  exists v'. replace (n + Z.of_nat (S (length bs))) with (n + 1 + Z.of_nat (length bs)) by lia.
  split_and!; [exact E | exact Hv' |]. exact (wrote_mirrored _ _ _ [b] bs W1 W2).
Qed.

Lemma write_call (e : env M P) (f : registers_t) k t bs :
  shows (kscreen k) t -> fr_eax f = SYS_WRITE -> fr_ebx f ∈ [1; 2] -> fr_ecx f ≠ 0 -> fr_edx f = Z.of_nat (length bs) ->
  (forall i b, bs !! i = Some b -> peek e (u32 (fr_ecx f + Z.of_nat i)) = Ret b) ->
  exists v, syscall_dispatch e f k = Ret (None, set_eax (u32 (fr_edx f)) f, with_screen k v) /\
    shows v (foldl (term_char (vga_color VGA_LIGHT_GREY VGA_BLACK)) t bs) /\
    wrote (com1 (kscreen k)) (com1 v) (mirrored (com1 (kscreen k)) bs).
Proof.
  intros Hv Hnum Hfd Hbuf Hn Hb. unfold syscall_dispatch. cbv zeta. rewrite Hnum.
  cbn [Z.eqb SYS_EXIT SYS_WRITE SYS_GETPID Pos.eqb]. unfold sys_write_impl.
  assert (negb (fr_ebx f =? 1) && negb (fr_ebx f =? 2) = false) as ->.
  { apply elem_of_cons in Hfd as [-> | ->%list_elem_of_singleton]; done. }
  unfold truth. rewrite (proj2 (Z.eqb_neq (fr_ecx f) 0)), Hn by done. cbn [negb].
  destruct (kputchars_ok k e 0 (kscreen k) t bs (fr_ecx f) Hv Hb) as (v & E & Hv' & W).
  rewrite Z.add_0_l in E. rewrite E. cbn [obind].
  exists v. split_and!; [| done | done]. by rewrite u32_i32.
Qed.

Lemma getpid_call (e : env M P) (f : registers_t) k l :
  sched_ok (ksched k) l -> fr_eax f = SYS_GETPID -> exists d, tasks (ksched k) !! g_current (ksched k) = Some d /\
    syscall_dispatch e f k = Ret (None, set_eax (u32 (id d)) f, k).
Proof.
  intros Hok Hnum. unfold syscall_dispatch. cbv zeta. rewrite Hnum. cbn [Z.eqb SYS_EXIT SYS_WRITE SYS_GETPID Pos.eqb].
  pose proof (sk_running _ _ Hok) as Hrun. unfold state_of in Hrun.
  destruct (tasks (ksched k) !! g_current (ksched k)) as [d |] eqn:Hd; [| done]. exists d. split; [done |].
  unfold sys_getpid_impl, task_current.
  assert (truth (g_current (ksched k)) = true) as ->.
  { pose proof (ro_mem _ _ (sk_ring _ _ Hok)) as Hm. apply truth_pos.
    apply (proc_block_range _ _ _ (tm_ok _ _ Hm) (ho_task _ _ _ (tm_holds _ _ Hm _ _ Hd))). }
  cbn [negb]. rewrite (get_some _ _ d) by done. cbn [obind]. by rewrite u32_i32.
Qed.

(** What [SYS_EXIT] does to a kernel whose ready ring is [l]. *)
Definition exits (e : env M P) (f : registers_t) k l (o : outcome (option regs * registers_t * kernel M P)) : Prop :=
  match runnable (ksched k) (tl l) with
  | [] => o = Halt NoRunnable
  | x :: ys => exists r s' l', o = Ret (Some r, f, with_sched k s') /\ sched_ok s' (x :: l') /\ runnable s' l' = ys
  end.

Lemma exit_call (e : env M P) (f : registers_t) k l :
  sched_ok (ksched k) l -> fr_eax f = SYS_EXIT -> exits e f k l (syscall_dispatch e f k).
Proof.
  intros Hok Hnum. unfold exits, syscall_dispatch. cbv zeta. rewrite Hnum. cbn [Z.eqb SYS_EXIT].
  destruct (sched_ok_head _ _ Hok) as [l' ->]. cbn [tl]. unfold sys_exit_impl.
  pose proof (exit_step (at_switch e) _ _ l' Hok) as Hx.
  destruct (runnable (ksched k) l') as [|x ys]; [by rewrite Hx |].
  destruct Hx as (r & s' & l2 & -> & Hok' & Hq). cbn [obind]. by exists r, s', l2.
Qed.

(** ** Properties *)

(** C24 Preemption: no task keeps the processor.  Whatever the running tasks
    compute, if they never yield, sleep or exit, the [i]-th runnable task
    behind the current one is running after exactly as many timer interrupts
    as the current slice has left plus five for each task before it, however
    many other interrupts come in between; the tick counter counts them. *)
Theorem irq_preemption k l (i : nat) t d (es : list (env M P * registers_t)) :
  timer_only (handlers k) -> sched_ok (ksched k) l -> g_need_resched (ksched k) = false ->
  tasks (ksched k) !! g_current (ksched k) = Some d -> 1 <= slice_left d ->
  runnable (ksched k) (tl l) !! i = Some t -> Forall is_irq es ->
  Z.of_nat (length (filter is_timer es)) = slice_left d + TASK_TIME_SLICE * Z.of_nat i ->
  exists k', interrupts es k = Ret k' /\ g_current (ksched k') = t /\
    state_of (ksched k') t = Some TASK_RUNNING /\
    g_ticks k' mod 2 ^ 32 = (g_ticks k + slice_left d + TASK_TIME_SLICE * Z.of_nat i) mod 2 ^ 32.
Proof.
  intros Hh Hok Hn Hd Hsl Hi Hes Hlen.
  destruct (due_interrupts es k t (slice_left d + TASK_TIME_SLICE * Z.of_nat i) Hh)
    as (k' & E & (l' & Hok' & _ & Hc) & _ & Ht); [| done | done |].
  - exists l. split; [done |]. split; [done |]. right. by exists i, d.
  - exists k'. rewrite <- Z.add_assoc. split; [done |].
    destruct Hc as [(_ & ? & ?) | (j & d' & _ & _ & ? & ?)]; [done |]. unfold TASK_TIME_SLICE in *. lia.
Qed.


End Interrupts.

(** ** Sleeping *)

Section SleepSpec.
  Context {M P : Type}.
  Implicit Types k : kernel M P.

(** [timer_sleep_ms] sleeps for the milliseconds asked for, rounded up to
    whole ticks: it returns with the first state found after a [hlt] in which
    that many ticks have passed, and at once when the tick counter would pass
    2^32 before. *)
Theorem timer_sleep_spec (e : env M P) k (ms : Z) :
  0 <= ms < 2 ^ 32 - 10 -> 0 <= g_ticks k < 2 ^ 32 ->
  exists n, ms <= 10 * n < ms + 10 /\
   (g_ticks k + n < 2 ^ 32 ->
    (ms = 0 -> timer_sleep_ms e k ms = Ret k) /\
    (forall pre k' post, 0 < ms -> wakes e = pre ++ k' :: post ->
       Forall (fun w => g_ticks w < g_ticks k + n) pre -> g_ticks k + n <= g_ticks k' ->
       timer_sleep_ms e k ms = Ret k')) /\
   (2 ^ 32 <= g_ticks k + n -> timer_sleep_ms e k ms = Ret k).
Proof.
  intros Hms Ht. exists (ticks_to_wait ms). pose proof (ticks_to_wait_ok ms Hms) as Hn.
  split; [done |]. unfold timer_sleep_ms. cbv zeta. split.
  - intros Hs. rewrite u32_small by lia. split.
    + intros ->. assert (ticks_to_wait 0 = 0) as -> by lia. destruct (wakes e); cbn [sleep_loop];
        by rewrite (proj2 (Z.ltb_ge _ _)) by lia.
    + intros pre k' post Hpos -> Hpre Hk'. apply sleep_loop_ok; [lia | done | done].
  - intros Hw. assert (u32 (g_ticks k + ticks_to_wait ms) < g_ticks k) as Hlt by (unfold u32; zdm).
    destruct (wakes e); cbn [sleep_loop]; by rewrite (proj2 (Z.ltb_ge _ _)) by lia.
Qed.

End SleepSpec.

(** ** Witnesses

    The boot task and one more on the kernel's own memory manager, a screen
    just cleared, and the timer's and the keyboard's handlers. *)

From S2P Require Import Pmm Kheap Paging PagingExt Elf ElfSpec ElfLoad.

#[local] Existing Instance wit_paging.
#[local] Existing Instance wit_layout.
#[local] Existing Instance wit_code.
#[local] Existing Instance wit_uart.

Definition wit_kernel (s : sched (loader pmm held_heap)) : kernel (loader pmm held_heap) (list (Z * Z)) :=
  Kernel (with_need s false) (clear_screen wit_screen) keyboard0 [] 0
    {[IRQ0_VECTOR := timer_irq_handler; 33 := keyboard_irq_handler]}.
Definition wit_outb (p : list (Z * Z)) (port v : Z) : list (Z * Z) := p ++ [(port, v)].
Definition wit_env (ws : list (kernel (loader pmm held_heap) (list (Z * Z)))) :
    env (loader pmm held_heap) (list (Z * Z)) :=
  Env wit_regs 30 0 (fun a => Ret (u8 a)) ws.
Definition wit_frame (n eax ebx ecx edx : Z) : registers_t :=
  Frame 0x10 0x10 0x10 0x10 0 0 0 0 ebx edx ecx eax n 0 0x1000 0x08 0x200 0 0.

Lemma wit_handlers s : timer_only (handlers (wit_kernel s)).
Proof.
  split; [done |]. intros n Hn. cbn [handlers wit_kernel]. rewrite lookup_insert_ne by (unfold IRQ0_VECTOR; lia).
  rewrite lookup_singleton. case_decide; auto.
Qed.

Lemma wit_kernel_ok s l : sched_ok s l -> sched_ok (ksched (wit_kernel s)) l.
Proof. intros Hok. by apply (sched_ok_ext s). Qed.

Lemma irq_preemption_witness :
  exists s k' b t, sched_ok s [b; t] /\
    interrupts wit_outb (replicate 5 (wit_env [], wit_frame 32 0 0 0 0)) (wit_kernel s) = Ret k' /\
    g_current (ksched k') = t.
Proof.
  destruct wit_two as (s0 & s & b & t & d & _ & _ & _ & Hok & Hq & Hd & Hsl).
  destruct (irq_preemption wit_outb (wit_kernel s) [b; t] 0 t d (replicate 5 (wit_env [], wit_frame 32 0 0 0 0)))
    as (k' & E & Hc & _).
  - apply wit_handlers.
  - by apply wit_kernel_ok.
  - reflexivity.
  - injection Hq as Hb _. change (tasks s !! g_current s = Some d). by rewrite Hb.
  - rewrite Hsl. unfold TASK_TIME_SLICE. lia.
  - injection Hq as _ Hq. change (runnable s [t] !! 0%nat = Some t). cbn [list.tail] in Hq. by rewrite Hq.
  - by repeat constructor.
  - rewrite Hsl. reflexivity.
  - exists s, k', b, t. split; [exact Hok |]. split; [exact E | exact Hc].
Defined.


Lemma timer_sleep_spec_witness :
  exists s, timer_sleep_ms (wit_env [with_ticks (wit_kernel s) 1; with_ticks (wit_kernel s) 2]) (wit_kernel s) 15 =
    Ret (with_ticks (wit_kernel s) 2).
Proof.
  destruct wit_started as (s & b & _ & Hok). exists s.
  destruct (timer_sleep_spec (wit_env [with_ticks (wit_kernel s) 1; with_ticks (wit_kernel s) 2]) (wit_kernel s) 15)
    as (n & Hn & Hs & _).
  - lia.
  - cbn. lia.
  - assert (n = 2) as -> by lia. destruct Hs as [_ Hs]; [cbn; lia |].
    apply (Hs [with_ticks (wit_kernel s) 1] (with_ticks (wit_kernel s) 2) []); cbn; [lia | done | | lia].
    repeat constructor; cbn; lia.
Defined.
