(* ===== verification/ShellText.v ===== *)
(** * Shell: strings, numbers, command lines and paths

    The text processing of [shell/shell.c]: comparing strings, reading
    numbers, splitting a command line into arguments in place, the forms in
    which names are shown, and the path in the prompt.  A C string is a list
    of bytes, read as 0 from its end on. *)

From Stdlib Require Import Ascii String.
From S2P Require Import Prelude Memory Screen Fat32.

(** ** Definitions *)

(** A string literal of the source. *)
Definition lit (s : string) : list Z :=
  (fun a => Z.of_N (N_of_ascii a)) <$> list_ascii_of_string s.

Definition LINE_MAX : Z := 256.
Definition ARGS_MAX : nat := 16.
Definition CWD_PATH_MAX : Z := 128.

(** A literal that ends in a newline. *)
Definition litn (s : string) : list Z := lit s ++ [ch_nl].

Fixpoint str_len (s : list Z) : Z :=
  match s with
  | [] => 0
  | c :: s' => if truth c then 1 + str_len s' else 0
  end.

Fixpoint str_eq (a b : list Z) : bool :=
  match a, b with
  | ca :: a', cb :: b' =>
      if truth ca && truth cb && (ca =? cb) then str_eq a' b' else (ca =? 0) && (cb =? 0)
  | _, _ => (char_at a 0 =? 0) && (char_at b 0 =? 0)
  end.

(** The two loops of [parse_uint]. *)
Fixpoint uint_hex (s : list Z) (v : Z) : Z :=
  match s with
  | [] => v
  | c :: s' =>
      if negb (truth c) then v
      else
        let v := u32 (Z.shiftl v 4) in
        if (48 <=? c) && (c <=? 57) then uint_hex s' (Z.lor v (c - 48))
        else if (97 <=? c) && (c <=? 102) then uint_hex s' (Z.lor v (c - 97 + 10))
        else if (65 <=? c) && (c <=? 70) then uint_hex s' (Z.lor v (c - 65 + 10))
        else v
  end.

Fixpoint uint_dec (s : list Z) (v : Z) : Z :=
  match s with
  | [] => v
  | c :: s' => if (48 <=? c) && (c <=? 57) then uint_dec s' (u32 (v * 10 + (c - 48))) else v
  end.

Definition parse_uint (s : list Z) : Z :=
  if (char_at s 0 =? 48) && ((char_at s 1 =? 120) || (char_at s 1 =? 88))
  then uint_hex (drop 2 s) 0 else uint_dec s 0.

(** *** [parse]

    The line is an array that [parse] cuts with zeros; an argument is the
    position it starts at. *)

(** [while ( *p == ' ') p++] and [while ( *p && *p != ' ') p++], from
    position [p] on, [l] being the rest of the line there. *)
Fixpoint skip_spaces (l : list Z) (p : nat) : nat :=
  match l with
  | [] => p
  | c :: l' => if c =? ch_sp then skip_spaces l' (S p) else p
  end.

Fixpoint skip_word (l : list Z) (p : nat) : nat :=
  match l with
  | [] => p
  | c :: l' => if truth c && negb (c =? ch_sp) then skip_word l' (S p) else p
  end.

Fixpoint parse_loop (fuel : nat) (line : list Z) (p : nat) (argv : list nat) : outcome (list Z * list nat) :=
  match fuel with
  | O => OutOfFuel
  | S fuel' =>
      if negb (truth (char_at line p)) then Ret (line, argv)
      else
        let p := skip_spaces (drop p line) p in
        if negb (truth (char_at line p)) then Ret (line, argv)
        else
          let argv := argv ++ [p] in
          if Nat.eqb (length argv) ARGS_MAX then Ret (line, argv)
          else
            let p := skip_word (drop p line) p in
            if truth (char_at line p) then parse_loop fuel' (<[p := 0]> line) (S p) argv
            else parse_loop fuel' line p argv
  end.

Definition parse (line : list Z) : outcome (list Z * list nat) := parse_loop (S (length line)) line 0 [].

(** [argv[i]] as a string. *)
Definition arg_at (line : list Z) (p : nat) : list Z := c_string (drop p line).

(** *** Names and the path in the prompt *)

Definition short_name_to_str (raw : list Z) : list Z :=
  let out := until_space (take 8 raw) in
  if negb (char_at raw 8 =? ch_space) then out ++ [ch_dot] ++ until_space (take 3 (drop 8 raw)) else out.

(** The loop of [short_to_display]; [dot_seen] is never used. *)
Fixpoint display_loop (src : list Z) (n : nat) : list Z :=
  match src, n with
  | c :: src', S n' =>
      if truth c then (if (97 <=? c) && (c <=? 122) then c - 97 + 65 else c) :: display_loop src' n' else []
  | _, _ => []
  end.

Definition short_to_display (src : list Z) : list Z := display_loop src 12.

Definition path_push (cwd_path name : list Z) : list Z :=
  let up := short_to_display name in
  let len := str_len cwd_path in
  let add := str_len up in
  if CWD_PATH_MAX <=? len + 1 + add + 1 then cwd_path
  else
    let p := take (Z.to_nat len) cwd_path in
    let p := if negb ((len =? 1) && (char_at cwd_path 0 =? ch_slash)) then p ++ [ch_slash] else p in
    p ++ take (Z.to_nat add) up.

(** [while (len > 1 && cwd_path[len - 1] != '/') len--]. *)
Fixpoint cut_back (cwd_path : list Z) (len : nat) : nat :=
  match len with
  | S (S _ as n) => if negb (char_at cwd_path n =? ch_slash) then cut_back cwd_path n else len
  | _ => len
  end.

Definition path_pop (cwd_path : list Z) : list Z :=
  let len := str_len cwd_path in
  if len <=? 1 then [ch_slash]
  else
    let n := cut_back cwd_path (Z.to_nat len) in
    let n := if (1 <? n)%nat then (n - 1)%nat else n in
    let p := take n cwd_path in
    if char_at p 0 =? 0 then [ch_slash] else p.

(** ** C strings *)

(** No byte is 0. *)
Definition plain (s : list Z) : Prop := Forall (fun c => c ≠ 0) s.

Lemma truth_false c : truth c = false <-> c = 0.
Proof. unfold truth. rewrite negb_false_iff. apply Z.eqb_eq. Qed.

Lemma c_string_plain s : plain (c_string s).
Proof.
  induction s as [|c s IH]; [constructor |]. cbn [c_string].
  destruct (Z.eqb_spec c 0); [constructor | by constructor].
Qed.

Lemma c_string_id s : plain s -> c_string s = s.
Proof. induction 1 as [|c s Hc _ IH]; [done |]. cbn [c_string]. by rewrite (proj2 (Z.eqb_neq c 0) Hc), IH. Qed.

Lemma c_string_stop s l : plain s -> c_string (s ++ 0 :: l) = s.
Proof. induction 1 as [|c s Hc _ IH]; [done |]. cbn [c_string app]. by rewrite (proj2 (Z.eqb_neq c 0) Hc), IH. Qed.

Lemma str_len_ok s : str_len s = Z.of_nat (length (c_string s)).
Proof.
  induction s as [|c s IH]; [done |]. cbn [str_len c_string]. unfold truth.
  destruct (c =? 0); cbn [negb length]; lia.
Qed.

Lemma str_eq_ok a b : str_eq a b = true <-> c_string a = c_string b.
Proof.
  revert b. induction a as [|ca a IH]; intros [|cb b]; cbn [str_eq c_string char_at lookup list_lookup default];
    unfold char_at; cbn [lookup list_lookup default from_option id Z.eqb andb]; [done | | |].
  - destruct (cb =? 0); done.
  - rewrite andb_true_r. destruct (ca =? 0); done.
  - unfold truth. destruct (Z.eqb_spec ca 0), (Z.eqb_spec cb 0); cbn [negb andb]; try done.
    destruct (Z.eqb_spec ca cb) as [-> | Hne]; [rewrite IH; split; congruence | split; [done | congruence]].
Qed.

(** ** Pieces of a string

    The reference for the command line and for paths: the non-empty parts
    between separators. *)

Fixpoint split_on (sep : Z) (l : list Z) : list (list Z) :=
  match l with
  | [] => [[]]
  | c :: l' =>
      if c =? sep then [] :: split_on sep l'
      else match split_on sep l' with
           | w :: ws => (c :: w) :: ws
           | [] => [[c]]
           end
  end.

Definition pieces (sep : Z) (l : list Z) : list (list Z) := filter (.≠ []) (split_on sep l).

Lemma split_on_ne sep l : split_on sep l ≠ [].
Proof. destruct l as [|c l]; [done |]. cbn [split_on]. destruct (c =? sep); [done |]. by destruct (split_on sep l). Qed.

Lemma split_on_word sep (w l : list Z) :
  sep ∉ w -> split_on sep (w ++ l) =
    match split_on sep l with v :: vs => (w ++ v) :: vs | [] => [] end.
Proof.
  induction w as [|c w IH]; intros Hw; cbn [app split_on].
  { pose proof (split_on_ne sep l). by destruct (split_on sep l). }
  apply not_elem_of_cons in Hw as [Hc Hw]. rewrite (proj2 (Z.eqb_neq c sep)), IH by congruence.
  pose proof (split_on_ne sep l). by destruct (split_on sep l).
Qed.

Lemma pieces_sep sep l : pieces sep (sep :: l) = pieces sep l.
Proof. unfold pieces. cbn [split_on]. by rewrite Z.eqb_refl. Qed.

Lemma pieces_seps (sep : Z) n l : pieces sep (replicate n sep ++ l) = pieces sep l.
Proof. induction n as [|n IH]; [done |]. cbn [replicate app]. by rewrite pieces_sep. Qed.

Lemma pieces_end (sep : Z) n (w : list Z) : sep ∉ w -> w ≠ [] -> pieces sep (replicate n sep ++ w) = [w].
Proof.
  intros Hw Hne. rewrite pieces_seps. unfold pieces. rewrite <- (app_nil_r w) at 1.
  rewrite split_on_word by done. cbn [split_on]. rewrite app_nil_r, filter_cons. by rewrite decide_True.
Qed.

Lemma pieces_word (sep : Z) n (w l : list Z) :
  sep ∉ w -> w ≠ [] -> pieces sep (replicate n sep ++ w ++ sep :: l) = w :: pieces sep l.
Proof.
  intros Hw Hne. rewrite pieces_seps. unfold pieces. rewrite split_on_word by done. cbn [split_on].
  rewrite Z.eqb_refl, app_nil_r, filter_cons. by rewrite decide_True.
Qed.

Lemma pieces_nil sep n : pieces sep (replicate n sep) = [].
Proof. rewrite <- (app_nil_r (replicate n sep)), pieces_seps. done. Qed.

(** A string starts with separators, then a word, then another separator. *)
Lemma string_cases (sep : Z) (l : list Z) :
  exists n, l = replicate n sep \/
    exists w r, l = replicate n sep ++ w ++ r /\ w ≠ [] /\ sep ∉ w /\ (r = [] \/ exists r', r = sep :: r').
Proof.
  induction l as [|c l (n & IH)]; [by exists O; left |]. destruct (decide (c = sep)) as [-> | Hc].
  { exists (S n). destruct IH as [-> | (w & r & -> & H)]; [by left | right; by exists w, r]. }
  exists O. right. destruct IH as [-> | (w & r & -> & Hne & Hw & Hr)].
  - exists [c], (replicate n sep). split_and!; [done | done | by apply not_elem_of_cons; split; [congruence | apply not_elem_of_nil] |].
    destruct n; [by left | right; eauto].
  - destruct n as [|n].
    + exists (c :: w), r. split_and!; [done | done | | done]. apply not_elem_of_cons. by split; [congruence |].
    + exists [c], (replicate (S n) sep ++ w ++ r). split_and!; [done | done | | right; eauto].
      apply not_elem_of_cons. split; [congruence | apply not_elem_of_nil].
Qed.

Lemma skip_spaces_ok n l p : head l ≠ Some ch_sp -> skip_spaces (replicate n ch_sp ++ l) p = (p + n)%nat.
Proof.
  intros Hl. revert p. induction n as [|n IH]; intros p; cbn [replicate app skip_spaces].
  - rewrite Nat.add_0_r. destruct l as [|c l]; [done |]. cbn [skip_spaces].
    rewrite (proj2 (Z.eqb_neq c ch_sp)); [done |]. intros ->. done.
  - change (ch_sp =? ch_sp) with true. cbv iota. rewrite IH. lia.
Qed.

Lemma skip_word_ok w l p : plain w -> ch_sp ∉ w -> (l = [] \/ exists l', l = ch_sp :: l') ->
  skip_word (w ++ l) p = (p + length w)%nat.
Proof.
  intros Hw Hs Hl. revert p. induction Hw as [|c w Hc _ IH]; intros p; cbn [app skip_word length].
  - rewrite Nat.add_0_r. destruct Hl as [-> | [l' ->]]; done.
  - apply not_elem_of_cons in Hs as [Hcs Hs]. rewrite truth_nz, (proj2 (Z.eqb_neq c ch_sp)) by congruence.
    cbn [negb andb]. rewrite IH by done. lia.
Qed.

Lemma char_at_here pre l : char_at (pre ++ l) (length pre) = char_at l 0.
Proof. unfold char_at. by rewrite lookup_app_r, Nat.sub_diag by lia. Qed.

Lemma char_at_head l : plain l -> truth (char_at l 0) = match l with [] => false | _ => true end.
Proof. intros Hl. destruct Hl as [|c l Hc _]; [done | by apply truth_nz]. Qed.

Lemma plain_app l1 l2 : plain (l1 ++ l2) <-> plain l1 /\ plain l2.
Proof. apply Forall_app. Qed.

(** What the arguments of a line [l] are, when [k] more fit into [argv]. *)
Definition args_of (k : nat) (l : list Z) (args : list (list Z)) : Prop :=
  ((length (pieces ch_sp l) < k)%nat -> args = pieces ch_sp l) /\
  ((k <= length (pieces ch_sp l))%nat ->
     exists before rest, l = before ++ rest /\ head rest ≠ Some ch_sp /\
       args = take (k - 1) (pieces ch_sp l) ++ [rest] /\ pieces ch_sp rest = drop (k - 1) (pieces ch_sp l)).

Lemma args_of_blank k n : (1 <= k)%nat -> args_of k (replicate n ch_sp) [].
Proof. intros Hk. split; rewrite pieces_nil; [done |]. cbn [length]. lia. Qed.

Lemma args_of_last k n w : ch_sp ∉ w -> w ≠ [] -> (2 <= k)%nat -> args_of k (replicate n ch_sp ++ w) [w].
Proof. intros Hw Hne Hk. split; rewrite pieces_end by done; [done |]. cbn [length]. lia. Qed.

(** No room for more: the argument is the whole rest of the line. *)
Lemma args_of_full n w r :
  ch_sp ∉ w -> w ≠ [] -> (r = [] \/ exists r', r = ch_sp :: r') -> args_of 1 (replicate n ch_sp ++ w ++ r) [w ++ r].
Proof.
  intros Hw Hne Hr. split.
  - destruct Hr as [-> | [r' ->]]; [rewrite app_nil_r, pieces_end by done | rewrite pieces_word by done]; cbn; lia.
  - intros _. exists (replicate n ch_sp), (w ++ r). split_and!; [done | | done |].
    + intros E. destruct w; [done |]. injection E as ->. by apply Hw, list_elem_of_here.
    + cbn [Nat.sub drop]. by rewrite pieces_seps.
Qed.

Lemma args_of_word k n w r args :
  ch_sp ∉ w -> w ≠ [] -> (1 <= k)%nat -> args_of k r args ->
  args_of (S k) (replicate n ch_sp ++ w ++ ch_sp :: r) (w :: args).
Proof.
  intros Hw Hne Hk [Hlt Hge]. unfold args_of. rewrite pieces_word by done. cbn [length]. split.
  - intros Hlen. by rewrite Hlt by lia.
  - intros Hlen. destruct Hge as (before & rest & -> & Hh & -> & Hp); [lia |].
    exists (replicate n ch_sp ++ w ++ ch_sp :: before), rest. rewrite <- !app_assoc. cbn [app].
    replace (S k - 1)%nat with (S (k - 1)) by lia. by split_and!.
Qed.

Lemma parse_loop_blank fuel pre n argv :
  parse_loop (S fuel) (pre ++ replicate n ch_sp) (length pre) argv = Ret (pre ++ replicate n ch_sp, argv).
Proof.
  cbn [parse_loop]. rewrite drop_app_length.
  assert (skip_spaces (replicate n ch_sp) (length pre) = length (pre ++ replicate n ch_sp)) as ->.
  { rewrite <- (app_nil_r (replicate n ch_sp)) at 1. by rewrite skip_spaces_ok, length_app, length_replicate. }
  assert (char_at (pre ++ replicate n ch_sp) (length (pre ++ replicate n ch_sp)) = 0) as ->.
  { rewrite <- (app_nil_r (pre ++ replicate n ch_sp)) at 1. by rewrite char_at_here. }
  by destruct (negb (truth (char_at _ _))).
Qed.

(** One round of the loop, up to the end of a word. *)
Lemma parse_loop_word fuel pre n w r argv :
  plain (w ++ r) -> w ≠ [] -> ch_sp ∉ w -> (r = [] \/ exists r', r = ch_sp :: r') ->
  let pre1 := pre ++ replicate n ch_sp in
  parse_loop (S fuel) (pre ++ replicate n ch_sp ++ w ++ r) (length pre) argv =
    if Nat.eqb (length argv + 1) ARGS_MAX then Ret (pre1 ++ w ++ r, argv ++ [length pre1])
    else match r with
         | [] => parse_loop fuel ((pre1 ++ w) ++ []) (length (pre1 ++ w)) (argv ++ [length pre1])
         | _ :: r' => parse_loop fuel ((pre1 ++ w ++ [0]) ++ r') (length (pre1 ++ w ++ [0])) (argv ++ [length pre1])
         end.
Proof.
  intros Hl Hne Hw Hr pre1. pose proof Hl as [Hpw Hpr]%plain_app. cbn [parse_loop].
  assert (truth (char_at (pre ++ replicate n ch_sp ++ w ++ r) (length pre)) = true) as ->.
  { rewrite char_at_here. destruct n; [| done]. cbn [replicate app]. rewrite char_at_head by done. by destruct w. }
  cbn [negb]. rewrite drop_app_length.
  rewrite skip_spaces_ok by (intros E; destruct w; [done |]; injection E as ->; by apply Hw, list_elem_of_here).
  assert (length pre + n = length pre1)%nat as -> by (unfold pre1; by rewrite length_app, length_replicate).
  assert (pre ++ replicate n ch_sp ++ w ++ r = pre1 ++ w ++ r) as -> by (unfold pre1; by rewrite <- app_assoc).
  assert (truth (char_at (pre1 ++ w ++ r) (length pre1)) = true) as ->.
  { rewrite char_at_here, char_at_head by done. by destruct w. }
  cbn [negb]. rewrite length_app. cbn [length].
  destruct (Nat.eqb _ _); [done |]. rewrite drop_app_length, skip_word_ok by done. rewrite <- length_app.
  assert (pre1 ++ w ++ r = (pre1 ++ w) ++ r) as -> by by rewrite app_assoc. rewrite char_at_here.
  destruct Hr as [-> | [r' ->]]; [done |]. change (truth (char_at (ch_sp :: r') 0)) with true. cbv iota.
  rewrite insert_app_r_alt, Nat.sub_diag by lia. cbn [insert list_insert].
  assert ((pre1 ++ w) ++ 0 :: r' = (pre1 ++ w ++ [0]) ++ r') as -> by by rewrite <- !app_assoc.
  by assert (S (length (pre1 ++ w)) = length (pre1 ++ w ++ [0])) as -> by (rewrite !length_app; cbn; lia).
Qed.

Lemma arg_at_here pre l : arg_at (pre ++ l) (length pre) = c_string l.
Proof. unfold arg_at. by rewrite drop_app_length. Qed.

Lemma parse_loop_ok fuel pre l argv :
  plain l -> (length l < fuel)%nat -> (length argv < ARGS_MAX)%nat ->
  exists l' argv', parse_loop fuel (pre ++ l) (length pre) argv = Ret (pre ++ l', argv ++ argv') /\
    length l' = length l /\ args_of (ARGS_MAX - length argv) l (arg_at (pre ++ l') <$> argv').
Proof.
  revert pre l argv. induction fuel as [|fuel IH]; intros pre l argv Hl Hf Ha; [lia |].
  destruct (string_cases ch_sp l) as (n & [-> | (w & r & -> & Hne & Hw & Hr)]).
  { rewrite parse_loop_blank. exists (replicate n ch_sp), []. rewrite app_nil_r.
    split; [done |]. split; [done |]. apply args_of_blank. lia. }
  apply plain_app in Hl as [_ Hl]. pose proof Hl as [Hpw Hpr]%plain_app.
  rewrite parse_loop_word by done. cbv zeta. set (pre1 := pre ++ replicate n ch_sp).
  assert (forall x, pre ++ replicate n ch_sp ++ x = pre1 ++ x) as Epre by (intros x; unfold pre1; by rewrite <- app_assoc).
  rewrite !length_app, length_replicate in Hf. destruct (Nat.eqb_spec (length argv + 1) ARGS_MAX) as [Efull | Hnf].
  { exists (replicate n ch_sp ++ w ++ r), [length pre1]. rewrite Epre. split; [done |]. split; [done |].
    cbn [fmap list_fmap]. rewrite arg_at_here, c_string_id by done.
    replace (ARGS_MAX - length argv)%nat with 1%nat by lia. by apply args_of_full. }
  assert (0 < length w)%nat by (destruct w; [done | cbn; lia]). destruct Hr as [-> | [r' ->]].
  - destruct fuel as [|fuel]; [lia |]. rewrite (parse_loop_blank fuel (pre1 ++ w) 0).
    exists (replicate n ch_sp ++ w), [length pre1]. cbn [replicate]. rewrite Epre, !app_nil_r.
    split; [done |]. split; [done |]. cbn [fmap list_fmap]. rewrite arg_at_here, c_string_id by done.
    apply args_of_last; [done | done | lia].
  - destruct (IH (pre1 ++ w ++ [0]) r' (argv ++ [length pre1])) as (l' & argv' & -> & Hl' & Hargs).
    { by apply Forall_cons in Hpr as [_ ?]. }
    { cbn [length] in Hf. lia. }
    { rewrite length_app. cbn [length]. lia. }
    exists (replicate n ch_sp ++ w ++ 0 :: l'), (length pre1 :: argv').
    rewrite Epre, <- !app_assoc in *. cbn [app] in *.
    split_and!; [done | by rewrite !length_app; cbn [length]; rewrite Hl' |].
    rewrite fmap_cons, arg_at_here, c_string_stop by done. rewrite length_app in Hargs. cbn [length] in Hargs.
    replace (ARGS_MAX - length argv)%nat with (S (ARGS_MAX - (length argv + 1))) by lia.
    apply args_of_word; [done | done | lia | exact Hargs].
Qed.

(** ** Numbers *)

Lemma foldl_u32 b f (l : list Z) v :
  u32 (foldl (fun v c => b * v + f c) (u32 v) l) = u32 (foldl (fun v c => b * v + f c) v l).
Proof.
  assert (forall v w, u32 v = u32 w -> u32 (foldl (fun v c => b * v + f c) v l) =
    u32 (foldl (fun v c => b * v + f c) w l)) as Hgen.
  { induction l as [|c l IH]; intros v' w E; cbn [foldl]; [done |]. apply IH. unfold u32 in *.
    rewrite Zplus_mod, Zmult_mod, E, <- Zmult_mod, <- Zplus_mod. done. }
  apply Hgen. unfold u32. apply Z.mod_mod. lia.
Qed.

(** Not the continuation of a numeral. *)
Definition ends_dec (l : list Z) : Prop := match l with [] => True | c :: _ => ~ is_digit c end.
Definition is_xdigit (c : Z) : Prop := is_hex c \/ 97 <= c < 103.

Lemma uint_dec_ok ds rest v :
  Forall is_digit ds -> ends_dec rest -> is_u32 v ->
  uint_dec (ds ++ rest) v = u32 (foldl (fun v c => 10 * v + (c - ch_0)) v ds).
Proof.
  intros Hds Hr. revert v. induction Hds as [|c ds Hc _ IH]; intros v Hv; cbn [app uint_dec foldl].
  - rewrite (u32_small v) by done. destruct rest as [|c rest]; [done |]. cbn [ends_dec uint_dec] in *.
    unfold is_digit, ch_0 in Hr. destruct (Z.leb_spec 48 c), (Z.leb_spec c 57); cbn [andb]; try done. lia.
  - unfold is_digit, ch_0 in Hc. rewrite (proj2 (Z.leb_le 48 c)), (proj2 (Z.leb_le c 57)) by lia. cbn [andb].
    rewrite IH by apply u32_range. unfold ch_0.
    rewrite (foldl_u32 10 (fun c => c - 48) ds (v * 10 + (c - 48))). by rewrite (Z.mul_comm v 10).
Qed.

Lemma uint_hex_ok ds rest v :
  hex_ok ds -> is_u32 v ->
  uint_hex (ds ++ rest) v = uint_hex rest (u32 (foldl (fun v c => 16 * v + hex_val c) v ds)).
Proof.
  intros Hds. revert v. induction Hds as [|c ds Hc _ IH]; intros v Hv; cbn [app foldl].
  - by rewrite (u32_small v) by done.
  - cbn [uint_hex]. unfold is_hex in Hc. rewrite truth_nz by lia. cbn [negb]. cbv zeta.
    assert (forall d, 0 <= d < 16 -> Z.lor (u32 (Z.shiftl v 4)) d = u32 (16 * v + d)) as Hd.
    { intros d Hd. rewrite Z.shiftl_mul_pow2 by lia. change (2 ^ 4) with 16.
      unfold is_u32 in Hv. rewrite (lor_disjoint _ _ 4); [unfold u32; zdm | lia | unfold u32; zdm | lia]. }
    assert (uint_hex (ds ++ rest) (u32 (16 * v + hex_val c)) =
      uint_hex rest (u32 (foldl (fun v c => 16 * v + hex_val c) (16 * v + hex_val c) ds))) as E.
    { rewrite IH by apply u32_range. by rewrite (foldl_u32 16 hex_val). }
    unfold hex_val in E at 1. rewrite <- E.
    destruct (Z.leb_spec 48 c), (Z.leb_spec c 57), (Z.leb_spec 97 c), (Z.leb_spec c 102), (Z.leb_spec 65 c),
      (Z.leb_spec c 70), (Z.ltb_spec c 58); cbn [andb]; try lia; rewrite Hd by lia; do 2 f_equal; lia.
Qed.

Lemma uint_hex_bad c rest v : c ≠ 0 -> ~ is_xdigit c -> uint_hex (c :: rest) v = u32 (16 * v).
Proof.
  intros Hc Hx. cbn [uint_hex]. rewrite truth_nz by done. cbn [negb]. unfold is_xdigit, is_hex in Hx.
  rewrite Z.shiftl_mul_pow2 by lia. change (2 ^ 4) with 16. rewrite (Z.mul_comm v 16).
  destruct (Z.leb_spec 48 c), (Z.leb_spec c 57), (Z.leb_spec 97 c), (Z.leb_spec c 102), (Z.leb_spec 65 c),
    (Z.leb_spec c 70); cbn [andb]; done || lia.
Qed.

(** ** Paths *)

(** The path of a directory below the root, from the names on the way. *)
Definition joined (cs : list (list Z)) : list Z := cs ≫= (fun c => ch_slash :: c).
Definition render (cs : list (list Z)) : list Z := match cs with [] => [ch_slash] | _ => joined cs end.

Definition good_name (c : list Z) : Prop := c ≠ [] /\ plain c /\ ch_slash ∉ c.

Lemma joined_snoc cs c : joined (cs ++ [c]) = joined cs ++ ch_slash :: c.
Proof. unfold joined. rewrite bind_app. cbn [mbind list_bind]. by rewrite app_nil_r. Qed.

Lemma render_snoc cs c : render (cs ++ [c]) = joined cs ++ ch_slash :: c.
Proof. unfold render. rewrite joined_snoc. destruct cs; [done |]. cbn [app]. done. Qed.

Lemma render_joined cs : render cs = joined cs \/ (cs = [] /\ render cs = [ch_slash]).
Proof. destruct cs; [by right | by left]. Qed.

Lemma joined_plain cs : Forall good_name cs -> plain (joined cs).
Proof.
  induction 1 as [|c cs (_ & Hc & _) _ IH]; [constructor |]. change (joined (c :: cs)) with (ch_slash :: c ++ joined cs).
  constructor; [done |]. by apply plain_app.
Qed.

Lemma render_plain cs : Forall good_name cs -> plain (render cs).
Proof. intros H. destruct cs; [by repeat constructor |]. by apply joined_plain. Qed.

(** A name as [short_to_display] shows it. *)
Definition display_char (c : Z) : Z := if (97 <=? c) && (c <=? 122) then c - 97 + 65 else c.

Lemma display_loop_ok src n : display_loop src n = display_char <$> take n (c_string src).
Proof.
  revert n. induction src as [|c src IH]; intros [|n]; cbn [display_loop c_string take fmap list_fmap];
    [done | done | by destruct (c =? 0) |].
  destruct (Z.eqb_spec c 0) as [-> | Hc]; [done |]. rewrite truth_nz by done. cbn [take fmap list_fmap].
  by rewrite IH.
Qed.

Lemma display_char_ok c : c ≠ 0 -> c ≠ ch_slash -> display_char c ≠ 0 /\ display_char c ≠ ch_slash.
Proof.
  unfold display_char, ch_slash. intros H0 Hs.
  destruct (Z.leb_spec 97 c), (Z.leb_spec c 122); cbn [andb]; lia.
Qed.

Lemma display_good name : good_name name -> good_name (short_to_display name).
Proof.
  intros (Hne & Hp & Hs). unfold short_to_display. rewrite display_loop_ok, c_string_id by done.
  assert (Forall (fun c => c ≠ 0 /\ c ≠ ch_slash) (take 12 name)) as Ht.
  { apply Forall_take, Forall_forall. intros c Hc. split; [by eapply Forall_forall in Hp |]. by intros ->. }
  split_and!.
  - by destruct name.
  - apply Forall_fmap. eapply Forall_impl; [exact Ht |]. intros c []. by apply display_char_ok.
  - intros (c & Hc & Hin)%list_elem_of_fmap. apply (proj1 (Forall_forall _ _) Ht) in Hin as [H0 H1].
    symmetry in Hc. by apply display_char_ok in Hc.
Qed.

Lemma path_push_ok cs name :
  Forall good_name cs -> good_name name ->
  path_push (render cs) name =
    if CWD_PATH_MAX <=? Z.of_nat (length (render cs) + length (short_to_display name)) + 2 then render cs
    else render (cs ++ [short_to_display name]).
Proof.
  intros Hcs Hn. pose proof (render_plain _ Hcs) as Hp. destruct (display_good _ Hn) as (Hune & Hup & Hus).
  set (up := short_to_display name) in *. unfold path_push. fold up. cbv zeta.
  rewrite !str_len_ok, !c_string_id, !Nat2Z.id, !firstn_all by done.
  replace (Z.of_nat (length (render cs)) + 1 + Z.of_nat (length up) + 1)
    with (Z.of_nat (length (render cs) + length up) + 2) by lia.
  destruct (CWD_PATH_MAX <=? _); [done |]. rewrite render_snoc.
  destruct cs as [|c cs]; [done |]. change (render (c :: cs)) with (joined (c :: cs)).
  apply Forall_cons in Hcs as [(Hc & _) _].
  assert (Z.of_nat (length (joined (c :: cs))) =? 1 = false) as ->.
  { apply Z.eqb_neq. change (joined (c :: cs)) with (ch_slash :: c ++ joined cs). destruct c; [done |]. cbn. lia. }
  cbn [andb negb]. by rewrite <- app_assoc.
Qed.

Lemma cut_back_ok p c k :
  ch_slash ∉ c -> (k <= length c)%nat -> cut_back (p ++ ch_slash :: c) (length p + 1 + k) = (length p + 1)%nat.
Proof.
  intros Hc. induction k as [|k IH]; intros Hk.
  - rewrite Nat.add_0_r. replace (length p + 1)%nat with (S (length p)) by lia.
    assert (char_at (p ++ ch_slash :: c) (length p) = ch_slash) as E by by rewrite char_at_here.
    cbn [cut_back]. rewrite E. by destruct (length p).
  - replace (length p + 1 + S k)%nat with (S (S (length p + k))) by lia. cbn [cut_back].
    assert (char_at (p ++ ch_slash :: c) (S (length p + k)) =? ch_slash = false) as ->.
    { apply Z.eqb_neq. unfold char_at. rewrite lookup_app_r by lia.
      replace (S (length p + k) - length p)%nat with (S k) by lia.
      change ((ch_slash :: c) !! S k) with (c !! k).
      destruct (lookup_lt_is_Some_2 c k) as [x Hx]; [lia |]. rewrite Hx. cbn. intros ->.
      by apply Hc, (list_elem_of_lookup_2 _ k). }
    cbn [negb]. rewrite <- IH by lia. by replace (length p + 1 + k)%nat with (S (length p + k)) by lia.
Qed.

Lemma path_pop_ok cs c : Forall good_name (cs ++ [c]) -> path_pop (render (cs ++ [c])) = render cs.
Proof.
  intros Hg. pose proof (render_plain _ Hg) as Hp. apply Forall_app in Hg as [Hcs [(Hne & Hc & Hs) _]%Forall_cons].
  rewrite render_snoc in *. unfold path_pop. rewrite str_len_ok, c_string_id by done. rewrite Nat2Z.id.
  assert (0 < length c)%nat by (destruct c; [done | cbn; lia]).
  assert (length (joined cs ++ ch_slash :: c) = length (joined cs) + 1 + length c)%nat as El
    by (rewrite length_app; cbn; lia).
  rewrite (proj2 (Z.leb_gt _ _)) by lia. cbv zeta. rewrite El, cut_back_ok by done.
  destruct cs as [|d cs].
  - cbn. done.
  - change (render (d :: cs)) with (joined (d :: cs)).
    assert (exists q, joined (d :: cs) = ch_slash :: q) as [q Eq] by (by eexists (d ++ joined cs)).
    rewrite (proj2 (Nat.ltb_lt 1 _)) by (rewrite Eq; cbn; lia).
    rewrite Nat.add_sub, take_app_length, Eq. done.
Qed.

Lemma path_pop_root : path_pop (render []) = render [].
Proof. done. Qed.

(** ** Properties *)

(** [parse] cuts a line into its words: while there are fewer than
    [ARGS_MAX] of them the arguments are exactly the non-empty parts between
    spaces, in order; from 16 on the last argument is all of the rest of the
    line.  It always returns, and writes only inside the line. *)
Theorem parse_spec (line : list Z) :
  plain line ->
  exists line' argv, parse line = Ret (line', argv) /\ length line' = length line /\
    ((length (pieces ch_sp line) < ARGS_MAX)%nat -> arg_at line' <$> argv = pieces ch_sp line) /\
    ((ARGS_MAX <= length (pieces ch_sp line))%nat ->
       exists before rest, line = before ++ rest /\ head rest ≠ Some ch_sp /\
         arg_at line' <$> argv = take (ARGS_MAX - 1) (pieces ch_sp line) ++ [rest] /\
         pieces ch_sp rest = drop (ARGS_MAX - 1) (pieces ch_sp line)).
Proof.
  intros Hl. destruct (parse_loop_ok (S (length line)) [] line [] Hl) as (line' & argv & E & Hlen & Hlt & Hge);
    [lia | cbn; unfold ARGS_MAX; lia |].
  exists line', argv. split; [exact E |]. split; [exact Hlen |]. by split.
Qed.

(** [parse_uint] reads back what [kprint_dec] and [kprint_hex] print, the
    latter with its 0x; a decimal numeral of any length is read modulo 2^32
    up to the first character that is not a digit, and a hexadecimal one
    followed by any other character is read as sixteen times its value. *)
Theorem parse_uint_spec `{Uart} (s : screen) (n : Z) :
  is_u32 n ->
  (exists ds, kprint_dec s n = kprint s ds /\ parse_uint ds = n) /\
  (exists ds, kprint_hex s n = (do! s := kprint s (lit "0x") in kprint s ds) /\
     parse_uint (lit "0x" ++ ds) = n /\
     forall c rest, c ≠ 0 -> ~ is_xdigit c -> parse_uint (lit "0x" ++ ds ++ c :: rest) = u32 (16 * n)) /\
  (forall ds rest, Forall is_digit ds -> ends_dec rest -> (2 <= length ds)%nat ->
     parse_uint (ds ++ rest) = u32 (dec_value ds)).
Proof.
  intros Hn. destruct (print_numbers s n Hn) as [(ds & E & Hds & Hv & d & r & Ed & Hz) (hs & Eh & Hhs & Hvh & _)].
  assert (forall ds rest, Forall is_digit ds -> ends_dec rest ->
    (ds ++ rest) !! 1%nat ≠ Some 120 -> (ds ++ rest) !! 1%nat ≠ Some 88 ->
    parse_uint (ds ++ rest) = u32 (dec_value ds)) as Hdec.
  { intros l rest Hl Hr H1 H2. unfold parse_uint.
    assert ((char_at (l ++ rest) 1 =? 120) || (char_at (l ++ rest) 1 =? 88) = false) as ->.
    { unfold char_at. destruct ((l ++ rest) !! 1%nat) as [c |]; [| done]. cbn [default from_option id].
      apply orb_false_iff. rewrite !Z.eqb_neq. split; congruence. }
    rewrite andb_false_r. by apply uint_dec_ok. }
  assert (forall l rest c, Forall is_digit l -> (2 <= length l)%nat -> (l ++ rest) !! 1%nat = Some c -> is_digit c) as H2nd.
  { intros l rest c Hl Hlen Hc. rewrite lookup_app_l in Hc by lia. by eapply Forall_lookup_1 in Hl. }
  split_and!.
  - exists ds. split; [done |]. rewrite <- (app_nil_r ds), Hdec, Hv; [by apply u32_small | done | done | |];
      rewrite app_nil_r; intros Hc; eapply Forall_lookup_1 in Hds; try exact Hc; unfold is_digit, ch_0 in Hds; lia.
  - exists hs. split; [exact Eh |]. assert (forall rest, parse_uint (lit "0x" ++ hs ++ rest) = uint_hex rest n) as Hx.
    { intros rest. change (parse_uint (lit "0x" ++ hs ++ rest)) with (uint_hex (hs ++ rest) 0).
      rewrite uint_hex_ok by (done || (unfold is_u32; lia)). fold (hex_value hs). by rewrite Hvh, u32_small. }
    split; [by rewrite <- (app_nil_r hs), Hx |]. intros c rest Hc Hnx. by rewrite Hx, uint_hex_bad.
  - intros l rest Hl Hr Hlen. apply Hdec; try done; intros Hc; apply H2nd in Hc; try done;
      unfold is_digit, ch_0 in Hc; lia.
Qed.

Lemma parse_spec_witness :
  exists line' argv, parse (lit " write  a.txt hi") = Ret (line', argv) /\
    arg_at line' <$> argv = [lit "write"; lit "a.txt"; lit "hi"].
Proof.
  destruct (parse_spec (lit " write  a.txt hi")) as (line' & argv & E & _ & Hw & _).
  - repeat constructor; discriminate.
  - exists line', argv. split; [exact E |]. apply Hw. vm_compute. lia.
Defined.

Lemma parse_uint_spec_witness :
  parse_uint (lit "0xFF") = 255 /\ parse_uint (lit "0xFFz") = 0xFF0 /\ parse_uint (lit "4294967297 pages") = 1.
Proof.
  destruct (parse_uint_spec wit_screen 255) as (_ & (ds & E & _ & Hbad) & Hdec).
  - unfold is_u32. lia.
  - split; [reflexivity |]. split; [reflexivity |].
    apply (Hdec (lit "4294967297") (lit " pages")).
    + repeat constructor; vm_compute; discriminate.
    + vm_compute. intros [H _]. by apply H.
    + vm_compute. lia.
Defined.
