(* ===== verification/ShellLine.v ===== *)
(** * Shell: the line editor

    [readline] of [shell/shell.c] between the keyboard queue and the screen.
    It is shown to be a line editor with backspace, as long as the line being
    typed does not scroll the screen. *)

From S2P Require Import Prelude Memory Screen Keyboard ShellText.

(** ** The loop

    [pcol] and [prow] are where the prompt ended, [line] the first [len]
    characters of the buffer; one round takes one character, so there are no
    more rounds than characters waiting or still to be typed. *)

Section Editor.
  Context `{Uart}.

Fixpoint readline_loop (fuel : nat) (max pcol prow : Z) (irqs : list interrupt) (k : keyboard) (v : screen)
    (line : list Z) : outcome (list Z * list interrupt * keyboard * screen) :=
  match fuel with
  | O => OutOfFuel
  | S fuel' =>
      do! (c, irqs, k) := keyboard_getchar irqs k in
      if c =? ch_nl then
        do! v := kputchar v ch_nl in Ret (line, irqs, k, v)
      else if c =? ch_bs then
        if 0 <? Z.of_nat (length line) then
          let '(cc, cr) := kget_cursor v in
          if (prow <? cr) || ((cr =? prow) && (pcol <? cc)) then
            do! v := kputchar v ch_bs in
            readline_loop fuel' max pcol prow irqs k v (take (length line - 1) line)
          else readline_loop fuel' max pcol prow irqs k v line
        else readline_loop fuel' max pcol prow irqs k v line
      else if Z.of_nat (length line) <? max - 1 then
        do! v := kputchar v c in
        readline_loop fuel' max pcol prow irqs k v (line ++ [c])
      else readline_loop fuel' max pcol prow irqs k v line
  end.

Definition readline (irqs : list interrupt) (k : keyboard) (v : screen) (max : Z)
    : outcome (list Z * list interrupt * keyboard * screen) :=
  let '(pcol, prow) := kget_cursor v in
  readline_loop (256 + length irqs) max pcol prow irqs k v [].

(** ** The specification: editing a list *)

Definition edit (max : Z) (line : list Z) (c : Z) : list Z :=
  if c =? ch_bs then take (length line - 1) line
  else if Z.of_nat (length line) <? max - 1 then line ++ [c] else line.

(** The echo of a character typed after [line]. *)
Definition echo (max : Z) (line : list Z) (t : term) (c : Z) : term :=
  let attr := vga_color VGA_LIGHT_GREY VGA_BLACK in
  if c =? ch_bs then (if 0 <? Z.of_nat (length line) then term_char attr t c else t)
  else if Z.of_nat (length line) <? max - 1 then term_char attr t c else t.

Fixpoint edit_all (max : Z) (line : list Z) (t : term) (cs : list Z) : list Z * term :=
  match cs with
  | [] => (line, t)
  | c :: cs' => edit_all max (edit max line c) (echo max line t c) cs'
  end.

(** The next [n] characters from the keyboard. *)
Fixpoint spec_chars (n : nat) (irqs : list interrupt) (s : kspec) : option (list Z * list interrupt * kspec) :=
  match n with
  | O => Some ([], irqs, s)
  | S n' =>
      match spec_getchar irqs s with
      | Some (c, irqs, s) =>
          match spec_chars n' irqs s with Some (cs, irqs, s) => Some (c :: cs, irqs, s) | None => None end
      | None => None
      end
  end.

(** ** Cursor arithmetic *)

Definition lin (t : term) : Z := trow t * COLS + tcol t.

(** The columns a character takes at most. *)
Definition width (c : Z) : Z := if c =? ch_tab then 8 else 1.
Definition widths (cs : list Z) : Z := foldr (fun c n => width c + n) 0 cs.

Definition in_line (c : Z) : Prop := c ≠ ch_nl /\ c ≠ ch_cr.

Lemma width_pos c : 1 <= width c <= 8.
Proof. unfold width. destruct (c =? ch_tab); lia. Qed.

Lemma widths_pos cs : 0 <= widths cs.
Proof. induction cs as [|c cs IH]; cbn; [lia |]. pose proof (width_pos c). unfold widths in IH. lia. Qed.

Lemma term_char_lin attr t c :
  on_screen (trow t) (tcol t) -> in_line c -> c ≠ ch_bs -> lin t + width c < ROWS * COLS ->
  lin t + 1 <= lin (term_char attr t c) <= lin t + width c.
Proof.
  unfold on_screen, lin, term_char, width, goto_col, next_row, put_here, ROWS, COLS. intros [Hr Hc] [Hnl Hcr] Hbs Hw.
  rewrite (proj2 (Z.eqb_neq c ch_nl) Hnl), (proj2 (Z.eqb_neq c ch_cr) Hcr), (proj2 (Z.eqb_neq c ch_bs) Hbs).
  destruct (c =? ch_tab); repeat case_decide; cbn [trow tcol] in *; try lia; zdm.
Qed.

Lemma term_bs_lin attr t :
  on_screen (trow t) (tcol t) -> 0 < lin t -> lin (term_char attr t ch_bs) = lin t - 1.
Proof.
  unfold on_screen, lin, term_char, back, put_here, ROWS, COLS. intros [Hr Hc] Hp.
  cbn [Z.eqb ch_bs ch_nl ch_cr ch_tab Pos.eqb]. repeat case_decide; cbn [trow tcol]; lia.
Qed.

(** Behind the prompt, row by row. *)
Lemma cursor_behind r c pr pc :
  0 <= c < COLS -> 0 <= pc < COLS -> (pr <? r) || ((r =? pr) && (pc <? c)) = (pr * COLS + pc <? r * COLS + c).
Proof.
  unfold COLS. intros. apply eq_true_iff_eq. rewrite orb_true_iff, andb_true_iff, !Z.ltb_lt, Z.eqb_eq. lia.
Qed.

(** ** The loop implements the editor *)

Lemma echo_lin max line t c :
  on_screen (trow t) (tcol t) -> in_line c -> lin t + width c < ROWS * COLS ->
  Z.of_nat (length line) <= lin t ->
  lin t + Z.of_nat (length (edit max line c)) - Z.of_nat (length line) <= lin (echo max line t c) <= lin t + width c.
Proof.
  intros Hs Hc Hw Hl. pose proof (width_pos c) as Hwp. unfold edit, echo. destruct (Z.eqb_spec c ch_bs) as [-> | Hbs].
  - rewrite length_take. destruct (Z.ltb_spec 0 (Z.of_nat (length line))); [rewrite term_bs_lin by (done || lia) |]; lia.
  - destruct (_ <? max - 1); [| lia]. rewrite length_app. cbn [length].
    pose proof (term_char_lin (vga_color VGA_LIGHT_GREY VGA_BLACK) t c Hs Hc Hbs Hw). lia.
Qed.

Lemma loop_step fuel max pt irqs k v line t c irqs' s s' :
  repr k s -> Forall irq_ok irqs -> shows v t -> on_screen (trow pt) (tcol pt) ->
  spec_getchar irqs s = Some (c, irqs', s') -> c ≠ ch_nl -> in_line c ->
  lin pt + Z.of_nat (length line) <= lin t ->
  exists k' v', readline_loop (S fuel) max (tcol pt) (trow pt) irqs k v line =
      readline_loop fuel max (tcol pt) (trow pt) irqs' k' v' (edit max line c) /\
    repr k' s' /\ shows v' (echo max line t c).
Proof.
  intros Hr Hi Hv Hpt Hc Hnl Hin Hlin. pose proof (getchar_sim irqs k s Hr Hi) as Hg. rewrite Hc in Hg.
  destruct Hg as (k' & E & Hr'). cbn [readline_loop]. rewrite E. cbn [obind].
  rewrite (proj2 (Z.eqb_neq c ch_nl) Hnl). unfold edit, echo, kputchar.
  destruct (kputchar_color_ok v t c VGA_LIGHT_GREY VGA_BLACK Hv) as (v' & Ev & Hv' & _).
  destruct (Z.eqb_spec c ch_bs) as [-> | Hbs].
  - destruct (Z.ltb_spec 0 (Z.of_nat (length line))) as [Hpos | Hz].
    + unfold kget_cursor. rewrite (sh_col _ _ Hv), (sh_row _ _ Hv).
      destruct (sh_cursor _ _ Hv) as [_ Hcol]. destruct Hpt as [_ Hpc].
      rewrite cursor_behind, (proj2 (Z.ltb_lt _ _)) by (done || (unfold lin in Hlin; lia)).
      rewrite Ev. by exists k', v'.
    + exists k', v. assert (line = []) as -> by (destruct line; [done | cbn in Hz; lia]). done.
  - destruct (_ <? max - 1); [rewrite Ev; by exists k', v' | by exists k', v].
Qed.

Lemma getchar_rest irqs s c irqs' s' :
  spec_getchar irqs s = Some (c, irqs', s') -> Forall irq_ok irqs -> Forall irq_ok irqs'.
Proof.
  intros E Hi. revert s E. induction Hi as [|i irqs Hi His IH]; intros s; cbn [spec_getchar];
    (destruct (queue s) as [|x q]; [| intros [= <- <- <-]; by try constructor]); [done |]. apply IH.
Qed.

Lemma spec_chars_S n irqs s :
  spec_chars (S n) irqs s =
    match spec_getchar irqs s with
    | Some (c, irqs, s) =>
        match spec_chars n irqs s with Some (cs, irqs, s) => Some (c :: cs, irqs, s) | None => None end
    | None => None
    end.
Proof. done. Qed.

Lemma loop_ok cs fuel max pt irqs k v line t irqs' s s' :
  repr k s -> Forall irq_ok irqs -> shows v t -> on_screen (trow pt) (tcol pt) ->
  spec_chars (S (length cs)) irqs s = Some (cs ++ [ch_nl], irqs', s') -> Forall in_line cs ->
  lin pt + Z.of_nat (length line) <= lin t -> lin t + widths cs < ROWS * COLS -> (length cs < fuel)%nat ->
  let '(line', t') := edit_all max line t cs in
  exists k' v', readline_loop fuel max (tcol pt) (trow pt) irqs k v line = Ret (line', irqs', k', v') /\
    repr k' s' /\ shows v' (term_char (vga_color VGA_LIGHT_GREY VGA_BLACK) t' ch_nl).
Proof.
  intros Hr Hi Hv Hpt. revert fuel irqs k v line t s Hr Hi Hv.
  induction cs as [|c cs IH]; intros fuel irqs k v line t s Hr Hi Hv Hcs Hin Hlin Hw Hf;
    (destruct fuel as [|fuel]; [cbn in Hf; lia |]); cbn [length app] in Hcs;
    rewrite spec_chars_S in Hcs;
    (destruct (spec_getchar irqs s) as [[[c' irqs1] s1] |] eqn:Eg; [| done]).
  - injection Hcs as -> <- <-. cbn [edit_all readline_loop].
    pose proof (getchar_sim irqs k s Hr Hi) as Hg. rewrite Eg in Hg. destruct Hg as (k' & -> & Hr').
    cbn [obind]. change (ch_nl =? ch_nl) with true. cbv iota.
    destruct (kputchar_color_ok v t ch_nl VGA_LIGHT_GREY VGA_BLACK Hv) as (v' & Ev & Hv' & _).
    unfold kputchar. rewrite Ev. by exists k', v'.
  - destruct (spec_chars (S (length cs)) irqs1 s1) as [[[cs1 irqs2] s2] |] eqn:Ec; [| done].
    injection Hcs as -> -> <- <-. apply Forall_cons in Hin as [Hc Hin]. cbn [widths foldr] in Hw.
    fold (widths cs) in Hw. cbn [length] in Hf.
    destruct (loop_step fuel max pt irqs k v line t c irqs1 s s1) as (k1 & v1 & -> & Hr1 & Hv1); try done;
      [by destruct Hc |].
    pose proof (sh_cursor _ _ Hv) as Hs. pose proof (width_pos c).
    pose proof (widths_pos cs).
    assert (0 <= lin pt) by (unfold on_screen, lin, COLS in *; lia).
    destruct (echo_lin max line t c Hs Hc) as [Hlo Hhi]; [lia | lia |].
    cbn [edit_all]. apply (IH fuel irqs1 k1 v1 _ _ s1); try done; [by eapply getchar_rest | lia | lia | lia].
Qed.

End Editor.

(** Every character was waiting, or comes with an interrupt. *)
Lemma getchar_measure irqs s c irqs' s' :
  spec_getchar irqs s = Some (c, irqs', s') ->
  (length (queue s') + length irqs' < length (queue s) + length irqs)%nat.
Proof.
  assert (forall s i, (length (queue (spec_handle s i)) <= S (length (queue s)))%nat) as Hh.
  { intros s0 [sc |]; cbn [spec_handle spec_key queue]; [| lia].
    destruct (decode _ _ _); [| lia]. case_decide; [| lia]. rewrite length_app. cbn. lia. }
  revert s. induction irqs as [|i irqs IH]; intros s E; cbn [spec_getchar] in E;
    destruct (queue s) as [|x q] eqn:Eq; try done.
  - injection E as <- <- <-. cbn. lia.
  - apply IH in E. pose proof (Hh s i) as Hs. rewrite Eq in Hs. cbn [length] in *. lia.
  - injection E as <- <- <-. cbn. lia.
Qed.

Lemma chars_bound n irqs s cs irqs' s' :
  spec_chars n irqs s = Some (cs, irqs', s') -> (n <= length (queue s) + length irqs)%nat.
Proof.
  revert irqs s cs irqs' s'. induction n as [|n IH]; intros irqs s cs irqs' s' E; [lia |]. rewrite spec_chars_S in E.
  destruct (spec_getchar irqs s) as [[[c irqs1] s1] |] eqn:Eg; [| done].
  destruct (spec_chars n irqs1 s1) as [[[cs1 irqs2] s2] |] eqn:Ec; [| done].
  apply IH in Ec. apply getchar_measure in Eg. lia.
Qed.

Lemma readline_ok `{Uart} (max : Z) irqs k v t s cs irqs' s' :
  repr k s -> Forall irq_ok irqs -> shows v t ->
  spec_chars (S (length cs)) irqs s = Some (cs ++ [ch_nl], irqs', s') -> Forall in_line cs ->
  lin t + widths cs < ROWS * COLS ->
  let '(line, t') := edit_all max [] t cs in
  exists k' v', readline irqs k v max = Ret (line, irqs', k', v') /\ repr k' s' /\
    shows v' (term_char (vga_color VGA_LIGHT_GREY VGA_BLACK) t' ch_nl).
Proof.
  intros Hr Hi Hv Hcs Hin Hw. pose proof (chars_bound _ _ _ _ _ _ Hcs) as Hn. pose proof (rp_bound _ _ Hr) as Hq.
  unfold readline, kget_cursor. rewrite (sh_col _ _ Hv), (sh_row _ _ Hv).
  apply (loop_ok cs _ max t irqs k v [] t irqs' s s'); try done; [apply Hv | cbn; lia | lia].
Qed.

(** ** Properties *)

(** [readline] is a line editor: when the characters from the keyboard up
    to the newline are [cs], it returns the line an editor makes of them --
    each character appended while it fits into the buffer, a backspace
    removing the last one -- with the screen echoing it and the keyboard
    queue behind the newline, provided the echo does not scroll the screen. *)
Theorem readline_spec `{Uart} (max : Z) irqs k v t s cs irqs' s' :
  repr k s -> Forall irq_ok irqs -> shows v t ->
  spec_chars (S (length cs)) irqs s = Some (cs ++ [ch_nl], irqs', s') -> Forall in_line cs ->
  lin t + widths cs < ROWS * COLS ->
  let '(line, t') := edit_all max [] t cs in
  exists k' v', readline irqs k v max = Ret (line, irqs', k', v') /\ repr k' s' /\
    shows v' (term_char (vga_color VGA_LIGHT_GREY VGA_BLACK) t' ch_nl).
Proof. apply readline_ok. Qed.

(** When the line does scroll the screen, the remembered prompt row is stale:
    here the backspace is refused although there is a character to erase. *)
Lemma readline_scrolled :
  fst <$> (match readline [Irq1 0x1E; Irq1 0x0E; Irq1 0x1C] keyboard0 wit_screen LINE_MAX with
           | Ret (line, irqs, _, _) => Some (line, irqs) | _ => None end) = Some [97].
Proof. vm_compute. reflexivity. Qed.

(** h, i, o, backspace, enter. *)
Definition wit_keys : list interrupt := [Irq1 0x23; Irq1 0xA3; Irq1 0x17; OtherIrq; Irq1 0x18; Irq1 0x0E; Irq1 0x1C].

Lemma readline_spec_witness :
  exists k' v', readline wit_keys keyboard0 (clear_screen wit_screen) LINE_MAX = Ret (lit "hi", [], k', v').
Proof.
  destruct (readline_spec LINE_MAX wit_keys keyboard0 (clear_screen wit_screen) term0 (KSpec [] false false)
    [104; 105; 111; 8] [] (KSpec [] false false)) as (k' & v' & E & _).
  - apply repr_init.
  - repeat constructor; unfold irq_ok, is_u8; lia.
  - apply shows_clear.
  - reflexivity.
  - repeat constructor; discriminate.
  - reflexivity.
  - exists k', v'. exact E.
Defined.
