(* ===== verification/ShellFs.v ===== *)
(** * Shell: the file system commands

    The path helpers and the commands ls, cat, touch, write, rm, mkdir,
    rmdir, cd and pwd of [shell/shell.c], on the file system, the heap and
    the screen. *)

From S2P Require Import Prelude Memory Interfaces Keyboard Screen Fat32 Cpu Task Irq ShellText.

(** ** State *)

(** The kernel, the mounted volume and the static [cwd_path]. *)
Record shell (M P D : Type) : Type := Shell { kern : kernel M P; vol : fat D; cwd_path : list Z }.
Arguments Shell {M P D}. Arguments kern {M P D}. Arguments vol {M P D}. Arguments cwd_path {M P D}.

Definition VGA_LIGHT_GREEN : Z := 10.
Definition VGA_LIGHT_CYAN : Z := 11.
Definition VGA_LIGHT_RED : Z := 12.
Definition VGA_YELLOW : Z := 14.

(** [argv[i]]; [argc] is the length. *)
Definition arg (argv : list (list Z)) (i : nat) : list Z := default [] (argv !! i).

Section Commands.
  Context {M : Type} `{ProcessMemory M} `{Uart} {P D : Type} `{BlockDevice D}.
  Implicit Types s : shell M P D.

Definition with_kern s (k : kernel M P) : shell M P D := Shell k (vol s) (cwd_path s).
Definition with_vol s (v : fat D) : shell M P D := Shell (kern s) v (cwd_path s).
Definition with_cwd s (p : list Z) : shell M P D := Shell (kern s) (vol s) p.
Definition with_screen s (v : screen) : shell M P D := with_kern s (Irq.with_screen (kern s) v).
Definition mem_pool s : M := pool (ksched (kern s)).
Definition with_mem s (m : M) : shell M P D := with_kern s (with_sched (kern s) (with_pool (ksched (kern s)) m)).

(** *** Output and the heap, as the commands call them *)

Definition show_char s (c : Z) : outcome (shell M P D) :=
  do! v := kputchar (kscreen (kern s)) c in Ret (with_screen s v).
Definition show_color s (str : list Z) (fg : Z) : outcome (shell M P D) :=
  do! v := kprint_color (kscreen (kern s)) str fg VGA_BLACK in Ret (with_screen s v).
Definition show s (str : list Z) : outcome (shell M P D) := show_color s str VGA_LIGHT_GREY.
Definition show_dec s (n : Z) : outcome (shell M P D) :=
  do! v := kprint_dec (kscreen (kern s)) n in Ret (with_screen s v).
Definition show_hex s (n : Z) : outcome (shell M P D) :=
  do! v := kprint_hex (kscreen (kern s)) n in Ret (with_screen s v).

Definition kmalloc s (n : Z) : outcome (Z * shell M P D) :=
  do! (p, m) := proc_malloc (mem_pool s) n in Ret (p, with_mem s m).
Definition kfree s (p : Z) : outcome (shell M P D) :=
  do! m := proc_free (mem_pool s) p in Ret (with_mem s m).

(** [for (i = 0; i < n; i++) kputchar(c)]. *)
Fixpoint show_times (n : nat) s (c : Z) : outcome (shell M P D) :=
  match n with
  | O => Ret s
  | S n' => do! s := show_char s c in show_times n' s c
  end.

Definition set_cwd_cluster s (c : Z) : shell M P D := with_vol s (fat32_set_cwd_cluster (vol s) c).

(** *** Paths *)

(** The end of a token in [path_descend]: the previous one is entered. *)
Definition descend_token (fuel : nat) (v : fat D) (prev : option (list Z)) (cur : list Z)
    : outcome (bool * option (list Z) * fat D) :=
  match cur with
  | [] => Ret (true, prev, v)
  | _ =>
      match prev with
      | Some d => do! (r, v) := fat32_chdir fuel v d in Ret (negb (r <? 0), Some cur, v)
      | None => Ret (true, Some cur, v)
      end
  end.

Fixpoint descend_loop (fuel : nat) (v : fat D) (p : list Z) (prev : option (list Z)) (cur : list Z)
    : outcome (bool * option (list Z) * fat D) :=
  match p with
  | [] => descend_token fuel v prev cur
  | c :: p' =>
      if c =? 0 then descend_token fuel v prev cur
      else if c =? ch_slash then
        do! (ok, prev, v) := descend_token fuel v prev cur in
        if ok then descend_loop fuel v p' prev [] else Ret (false, prev, v)
      else descend_loop fuel v p' prev (if (length cur <? 15)%nat then cur ++ [c] else cur)
  end.

Definition path_descend (fuel : nat) (v : fat D) (path : list Z) : outcome (Z * list Z * fat D) :=
  do! (p, v) := (if char_at path 0 =? ch_slash
                 then do! (_, v) := fat32_chdir fuel v [ch_slash] in Ret (drop 1 path, v)
                 else Ret (path, v)) in
  do! (ok, prev, v) := descend_loop fuel v p None [] in
  if ok then Ret (0, default [] prev, v) else Ret (-1, [], v).

(** The result, the saved cluster and the base name. *)
Definition path_to_parent_and_base (fuel : nat) s (path : list Z)
    : outcome (Z * Z * list Z * shell M P D) :=
  let saved := fat32_cwd_cluster (vol s) in
  do! (r, base, v) := path_descend fuel (vol s) path in
  let s := with_vol s v in
  if (r <? 0) || (char_at base 0 =? 0) then Ret (-1, saved, base, set_cwd_cluster s saved)
  else Ret (0, saved, base, s).

(** *** Commands *)

Definition not_mounted s : outcome (shell M P D) := show_color s (litn "FAT32 not mounted.") VGA_LIGHT_RED.

Definition ls_visitor (o : outcome (shell M P D)) (e : dirent) : outcome (shell M P D) :=
  do! s := o in
  let name := short_name_to_str (e_name e) in
  if truth (Z.land (e_attr e) FAT_ATTR_DIRECTORY) then
    do! s := show_color s (lit "  <DIR>  ") VGA_LIGHT_CYAN in
    do! s := show s name in
    show s [ch_nl]
  else
    do! s := show s (lit "         ") in
    do! s := show s name in
    do! s := show_times (Z.to_nat (14 - str_len name)) s ch_sp in
    do! s := show_dec s (e_size e) in
    show s (litn " bytes").

(** The visitor prints while the directory is read. *)
Definition cmd_ls (fuel : nat) s (argv : list (list Z)) : outcome (shell M P D) :=
  if negb (fat32_is_mounted (vol s)) then not_mounted s
  else
    let saved := fat32_cwd_cluster (vol s) in
    do! (r, v) := (if (2 <=? length argv)%nat then fat32_chdir_path fuel (vol s) (arg argv 1) else Ret (0, vol s)) in
    let s := with_vol s v in
    if r <? 0 then
      let s := set_cwd_cluster s saved in
      do! s := show_color s (lit "ls: not a directory or not found: ") VGA_LIGHT_RED in
      do! s := show s (arg argv 1) in
      show s [ch_nl]
    else
      do! (o, v) := fat32_listdir fuel (vol s) (fat32_cwd_cluster (vol s)) ls_visitor (Ret s) in
      do! s := o in
      Ret (set_cwd_cluster (with_vol s v) saved).

Definition CAT_BUF_SIZE : Z := 16384.

(** The loop that prints the buffer. *)
Definition cat_char (b : mem) (o : outcome (shell M P D)) (i : Z) : outcome (shell M P D) :=
  do! s := o in
  let c := load8 b i in
  if c =? ch_cr then Ret s else show_char s c.

(** The buffer is a memory of its own: the block [p] of the heap, from its
    first byte on. *)
Definition cmd_cat (fuel : nat) s (argv : list (list Z)) : outcome (shell M P D) :=
  if (length argv <? 2)%nat then show s (litn "usage: cat <path>")
  else if negb (fat32_is_mounted (vol s)) then not_mounted s
  else
    do! (r, saved, base, s) := path_to_parent_and_base fuel s (arg argv 1) in
    if r <? 0 then show_color s (litn "cat: invalid path") VGA_LIGHT_RED
    else
      do! (rc, e, v) := fat32_find fuel (vol s) base in
      let s := set_cwd_cluster (with_vol s v) saved in
      match e with
      | None =>
          do! s := show_color s (lit "not found: ") VGA_LIGHT_RED in
          do! s := show s (arg argv 1) in
          show s [ch_nl]
      | Some e =>
          if truth (Z.land (e_attr e) FAT_ATTR_DIRECTORY) then show_color s (litn "is a directory") VGA_LIGHT_RED
          else
            do! (p, s) := kmalloc s CAT_BUF_SIZE in
            if negb (truth p) then show_color s (litn "cat: out of heap") VGA_LIGHT_RED
            else
              do! (n, b, v) := fat32_read_file (vol s) e ∅ CAT_BUF_SIZE in
              let s := with_vol s v in
              if n <? 0 then
                do! s := kfree s p in show_color s (litn "read error") VGA_LIGHT_RED
              else
                do! s := for_range 0 n (cat_char b) (Ret s) in
                do! s := (if (0 <? n) && negb (load8 b (n - 1) =? ch_nl) then show_char s ch_nl else Ret s) in
                kfree s p
      end.

(** The end of touch, rm, mkdir and rmdir: the result of an operation on the
    base name, with the working directory restored. *)
Definition report s (saved : Z) (rv : Z * fat D) (failed done : string) (path : list Z)
    : outcome (shell M P D) :=
  let s := set_cwd_cluster (with_vol s (snd rv)) saved in
  if fst rv <? 0 then show_color s (litn failed) VGA_LIGHT_RED
  else
    do! s := show s (lit done) in
    do! s := show s path in
    show s [ch_nl].

Definition cmd_touch (fuel : nat) s (argv : list (list Z)) : outcome (shell M P D) :=
  if (length argv <? 2)%nat then show s (litn "usage: touch <path>")
  else if negb (fat32_is_mounted (vol s)) then not_mounted s
  else
    do! (r, saved, base, s) := path_to_parent_and_base fuel s (arg argv 1) in
    if r <? 0 then show_color s (litn "touch: invalid path") VGA_LIGHT_RED
    else
      do! rv := fat32_create fuel (vol s) base in
      report s saved rv "touch failed (exists or directory full)" "created: " (arg argv 1).

Definition WRITE_BUF_SIZE : Z := 8192.

(** [while ( *s && len < WRITE_BUF_SIZE) buf[len++] = *s++]. *)
Fixpoint append_str (b : list Z) (str : list Z) : list Z :=
  match str with
  | [] => b
  | c :: str' =>
      if truth c && (Z.of_nat (length b) <? WRITE_BUF_SIZE) then append_str (b ++ [u8 c]) str' else b
  end.

(** The loop over [argv[2..]], with [first] for [i == 2]. *)
Fixpoint join_args (b : list Z) (first : bool) (args : list (list Z)) : list Z :=
  match args with
  | [] => b
  | a :: args' =>
      let b := if negb first && (Z.of_nat (length b) <? WRITE_BUF_SIZE) then b ++ [ch_sp] else b in
      join_args (append_str b a) false args'
  end.

Definition write_text (argv : list (list Z)) : list Z :=
  let b := join_args [] true (drop 2 argv) in
  if Z.of_nat (length b) <? WRITE_BUF_SIZE then b ++ [ch_nl] else b.

Definition cmd_write (fuel : nat) s (argv : list (list Z)) : outcome (shell M P D) :=
  if (length argv <? 3)%nat then show s (litn "usage: write <path> <text...>")
  else if negb (fat32_is_mounted (vol s)) then not_mounted s
  else
    do! (p, s) := kmalloc s WRITE_BUF_SIZE in
    if negb (truth p) then show_color s (litn "write: out of heap") VGA_LIGHT_RED
    else
      let b := write_text argv in
      let len := Z.of_nat (length b) in
      do! (r, saved, base, s) := path_to_parent_and_base fuel s (arg argv 1) in
      if r <? 0 then
        do! s := kfree s p in show_color s (litn "write: invalid path") VGA_LIGHT_RED
      else
        do! (r, v) := fat32_write_file fuel (vol s) base b len in
        let s := set_cwd_cluster (with_vol s v) saved in
        do! s := kfree s p in
        if r <? 0 then show_color s (litn "write failed (disk or directory full?)") VGA_LIGHT_RED
        else
          do! s := show s (lit "wrote ") in
          do! s := show_dec s len in
          do! s := show s (lit " bytes to ") in
          do! s := show s (arg argv 1) in
          show s [ch_nl].

Definition cmd_rm (fuel : nat) s (argv : list (list Z)) : outcome (shell M P D) :=
  if (length argv <? 2)%nat then show s (litn "usage: rm <path>")
  else if negb (fat32_is_mounted (vol s)) then not_mounted s
  else
    do! (r, saved, base, s) := path_to_parent_and_base fuel s (arg argv 1) in
    if r <? 0 then show_color s (litn "rm: invalid path") VGA_LIGHT_RED
    else
      do! rv := fat32_remove fuel (vol s) base in
      report s saved rv "rm failed (not found, or it's a directory?)" "removed: " (arg argv 1).

Definition cmd_mkdir (fuel : nat) s (argv : list (list Z)) : outcome (shell M P D) :=
  if (length argv <? 2)%nat then show s (litn "usage: mkdir <path>")
  else if negb (fat32_is_mounted (vol s)) then not_mounted s
  else
    do! (r, saved, base, s) := path_to_parent_and_base fuel s (arg argv 1) in
    if r <? 0 then show_color s (litn "mkdir: invalid path") VGA_LIGHT_RED
    else
      do! rv := fat32_mkdir fuel (vol s) base in
      report s saved rv "mkdir failed (exists, full, or out of space)" "created dir: " (arg argv 1).

Definition cmd_rmdir (fuel : nat) s (argv : list (list Z)) : outcome (shell M P D) :=
  if (length argv <? 2)%nat then show s (litn "usage: rmdir <path>")
  else if negb (fat32_is_mounted (vol s)) then not_mounted s
  else
    do! (r, saved, base, s) := path_to_parent_and_base fuel s (arg argv 1) in
    if r <? 0 then show_color s (litn "rmdir: invalid path") VGA_LIGHT_RED
    else
      do! rv := fat32_rmdir fuel (vol s) base in
      report s saved rv "rmdir failed (not a dir, or not empty)" "removed dir: " (arg argv 1).

(** *** cd *)

(** What a token that was entered does to the path. *)
Definition path_token (p tok : list Z) : list Z :=
  if is_dot_name tok then p else if is_dotdot_name tok then path_pop p else path_push p tok.

(** The end of a token: [false] when the directory could not be entered. *)
Definition cd_token (fuel : nat) s (tok : list Z) : outcome (bool * shell M P D) :=
  match tok with
  | [] => Ret (true, s)
  | _ =>
      do! (r, v) := fat32_chdir fuel (vol s) tok in
      let s := with_vol s v in
      if r <? 0 then Ret (false, s) else Ret (true, with_cwd s (path_token (cwd_path s) tok))
  end.

Fixpoint cd_loop (fuel : nat) s (p tok : list Z) : outcome (bool * shell M P D) :=
  match p with
  | [] => cd_token fuel s tok
  | c :: p' =>
      if c =? 0 then cd_token fuel s tok
      else if c =? ch_slash then
        do! (ok, s) := cd_token fuel s tok in
        if ok then cd_loop fuel s p' [] else Ret (false, s)
      else cd_loop fuel s p' (if (length tok <? 15)%nat then tok ++ [c] else tok)
  end.

Definition cmd_cd (fuel : nat) s (argv : list (list Z)) : outcome (shell M P D) :=
  if negb (fat32_is_mounted (vol s)) then not_mounted s
  else
    let target := if (length argv <? 2)%nat then [ch_slash] else arg argv 1 in
    let saved_cluster := fat32_cwd_cluster (vol s) in
    let saved_path := cwd_path s in
    do! (p, s) := (if char_at target 0 =? ch_slash
                   then do! (_, v) := fat32_chdir fuel (vol s) [ch_slash] in
                        Ret (drop 1 target, with_cwd (with_vol s v) [ch_slash])
                   else Ret (target, s)) in
    do! (ok, s) := cd_loop fuel s p [] in
    if ok then Ret s
    else
      let s := with_cwd (set_cwd_cluster s saved_cluster) saved_path in
      do! s := show_color s (lit "cd failed: ") VGA_LIGHT_RED in
      do! s := show s target in
      show s [ch_nl].

Definition cmd_pwd s (argv : list (list Z)) : outcome (shell M P D) :=
  do! s := show s (cwd_path s) in show s [ch_nl].

End Commands.
