(* ===== verification/ShellPath.v ===== *)
(** * Shell: printing, paths and cd

    What the output helpers of the shell do to the screen, the tokens of a
    path, and the commands that walk them. *)

From S2P Require Import Prelude Memory Interfaces Keyboard Screen Fat32 FatKeep Cpu Task Irq ShellText ShellFs.

(** ** Output *)

(** Characters with their attributes, in the order they are printed. *)
Definition ink (fg : Z) (str : list Z) : list (Z * Z) := (fun c => (vga_color fg VGA_BLACK, c)) <$> str.
Definition term_ink (t : term) (l : list (Z * Z)) : term := foldl (fun t '(a, c) => term_char a t c) t l.

Lemma term_ink_app t l1 l2 : term_ink t (l1 ++ l2) = term_ink (term_ink t l1) l2.
Proof. apply foldl_app. Qed.

Lemma term_ink_ink fg t str : term_ink t (ink fg str) = foldl (term_char (vga_color fg VGA_BLACK)) t str.
Proof. revert t. induction str as [|c str IH]; intros t; [done |]. apply IH. Qed.

Section Output.
  Context {M : Type} `{Uart} {P D : Type}.
  Implicit Types s : shell M P D.

Definition screen_ok s : Prop := exists t, shows (kscreen (kern s)) t.

(** [s'] is [s] with the characters [l] printed. *)
Definition prints s (l : list (Z * Z)) s' : Prop :=
  exists v, s' = with_screen s v /\ forall t, shows (kscreen (kern s)) t -> shows v (term_ink t l).

Lemma prints_ok s l s' : screen_ok s -> prints s l s' -> screen_ok s'.
Proof. intros [t Ht] (v & -> & Hv). exists (term_ink t l). by apply Hv. Qed.

Lemma prints_nil s : prints s [] s.
Proof. exists (kscreen (kern s)). split; [by destruct s as [[] ? ?] | done]. Qed.

Lemma prints_trans s1 l1 s2 l2 s3 : prints s1 l1 s2 -> prints s2 l2 s3 -> prints s1 (l1 ++ l2) s3.
Proof.
  intros (v & -> & Hv) (w & -> & Hw). exists w. split; [done |]. intros t Ht. rewrite term_ink_app.
  by apply Hw, Hv.
Qed.

Lemma prints_rest s l s' : prints s l s' -> vol s' = vol s /\ cwd_path s' = cwd_path s /\
  ksched (kern s') = ksched (kern s).
Proof. by intros (v & -> & _). Qed.

Lemma show_char_ok s c : screen_ok s -> exists s', show_char s c = Ret s' /\ prints s (ink VGA_LIGHT_GREY [c]) s'.
Proof.
  intros [t Ht]. unfold show_char, kputchar.
  destruct (kputchar_color_ok _ _ c VGA_LIGHT_GREY VGA_BLACK Ht) as (v & E & _). rewrite E. cbn [obind].
  eexists. split; [reflexivity |]. exists v. split; [done |]. intros t' Ht'.
  destruct (kputchar_color_ok _ _ c VGA_LIGHT_GREY VGA_BLACK Ht') as (v' & E' & Hv' & _).
  rewrite E in E'. injection E' as <-. exact Hv'.
Qed.

Lemma show_color_ok s str fg : screen_ok s ->
  exists s', show_color s str fg = Ret s' /\ prints s (ink fg (c_string str)) s'.
Proof.
  intros [t Ht]. unfold show_color.
  destruct (kprint_color_ok _ _ str fg VGA_BLACK Ht) as (v & E & _). rewrite E. cbn [obind].
  eexists. split; [reflexivity |]. exists v. split; [done |]. intros t' Ht'. rewrite term_ink_ink.
  destruct (kprint_color_ok _ _ str fg VGA_BLACK Ht') as (v' & E' & Hv' & _).
  rewrite E in E'. injection E' as <-. exact Hv'.
Qed.

Lemma show_ok s str : screen_ok s ->
  exists s', show s str = Ret s' /\ prints s (ink VGA_LIGHT_GREY (c_string str)) s'.
Proof. apply show_color_ok. Qed.

(** A command that goes on after printing. *)
Lemma show_then s str fg (k : shell M P D -> outcome (shell M P D)) l :
  screen_ok s ->
  (forall s1, screen_ok s1 -> prints s (ink fg (c_string str)) s1 -> exists s', k s1 = Ret s' /\ prints s1 l s') ->
  exists s', (do! s := show_color s str fg in k s) = Ret s' /\ prints s (ink fg (c_string str) ++ l) s'.
Proof.
  intros Hs Hk. destruct (show_color_ok s str fg Hs) as (s1 & -> & H1). cbn [obind].
  destruct (Hk s1) as (s' & -> & H2); [by eapply prints_ok | done |]. exists s'. split; [done |].
  by eapply prints_trans.
Qed.

End Output.

(** ** Tokens of a path *)

Definition tokens (path : list Z) : list (list Z) := take 15 <$> pieces ch_slash (c_string path).

Definition is_absolute (path : list Z) : bool := char_at path 0 =? ch_slash.

Lemma pieces_more sep (w : list Z) : sep ∉ w ->
  pieces sep w = (if decide (w = []) then [] else [w]) /\
  forall l, pieces sep (w ++ sep :: l) = (if decide (w = []) then [] else [w]) ++ pieces sep l.
Proof.
  intros Hw. case_decide as E.
  - subst w. split; [done |]. intros l. cbn [app]. apply pieces_sep.
  - split; [by apply (pieces_end sep 0) |]. intros l. by apply (pieces_word sep 0).
Qed.

Lemma take_snoc_short (n : nat) (w : list Z) c :
  (if (length (take n w) <? n)%nat then take n w ++ [c] else take n w) = take n (w ++ [c]).
Proof.
  rewrite length_take. destruct (Nat.ltb_spec (Nat.min n (length w)) n).
  - rewrite !take_ge by (rewrite ?length_app; cbn; lia). done.
  - by rewrite take_app_le by lia.
Qed.

Lemma tokens_absolute path : is_absolute path = true -> tokens (drop 1 path) = tokens path.
Proof.
  unfold is_absolute. destruct path as [|c path]; [done |]. change (char_at (c :: path) 0) with c.
  intros ->%Z.eqb_eq. unfold tokens. cbn [drop c_string].
  change (ch_slash =? 0) with false. cbv iota. by rewrite pieces_sep.
Qed.

Section Paths.
  Context {M : Type} `{ProcessMemory M} `{Uart} {P D : Type} `{BlockDevice D}.
  Implicit Types s : shell M P D.

(** Entering directories one after the other; [false] when one cannot be. *)
Fixpoint chdir_all (fuel : nat) (v : fat D) (toks : list (list Z)) : outcome (bool * fat D) :=
  match toks with
  | [] => Ret (true, v)
  | tok :: toks' =>
      do! (r, v) := fat32_chdir fuel v tok in
      if r <? 0 then Ret (false, v) else chdir_all fuel v toks'
  end.

(** The loop of cd over the tokens. *)
Fixpoint cd_tokens (fuel : nat) s (toks : list (list Z)) : outcome (bool * shell M P D) :=
  match toks with
  | [] => Ret (true, s)
  | tok :: toks' =>
      do! (ok, s) := cd_token fuel s tok in
      if ok then cd_tokens fuel s toks' else Ret (false, s)
  end.

Lemma cd_tokens_one fuel s tok : cd_tokens fuel s [tok] = cd_token fuel s tok.
Proof. cbn [cd_tokens]. destruct (cd_token fuel s tok) as [[[] s'] | |]; done. Qed.

Lemma cd_end fuel s w : ch_slash ∉ w ->
  cd_token fuel s (take 15 w) = cd_tokens fuel s (take 15 <$> pieces ch_slash w).
Proof.
  intros Hw. destruct (pieces_more _ _ Hw) as [-> _]. case_decide as E; [by subst w |].
  cbn [fmap list_fmap]. by rewrite cd_tokens_one.
Qed.

Lemma cd_loop_ok fuel s p w :
  ch_slash ∉ w -> cd_loop fuel s p (take 15 w) = cd_tokens fuel s (take 15 <$> pieces ch_slash (w ++ c_string p)).
Proof.
  revert s w. induction p as [|c p IH]; intros s w Hw; cbn [cd_loop c_string].
  - rewrite app_nil_r. by apply cd_end.
  - destruct (Z.eqb_spec c 0); [rewrite app_nil_r; by apply cd_end |].
    destruct (Z.eqb_spec c ch_slash) as [-> | Hc].
    + destruct (pieces_more _ _ Hw) as [_ ->]. rewrite fmap_app. case_decide as E.
      * subst w. cbn [take cd_token obind fmap list_fmap app]. apply (IH s []), not_elem_of_nil.
      * cbn [fmap list_fmap app cd_tokens]. destruct (cd_token fuel s (take 15 w)) as [[[] s'] | |]; [| done ..].
        cbn [obind]. apply (IH s' []), not_elem_of_nil.
    + rewrite take_snoc_short, IH.
      * by rewrite <- app_assoc.
      * rewrite elem_of_app, list_elem_of_singleton. by intros [? | ?].
Qed.

(** The path after the tokens. *)
Definition walk_path (p : list Z) (toks : list (list Z)) : list Z := foldl path_token p toks.

Lemma cd_tokens_ok fuel s toks :
  Forall (.≠ []) toks ->
  match chdir_all fuel (vol s) toks with
  | Ret (true, v) => cd_tokens fuel s toks = Ret (true, Shell (kern s) v (walk_path (cwd_path s) toks))
  | Ret (false, v) => exists p, cd_tokens fuel s toks = Ret (false, Shell (kern s) v p)
  | Halt h => cd_tokens fuel s toks = Halt h
  | OutOfFuel => cd_tokens fuel s toks = OutOfFuel
  end.
Proof.
  intros Ht. revert s. induction Ht as [|tok toks Hne _ IH]; intros s; cbn [cd_tokens chdir_all].
  - by destruct s.
  - assert (cd_token fuel s tok = do! (r, v) := fat32_chdir fuel (vol s) tok in
      if r <? 0 then Ret (false, with_vol s v)
      else Ret (true, with_cwd (with_vol s v) (path_token (cwd_path s) tok))) as -> by (by destruct tok).
    destruct (fat32_chdir fuel (vol s) tok) as [[r v] | |]; [| done ..]. cbn [obind].
    destruct (r <? 0); cbn [obind]; [by exists (cwd_path s) |].
    apply (IH (with_cwd (with_vol s v) (path_token (cwd_path s) tok))).
Qed.

Lemma tokens_good path : Forall good_name (tokens path).
Proof.
  assert (forall l, plain l -> Forall good_name (pieces ch_slash l)) as Hp.
  { intros l. induction l as [l IH] using (induction_ltof1 _ length). unfold ltof in IH. intros Hl.
    destruct (string_cases ch_slash l) as (n & [-> | (w & r & -> & Hne & Hw & Hr)]); [by rewrite pieces_nil |].
    apply plain_app in Hl as [_ Hl]. pose proof Hl as [Hpw Hpr]%plain_app.
    destruct Hr as [-> | [r' ->]].
    - rewrite app_nil_r, pieces_end by done. by constructor.
    - rewrite pieces_word by done. constructor; [done |]. apply IH.
      + rewrite !length_app. cbn [length]. lia.
      + by apply Forall_cons in Hpr as [_ ?]. }
  apply Forall_fmap. eapply Forall_impl; [apply Hp, c_string_plain |]. intros w (Hne & Hpw & Hw). split_and!.
  - by destruct w.
  - by apply Forall_take.
  - intros Hin. apply Hw. rewrite <- (take_drop 15 w). apply elem_of_app. by left.
Qed.

(** ** cd *)

(** The names on the way to the working directory, after a token. *)
Definition walk_names (cs : list (list Z)) (tok : list Z) : list (list Z) :=
  if is_dot_name tok then cs
  else if is_dotdot_name tok then take (length cs - 1) cs
  else if CWD_PATH_MAX <=? Z.of_nat (length (render cs) + length (short_to_display tok)) + 2 then cs
  else cs ++ [short_to_display tok].

Lemma walk_token cs tok : Forall good_name cs -> good_name tok ->
  path_token (render cs) tok = render (walk_names cs tok) /\ Forall good_name (walk_names cs tok).
Proof.
  intros Hcs Ht. unfold path_token, walk_names. destruct (is_dot_name tok); [done |]. destruct (is_dotdot_name tok).
  - destruct cs as [|c cs] using rev_ind; [done |].
    rewrite path_pop_ok, length_app, Nat.add_sub, take_app_length by done. split; [done |].
    by apply Forall_app in Hcs as [? _].
  - rewrite path_push_ok by done. destruct (_ <=? _); [done |]. split; [done |].
    apply Forall_app. split; [done |]. constructor; [by apply display_good | done].
Qed.

Lemma walk_path_ok cs toks : Forall good_name cs -> Forall good_name toks ->
  walk_path (render cs) toks = render (foldl walk_names cs toks) /\ Forall good_name (foldl walk_names cs toks).
Proof.
  intros Hcs Ht. revert cs Hcs. induction Ht as [|tok toks Ht _ IH]; intros cs Hcs; [done |].
  destruct (walk_token cs tok Hcs Ht) as [E Hg]. cbn [foldl]. unfold walk_path in *. cbn [foldl]. rewrite E. by apply IH.
Qed.

Lemma chdir_all_moves fuel v toks : ensures (chdir_all fuel v toks) (fun '(_, v') => same_place v v').
Proof.
  revert v. induction toks as [|tok toks IH]; intros v; cbn [chdir_all]; [done |].
  apply (ensures_bind _ _ _ _ (chdir_moves fuel v tok)). intros [r v1] (F1 & M1 & _). destruct (r <? 0); [done |].
  specialize (IH v1). unfold ensures, same_place in *. destruct (chdir_all fuel v1 toks) as [[r2 v2] | |]; [| done ..].
  destruct IH. split; congruence.
Qed.

(** Where a path starts. *)
Definition start_dir (v : fat D) (path : list Z) : fat D :=
  if is_absolute path then set_cwd v (root_cluster (fs v)) else v.

Lemma start_dir_place v path : same_place v (start_dir v path).
Proof. unfold start_dir. by destruct (is_absolute path). Qed.

Lemma chdir_slash fuel (v : fat D) : mounted v = true -> fat32_chdir fuel v [ch_slash] = Ret (0, set_cwd v (root_cluster (fs v))).
Proof. intros Hm. unfold fat32_chdir. by rewrite Hm. Qed.

Lemma restored (v : fat D) c : mounted v = true -> 2 <= c -> fat32_set_cwd_cluster v c = set_cwd v c.
Proof. intros Hm Hc. unfold fat32_set_cwd_cluster. rewrite Hm. cbn [negb]. by rewrite (proj2 (Z.ltb_ge c 2)). Qed.

Lemma tokens_ne path : Forall (.≠ []) (tokens path).
Proof. eapply Forall_impl; [apply tokens_good |]. by intros w (? & _). Qed.

(** cd before its tokens. *)
Lemma cd_start {R} fuel s path (k : bool * shell M P D -> outcome R) : mounted (vol s) = true ->
  (do! (p, s) := (if char_at path 0 =? ch_slash
                  then do! (_, v) := fat32_chdir fuel (vol s) [ch_slash] in
                       Ret (drop 1 path, with_cwd (with_vol s v) [ch_slash])
                  else Ret (path, s)) in do! x := cd_loop fuel s p [] in k x) =
  do! x := cd_tokens fuel (Shell (kern s) (start_dir (vol s) path) (if is_absolute path then render [] else cwd_path s))
    (tokens path) in k x.
Proof.
  intros Hm. assert (forall s p, cd_loop fuel s p [] = cd_tokens fuel s (tokens p)) as Hloop.
  { intros s' p. apply (cd_loop_ok fuel s' p []), not_elem_of_nil. }
  unfold start_dir. fold (is_absolute path). destruct (is_absolute path) eqn:Ea.
  - rewrite chdir_slash by done. cbn [obind]. by rewrite Hloop, tokens_absolute.
  - cbn [obind]. rewrite Hloop. by destruct s.
Qed.

(** The tokens of [path_descend]: all but the last are entered. *)
Fixpoint descend_tokens (fuel : nat) (v : fat D) (prev : option (list Z)) (toks : list (list Z))
    : outcome (bool * option (list Z) * fat D) :=
  match toks with
  | [] => Ret (true, prev, v)
  | tok :: toks' =>
      do! (ok, prev, v) := descend_token fuel v prev tok in
      if ok then descend_tokens fuel v prev toks' else Ret (false, prev, v)
  end.

Lemma descend_end fuel v prev w : ch_slash ∉ w ->
  descend_token fuel v prev (take 15 w) = descend_tokens fuel v prev (take 15 <$> pieces ch_slash w).
Proof.
  intros Hw. destruct (pieces_more _ _ Hw) as [-> _]. case_decide as E; [by subst w |].
  cbn [fmap list_fmap descend_tokens]. by destruct (descend_token _ _ _ _) as [[[[] ?] ?] | |].
Qed.

Lemma descend_loop_ok fuel v p prev w :
  ch_slash ∉ w ->
  descend_loop fuel v p prev (take 15 w) = descend_tokens fuel v prev (take 15 <$> pieces ch_slash (w ++ c_string p)).
Proof.
  revert v prev w. induction p as [|c p IH]; intros v prev w Hw; cbn [descend_loop c_string].
  - rewrite app_nil_r. by apply descend_end.
  - destruct (Z.eqb_spec c 0); [rewrite app_nil_r; by apply descend_end |].
    destruct (Z.eqb_spec c ch_slash) as [-> | Hc].
    + destruct (pieces_more _ _ Hw) as [_ ->]. rewrite fmap_app. case_decide as E.
      * subst w. cbn [take descend_token obind fmap list_fmap app]. apply (IH v prev []), not_elem_of_nil.
      * cbn [fmap list_fmap app descend_tokens].
        destruct (descend_token fuel v prev (take 15 w)) as [[[[] prev'] v'] | |]; [| done ..].
        cbn [obind]. apply (IH v' prev' []), not_elem_of_nil.
    + rewrite take_snoc_short, IH.
      * by rewrite <- app_assoc.
      * rewrite elem_of_app, list_elem_of_singleton. by intros [? | ?].
Qed.

Lemma descend_tokens_ok fuel v ds d b :
  Forall (.≠ []) (ds ++ [b]) ->
  match chdir_all fuel v (d :: ds) with
  | Ret (true, v') => descend_tokens fuel v (Some d) (ds ++ [b]) = Ret (true, Some b, v')
  | Ret (false, v') => exists x, descend_tokens fuel v (Some d) (ds ++ [b]) = Ret (false, x, v')
  | Halt h => descend_tokens fuel v (Some d) (ds ++ [b]) = Halt h
  | OutOfFuel => descend_tokens fuel v (Some d) (ds ++ [b]) = OutOfFuel
  end.
Proof.
  assert (forall v d e, e ≠ [] -> descend_token fuel v (Some d) e =
    do! (r, v) := fat32_chdir fuel v d in Ret (negb (r <? 0), Some e, v)) as Htok by (intros v0 d0 []; done).
  revert v d. induction ds as [|e ds IH]; intros v d Hne; cbn [app descend_tokens];
    apply Forall_cons in Hne as [He Hne]; rewrite Htok by done; cbn [chdir_all];
    (destruct (fat32_chdir fuel v d) as [[r v1] | |]; [| done ..]); cbn [obind];
    (destruct (r <? 0); cbn [negb obind]; [by eexists |]); [done |].
  by apply IH.
Qed.

(** [path_descend]: all the tokens but the last are entered, the last one is
    the base name. *)
Lemma path_descend_ok fuel v path : mounted v = true ->
  match chdir_all fuel (start_dir v path) (removelast (tokens path)) with
  | Ret (true, v') => path_descend fuel v path = Ret (0, default [] (last (tokens path)), v')
  | Ret (false, v') => path_descend fuel v path = Ret (-1, [], v')
  | Halt h => path_descend fuel v path = Halt h
  | OutOfFuel => path_descend fuel v path = OutOfFuel
  end.
Proof.
  intros Hm. unfold path_descend.
  assert (forall v p, descend_loop fuel v p None [] = descend_tokens fuel v None (tokens p)) as Hloop.
  { intros v' p. apply (descend_loop_ok fuel v' p None []), not_elem_of_nil. }
  assert ((do! (p, v) := (if char_at path 0 =? ch_slash
     then do! (_, v) := fat32_chdir fuel v [ch_slash] in Ret (drop 1 path, v) else Ret (path, v)) in
     do! (ok, prev, v) := descend_loop fuel v p None [] in
     if ok then Ret (0, default [] prev, v) else Ret (-1, [], v)) =
    do! (ok, prev, v) := descend_tokens fuel (start_dir v path) None (tokens path) in
     if ok then Ret (0, default [] prev, v) else Ret (-1, [], v)) as ->.
  { unfold start_dir. fold (is_absolute path). destruct (is_absolute path) eqn:Ea.
    - rewrite chdir_slash by done. cbn [obind]. by rewrite Hloop, tokens_absolute.
    - cbn [obind]. by rewrite Hloop. }
  pose proof (tokens_ne path) as Hne. set (v0 := start_dir v path).
  destruct (tokens path) as [|t ts]; [done |]. apply Forall_cons in Hne as [Ht Hne].
  assert (forall toks, descend_tokens fuel v0 None (t :: toks) = descend_tokens fuel v0 (Some t) toks) as ->
    by (by destruct t).
  destruct ts as [|b ds _] using rev_ind; [done |].
  rewrite last_cons, last_snoc. change (t :: ds ++ [b]) with ((t :: ds) ++ [b]). rewrite removelast_last.
  pose proof (descend_tokens_ok fuel v0 ds t b Hne) as Hd.
  destruct (chdir_all fuel v0 (t :: ds)) as [[[] v'] | |]; [by rewrite Hd | | by rewrite Hd ..].
  destruct Hd as [x ->]. done.
Qed.

End Paths.
