(* ===== verification/ShellMessage.v ===== *)
(** * Shell: messages

    A function that only prints, and always returns: the combinators from
    which the messages of the shell and of the kernel's start are made, as a
    hint database that proves it of their compositions. *)

From S2P Require Import Prelude Memory Interfaces Keyboard Screen Cpu Task Irq ShellText ShellFs ShellPath.

(** The screen after some messages: it still shows what a terminal shows,
    and the serial port mirrors as before. *)
Definition drawn (v v' : screen) : Prop :=
  (exists t, shows v' t) /\ g_initialized (com1 v') = g_initialized (com1 v).

Lemma drawn_trans v1 v2 v3 : drawn v1 v2 -> drawn v2 v3 -> drawn v1 v3.
Proof. intros [_ E1] [H2 E2]. split; [done | congruence]. Qed.

Section Messages.
  Context {M : Type} `{ProcessMemory M} `{Uart} {P D : Type}.
  Notation shell := (shell M P D).
  Implicit Types s : shell.

Definition message (f : shell -> outcome shell) : Prop :=
  forall s, screen_ok s -> exists v, f s = Ret (with_screen s v) /\ drawn (kscreen (kern s)) v.

Lemma message_none : message (fun s => Ret s).
Proof. intros s Hs. exists (kscreen (kern s)). split; [by destruct s as [[] ? ?] | by split]. Qed.

Lemma message_color str fg : message (fun s => show_color s str fg).
Proof.
  intros s [t Ht]. unfold show_color.
  destruct (kprint_color_ok _ _ str fg VGA_BLACK Ht) as (v & -> & Hv & _ & [Hg _]).
  exists v. split; [done |]. by split; [eexists |].
Qed.

Lemma message_show str : message (fun s => show s str).
Proof. apply message_color. Qed.

Lemma message_char c : message (fun s => show_char s c).
Proof.
  intros s [t Ht]. unfold show_char, kputchar.
  destruct (kputchar_color_ok _ _ c VGA_LIGHT_GREY VGA_BLACK Ht) as (v & -> & Hv & _ & [Hg _]).
  exists v. split; [done |]. by split; [eexists |].
Qed.

Lemma message_dec n : is_u32 n -> message (fun s => show_dec s n).
Proof.
  intros Hn s Hs. destruct (print_numbers (kscreen (kern s)) n Hn) as [(ds & E & _) _].
  destruct (message_show ds s Hs) as (v & Ev & Hv). exists v. split; [| done]. unfold show_dec. rewrite E. exact Ev.
Qed.

Lemma message_then (f g : shell -> outcome shell) : message f -> message g -> message (fun s => do! s := f s in g s).
Proof.
  intros Hf Hg s Hs. destruct (Hf s Hs) as (v & -> & Hv). cbn [obind].
  destruct (Hg (with_screen s v) (proj1 Hv)) as (w & -> & Hw). exists w. split; [done |]. by eapply drawn_trans.
Qed.

Lemma message_if (b : bool) (f g : shell -> outcome shell) : message f -> message g -> message (fun s => if b then f s else g s).
Proof. by destruct b. Qed.

Lemma message_hex n : is_u32 n -> message (fun s => show_hex s n).
Proof.
  intros Hn s Hs. destruct (print_numbers (kscreen (kern s)) n Hn) as [_ (ds & E & _)].
  destruct (message_then _ _ (message_show [48; 120]) (message_show ds) s Hs) as (v & Ev & Hv).
  exists v. split; [| done]. rewrite <- Ev. unfold show_hex, show, show_color. rewrite E. unfold kprint.
  by destruct (kprint_color (kscreen (kern s)) [48; 120] VGA_LIGHT_GREY VGA_BLACK).
Qed.

Lemma message_times n c : message (fun s => show_times n s c).
Proof.
  induction n as [|n IH]; [exact message_none |]. apply (message_then (fun s => show_char s c)); [apply message_char | exact IH].
Qed.

(** A loop that prints something for each element of a list. *)
Lemma message_each {A} (f : shell -> A -> outcome shell) l : Forall (fun a => message (fun s => f s a)) l ->
  message (fun s => foldl (fun o a => do! s := o in f s a) (Ret s) l).
Proof.
  intros Hl. induction Hl as [|a l Ha _ IH]; [exact message_none |]. intros s Hs. cbn [foldl obind].
  destruct (Ha s Hs) as (v & -> & Hv). destruct (IH (with_screen s v) (proj1 Hv)) as (w & -> & Hw). exists w.
  split; [done |]. by eapply drawn_trans.
Qed.

End Messages.

Create HintDb messages.
#[export] Hint Resolve message_none message_color message_show message_char message_dec message_hex message_times
  message_then message_if : messages.
