(* ===== verification/Panic.v ===== *)
(** * What the kernel prints before it halts

    The ends of [kheap_panic] (mem/kheap.c), [panic_t] and [task_yield]
    (proc/task.c), [page_fault_handler] (mem/paging.c) and of [isr_handler]
    (cpu/isr.c) for an exception without a handler.  The other files stop at
    the outcome [Halt]; here is what the screen shows then. *)

From S2P Require Import Prelude Memory Interfaces Keyboard Screen Cpu Task Irq ShellText ShellFs ShellPath.

Definition VGA_RED : Z := 4.
Definition VGA_WHITE : Z := 15.

Definition exception_names : list (list Z) := lit <$> [
  "Division Error"; "Debug"; "Non-Maskable Interrupt"; "Breakpoint"; "Overflow"; "Bound Range Exceeded";
  "Invalid Opcode"; "Device Not Available"; "Double Fault"; "Coprocessor Segment Overrun"; "Invalid TSS";
  "Segment Not Present"; "Stack-Segment Fault"; "General Protection Fault"; "Page Fault"; "Reserved";
  "x87 FPU Error"; "Alignment Check"; "Machine Check"; "SIMD FP Exception"; "Virtualization Exception"
]%string.

Section Reports.
  Context `{Uart}.
  Implicit Types v : screen.

Definition kheap_panic v (msg : list Z) : outcome screen :=
  do! v := kprint_color v (ch_nl :: lit "KHEAP PANIC: ") VGA_WHITE VGA_RED in
  do! v := kprint v msg in kprint v [ch_nl].

Definition panic_t v (msg : list Z) : outcome screen :=
  do! v := kprint_color v (ch_nl :: lit "TASK PANIC: ") VGA_WHITE VGA_RED in
  do! v := kprint v msg in kprint v [ch_nl].

Definition no_runnable v : outcome screen :=
  kprint_color v (ch_nl :: litn "[scheduler] no runnable tasks. halting.") VGA_LIGHT_RED VGA_BLACK.

Definition halted v : outcome screen := kprint v (ch_nl :: litn "System halted.").

Definition exception_report v (f : registers_t) : outcome screen :=
  do! v := kprint_color v (ch_nl :: lit "*** EXCEPTION ***  ") VGA_WHITE VGA_RED in
  do! v := (if int_no f <? 21
            then kprint_color v (default [] (exception_names !! Z.to_nat (int_no f))) VGA_WHITE VGA_RED else Ret v) in
  do! v := kprint v [ch_nl] in
  do! v := kprint_color v (lit "INT=") VGA_LIGHT_GREY VGA_BLACK in
  do! v := kprint_dec v (int_no f) in
  do! v := kprint_color v (lit "  ERR=") VGA_LIGHT_GREY VGA_BLACK in
  do! v := kprint_hex v (err_code f) in
  do! v := kprint_color v (lit "  EIP=") VGA_LIGHT_GREY VGA_BLACK in
  do! v := kprint_hex v (fr_eip f) in
  halted v.

(** The line that names the bits of the error code. *)
Definition fault_reason v (err : Z) : outcome screen :=
  do! v := kprint v (lit (if truth (Z.land err 0x1) then "protection-violation" else "non-present-page")) in
  do! v := kprint v (lit (if truth (Z.land err 0x2) then " | write" else " | read")) in
  do! v := kprint v (lit (if truth (Z.land err 0x4) then " | user-mode" else " | kernel-mode")) in
  do! v := (if truth (Z.land err 0x8) then kprint v (lit " | reserved-bit-set") else Ret v) in
  if truth (Z.land err 0x10) then kprint v (lit " | instruction-fetch") else Ret v.

Definition page_fault_report v (fault_addr : Z) (f : registers_t) : outcome screen :=
  do! v := kprint_color v (ch_nl :: litn "*** PAGE FAULT ***") VGA_WHITE VGA_RED in
  do! v := kprint_color v (lit "addr=") VGA_LIGHT_GREY VGA_BLACK in
  do! v := kprint_hex v fault_addr in
  do! v := kprint_color v (lit "  eip=") VGA_LIGHT_GREY VGA_BLACK in
  do! v := kprint_hex v (fr_eip f) in
  do! v := kprint_color v (lit "  err=") VGA_LIGHT_GREY VGA_BLACK in
  do! v := kprint_hex v (err_code f) in
  do! v := kprint v (ch_nl :: lit "  reason: ") in
  do! v := fault_reason v (err_code f) in
  halted v.

(** What a halt prints; the shell's halt has printed before, and a use of
    freed memory is not noticed. *)
Definition report (h : halt) (f : registers_t) v : outcome screen :=
  match h with
  | HeapPanic msg => kheap_panic v (lit msg)
  | TaskPanic msg => panic_t v (lit msg)
  | PageFault addr => page_fault_report v addr f
  | NoRunnable => no_runnable v
  | Exception _ => exception_report v f
  | Stopped | BadAccess _ => Ret v
  end.

(** ** Output on the terminal *)

(** [o] is a screen that shows [t] with [l] printed on it. *)
Definition draws (t : term) (l : list (Z * Z)) (o : outcome screen) : Prop :=
  exists v, o = Ret v /\ shows v (term_ink t l).

Definition ink_on (fg bg : Z) (str : list Z) : list (Z * Z) := (fun c => (vga_color fg bg, c)) <$> str.

Lemma draws_color v t str fg bg : shows v t -> draws t (ink_on fg bg (c_string str)) (kprint_color v str fg bg).
Proof.
  intros Ht. destruct (kprint_color_ok v t str fg bg Ht) as (v' & -> & Hv & _). exists v'. split; [done |].
  unfold ink_on, term_ink. rewrite foldl_fmap. exact Hv.
Qed.

Lemma draws_print v t str : shows v t -> draws t (ink VGA_LIGHT_GREY (c_string str)) (kprint v str).
Proof. apply draws_color. Qed.

Lemma draws_none v t : shows v t -> draws t [] (Ret v).
Proof. intros Ht. by exists v. Qed.

Lemma draws_then t l1 l2 o (g : screen -> outcome screen) :
  draws t l1 o -> (forall v, shows v (term_ink t l1) -> draws (term_ink t l1) l2 (g v)) ->
  draws t (l1 ++ l2) (do! v := o in g v).
Proof.
  intros (v & -> & Hv) Hg. cbn [obind]. destruct (Hg v Hv) as (v' & -> & Hv'). exists v'.
  split; [done |]. by rewrite term_ink_app.
Qed.

(** A number on the terminal. *)
Definition hex_text (n : Z) : list Z := lit "0x" ++ c_string (hex_string n).

Lemma hex_text_ok n : is_u32 n -> exists ds, hex_text n = lit "0x" ++ ds /\ hex_ok ds /\ hex_value ds = n.
Proof.
  intros Hn. exists (c_string (hex_string n)). split; [done |]. unfold hex_string, is_u32 in *.
  destruct (hex_loop_ok 8 n (replicate 9 0)) as (ds & -> & Hl & Hok & Hv); [lia | simpl; lia |].
  destruct (skip_zeros_ok 7 ds [0] Hl Hok) as (ds' & E' & Hok' & Hv' & _).
  change (drop 8 (replicate 9 0)) with [0]. rewrite E', c_string_app by by apply hex_nonzero. split; [done |].
  rewrite Hv', Hv. apply Z.mod_small. change (16 ^ Z.of_nat 8) with (2 ^ 32). lia.
Qed.

Lemma draws_hex v t n : shows v t -> draws t (ink VGA_LIGHT_GREY (hex_text n)) (kprint_hex v n).
Proof.
  intros Ht. unfold ink, hex_text. rewrite fmap_app. apply draws_then; [exact (draws_print v t _ Ht) |].
  intros v1 Hv1. exact (draws_print v1 _ _ Hv1).
Qed.

Definition dec_text (n : Z) : list Z :=
  if n =? 0 then [ch_0]
  else match dec_loop 10 n (replicate 11 0) with Ret (i, buf) => c_string (drop i buf) | _ => [] end.

Lemma dec_text_ok n : is_u32 n -> Forall is_digit (dec_text n) /\ dec_value (dec_text n) = n.
Proof.
  intros Hn. unfold dec_text, is_u32 in *. destruct (Z.eqb_spec n 0) as [-> | Hnz].
  { split; [apply Forall_singleton; unfold is_digit, ch_0; lia | done]. }
  destruct (dec_loop_ok 10 n (replicate 11 0)) as (j & buf & ds & -> & Hd & Hf & Hv & _); [cbn; lia | simpl; lia |].
  rewrite Hd. change (drop 10 (replicate 11 0)) with [0]. rewrite c_string_app; [done |].
  eapply Forall_impl; [exact Hf |]. intros c. unfold is_digit, ch_0. lia.
Qed.

Lemma draws_dec v t n : shows v t -> is_u32 n -> draws t (ink VGA_LIGHT_GREY (dec_text n)) (kprint_dec v n).
Proof.
  intros Ht Hn. unfold kprint_dec, dec_text, is_u32 in *. destruct (Z.eqb_spec n 0) as [-> | Hnz].
  { unfold kputchar. destruct (kputchar_color_ok v t ch_0 VGA_LIGHT_GREY VGA_BLACK Ht) as (v' & -> & Hv & _). by exists v'. }
  destruct (dec_loop_ok 10 n (replicate 11 0)) as (j & buf & ds & -> & _); [cbn; lia | simpl; lia |].
  cbn [obind]. exact (draws_print v t _ Ht).
Qed.

(** ** The page fault *)

(** The text of [fault_reason]. *)
Definition reason_text (err : Z) : list Z :=
  lit (if truth (Z.land err 0x1) then "protection-violation" else "non-present-page") ++
  lit (if truth (Z.land err 0x2) then " | write" else " | read") ++
  lit (if truth (Z.land err 0x4) then " | user-mode" else " | kernel-mode") ++
  (if truth (Z.land err 0x8) then lit " | reserved-bit-set" else []) ++
  (if truth (Z.land err 0x10) then lit " | instruction-fetch" else []).

Lemma draws_reason v t err : shows v t -> draws t (ink VGA_LIGHT_GREY (reason_text err)) (fault_reason v err).
Proof.
  intros Ht. unfold fault_reason, reason_text, ink. rewrite !fmap_app.
  apply draws_then; [destruct (truth _); exact (draws_print v t _ Ht) | intros v1 Hv1].
  apply draws_then; [destruct (truth (Z.land err 2)); exact (draws_print v1 _ _ Hv1) | intros v2 Hv2].
  apply draws_then; [destruct (truth (Z.land err 4)); exact (draws_print v2 _ _ Hv2) | intros v3 Hv3].
  apply draws_then.
  - destruct (truth (Z.land err 8)); [exact (draws_print v3 _ _ Hv3) | exact (draws_none v3 _ Hv3)].
  - intros v4 Hv4. destruct (truth (Z.land err 16)); [exact (draws_print v4 _ _ Hv4) | exact (draws_none v4 _ Hv4)].
Qed.

(** The five bits can be read back from the line. *)
Lemma reason_text_inj a b : 0 <= a -> 0 <= b -> reason_text a = reason_text b -> a mod 32 = b mod 32.
Proof.
  assert (forall x k, 0 <= k < 5 -> Z.land (x mod 32) (2 ^ k) = Z.land x (2 ^ k)) as Hbit.
  { intros x k Hk. apply Z.bits_inj'. intros n Hn. rewrite !Z.land_spec, Z.pow2_bits_eqb by lia.
    destruct (Z.eqb_spec k n) as [<- |]; [| by rewrite !andb_false_r]. change 32 with (2 ^ 5). by rewrite Z.mod_pow2_bits_low by lia. }
  assert (forall x, reason_text (x mod 32) = reason_text x) as Hmod.
  { intros x. unfold reason_text. by rewrite (Hbit x 0 ltac:(lia) : Z.land (x mod 32) 1 = _), (Hbit x 1 ltac:(lia) : Z.land (x mod 32) 2 = _),
      (Hbit x 2 ltac:(lia) : Z.land (x mod 32) 4 = _), (Hbit x 3 ltac:(lia) : Z.land (x mod 32) 8 = _),
      (Hbit x 4 ltac:(lia) : Z.land (x mod 32) 16 = _). }
  intros Ha Hb E. rewrite <- (Hmod a), <- (Hmod b) in E. revert E.
  pose proof (Z.mod_pos_bound a 32 ltac:(lia)) as Ra. pose proof (Z.mod_pos_bound b 32 ltac:(lia)) as Rb.
  generalize dependent (a mod 32). generalize dependent (b mod 32). clear. intros y Hy x Hx E.
  assert (forallb (fun i => forallb (fun j => negb (bool_decide (reason_text i = reason_text j)) || (i =? j)) (seqZ 0 32)) (seqZ 0 32) = true)
    as Hall by (vm_compute; reflexivity).
  rewrite forallb_forall in Hall. specialize (Hall x). rewrite forallb_forall in Hall.
  specialize (Hall ltac:(apply list_elem_of_In, elem_of_seqZ; lia) y ltac:(apply list_elem_of_In, elem_of_seqZ; lia)).
  apply orb_true_iff in Hall as [Hn | He]; [| lia]. rewrite negb_true_iff, bool_decide_eq_false in Hn. done.
Qed.

(** The report of a page fault is complete: the address, the instruction, the
    error code and what its bits mean are on the screen. *)
Lemma page_fault_readable v t addr (f : registers_t) :
  shows v t ->
  draws t (ink_on VGA_WHITE VGA_RED (ch_nl :: litn "*** PAGE FAULT ***") ++
      ink VGA_LIGHT_GREY (lit "addr=") ++ ink VGA_LIGHT_GREY (hex_text addr) ++
      ink VGA_LIGHT_GREY (lit "  eip=") ++ ink VGA_LIGHT_GREY (hex_text (fr_eip f)) ++
      ink VGA_LIGHT_GREY (lit "  err=") ++ ink VGA_LIGHT_GREY (hex_text (err_code f)) ++
      ink VGA_LIGHT_GREY (ch_nl :: lit "  reason: ") ++ ink VGA_LIGHT_GREY (reason_text (err_code f)) ++
      ink VGA_LIGHT_GREY (ch_nl :: litn "System halted."))
    (page_fault_report v addr f).
Proof.
  intros Ht. unfold page_fault_report, halted.
  apply draws_then; [exact (draws_color v t _ _ _ Ht) | intros v1 K1].
  apply draws_then; [exact (draws_color v1 _ _ _ _ K1) | intros v2 K2].
  apply draws_then; [exact (draws_hex v2 _ _ K2) | intros v3 K3].
  apply draws_then; [exact (draws_color v3 _ _ _ _ K3) | intros v4 K4].
  apply draws_then; [exact (draws_hex v4 _ _ K4) | intros v5 K5].
  apply draws_then; [exact (draws_color v5 _ _ _ _ K5) | intros v6 K6].
  apply draws_then; [exact (draws_hex v6 _ _ K6) | intros v7 K7].
  apply draws_then; [exact (draws_print v7 _ _ K7) | intros v8 K8].
  apply draws_then; [exact (draws_reason v8 _ _ K8) | intros v9 K9].
  exact (draws_print v9 _ _ K9).
Qed.

(** The report of an exception without a handler: its name, its number, the
    error code and the instruction. *)
Definition exception_name (n : Z) : list Z :=
  if n <? 21 then default [] (exception_names !! Z.to_nat n) else [].

Lemma exception_readable v t (f : registers_t) : shows v t -> is_u32 (int_no f) ->
  draws t (ink_on VGA_WHITE VGA_RED (ch_nl :: lit "*** EXCEPTION ***  ") ++
      ink_on VGA_WHITE VGA_RED (c_string (exception_name (int_no f))) ++ ink VGA_LIGHT_GREY [ch_nl] ++
      ink VGA_LIGHT_GREY (lit "INT=") ++ ink VGA_LIGHT_GREY (dec_text (int_no f)) ++
      ink VGA_LIGHT_GREY (lit "  ERR=") ++ ink VGA_LIGHT_GREY (hex_text (err_code f)) ++
      ink VGA_LIGHT_GREY (lit "  EIP=") ++ ink VGA_LIGHT_GREY (hex_text (fr_eip f)) ++
      ink VGA_LIGHT_GREY (ch_nl :: litn "System halted."))
    (exception_report v f).
Proof.
  intros Ht Hn. unfold exception_report, halted, exception_name.
  apply draws_then; [exact (draws_color v t _ _ _ Ht) | intros v1 K1].
  apply draws_then; [destruct (int_no f <? 21); [exact (draws_color v1 _ _ _ _ K1) | exact (draws_none v1 _ K1)] | intros v2 K2].
  apply draws_then; [exact (draws_print v2 _ _ K2) | intros v3 K3].
  apply draws_then; [exact (draws_color v3 _ _ _ _ K3) | intros v4 K4].
  apply draws_then; [exact (draws_dec v4 _ _ K4 Hn) | intros v5 K5].
  apply draws_then; [exact (draws_color v5 _ _ _ _ K5) | intros v6 K6].
  apply draws_then; [exact (draws_hex v6 _ _ K6) | intros v7 K7].
  apply draws_then; [exact (draws_color v7 _ _ _ _ K7) | intros v8 K8].
  apply draws_then; [exact (draws_hex v8 _ _ K8) | intros v9 K9].
  exact (draws_print v9 _ _ K9).
Qed.

(** ** Every halt prints its report and stops *)

Lemma panic_ok v t title msg : shows v t ->
  exists l, draws t l (do! v := kprint_color v title VGA_WHITE VGA_RED in do! v := kprint v msg in kprint v [ch_nl]).
Proof.
  intros Ht. eexists. apply draws_then; [exact (draws_color v t _ _ _ Ht) | intros v1 K1].
  apply draws_then; [exact (draws_print v1 _ _ K1) | intros v2 K2]. exact (draws_print v2 _ _ K2).
Qed.

Lemma report_ok h v t (f : registers_t) : shows v t -> is_u32 (int_no f) -> exists l, draws t l (report h f v).
Proof.
  intros Ht Hn. destruct h; cbn [report].
  - by apply panic_ok.
  - by apply panic_ok.
  - eexists. by apply page_fault_readable.
  - eexists. exact (draws_color v t _ _ _ Ht).
  - eexists. by apply exception_readable.
  - eexists. by apply draws_none.
  - eexists. by apply draws_none.
Qed.

End Reports.
