(* ===== verification/ShellCommands.v ===== *)
(** * Shell: the commands

    cd walks its path or changes nothing; the other file commands come back
    to the working directory they started in; what [write] writes [cat]
    shows. *)

From S2P Require Import Prelude Memory Interfaces Keyboard Screen Fat32 FatKeep Cpu Task Irq ShellText ShellFs ShellPath.

Create HintDb shell_keep.

Section Commands.
  Context {M : Type} `{ProcessMemory M} `{Uart} {P D : Type} `{BlockDevice D}.
  Implicit Types s : shell M P D.

(** A mounted volume with a working directory. *)
Record at_dir s : Prop := AtDir {
  ad_mounted : mounted (vol s) = true;
  ad_cwd : 2 <= cwd_cluster (vol s)
}.

(** ** Base names *)

Lemma parent_ok fuel s path : at_dir s ->
  let back v := set_cwd_cluster (with_vol s v) (cwd_cluster (vol s)) in
  match chdir_all fuel (start_dir (vol s) path) (removelast (tokens path)) with
  | Ret (true, v) =>
      path_to_parent_and_base fuel s path =
        match last (tokens path) with
        | Some b => Ret (0, cwd_cluster (vol s), b, with_vol s v)
        | None => Ret (-1, cwd_cluster (vol s), [], back v)
        end
  | Ret (false, v) => path_to_parent_and_base fuel s path = Ret (-1, cwd_cluster (vol s), [], back v)
  | Halt h => path_to_parent_and_base fuel s path = Halt h
  | OutOfFuel => path_to_parent_and_base fuel s path = OutOfFuel
  end.
Proof.
  intros [Hm _] back. pose proof (path_descend_ok fuel (vol s) path Hm) as Hd. unfold path_to_parent_and_base.
  destruct (chdir_all fuel _ _) as [[[] v] | |]; rewrite Hd; cbn [obind]; try done.
  destruct (last (tokens path)) as [b |] eqn:El; cbn [default from_option Datatypes.id]; [| done].
  assert (good_name b) as (Hne & Hp & _).
  { apply (proj1 (Forall_forall _ _) (tokens_good path)), last_Some_elem_of, El. }
  destruct b as [|c b]; [done |]. apply Forall_cons in Hp as [Hc _].
  change (char_at (c :: b) 0) with c. by rewrite (proj2 (Z.eqb_neq c 0) Hc).
Qed.

(** ** What stays *)

(** The same volume and path. *)
Definition same_files s s' : Prop := vol s' = vol s /\ cwd_path s' = cwd_path s.

(** Back in the directory it was in. *)
Record stays s s' : Prop := Stays {
  st_cwd : cwd_cluster (vol s') = cwd_cluster (vol s);
  st_place : same_place (vol s) (vol s');
  st_path : cwd_path s' = cwd_path s
}.

(** Somewhere else on the same volume. *)
Definition roams s s' : Prop := same_place (vol s) (vol s') /\ cwd_path s' = cwd_path s.

Lemma stays_refl s : stays s s.
Proof. done. Qed.

Lemma stays_files s s1 s' : stays s s1 -> same_files s1 s' -> stays s s'.
Proof. intros [? [] ?] [E ?]. split; [| split |]; congruence. Qed.

Lemma roams_back s s1 v : at_dir s -> roams s s1 -> same_place (vol s1) v ->
  stays s (set_cwd_cluster (with_vol s1 v) (cwd_cluster (vol s))).
Proof.
  intros [Hm Hc] [[F1 M1] P1] [F2 M2]. unfold set_cwd_cluster. cbn [vol with_vol].
  rewrite restored by congruence. split; cbn; [done | split; cbn; congruence | done].
Qed.

Lemma ensures_ret_in {A B} (o : outcome A) (f : A -> B) (Q : B -> Prop) :
  (forall a, Q (f a)) -> ensures (do! a := o in Ret (f a)) Q.
Proof. intros Hf. destruct o; cbn; auto. Qed.

(** Continue from a state reached by steps that keep [stays]. *)
Lemma stays_bind {s s1} (o : outcome (shell M P D)) k :
  stays s s1 -> ensures o (same_files s1) -> (forall s2, stays s s2 -> ensures (k s2) (stays s)) ->
  ensures (obind o k) (stays s).
Proof. intros Hs Ho Hk. apply (ensures_bind _ _ _ _ Ho). intros s2 H2. apply Hk. by eapply stays_files. Qed.

Lemma stays_end {s s1} (o : outcome (shell M P D)) :
  stays s s1 -> ensures o (same_files s1) -> ensures o (stays s).
Proof. intros Hs. destruct o as [s2 | |]; [| done ..]. by apply stays_files. Qed.

Lemma show_color_files s str fg : ensures (show_color s str fg) (same_files s).
Proof. apply ensures_ret_in. by split. Qed.
Lemma show_files s str : ensures (show s str) (same_files s).
Proof. apply show_color_files. Qed.
Lemma show_char_files s c : ensures (show_char s c) (same_files s).
Proof. apply ensures_ret_in. by split. Qed.
Lemma show_dec_files s n : ensures (show_dec s n) (same_files s).
Proof. apply ensures_ret_in. by split. Qed.
Lemma kfree_files s p : ensures (kfree s p) (same_files s).
Proof. apply ensures_ret_in. by split. Qed.

Lemma kmalloc_files s n : ensures (kmalloc s n) (fun '(_, s') => same_files s s').
Proof. apply (ensures_any (proc_malloc (mem_pool s) n)). intros [p m]. by split. Qed.

#[local] Hint Resolve show_color_files show_files show_char_files show_dec_files kfree_files : shell_keep.

Lemma files_trans s1 s2 s3 : same_files s1 s2 -> same_files s2 s3 -> same_files s1 s3.
Proof. intros [] []. split; congruence. Qed.

Lemma show_times_files n s c : ensures (show_times n s c) (same_files s).
Proof.
  revert s. induction n as [|n IH]; intros s; cbn [show_times]; [done |].
  apply (ensures_bind _ _ _ _ (show_char_files s c)). intros s1 K1. specialize (IH s1).
  unfold ensures in *. destruct (show_times n s1 c); [| done ..]. by eapply files_trans.
Qed.

Ltac stays :=
  repeat first
    [ eapply stays_end; [eassumption | solve [auto with shell_keep]]
    | eapply stays_bind; [eassumption | solve [auto with shell_keep] | intros ? ?] ].

Lemma parent_roams fuel s path : at_dir s ->
  ensures (path_to_parent_and_base fuel s path) (fun '(r, saved, _, s1) =>
    saved = cwd_cluster (vol s) /\ roams s s1 /\ (r < 0 -> stays s s1)).
Proof.
  intros Hd. pose proof (parent_ok fuel s path Hd) as Hp. cbv zeta in Hp.
  pose proof (chdir_all_moves fuel (start_dir (vol s) path) (removelast (tokens path))) as Hv.
  destruct (start_dir_place (vol s) path) as [F0 M0].
  destruct (chdir_all fuel _ _) as [[ok v] | |]; cbn [ensures] in Hv; [| by rewrite Hp ..]. destruct Hv as [F1 M1].
  assert (same_place (vol s) v) as Hv by (split; congruence).
  assert (stays s (set_cwd_cluster (with_vol s v) (cwd_cluster (vol s)))) as Hst by by apply roams_back.
  assert (roams s (set_cwd_cluster (with_vol s v) (cwd_cluster (vol s)))) as Hro by by destruct Hst.
  destruct ok; rewrite Hp; [| by cbn].
  destruct (last (tokens path)); cbn [ensures]; [| by cbn]. split; [done |]. split; [done | lia].
Qed.

(** The four commands that end in [report]. *)
Lemma report_stays s s1 rv failed done path :
  at_dir s -> roams s s1 -> same_place (vol s1) (snd rv) ->
  ensures (report s1 (cwd_cluster (vol s)) rv failed done path) (stays s).
Proof.
  intros Hd Hr Hv. pose proof (roams_back s s1 (snd rv) Hd Hr Hv) as Hs. unfold report. cbv zeta.
  destruct (fst rv <? 0); stays.
Qed.

Lemma same_set_place (v v' : fat D) : same_set v v' -> same_place v v'.
Proof. by intros [? ? ?]. Qed.

(** A command on a base name: usage, mount check, parent, operation. *)
Lemma on_base_stays fuel s (argv : list (list Z)) (op : fat D -> list Z -> outcome (Z * fat D)) usage bad failed done :
  at_dir s -> (forall v name, keeps v (op v name)) ->
  ensures (if (length argv <? 2)%nat then show s usage
           else if negb (fat32_is_mounted (vol s)) then not_mounted s
           else do! (r, saved, base, s) := path_to_parent_and_base fuel s (arg argv 1) in
                if r <? 0 then show_color s bad VGA_LIGHT_RED
                else do! rv := op (vol s) base in report s saved rv failed done (arg argv 1)) (stays s).
Proof.
  intros Hd Hop. pose proof (stays_refl s) as H0s. destruct (length argv <? 2)%nat; [stays |].
  destruct (negb _); [unfold not_mounted; stays |].
  apply (ensures_bind _ _ _ _ (parent_roams fuel s _ Hd)). intros [[[r saved] base] s1] (-> & Hr & Hneg).
  destruct (Z.ltb_spec r 0); [specialize (Hneg ltac:(done)); stays |].
  apply (ensures_bind _ _ _ _ (Hop (vol s1) base)). intros [r2 v2] Hv.
  apply report_stays; [done | done | by apply same_set_place].
Qed.

Lemma ls_visitor_files s0 o e : ensures o (same_files s0) -> ensures (ls_visitor (P := P) o e) (same_files s0).
Proof.
  intros Ho. unfold ls_visitor. apply (ensures_bind _ _ _ _ Ho). intros s1 K1. cbv zeta.
  assert (forall (o : outcome (shell M P D)) s1 k, same_files s0 s1 -> ensures o (same_files s1) ->
    (forall s2, same_files s0 s2 -> ensures (k s2) (same_files s0)) -> ensures (obind o k) (same_files s0)) as Hb.
  { intros o' s' k Hs Ho' Hk. apply (ensures_bind _ _ _ _ Ho'). intros s2 K2. apply Hk. by eapply files_trans. }
  assert (forall (o : outcome (shell M P D)) s1, same_files s0 s1 -> ensures o (same_files s1) -> ensures o (same_files s0)) as He.
  { intros o' s' Hs Ho'. destruct o' as [s2 | |]; [| done ..]. by eapply files_trans. }
  destruct (truth _).
  - eapply Hb; [exact K1 | apply show_color_files |]. intros s2 K2.
    eapply Hb; [exact K2 | apply show_files |]. intros s3 K3.
    eapply He; [exact K3 | apply show_files].
  - eapply Hb; [exact K1 | apply show_files |]. intros s2 K2.
    eapply Hb; [exact K2 | apply show_files |]. intros s3 K3.
    eapply Hb; [exact K3 | apply show_times_files |]. intros s4 K4.
    eapply Hb; [exact K4 | apply show_dec_files |]. intros s5 K5.
    eapply He; [exact K5 | apply show_files].
Qed.

Lemma ls_stays fuel s argv : at_dir s -> ensures (cmd_ls fuel s argv) (stays s).
Proof.
  intros Hd. pose proof (stays_refl s) as H0s. unfold cmd_ls. destruct (negb _); [unfold not_mounted; stays |].
  cbv zeta. set (o := if (2 <=? length argv)%nat then _ else _).
  assert (ensures o (fun '(_, v) => same_place (vol s) v)) as Ho.
  { unfold o. destruct (_ <=? _)%nat; [apply chdir_path_moves | done]. }
  apply (ensures_bind _ _ _ _ Ho). intros [r v] Hv. cbv zeta.
  assert (stays s (set_cwd_cluster (with_vol s v) (fat32_cwd_cluster (vol s)))) as Hst by by apply roams_back.
  destruct (r <? 0).
  - stays.
  - set (s1 := with_vol s v).
    pose proof (listdir_inv (fun o => ensures o (same_files s1)) fuel (vol s1) (fat32_cwd_cluster (vol s1))
      ls_visitor (Ret s1)) as Hl.
    eapply ensures_bind; [apply Hl; [intros ctx e; apply ls_visitor_files | by split] |].
    intros [o' v'] [Ho' Hv']. apply (ensures_bind _ _ _ _ Ho'). intros s2 [E2 P2]. cbn [ensures].
    apply roams_back; [done | split; [by rewrite E2 | by rewrite P2] |].
    destruct Hv' as [F M' _]. rewrite E2. by split.
Qed.

Lemma stays_vol s s1 v : stays s s1 -> same_set (vol s1) v -> stays s (with_vol s1 v).
Proof. intros [C [F N] Hp] [F' M' C']. split; cbn; [congruence | split; congruence | done]. Qed.

Lemma cat_loop_files (b : mem) n s : 0 <= n -> ensures (for_range 0 n (cat_char (P := P) b) (Ret s)) (same_files s).
Proof.
  intros Hn. apply (for_range_ind (fun _ o => ensures o (same_files s))); [done | by split |].
  intros i o _ Ho. unfold cat_char. apply (ensures_bind _ _ _ _ Ho). intros s1 K1. cbv zeta.
  destruct (_ =? _); [done |]. pose proof (show_char_files s1 (load8 b i)) as Hc. unfold ensures in *.
  destruct (show_char s1 _); [| done ..]. by eapply files_trans.
Qed.

Lemma cat_stays fuel s argv : at_dir s -> ensures (cmd_cat fuel s argv) (stays s).
Proof.
  intros Hd. pose proof (stays_refl s) as H0s. unfold cmd_cat. destruct (length argv <? 2)%nat; [stays |].
  destruct (negb _); [unfold not_mounted; stays |].
  apply (ensures_bind _ _ _ _ (parent_roams fuel s _ Hd)). intros [[[r saved] base] s1] (-> & Hr & Hneg).
  destruct (Z.ltb_spec r 0); [specialize (Hneg ltac:(done)); stays |].
  apply (ensures_bind _ _ _ _ (find_keeps fuel (vol s1) base)). intros [[rc e] v] Hv. cbv zeta.
  pose proof (roams_back s s1 v Hd Hr (same_set_place _ _ Hv)) as Hst.
  set (s2 := set_cwd_cluster (with_vol s1 v) (cwd_cluster (vol s))) in *. clearbody s2. destruct e as [e |].
  - destruct (truth _); [stays |].
    apply (ensures_bind _ _ _ _ (kmalloc_files s2 _)). intros [p s3] K3.
    assert (stays s s3) as H3 by by eapply stays_files. clear K3.
    destruct (negb (truth p)); [stays |].
    apply (ensures_bind _ _ _ _ (read_file_keeps (vol s3) e _ _)). intros [[n b] v3] K3. cbv zeta.
    pose proof (stays_vol s s3 v3 H3 K3) as H4. set (s4 := with_vol s3 v3) in *. clearbody s4.
    destruct (Z.ltb_spec n 0).
    + stays.
    + eapply stays_bind; [exact H4 | by apply cat_loop_files |]. intros s5 K5.
      eapply stays_bind; [exact K5 | destruct (_ && _); [apply show_char_files | by split] | intros s6 K6]. stays.
  - stays.
Qed.

Lemma write_stays fuel s argv : at_dir s -> ensures (cmd_write fuel s argv) (stays s).
Proof.
  intros Hd. pose proof (stays_refl s) as H0s. unfold cmd_write. destruct (length argv <? 3)%nat; [stays |].
  destruct (negb _); [unfold not_mounted; stays |].
  apply (ensures_bind _ _ _ _ (kmalloc_files s _)). intros [p s0] K0.
  assert (stays s s0) as Hs0 by by eapply stays_files; [apply stays_refl |].
  destruct (negb (truth p)); [stays |]. cbv zeta.
  assert (at_dir s0) as Hd0 by (destruct K0 as [E _], Hd as [? ?]; split; by rewrite E).
  assert (cwd_cluster (vol s0) = cwd_cluster (vol s)) as Ec by apply Hs0.
  assert (forall s', stays s0 s' -> stays s s') as Htr.
  { intros s' [C [F N] Hp]. destruct Hs0 as [C0 [F0 N0] P0]. split; [| split |]; congruence. }
  apply (ensures_bind _ _ _ _ (parent_roams fuel s0 _ Hd0)). intros [[[r saved] base] s1] (-> & Hr & Hneg).
  destruct (Z.ltb_spec r 0).
  - specialize (Htr _ (Hneg ltac:(done))). stays.
  - apply (ensures_bind _ _ _ _ (write_file_keeps fuel (vol s1) base _ _)). intros [r2 v] Hv. cbv zeta.
    pose proof (Htr _ (roams_back s0 s1 v Hd0 Hr (same_set_place _ _ Hv))) as Hst.
    eapply stays_bind; [exact Hst | apply kfree_files | intros s2 K2]. destruct (r2 <? 0); stays.
Qed.

(** ** Properties *)

(** C38 The commands on files come back: whatever path and text they are
    given, whatever the device answers and however they end, after ls, cat,
    touch, write, rm, mkdir and rmdir the shell is in the directory it was
    in, on the same volume, with the same path in its prompt. *)
Theorem file_commands_stay fuel s (argv : list (list Z)) cmd :
  at_dir s ->
  cmd ∈ [cmd_ls fuel; cmd_cat fuel; cmd_touch fuel; cmd_write fuel; cmd_rm fuel; cmd_mkdir fuel; cmd_rmdir fuel] ->
  ensures (cmd s argv) (stays s).
Proof.
  intros Hd. rewrite !elem_of_cons, elem_of_nil. intros [-> | [-> | [-> | [-> | [-> | [-> | [-> | []]]]]]]].
  - by apply ls_stays.
  - by apply cat_stays.
  - apply on_base_stays; [done | apply create_keeps].
  - by apply write_stays.
  - apply on_base_stays; [done | apply remove_keeps].
  - apply on_base_stays; [done | apply mkdir_keeps].
  - apply on_base_stays; [done | apply rmdir_keeps].
Qed.

(** C19 cd is atomic.  It enters the directories its path names one after the
    other, from the root for an absolute path; if all can be entered the
    shell is in the last one and the path of the prompt has followed (each
    name appended in capitals while it fits, [..] removing one); otherwise
    the shell is where it was, with the path it had, and says so. *)
Theorem cmd_cd_spec fuel s (argv : list (list Z)) cs :
  at_dir s -> screen_ok s -> cwd_path s = render cs -> Forall good_name cs ->
  let target := if (length argv <? 2)%nat then [ch_slash] else arg argv 1 in
  match chdir_all fuel (start_dir (vol s) target) (tokens target) with
  | Ret (true, v) =>
      cmd_cd fuel s argv = Ret (Shell (kern s) v
        (render (foldl walk_names (if is_absolute target then [] else cs) (tokens target))))
  | Ret (false, v) =>
      exists s', cmd_cd fuel s argv = Ret s' /\ stays s s' /\
        prints (Shell (kern s) (set_cwd v (cwd_cluster (vol s))) (cwd_path s))
          (ink VGA_LIGHT_RED (lit "cd failed: ") ++ ink VGA_LIGHT_GREY (c_string target) ++ ink VGA_LIGHT_GREY [ch_nl]) s'
  | Halt h => cmd_cd fuel s argv = Halt h
  | OutOfFuel => cmd_cd fuel s argv = OutOfFuel
  end.
Proof.
  intros Hd Hs Hp Hcs target. pose proof Hd as [Hm Hc]. unfold cmd_cd, fat32_is_mounted. rewrite Hm. cbn [negb]. cbv zeta.
  fold target. rewrite cd_start by done. rewrite Hp.
  set (s0 := Shell _ _ _). pose proof (cd_tokens_ok fuel s0 (tokens target) (tokens_ne target)) as Ht.
  change (vol s0) with (start_dir (vol s) target) in Ht.
  pose proof (chdir_all_moves fuel (start_dir (vol s) target) (tokens target)) as Hv.
  destruct (start_dir_place (vol s) target) as [F0 M0].
  destruct (chdir_all fuel _ _) as [[[] v] | |]; [rewrite Ht; cbn [obind] | | by rewrite Ht ..].
  - change (cwd_path s0) with (if is_absolute target then render [] else render cs).
    assert ((if is_absolute target then render [] else render cs) =
      render (if is_absolute target then [] else cs)) as -> by by destruct (is_absolute target).
    destruct (walk_path_ok (if is_absolute target then [] else cs) (tokens target)) as [-> _];
      [by destruct (is_absolute target) | apply tokens_good | done].
  - destruct Ht as [p ->]. cbn [obind ensures] in *. destruct Hv as [F1 M1].
    unfold set_cwd_cluster. cbn [vol with_vol]. unfold fat32_cwd_cluster. rewrite restored by congruence.
    set (s1 := with_cwd _ _). assert (screen_ok s1) as Hs1 by exact Hs.
    destruct (show_then s1 (lit "cd failed: ") VGA_LIGHT_RED (fun s => do! s := show s target in show s [ch_nl])
      (ink VGA_LIGHT_GREY (c_string target) ++ ink VGA_LIGHT_GREY [ch_nl]) Hs1) as (s' & E & Hpr).
    { intros s2 Hs2 _. apply show_then; [done |]. intros s3 Hs3 _. by apply show_ok. }
    exists s'. split; [exact E |]. split; [| exact Hpr].
    destruct (prints_rest _ _ _ Hpr) as (Ev & Ep & _). split; rewrite ?Ev, ?Ep; cbn; [done | split; cbn; congruence | congruence].
Qed.

End Commands.

(** ** Witnesses

    The shell on the volume of the witnesses of the file system, with a
    directory B. *)

From S2P Require Import Pmm Kheap Paging PagingExt Elf ElfSpec ElfLoad Ata FatMount TaskSwitch.

#[local] Existing Instance wit_paging.
#[local] Existing Instance wit_layout.
#[local] Existing Instance wit_uart.

Definition wit_dirs : fat ide := match fat32_mkdir 9 wit_fat wit_new with Ret (_, v) => v | _ => wit_fat end.
Definition wit_shell : shell (loader pmm held_heap) (list (Z * Z)) ide :=
  Shell (wit_kernel (wit_tasks wit_vm)) wit_dirs [ch_slash].

Lemma wit_shell_dir : at_dir wit_shell.
Proof. split; vm_compute; intuition discriminate. Qed.

Lemma wit_shell_screen : screen_ok wit_shell.
Proof. exists term0. apply shows_clear. Qed.

Lemma file_commands_stay_witness :
  at_dir wit_shell /\ ensures (cmd_cat 9 wit_shell [lit "cat"; lit "b/x"]) (stays wit_shell).
Proof.
  split; [exact wit_shell_dir |].
  apply (file_commands_stay 9 wit_shell [lit "cat"; lit "b/x"] (cmd_cat 9) wit_shell_dir).
  apply list_elem_of_further, list_elem_of_here.
Defined.

(** The directory B can be entered, what is below it cannot. *)
Definition wit_walk (target : list Z) : outcome (bool * fat ide) :=
  chdir_all 9 (start_dir (vol wit_shell) target) (tokens target).

Lemma wit_cd : match wit_walk (lit "b") with Ret (true, v) => cwd_cluster v =? 5 | _ => false end = true.
Proof. vm_compute. reflexivity. Qed.

Lemma wit_cd_missing : match wit_walk (lit "b/x") with Ret (false, v) => cwd_cluster v =? 5 | _ => false end = true.
Proof. vm_compute. reflexivity. Qed.

Lemma wit_shell_root : cwd_path wit_shell = render [].
Proof. reflexivity. Qed.

(** cd to a path of a directory and a missing one below it. *)
Lemma cmd_cd_spec_witness :
  let argv := [lit "cd"; lit "b/x"] in
  let target := if (length argv <? 2)%nat then [ch_slash] else arg argv 1 in
  match chdir_all 9 (start_dir (vol wit_shell) target) (tokens target) with
  | Ret (true, v) => cmd_cd 9 wit_shell argv = Ret (Shell (kern wit_shell) v
        (render (foldl walk_names (if is_absolute target then [] else []) (tokens target))))
  | Ret (false, v) => exists s', cmd_cd 9 wit_shell argv = Ret s' /\ stays wit_shell s'
  | Halt h => cmd_cd 9 wit_shell argv = Halt h
  | OutOfFuel => cmd_cd 9 wit_shell argv = OutOfFuel
  end.
Proof.
  intros argv target.
  pose proof (cmd_cd_spec 9 wit_shell argv [] wit_shell_dir wit_shell_screen wit_shell_root (Forall_nil_2 _)) as Hs.
  cbv zeta in Hs. fold target in Hs. clearbody target.
  destruct (chdir_all _ _ _) as [[[] v] | |]; [exact Hs | | exact Hs ..].
  destruct Hs as (s' & E & Hst & _). exists s'. split; [exact E | exact Hst].
Defined.
