(* ===== verification/ShellExec.v ===== *)
(** * Shell: running a program

    [cmd_exec] of [shell/shell.c], from a path on the volume to a task of
    ring 3: the file is read into a block of the heap, loaded by the ELF
    loader, and the block is given back. *)

From S2P Require Import Prelude Memory Interfaces Paging PagingExt Elf ElfSpec ElfLoad.
From S2P Require Import Keyboard Screen Fat32 Cpu Task Irq ShellText ShellFs.

Section Exec.
  Context {F : Type} `{FrameAllocator F} `{PagingLayout} {K : Type} `{HeapAllocator K} `{TaskCode} `{Uart}
    {P D : Type} `{BlockDevice D}.
  Notation M := (loader F K).
  Implicit Types s : shell M P D.

(** [fat32_read_file(&e, buf, size)] for a block [buf] of the heap, which is
    kernel memory. *)
Definition read_into s (e : dirent) (buf size : Z) : outcome (Z * shell M P D) :=
  let c := ksched (kern s) in
  do! (n, b, v) := fat32_read_file (vol s) e (copy_bytes size (kmem c) buf ∅ 0) size in
  Ret (n, with_vol (with_kern s (with_sched (kern s) (with_kmem c (copy_bytes size b 0 (kmem c) buf)))) v).

(** [elf_load(buf, size, &img)]. *)
Definition load_program s (buf size : Z) : outcome (Z * option Z * shell M P D) :=
  do! (r, img, m) := elf_load (kmem (ksched (kern s))) buf size (mem_pool s) in
  Ret (r, img, with_mem s m).

(** The end of exec: the task for the image, and the message. *)
Definition exec_task s (path : list Z) (img : Z) : outcome (shell M P D) :=
  do! (t, c) := task_create_user_image (ksched (kern s)) path img in
  let s := with_kern s (with_sched (kern s) c) in
  if negb (truth t) then
    do! m := elf_unload (mem_pool s) img in
    show_color (with_mem s m) (litn "exec: failed to spawn task") VGA_LIGHT_RED
  else
    do! d := get (ksched (kern s)) t in
    do! s := show s (lit "exec: pid=") in
    do! s := show_dec s (id d) in
    match limages (mem_pool s) !! img with
    | None => Halt (BadAccess img)
    | Some i =>
        do! s := show s (lit " entry=") in
        do! s := show_hex s (entry i) in
        do! s := show s (lit " segs=") in
        do! s := show_dec s (seg_count i) in
        show s [ch_nl]
    end.

(** The part of exec that follows the checks on the entry [e]. *)
Definition exec_file s (e : dirent) (path : list Z) : outcome (shell M P D) :=
  do! (buf, s) := kmalloc s (e_size e) in
  if negb (truth buf) then show_color s (litn "exec: out of heap") VGA_LIGHT_RED
  else
    do! (n, s) := read_into s e buf (e_size e) in
    if (n <? 0) || negb (u32 n =? e_size e) then
      do! s := kfree s buf in show_color s (litn "exec: read error") VGA_LIGHT_RED
    else
      do! (er, img, s) := load_program s buf (e_size e) in
      do! s := kfree s buf in
      if er <? 0 then
        do! s := show_color s (lit "exec: not a valid i386 ELF (rc=") VGA_LIGHT_RED in
        do! s := show_dec s (u32 (- er)) in
        show s (litn ")")
      else exec_task s path (default 0 img).

Definition cmd_exec (fuel : nat) s (argv : list (list Z)) : outcome (shell M P D) :=
  if (length argv <? 2)%nat then show s (litn "usage: exec <path>")
  else if negb (fat32_is_mounted (vol s)) then not_mounted s
  else if negb (tasking_active (ksched (kern s))) then show_color s (litn "multitasking not active") VGA_LIGHT_RED
  else
    do! (r, saved, base, s) := path_to_parent_and_base fuel s (arg argv 1) in
    if r <? 0 then show_color s (litn "exec: invalid path") VGA_LIGHT_RED
    else
      do! (rc, e, v) := fat32_find fuel (vol s) base in
      let s := set_cwd_cluster (with_vol s v) saved in
      match e with
      | None =>
          do! s := show_color s (lit "exec: not found: ") VGA_LIGHT_RED in
          do! s := show s (arg argv 1) in
          show s [ch_nl]
      | Some e =>
          if truth (Z.land (e_attr e) FAT_ATTR_DIRECTORY)
          then show_color s (litn "exec: is a directory") VGA_LIGHT_RED
          else if e_size e =? 0 then show_color s (litn "exec: empty file") VGA_LIGHT_RED
          else exec_file s e (arg argv 1)
      end.

End Exec.
