(* ===== verification/ShellSys.v ===== *)
(** * Shell: the system commands and the main loop

    The commands of [shell/shell.c] on memory, time and tasks, the table of
    commands, [exec] and [shell_run], on the kernel's own memory manager. *)

From S2P Require Import Prelude Memory Interfaces Pmm Kheap Paging PagingExt Elf ElfSpec ElfLoad.
From S2P Require Import Keyboard Screen Fat32 Cpu Task Irq ShellText ShellLine ShellFs.

(** ** Output without a kernel state of its own *)

(** A bar of [n] characters, the first [used] of them [|]. *)
Section Commands.
  Context `{PagingLayout} `{HeapLayout} `{TaskCode} `{Uart} {P D : Type} `{BlockDevice D}.
  Notation M := (loader pmm held_heap).
  Implicit Types (s : shell M P D) (e : env M P).

Definition frames_of s : pmm := vframes (lvm (mem_pool s)).
Definition with_pages s (v : vm pmm) : shell M P D :=
  with_mem s (Loader v (lheap (mem_pool s)) (limages (mem_pool s))).

(** [if (i < used_bars) "|" else "-"], [n] times. *)
Definition show_bar s (n used_bars : Z) : outcome (shell M P D) :=
  for_range 0 n (fun o i =>
    do! s := o in
    if i <? used_bars then show_color s (lit "|") VGA_LIGHT_RED
    else show_color s (lit "-") VGA_LIGHT_GREEN) (Ret s).

(** A number between two texts, as the messages of the shell print it. *)
Definition show_num s (before : string) (n : Z) : outcome (shell M P D) :=
  do! s := show s (lit before) in show_dec s n.

(** ** Text *)

Definition cmd_clear s (argv : list (list Z)) : outcome (shell M P D) :=
  Ret (with_screen s (clear_screen (kscreen (kern s)))).

(** The loop of echo over the arguments after the first one or more. *)
Fixpoint echo_args s (first : bool) (args : list (list Z)) : outcome (shell M P D) :=
  match args with
  | [] => Ret s
  | a :: args' =>
      do! s := (if first then Ret s else show_char s ch_sp) in
      do! s := show s a in
      echo_args s false args'
  end.

Definition cmd_echo s (argv : list (list Z)) : outcome (shell M P D) :=
  do! s := echo_args s true (drop 1 argv) in show_char s ch_nl.

Definition cmd_version s (argv : list (list Z)) : outcome (shell M P D) :=
  do! s := show_color s (litn "MyOS v1.0  (mini-Unix milestone)") VGA_LIGHT_CYAN in
  do! s := show s (litn "  Arch  : x86 (i686), 32-bit protected mode + paging") in
  do! s := show s (litn "  Kernel: custom bootloader + C kernel") in
  do! s := show s (litn "  Phases: boot / GDT+IDT / keyboard / PMM / shell / paging") in
  do! s := show s (litn "        / FAT32 / serial+PIT / kheap / multitasking") in
  do! s := show s (litn "        / user mode + syscalls / ELF loader") in
  do! s := show s (litn "  FS    : ls cat touch write rm mkdir rmdir cd pwd") in
  do! s := show s (litn "  Time  : uptime sleep   (PIT 100 Hz, COM1 115200 8N1)") in
  do! s := show s (litn "  Heap  : heap kalloc    (256 KB freelist, 8B align, coalesce)") in
  do! s := show s (litn "  Tasks : tasks spawn yield user exec  (ring 0 + ring 3)") in
  do! s := show s (litn "  Sys   : exit write getpid sleep_ms (4 syscalls)") in
  show s (litn "  Exec  : ELF32 PT_LOAD -> 0x40000000 (vmm_map + USER pages)").

Definition cmd_halt s (argv : list (list Z)) : outcome (shell M P D) :=
  do! s := show_color s (litn "System halted.") VGA_LIGHT_RED in Halt Stopped.

(** ** Memory *)

Definition cmd_meminfo s (argv : list (list Z)) : outcome (shell M P D) :=
  let total_kb := u32 (pmm_total_pages (frames_of s) * (Pmm.PAGE_SIZE / 1024)) in
  let free_kb := u32 (pmm_free_pages (frames_of s) * (Pmm.PAGE_SIZE / 1024)) in
  let used_kb := u32 (total_kb - free_kb) in
  do! s := show_color s (litn "Physical Memory") VGA_LIGHT_CYAN in
  do! s := show_num s "  Total : " (total_kb / 1024) in do! s := show s (litn " MB") in
  do! s := show_num s "  Used  : " (used_kb / 1024) in do! s := show s (litn " MB") in
  do! s := show_num s "  Free  : " (free_kb / 1024) in do! s := show s (litn " MB") in
  if total_kb =? 0 then Ret s
  else
    do! s := show s (lit "  [") in
    do! s := show_bar s 30 (u32 (used_kb * 30) / total_kb) in
    do! s := show s (lit "] ") in
    do! s := show_dec s (u32 (used_kb * 100) / total_kb) in
    do! s := show s (litn "% used") in
    do! hs := kheap_get_stats (the_heap (lheap (mem_pool s))) in
    do! s := show_color s (lit "Kernel Heap : ") VGA_LIGHT_CYAN in
    do! s := show_dec s (used_bytes hs) in
    do! s := show_num s " / " (total_bytes hs) in do! s := show s (lit " bytes used") in
    do! s := show_num s " (" (blocks_used hs) in show s (litn " blocks)").

Definition page_usage s : outcome (shell M P D) := show s (litn "usage: page alloc | page free <addr>").

Definition cmd_page s (argv : list (list Z)) : outcome (shell M P D) :=
  if (length argv <? 2)%nat then page_usage s
  else if str_eq (arg argv 1) (lit "alloc") then
    let '(p, f) := pmm_alloc (frames_of s) in
    let s := with_pages s (with_frames (lvm (mem_pool s)) f) in
    if negb (truth p) then show_color s (litn "Out of memory!") VGA_LIGHT_RED
    else
      do! s := show s (lit "Allocated page at: ") in
      do! s := show_hex s p in
      show s [ch_nl]
  else if str_eq (arg argv 1) (lit "free") && (3 <=? length argv)%nat then
    let addr := parse_uint (arg argv 2) in
    if negb (addr mod Pmm.PAGE_SIZE =? 0) then
      show_color s (litn "Address must be page-aligned (multiple of 4096)") VGA_LIGHT_RED
    else
      let s := with_pages s (with_frames (lvm (mem_pool s)) (pmm_free (frames_of s) addr)) in
      do! s := show s (lit "Freed page at: ") in
      do! s := show_hex s addr in
      show s [ch_nl]
  else page_usage s.

Definition cmd_vmap s (argv : list (list Z)) : outcome (shell M P D) :=
  if (length argv <? 2)%nat then show s (litn "usage: vmap <virt>")
  else
    let v := parse_uint (arg argv 1) in
    do! (p, m) := vmm_get_phys (lvm (mem_pool s)) v in
    let s := with_pages s m in
    do! s := show s (lit "virt ") in
    do! s := show_hex s v in
    if p =? 0xFFFFFFFF then show_color s (litn " -> (unmapped)") VGA_LIGHT_RED
    else
      do! s := show s (lit " -> phys ") in
      do! s := show_hex s p in
      show s [ch_nl].

Definition cmd_pftest s (argv : list (list Z)) : outcome (shell M P D) :=
  do! s := show_color s (litn "Triggering page fault at 0xDEADC000 ...") VGA_LIGHT_RED in
  do! (_, m) := rd32 (lvm (mem_pool s)) 0xDEADC000 in
  show (with_pages s m) (litn "(unreachable)").

Definition cmd_heap s (argv : list (list Z)) : outcome (shell M P D) :=
  do! hs := kheap_get_stats (the_heap (lheap (mem_pool s))) in
  do! s := show_color s (litn "Kernel Heap") VGA_LIGHT_CYAN in
  do! s := show_num s "  Arena : " (total_bytes hs) in do! s := show s (litn " bytes") in
  do! s := show_num s "  Used  : " (used_bytes hs) in
  do! s := show_num s " bytes (" (blocks_used hs) in do! s := show s (litn " blocks)") in
  do! s := show_num s "  Free  : " (free_bytes hs) in
  do! s := show_num s " bytes (" (blocks_free hs) in do! s := show s (litn " blocks)") in
  do! s := show_num s "  Largest free block: " (largest_free hs) in do! s := show s (litn " bytes") in
  if total_bytes hs =? 0 then Ret s
  else
    do! s := show s (lit "  [") in
    let denom := u32 (used_bytes hs + free_bytes hs) in
    let denom := if denom =? 0 then 1 else denom in
    do! s := show_bar s 32 (u32 (used_bytes hs * 32) / denom) in
    do! s := show s (lit "] ") in
    do! s := show_dec s (u32 (used_bytes hs * 100) / denom) in
    show s (litn "% used").

Definition kalloc_usage s : outcome (shell M P D) :=
  show s (litn "usage: kalloc alloc <bytes> | kalloc free <addr>").

Definition cmd_kalloc s (argv : list (list Z)) : outcome (shell M P D) :=
  if (length argv <? 2)%nat then kalloc_usage s
  else if str_eq (arg argv 1) (lit "alloc") && (3 <=? length argv)%nat then
    let n := parse_uint (arg argv 2) in
    do! (p, s) := ShellFs.kmalloc s n in
    if negb (truth p) then show_color s (litn "kmalloc returned NULL (OOM)") VGA_LIGHT_RED
    else
      do! s := show_num s "kmalloc(" n in
      do! s := show s (lit ") -> ") in
      do! s := show_hex s p in
      show s [ch_nl]
  else if str_eq (arg argv 1) (lit "free") && (3 <=? length argv)%nat then
    let a := parse_uint (arg argv 2) in
    do! s := ShellFs.kfree s a in
    do! s := show s (lit "kfree(") in
    do! s := show_hex s a in
    show s (litn ") done")
  else kalloc_usage s.

(** ** Time *)

(** [if (n < 10) kputchar('0'); kprint_dec(n)]. *)
Definition show_two s (n : Z) : outcome (shell M P D) :=
  do! s := (if n <? 10 then show_char s ch_0 else Ret s) in show_dec s n.

Definition cmd_uptime s (argv : list (list Z)) : outcome (shell M P D) :=
  let total := timer_uptime_seconds (kern s) in
  let hr := total / 3600 in
  let mn := (total / 60) mod 60 in
  let sc := total mod 60 in
  do! s := show_num s "up " hr in do! s := show s (lit "h ") in
  do! s := show_two s mn in do! s := show s (lit "m ") in
  do! s := show_two s sc in do! s := show s (lit "s   (") in
  do! s := show_dec s (timer_ticks (kern s)) in
  do! s := show_num s " ticks @ " TIMER_HZ in
  show s (litn " Hz)").

Definition cmd_sleep e s (argv : list (list Z)) : outcome (shell M P D) :=
  if (length argv <? 2)%nat then show s (litn "usage: sleep <seconds>")
  else
    let sec := parse_uint (arg argv 1) in
    if sec =? 0 then show s (litn "sleep: 0 seconds, returning immediately")
    else
      let sec := if 3600 <? sec then 3600 else sec in
      do! k := timer_sleep_ms e (kern s) (u32 (sec * 1000)) in
      Ret (with_kern s k).

(** ** Tasks *)

Definition inactive s : outcome (shell M P D) := show_color s (litn "multitasking not active") VGA_LIGHT_RED.

Definition state_str (st : task_state) : list Z :=
  match st with
  | TASK_RUNNING => lit "RUN "
  | TASK_READY => lit "RDY "
  | TASK_ZOMBIE => lit "DEAD"
  end.

(** The line of a task. *)
Definition show_task s (i : task_info) : outcome (shell M P D) :=
  do! s := (if ti_is_current i then show_color s (lit "*") VGA_LIGHT_GREEN else show_char s ch_sp) in
  do! s := show s (lit " ") in
  do! s := show_dec s (ti_id i) in
  do! s := (if ti_id i <? 10 then show_char s ch_sp else Ret s) in
  do! s := show s (lit "  ") in
  do! s := show s (state_str (ti_state i)) in
  do! s := show s (lit "   ") in
  do! s := show_dec s (ti_ticks_run i) in
  do! s := show_times (8 - 4) s ch_sp in
  do! s := show s (ti_name i) in
  show_char s ch_nl.

(** [info], the array on the stack, is not null. *)
Definition cmd_tasks s (argv : list (list Z)) : outcome (shell M P D) :=
  if negb (tasking_active (ksched (kern s))) then show s (litn "multitasking not active")
  else
    do! (info, c) := task_list_snapshot (ksched (kern s)) 1 16 in
    let s := with_kern s (with_sched (kern s) c) in
    do! s := show_color s (litn "ID  STATE  TICKS    NAME") VGA_LIGHT_CYAN in
    foldl (fun o i => do! s := o in show_task s i) (Ret s) info.

Definition show_spawned s (before : string) (t : Z) : outcome (shell M P D) :=
  do! d := get (ksched (kern s)) t in
  do! s := show_num s before (id d) in
  do! s := show s (lit " '") in
  do! s := show s (name d) in
  show s (litn "'").

(** [counter_task]: [es] is what each round of its loop meets. *)
Fixpoint counter_loop (es : list (env M P)) s (me i : Z) : outcome (shell M P D) :=
  match es with
  | [] => Ret s
  | e :: es' =>
      do! d := get (ksched (kern s)) me in
      do! s := show s (ch_nl :: lit "[T") in
      do! s := show_dec s (id d) in
      do! s := show_num s ":" i in
      do! s := show s (lit "] tick from ") in
      do! s := show s (name d) in
      do! s := show_char s ch_nl in
      do! k := timer_sleep_ms e (kern s) 1000 in
      counter_loop es' (with_kern s k) me (i + 1)
  end.

Definition counter_task (es : list (env M P)) s : outcome (shell M P D) :=
  let me := task_current (ksched (kern s)) in counter_loop (take 5 es) s me 0.

(** The loop of spawn; [entry] is the address of [counter_task]. *)
Fixpoint spawn_loop (n : nat) s (entry i : Z) : outcome (shell M P D) :=
  match n with
  | O => Ret s
  | S n' =>
      let nm := lit "cnt-" ++ [ch_0 + i mod 10] in
      do! (t, c) := task_create (ksched (kern s)) nm entry in
      let s := with_kern s (with_sched (kern s) c) in
      if negb (truth t) then show_color s (litn "spawn failed (kheap?)") VGA_LIGHT_RED
      else
        do! s := show_spawned s "spawned task #" t in
        spawn_loop n' s entry (i + 1)
  end.

Definition cmd_spawn (entry : Z) s (argv : list (list Z)) : outcome (shell M P D) :=
  if (length argv <? 2)%nat then show s (litn "usage: spawn <count>")
  else if negb (tasking_active (ksched (kern s))) then inactive s
  else
    let n := parse_uint (arg argv 1) in
    let n := if n =? 0 then 1 else n in
    let n := if 8 <? n then 8 else n in
    spawn_loop (Z.to_nat n) s entry 0.

(** The state in which the shell goes on after [task_yield]: the one it gave
    the processor up in if nothing else ran, or else the next of [wakes]. *)
Definition resumed e (r : option regs) (k : kernel M P) : outcome (kernel M P) :=
  match r with
  | None => Ret k
  | Some _ => match wakes e with k' :: _ => Ret k' | [] => OutOfFuel end
  end.

Definition cmd_yield e s (argv : list (list Z)) : outcome (shell M P D) :=
  if negb (tasking_active (ksched (kern s))) then inactive s
  else
    do! (r, c) := task_yield (at_switch e) (ksched (kern s)) in
    do! k := resumed e r (with_sched (kern s) c) in
    show (with_kern s k) (litn "(back from yield)").

(** [entry] is the address of [user_demo_entry]. *)
Definition cmd_user (entry : Z) s (argv : list (list Z)) : outcome (shell M P D) :=
  if negb (tasking_active (ksched (kern s))) then inactive s
  else
    do! (t, c) := task_create_user (ksched (kern s)) (lit "ring3-demo") entry in
    let s := with_kern s (with_sched (kern s) c) in
    if negb (truth t) then show_color s (litn "failed to spawn user task (kheap?)") VGA_LIGHT_RED
    else show_spawned s "spawned ring-3 task #" t.

End Commands.
