(* ===== verification/ShellRun.v ===== *)
(** * Shell: the table of commands and the main loop

    [cmds], help, [exec] and [shell_run] of [shell/shell.c]. *)

From S2P Require Import Prelude Memory Interfaces Pmm Kheap Paging PagingExt Elf ElfSpec ElfLoad.
From S2P Require Import Keyboard Screen Fat32 Cpu Task Irq ShellText ShellLine ShellFs ShellPath ShellExec ShellSys.

(** ** The table *)

(** The functions of the table. *)
Inductive cmd_fn : Type :=
  | Help | Clear | Echo | Meminfo | Page | Vmap | Pftest | Ls | Cat | Touch | Write | Rm | Mkdir | Rmdir | Cd | Pwd
  | Uptime | Sleep | Heap | Kalloc | Tasks | Spawn | Yield | User | Exec | Version | HaltCmd.

#[export] Instance cmd_fn_eq_dec : EqDecision cmd_fn.
Proof. solve_decision. Defined.

Record cmd_t : Type := Cmd { cmd_name : list Z; cmd_desc : list Z; cmd_call : cmd_fn }.

Definition cmd (name desc : string) (fn : cmd_fn) : cmd_t := Cmd (lit name) (lit desc) fn.

Definition cmds : list cmd_t := [
  cmd "help" "show this command list" Help;
  cmd "clear" "clear the screen" Clear;
  cmd "echo" "print text                echo <text>" Echo;
  cmd "meminfo" "show memory usage" Meminfo;
  cmd "page" "alloc / free a page      page alloc|free <addr>" Page;
  cmd "vmap" "show v->p mapping        vmap <virt>" Vmap;
  cmd "pf-test" "trigger a page fault" Pftest;
  cmd "ls" "list files               ls [path]" Ls;
  cmd "cat" "print a file             cat <path>" Cat;
  cmd "touch" "create empty file        touch <path>" Touch;
  cmd "write" "overwrite file content   write <path> <text>" Write;
  cmd "rm" "delete a file            rm <path>" Rm;
  cmd "mkdir" "create a directory       mkdir <path>" Mkdir;
  cmd "rmdir" "remove an empty dir      rmdir <path>" Rmdir;
  cmd "cd" "change directory         cd <path> | .. | /" Cd;
  cmd "pwd" "print current path" Pwd;
  cmd "uptime" "show how long the system has been up" Uptime;
  cmd "sleep" "wait N seconds            sleep <seconds>" Sleep;
  cmd "heap" "show kernel heap stats" Heap;
  cmd "kalloc" "kmalloc/kfree test        kalloc alloc <n> | kalloc free <addr>" Kalloc;
  cmd "tasks" "list scheduled tasks" Tasks;
  cmd "spawn" "spawn N counter tasks     spawn <count>" Spawn;
  cmd "yield" "voluntarily give up CPU" Yield;
  cmd "user" "run a ring-3 demo task" User;
  cmd "exec" "load an ELF and run it      exec <path>" Exec;
  cmd "version" "show OS version info" Version;
  cmd "halt" "halt the system" HaltCmd
].

Definition NUM_CMDS : Z := Z.of_nat (length cmds).

Section Run.
  Context `{PagingLayout} `{HeapLayout} `{TaskCode} `{Uart} {P D : Type} `{BlockDevice D}.
  (** The addresses of [counter_task] and [user_demo_entry]. *)
  Context (counter_entry demo_entry : Z).
  Notation M := (loader pmm held_heap).
  Implicit Types (s : shell M P D) (e : env M P).

(** The line of help for a command. *)
Definition help_line s (c : cmd_t) : outcome (shell M P D) :=
  do! s := show s (lit "  ") in
  do! s := show_color s (cmd_name c) VGA_YELLOW in
  do! s := show_times (Z.to_nat (10 - str_len (cmd_name c))) s ch_sp in
  do! s := show s (cmd_desc c) in
  show_char s ch_nl.

Definition cmd_help s (argv : list (list Z)) : outcome (shell M P D) :=
  do! s := show_color s (litn "Commands:") VGA_LIGHT_CYAN in
  foldl (fun o c => do! s := o in help_line s c) (Ret s) cmds.

(** [fuel] bounds the walks of the file system. *)
Definition call (fuel : nat) e (fn : cmd_fn) s (argv : list (list Z)) : outcome (shell M P D) :=
  match fn with
  | Help => cmd_help s argv
  | Clear => cmd_clear s argv
  | Echo => cmd_echo s argv
  | Meminfo => cmd_meminfo s argv
  | Page => cmd_page s argv
  | Vmap => cmd_vmap s argv
  | Pftest => cmd_pftest s argv
  | Ls => cmd_ls fuel s argv
  | Cat => cmd_cat fuel s argv
  | Touch => cmd_touch fuel s argv
  | Write => cmd_write fuel s argv
  | Rm => cmd_rm fuel s argv
  | Mkdir => cmd_mkdir fuel s argv
  | Rmdir => cmd_rmdir fuel s argv
  | Cd => cmd_cd fuel s argv
  | Pwd => cmd_pwd s argv
  | Uptime => cmd_uptime s argv
  | Sleep => cmd_sleep e s argv
  | Heap => cmd_heap s argv
  | Kalloc => cmd_kalloc s argv
  | Tasks => cmd_tasks s argv
  | Spawn => cmd_spawn counter_entry s argv
  | Yield => cmd_yield e s argv
  | User => cmd_user demo_entry s argv
  | Exec => cmd_exec fuel s argv
  | Version => cmd_version s argv
  | HaltCmd => cmd_halt s argv
  end.

(** ** [exec] *)

(** The search for the command. *)
Fixpoint exec_loop (fuel : nat) e (l : list cmd_t) s (argv : list (list Z)) : outcome (shell M P D) :=
  match l with
  | [] =>
      do! s := show_color s (lit "unknown: ") VGA_LIGHT_RED in
      do! s := show s (arg argv 0) in
      show s (litn "  (type 'help')")
  | c :: l' =>
      if str_eq (arg argv 0) (cmd_name c) then call fuel e (cmd_call c) s argv
      else exec_loop fuel e l' s argv
  end.

Definition exec (fuel : nat) e s (line : list Z) : outcome (shell M P D) :=
  do! (line, ps) := parse line in
  match ps with
  | [] => Ret s
  | _ => exec_loop fuel e cmds s (arg_at line <$> ps)
  end.

(** ** [shell_run] *)

(** One round of its loop: the prompt, a line, the command. *)
Definition shell_turn (fuel : nat) e (irqs : list interrupt) s : outcome (list interrupt * shell M P D) :=
  do! s := show_color s (cwd_path s) VGA_LIGHT_GREEN in
  do! s := show_color s (lit "> ") VGA_LIGHT_GREEN in
  do! (line, irqs, k, v) := readline irqs (kkbd (kern s)) (kscreen (kern s)) LINE_MAX in
  do! s := exec fuel e (with_kern s (with_kbd (Irq.with_screen (kern s) v) k)) line in
  Ret (irqs, s).

(** As many rounds as there are elements in [es], each of which says what
    the command of its round meets. *)
Fixpoint shell_loop (fuel : nat) (es : list (env M P)) (irqs : list interrupt) s
    : outcome (list interrupt * shell M P D) :=
  match es with
  | [] => Ret (irqs, s)
  | e :: es' => do! (irqs, s) := shell_turn fuel e irqs s in shell_loop fuel es' irqs s
  end.

Definition shell_run (fuel : nat) (es : list (env M P)) (irqs : list interrupt) s
    : outcome (list interrupt * shell M P D) :=
  do! s := show_color s (lit "MyOS Shell - ") VGA_YELLOW in
  do! s := show s (lit "type 'help' for commands" ++ [ch_nl; ch_nl]) in
  shell_loop fuel es irqs s.

End Run.

(** ** Which command a line runs *)

Section Dispatch.
  Context `{PagingLayout} `{HeapLayout} `{TaskCode} `{Uart} {P D : Type} `{BlockDevice D}.
  Context (counter_entry demo_entry : Z).
  Notation M := (loader pmm held_heap).
  Implicit Types (s : shell M P D) (e : env M P).

Notation call := (call counter_entry demo_entry).
Notation exec := (exec counter_entry demo_entry).
Notation exec_loop := (exec_loop counter_entry demo_entry).
Notation shell_turn := (shell_turn counter_entry demo_entry).

(** The reference: the first command of the table with the first word as its
    name, called with all the words. *)
Definition run_words (fuel : nat) e s (words : list (list Z)) : outcome (shell M P D) :=
  match words with
  | [] => Ret s
  | w :: _ =>
      match list_find (fun c => cmd_name c = w) cmds with
      | Some (_, c) => call fuel e (cmd_call c) s words
      | None =>
          do! s := show_color s (lit "unknown: ") VGA_LIGHT_RED in
          do! s := show s w in
          show s (litn "  (type 'help')")
      end
  end.

(** The names of the table: no two are equal, and each is a word. *)
Definition word (w : list Z) : Prop := w ≠ [] /\ plain w /\ ch_sp ∉ w.

Lemma cmds_names : NoDup (cmd_name <$> cmds) /\ Forall word (cmd_name <$> cmds).
Proof.
  split; [apply (bool_decide_unpack _); vm_compute; exact I |].
  assert (forallb (fun w => negb (bool_decide (w = [])) && forallb (fun c => negb (c =? 0)) w && negb (existsb (Z.eqb ch_sp) w))
    (cmd_name <$> cmds) = true) as Hb by (vm_compute; reflexivity).
  rewrite forallb_forall in Hb. apply Forall_forall. intros w Hw%list_elem_of_In. specialize (Hb w Hw).
  apply andb_true_iff in Hb as [[Hne Hp]%andb_true_iff Hs]. split_and!.
  - intros ->. done.
  - rewrite forallb_forall in Hp. apply Forall_forall. intros c Hc%list_elem_of_In. specialize (Hp c Hc). by intros ->.
  - intros Hin%list_elem_of_In. apply negb_true_iff in Hs. rewrite <- not_true_iff_false in Hs. apply Hs, existsb_exists.
    exists ch_sp. by rewrite Z.eqb_refl.
Qed.

Lemma exec_loop_ok fuel e s w args l : plain w -> Forall word (cmd_name <$> l) ->
  exec_loop fuel e l s (w :: args) =
    match list_find (fun c => cmd_name c = w) l with
    | Some (_, c) => call fuel e (cmd_call c) s (w :: args)
    | None => do! s := show_color s (lit "unknown: ") VGA_LIGHT_RED in do! s := show s w in show s (litn "  (type 'help')")
    end.
Proof.
  intros Hw. induction l as [|c l IH]; intros Hl; [done |]. cbn [ShellRun.exec_loop list_find].
  cbn [fmap list_fmap] in Hl. apply Forall_cons in Hl as [(_ & Hp & _) Hl].
  change (arg (w :: args) 0) with w. pose proof (str_eq_ok w (cmd_name c)) as Hs. rewrite !c_string_id in Hs by done.
  destruct (str_eq w (cmd_name c)).
  - by rewrite decide_True by (symmetry; by apply Hs).
  - rewrite decide_False by (intros E; by apply diff_false_true, Hs). rewrite IH by done. by destruct (list_find _ l) as [[] |].
Qed.

Lemma pieces_plain sep l : plain l -> Forall plain (pieces sep l).
Proof.
  intros Hl. assert (Forall plain (split_on sep l)) as Hs.
  2: { rewrite Forall_forall in Hs |- *. intros w [_ Hw]%list_elem_of_filter. by apply Hs. }
  induction l as [|c l IH]; cbn [split_on]; [apply Forall_singleton; constructor |].
  apply Forall_cons in Hl as [Hc Hl]. specialize (IH Hl). destruct (c =? sep).
  { apply Forall_cons. split; [constructor | done]. }
  destruct (split_on sep l) as [|w ws]; [by apply Forall_singleton, Forall_singleton |].
  apply Forall_cons in IH as [Hw Hws]. apply Forall_cons. split; [by apply Forall_cons | done].
Qed.

Lemma exec_ok fuel e s line : plain line -> (length (pieces ch_sp line) < ARGS_MAX)%nat ->
  exec fuel e s line = run_words fuel e s (pieces ch_sp line).
Proof.
  intros Hl Hn. destruct (parse_loop_ok (S (length line)) [] line [] Hl) as (line' & argv & E & _ & Hlt & _);
    [lia | cbn; unfold ARGS_MAX; lia |].
  specialize (Hlt Hn). unfold ShellRun.exec, parse. cbn [app length] in E. rewrite E. cbn [obind].
  pose proof (pieces_plain ch_sp line Hl) as Hp. rewrite <- Hlt in Hp |- *. destruct argv as [|p argv]; [done |].
  cbn [fmap list_fmap] in *. apply Forall_cons in Hp as [Hp _]. apply exec_loop_ok; [done | apply cmds_names].
Qed.

Lemma find_name c : c ∈ cmds -> exists i, list_find (fun c' => cmd_name c' = cmd_name c) cmds = Some (i, c).
Proof.
  intros Hc. destruct (list_find_elem_of (fun c' => cmd_name c' = cmd_name c) cmds c Hc eq_refl) as [[i c'] E].
  exists i. rewrite E. do 2 f_equal. apply list_find_Some in E as (Hi & En & _). apply list_elem_of_lookup in Hc as [j Hj].
  assert (i = j) as ->; [| congruence].
  eapply (NoDup_lookup (cmd_name <$> cmds) i j (cmd_name c)); [apply cmds_names | |];
    rewrite list_lookup_fmap; [rewrite Hi; cbn; by rewrite En | by rewrite Hj].
Qed.

(** ** Properties *)

(** C23 The command line.  A line of fewer than sixteen words runs the
    command of the table that its first word names, with the words as
    arguments; the table names every command, and no two alike.  A blank
    line does nothing, and a word that names no command is said to be
    unknown, and changes nothing but the screen. *)
Theorem exec_dispatch fuel e s line :
  plain line -> (length (pieces ch_sp line) < ARGS_MAX)%nat ->
  (forall c args, c ∈ cmds -> pieces ch_sp line = cmd_name c :: args ->
     exec fuel e s line = call fuel e (cmd_call c) s (cmd_name c :: args)) /\
  (forall fn, exists c, c ∈ cmds /\ cmd_call c = fn) /\
  (pieces ch_sp line = [] -> exec fuel e s line = Ret s) /\
  (forall w args, pieces ch_sp line = w :: args -> w ∉ cmd_name <$> cmds -> screen_ok s ->
     exists s', exec fuel e s line = Ret s' /\
       prints s (ink VGA_LIGHT_RED (lit "unknown: ") ++ ink VGA_LIGHT_GREY w ++ ink VGA_LIGHT_GREY (litn "  (type 'help')")) s').
Proof.
  intros Hl Hn. pose proof (exec_ok fuel e s line Hl Hn) as E. pose proof (pieces_plain ch_sp line Hl) as Hp. split_and!.
  - intros c args Hc Ew. rewrite Ew in E. rewrite E. cbn [run_words]. by destruct (find_name c Hc) as [i ->].
  - intros fn. assert (bool_decide (fn ∈ cmd_call <$> cmds) = true) as Hf%bool_decide_eq_true by by destruct fn.
    apply list_elem_of_fmap in Hf as (c & -> & Hc). by exists c.
  - intros Ew. by rewrite E, Ew.
  - intros w args Ew Hw Hs. rewrite Ew in E, Hp. apply Forall_cons in Hp as [Hp _]. rewrite E. cbn [run_words].
    assert (list_find (fun c => cmd_name c = w) cmds = None) as ->.
    { apply list_find_None, Forall_forall. intros c Hc <-. by apply Hw, list_elem_of_fmap_2. }
    destruct (show_then s (lit "unknown: ") VGA_LIGHT_RED (fun s => do! s := show s w in show s (litn "  (type 'help')"))
      (ink VGA_LIGHT_GREY (c_string w) ++ ink VGA_LIGHT_GREY (litn "  (type 'help')")) Hs) as (s' & Es & Hpr).
    + intros s1 Hs1 _. apply show_then; [done |]. intros s2 Hs2 _. by apply show_ok.
    + rewrite (c_string_id w Hp) in Hpr. by exists s'.
Qed.

(** C17 One round of the shell.  The prompt is printed, the keys up to Enter
    are edited into a line and echoed, and the line is run: the round is the
    command the typed words name, in the state with the keys taken and the
    screen showing prompt and line.  The prompt and the line together are on
    one screen, which has not scrolled. *)
Theorem shell_turn_spec fuel e irqs s t k cs irqs' k' :
  shows (kscreen (kern s)) t -> repr (kkbd (kern s)) k -> plain (cwd_path s) -> Forall irq_ok irqs ->
  spec_chars (S (length cs)) irqs k = Some (cs ++ [ch_nl], irqs', k') -> Forall in_line cs ->
  let t0 := term_ink t (ink VGA_LIGHT_GREEN (cwd_path s) ++ ink VGA_LIGHT_GREEN (lit "> ")) in
  lin t0 + widths cs < ROWS * COLS ->
  let '(line, t1) := edit_all LINE_MAX [] t0 cs in
  plain line -> (length (pieces ch_sp line) < ARGS_MAX)%nat ->
  exists kb v, repr kb k' /\ shows v (term_char (vga_color VGA_LIGHT_GREY VGA_BLACK) t1 ch_nl) /\
    shell_turn fuel e irqs s =
      do! s' := run_words fuel e (with_kern s (with_kbd (Irq.with_screen (kern s) v) kb)) (pieces ch_sp line) in Ret (irqs', s').
Proof.
  intros Ht Hk Hpath Hirq Hc Hin t0 Hfit.
  assert (screen_ok s) as Hs by by exists t.
  destruct (show_color_ok s (cwd_path s) VGA_LIGHT_GREEN Hs) as (s1 & E1 & P1). rewrite c_string_id in P1 by done.
  pose proof (prints_ok _ _ _ Hs P1) as S1. destruct (show_color_ok s1 (lit "> ") VGA_LIGHT_GREEN S1) as (s2 & E2 & P2).
  destruct (prints_trans _ _ _ _ _ P1 P2) as (v2 & -> & Hv2). specialize (Hv2 t Ht).
  change (c_string (lit "> ")) with (lit "> ") in Hv2. fold t0 in Hv2.
  pose proof (readline_ok LINE_MAX irqs (kkbd (kern s)) v2 t0 k cs irqs' k' Hk Hirq Hv2 Hc Hin Hfit) as Hr.
  destruct (edit_all LINE_MAX [] t0 cs) as [line t1]. destruct Hr as (kb & v & Er & Hkb & Hv). intros Hline Hwords.
  exists kb, v. split; [done |]. split; [done |]. unfold ShellRun.shell_turn. rewrite E1. cbn [obind]. rewrite E2. cbn [obind].
  change (kkbd (kern (with_screen s v2))) with (kkbd (kern s)). change (kscreen (kern (with_screen s v2))) with v2.
  rewrite Er. cbn [obind]. by rewrite exec_ok.
Qed.

End Dispatch.

(** ** Witnesses *)

From S2P Require Import Ata FatMount TaskSwitch ShellCommands.

#[local] Existing Instance wit_paging.
#[local] Existing Instance wit_layout.
#[local] Existing Instance wit_code.
#[local] Existing Instance wit_uart.

Lemma exec_dispatch_witness :
  exec 0x1000 0x2000 9 (wit_env []) wit_shell (lit " pwd  now") =
    call 0x1000 0x2000 9 (wit_env []) Pwd wit_shell [lit "pwd"; lit "now"].
Proof.
  destruct (exec_dispatch 0x1000 0x2000 9 (wit_env []) wit_shell (lit " pwd  now")) as (Hc & _).
  - repeat constructor; discriminate.
  - vm_compute. lia.
  - apply (Hc (cmd "pwd" "print current path" Pwd) [lit "now"]); [| reflexivity].
    do 15 apply list_elem_of_further. apply list_elem_of_here.
Defined.

(** "hi" is typed, with a slip. *)
Lemma shell_turn_spec_witness :
  exists kb v, shell_turn 0x1000 0x2000 9 (wit_env []) wit_keys wit_shell =
    do! s' := run_words 0x1000 0x2000 9 (wit_env [])
      (with_kern wit_shell (with_kbd (Irq.with_screen (kern wit_shell) v) kb)) [lit "hi"] in Ret ([], s').
Proof.
  destruct (shell_turn_spec 0x1000 0x2000 9 (wit_env []) wit_keys wit_shell term0 (KSpec [] false false)
    [104; 105; 111; 8] [] (KSpec [] false false)) as (kb & v & _ & _ & E).
  - apply shows_clear.
  - apply repr_init.
  - repeat constructor; discriminate.
  - repeat constructor; unfold irq_ok, is_u8; lia.
  - reflexivity.
  - repeat constructor; discriminate.
  - vm_compute. reflexivity.
  - repeat constructor; discriminate.
  - vm_compute. lia.
  - exists kb, v. exact E.
Defined.
