(* ===== verification/ShellUse.v ===== *)
(** * Shell: write and cat

    What [write] writes [cat] shows: the two commands together, from the
    words of the command line to the characters on the screen, over the path
    helpers, the file system, the heap and the terminal. *)

From S2P Require Import Prelude Memory Interfaces Keyboard Screen Fat32 FatName FatTable FatDir FatOps FatFile FatList.
From S2P Require Import FatKeep Cpu Task TaskCreate Irq ShellText ShellFs ShellPath ShellCommands.

(** ** What is on the screen, whatever else changed *)

Section Displays.
  Context {M : Type} `{ProcessMemory M} `{Uart} {P D : Type}.
  Implicit Types s : shell M P D.

Definition displays s (l : list (Z * Z)) s' : Prop :=
  forall t, shows (kscreen (kern s)) t -> shows (kscreen (kern s')) (term_ink t l).

Lemma displays_refl s : displays s [] s.
Proof. by intros t Ht. Qed.

Lemma displays_trans s1 l1 s2 l2 s3 : displays s1 l1 s2 -> displays s2 l2 s3 -> displays s1 (l1 ++ l2) s3.
Proof. intros H12 H23 t Ht. rewrite term_ink_app. auto. Qed.

Lemma prints_displays s l s' : prints s l s' -> displays s l s'.
Proof. intros (v & -> & Hv). exact Hv. Qed.

Lemma displays_ok s l s' : screen_ok s -> displays s l s' -> screen_ok s'.
Proof. intros [t Ht] Hd. eexists. by apply Hd. Qed.

Lemma prints_same_screen s s0 l s' : prints s l s' -> kscreen (kern s0) = kscreen (kern s) -> displays s0 l s'.
Proof. intros Hp E t Ht. apply (prints_displays _ _ _ Hp). by rewrite <- E. Qed.

Lemma prints_pool s l s' : prints s l s' -> mem_pool s' = mem_pool s.
Proof. by intros (v & -> & _). Qed.

Lemma show_dec_ok s n : screen_ok s -> is_u32 n ->
  exists ds s', show_dec s n = Ret s' /\ prints s (ink VGA_LIGHT_GREY ds) s' /\ dec_value ds = n.
Proof.
  intros Hs Hn. destruct (print_numbers (kscreen (kern s)) n Hn) as [(ds & E & Hd & Hv & _) _].
  destruct (show_ok s ds Hs) as (s' & Es & Hp). exists ds, s'. split_and!; [| | done].
  - unfold show_dec. rewrite E. exact Es.
  - rewrite c_string_id in Hp; [exact Hp |]. eapply Forall_impl; [exact Hd |].
    intros c. unfold is_digit, ch_0. lia.
Qed.

End Displays.

(** ** Borrowing a block of the heap *)

Section Heap.
  Context {M : Type} `{ProcessMemoryLaws M} {P D : Type}.
  Implicit Types s : shell M P D.

Lemma lend_ok s n : proc_ok (mem_pool s) -> 0 < n <= 2 ^ 31 ->
  exists p m, kmalloc s n = Ret (p, with_mem s m) /\ truth p = heap_gives (mem_pool s) [n] /\
    ((p = 0 /\ same_pool (mem_pool s) m) \/ (truth p = true /\ fresh_block (mem_pool s) p n m)).
Proof.
  intros Hok Hn. unfold kmalloc. cbn [heap_gives].
  destruct (malloc_cases (mem_pool s) n Hok Hn) as (p & m & -> & [Hs | Hf]);
    exists p, m; rewrite andb_true_r; (split; [done |]); (split; [done |]); [by left | right].
  split; [apply truth_pos, Hf | done].
Qed.

Lemma give_back_ok s m p n : fresh_block m p n (mem_pool s) -> proc_ok m ->
  exists m', kfree s p = Ret (with_mem s m') /\ same_pool m m'.
Proof.
  intros Hf Hm. unfold kfree. pose proof (fresh_image _ _ _ _ Hm Hf) as Hn. destruct Hf as [Hok _ Hnew Hb Hi].
  destruct (proc_free_ok (mem_pool s) p n Hok) as (m' & -> & Hok' & Hi' & Hb'); [by rewrite Hb, lookup_insert_eq | by rewrite Hi |].
  exists m'. split; [done |]. split; [done | | congruence]. rewrite Hb', Hb. by apply delete_insert_id.
Qed.

End Heap.

(** ** Files of the working directory *)

Section Here.
  Context {M : Type} `{ProcessMemoryLaws M} `{Uart} {P D : Type} `{BlockDeviceLaws D}.
  Implicit Types s : shell M P D.

(** A file name of the 8.3 form that is a path of its own. *)
Definition plain_name (base ext : list Z) : Prop := valid83 base ext /\ ch_slash ∉ name83 base ext.

Lemma name83_chars base ext : valid83 base ext -> Forall (fun c => is_u8 c /\ c ≠ 0) (name83 base ext).
Proof.
  intros [_ _ Hc]. apply Forall_app in Hc as [Hb Hx].
  assert (forall l, Forall name_char l -> Forall (fun c => is_u8 c /\ c ≠ 0) l) as Hn.
  { intros l Hl. eapply Forall_impl; [exact Hl |]. intros c (? & ? & _). done. }
  unfold name83. destruct ext as [|x ext]; [by apply Hn |]. apply Forall_app. split; [by apply Hn |].
  apply Forall_cons. split; [unfold is_u8, ch_dot; lia | by apply Hn].
Qed.

Lemma name83_tokens base ext : plain_name base ext -> tokens (name83 base ext) = [name83 base ext].
Proof.
  intros [Hv Hs]. pose proof (name83_chars _ _ Hv) as Hc. destruct Hv as [Hb Hx _]. unfold tokens.
  rewrite c_string_id by (eapply Forall_impl; [exact Hc |]; by intros c []).
  assert (length (name83 base ext) <= 12 /\ name83 base ext ≠ [])%nat as [Hl Hne].
  { unfold name83. destruct base as [|c base]; cbn in Hb; [lia |].
    destruct ext; [split; [cbn; lia | done] |]. rewrite length_app. cbn in *. split; [lia | done]. }
  pose proof (pieces_end ch_slash 0 _ Hs Hne) as Hp. cbn [replicate app] in Hp. rewrite Hp.
  cbn [fmap list_fmap]. by rewrite take_ge by lia.
Qed.

Lemma here_path fuel s base ext : at_dir s -> plain_name base ext ->
  path_to_parent_and_base fuel s (name83 base ext) = Ret (0, cwd_cluster (vol s), name83 base ext, s).
Proof.
  intros Hd Hn. pose proof (parent_ok fuel s (name83 base ext) Hd) as Hp. cbv zeta in Hp.
  rewrite (name83_tokens base ext Hn) in Hp. cbn [removelast chdir_all last] in Hp. rewrite Hp.
  assert (start_dir (vol s) (name83 base ext) = vol s) as ->; [| by destruct s].
  unfold start_dir, is_absolute. destruct Hn as [[] Hs]. destruct (Z.eqb_spec (char_at (name83 base ext) 0) ch_slash) as [E |]; [| done].
  destruct Hs. unfold char_at in E. destruct (name83 base ext) as [|c l]; [by cbn in E |]. cbn in E. subst. apply list_elem_of_here.
Qed.

Lemma back_here s v : at_dir s -> same_vol (vol s) v ->
  set_cwd_cluster (with_vol s v) (cwd_cluster (vol s)) = with_vol s v.
Proof.
  intros [Hm Hc] [_ Ec Em _]. unfold set_cwd_cluster, fat32_set_cwd_cluster. cbn [vol with_vol].
  rewrite Em, Hm. cbn [negb]. rewrite (proj2 (Z.ltb_ge _ 2)) by done. rewrite <- Ec. by destruct v.
Qed.

Lemma find_here fuel s dl base ext : at_dir s -> in_dir fuel (vol s) dl -> plain_name base ext ->
  names83 (bytes (vol s)) (slots (vol s) dl) ->
  exists v, fat32_find fuel (vol s) (name83 base ext) =
      Ret (match lookup_in (bytes (vol s)) (slots (vol s) dl) (to_short_name (name83 base ext)) with
           | Some look => (0, Some (l_entry look), v) | None => (-1, None, v) end) /\
    fs_ok v /\ same_disk (vol s) v /\ set_cwd_cluster (with_vol s v) (cwd_cluster (vol s)) = with_vol s v.
Proof.
  intros Hd Hin [Hv _] Hn. destruct (find_ok fuel (vol s) dl (name83 base ext) Hin) as (v & E & Hok & Hs).
  { by apply names_agree. }
  exists v. split_and!; [exact E | done | done |]. apply back_here; [done | apply Hs].
Qed.

(** ** cat *)

Definition shown (text : list Z) : list Z :=
  filter (.≠ ch_cr) text ++ (if bool_decide (last text = None \/ last text = Some ch_nl) then [] else [ch_nl]).

Lemma cat_loop_ok (b : mem) n s : screen_ok s -> 0 <= n ->
  exists s', for_range 0 n (cat_char b) (Ret s) = Ret s' /\
    prints s (ink VGA_LIGHT_GREY (filter (.≠ ch_cr) ((fun i => load8 b i) <$> seqZ 0 n))) s'.
Proof.
  intros Hs Hn. apply (for_range_ind (fun k o => exists s', o = Ret s' /\
    prints s (ink VGA_LIGHT_GREY (filter (.≠ ch_cr) ((fun i => load8 b i) <$> seqZ 0 k))) s')); [done | |].
  { exists s. split; [done | apply prints_nil]. }
  intros i o Hi (s1 & -> & Hp). unfold cat_char. cbn [obind]. cbv zeta.
  replace (seqZ 0 (i + 1)) with (seqZ 0 i ++ [i]).
  2: { by rewrite seqZ_app by lia. }
  rewrite fmap_app, filter_app. cbn [fmap list_fmap]. rewrite filter_cons, filter_nil.
  destruct (Z.eqb_spec (load8 b i) ch_cr) as [E | E].
  - rewrite decide_False by tauto. exists s1. split; [done |]. by rewrite app_nil_r.
  - rewrite decide_True by done. destruct (show_char_ok s1 (load8 b i)) as (s2 & -> & Hp2); [by eapply prints_ok |].
    exists s2. split; [done |]. unfold ink. rewrite fmap_app. by eapply prints_trans.
Qed.

(** The bytes of a buffer as a list. *)
Lemma buffer_text (b : mem) (text : list Z) :
  (forall i, 0 <= i < Z.of_nat (length text) -> load8 b i = default 0 (text !! Z.to_nat i)) ->
  (fun i => load8 b i) <$> seqZ 0 (Z.of_nat (length text)) = text.
Proof.
  intros Hb. apply list_eq. intros i. rewrite list_lookup_fmap. destruct (decide (i < length text)%nat) as [Hi | Hi].
  - rewrite lookup_seqZ_lt by lia. cbn [fmap option_fmap option_map]. rewrite Hb by lia.
    replace (Z.to_nat (0 + Z.of_nat i)) with i by lia.
    destruct (lookup_lt_is_Some_2 text i Hi) as [c ->]. done.
  - rewrite lookup_seqZ_ge by lia. by rewrite lookup_ge_None_2 by lia.
Qed.

Lemma last_byte (b : mem) (text : list Z) :
  (forall i, 0 <= i < Z.of_nat (length text) -> load8 b i = default 0 (text !! Z.to_nat i)) ->
  (0 <? Z.of_nat (length text)) && negb (load8 b (Z.of_nat (length text) - 1) =? ch_nl) =
  negb (bool_decide (last text = None \/ last text = Some ch_nl)).
Proof.
  intros Hb. destruct text as [|c text _] using rev_ind; [done |]. rewrite last_snoc, length_app in *. cbn [length] in *.
  rewrite (proj2 (Z.ltb_lt 0 _)) by lia. rewrite Hb by lia.
  replace (Z.to_nat (Z.of_nat (length text + 1) - 1)) with (length text) by lia.
  rewrite lookup_app_r, Nat.sub_diag by lia. cbn [lookup list_lookup default from_option andb Datatypes.id]. f_equal.
  destruct (Z.eqb_spec c ch_nl) as [-> | Hc].
  - symmetry. apply bool_decide_eq_true. by right.
  - symmetry. apply bool_decide_eq_false. intros [? | [= ?]]; done.
Qed.

(** What cat needs to know of a file that holds [text]. *)
Record holds_text (v : fat D) (e : dirent) (l text : list Z) : Prop := HoldsText {
  ht_file : is_directory e = false;
  ht_chain : chain v (start_cluster e) l;
  ht_size : e_size e = Z.of_nat (length text);
  ht_length : Z.of_nat (length text) <= Z.of_nat (length l) * cluster_size (fs v);
  ht_bytes j : 0 <= j < Z.of_nat (length text) -> file_byte v l j = default 0 (text !! Z.to_nat j)
}.

Lemma cat_ok fuel s dl base ext w look l text :
  at_dir s -> screen_ok s -> proc_ok (mem_pool s) -> in_dir fuel (vol s) dl -> plain_name base ext ->
  names83 (bytes (vol s)) (slots (vol s) dl) ->
  lookup_in (bytes (vol s)) (slots (vol s) dl) (to_short_name (name83 base ext)) = Some look ->
  holds_text (vol s) (l_entry look) l text -> Z.of_nat (length text) <= CAT_BUF_SIZE ->
  exists s', cmd_cat fuel s [w; name83 base ext] = Ret s' /\ same_pool (mem_pool s) (mem_pool s') /\
    same_disk (vol s) (vol s') /\
    displays s (if heap_gives (mem_pool s) [CAT_BUF_SIZE] then ink VGA_LIGHT_GREY (shown text)
                else ink VGA_LIGHT_RED (litn "cat: out of heap")) s'.
Proof.
  intros Hd Hsc Hm Hin Hn H83 Hlook [Hfile Hch Hsz Hlen Hb] Hmax. unfold CAT_BUF_SIZE in Hmax.
  unfold cmd_cat. cbn [length Nat.ltb Nat.leb]. unfold fat32_is_mounted. rewrite (ad_mounted _ Hd). cbn [negb].
  change (arg [w; name83 base ext] 1) with (name83 base ext). rewrite (here_path fuel s base ext Hd Hn).
  cbn [obind]. change (0 <? 0) with false. cbv iota.
  destruct (find_here fuel s dl base ext Hd Hin Hn H83) as (v & -> & Hokv & Hsv & Hback). rewrite Hlook. cbn [obind].
  rewrite Hback. cbv zeta. unfold is_directory in Hfile. rewrite Hfile.
  destruct (lend_ok (with_vol s v) CAT_BUF_SIZE Hm) as (p & m & -> & Hgives & [[-> Hsm] | [Hp Hlent]]); [done | |];
    cbn [obind]; change (mem_pool (with_vol s v)) with (mem_pool s) in Hgives; rewrite <- Hgives; rewrite ?Hp; cbn [truth negb Z.eqb].
  { destruct (show_color_ok (with_mem (with_vol s v) m) (litn "cat: out of heap") VGA_LIGHT_RED Hsc) as (s' & E & Hpr).
    exists s'. split; [exact E |]. rewrite (prints_pool _ _ _ Hpr). destruct (prints_rest _ _ _ Hpr) as (Ev & _ & _).
    split; [exact Hsm |]. split; [by rewrite Ev |]. exact (prints_displays _ _ _ Hpr). }
  pose proof (sd_vol _ _ Hsv) as V. cbn [vol with_mem with_vol with_kern].
  destruct (read_file_ok v (l_entry look) l ∅ CAT_BUF_SIZE Hokv) as (b & v' & -> & Hokv' & Hsv' & Hbuf).
  { rewrite (sv_mounted _ _ V). apply Hd. }
  { by eapply same_disk_chain. }
  { rewrite Hsz. unfold is_u32. lia. }
  { done. }
  rewrite Hsz, (sv_fs _ _ V) in *. unfold CAT_BUF_SIZE in *.
  replace (Z.min (Z.min (Z.of_nat (length text)) 16384) (Z.of_nat (length l) * cluster_size (fs (vol s))))
    with (Z.of_nat (length text)) in * by lia.
  cbn [obind]. rewrite (proj2 (Z.ltb_ge _ 0)) by lia. cbv zeta.
  assert (forall i, 0 <= i < Z.of_nat (length text) -> load8 b i = default 0 (text !! Z.to_nat i)) as Hbt.
  { intros i Hi. rewrite Hbuf, decide_True by done. rewrite (same_disk_file_byte (vol s)) by done. by apply Hb. }
  set (s1 := with_vol (with_mem (with_vol s v) m) v'). assert (screen_ok s1) as Hsc1 by exact Hsc.
  destruct (cat_loop_ok b (Z.of_nat (length text)) s1 Hsc1) as (s2 & -> & Hp2); [lia |]. rewrite (buffer_text b text Hbt) in Hp2.
  cbn [obind]. rewrite (last_byte b text Hbt).
  assert (exists s3, (if negb (bool_decide (last text = None \/ last text = Some ch_nl)) then show_char s2 ch_nl else Ret s2)
    = Ret s3 /\ prints s1 (ink VGA_LIGHT_GREY (shown text)) s3) as (s3 & -> & Hp3).
  { unfold shown, ink. rewrite fmap_app. destruct (bool_decide _); cbn [negb].
    - exists s2. split; [done |]. by rewrite app_nil_r.
    - destruct (show_char_ok s2 ch_nl) as (s3 & -> & Hp3); [by eapply prints_ok |]. exists s3. split; [done |].
      by eapply prints_trans. }
  cbn [obind]. destruct (give_back_ok s3 (mem_pool s) p 16384) as (m' & -> & Hsm); [| done |].
  { rewrite (prints_pool _ _ _ Hp3). exact Hlent. }
  destruct (prints_rest _ _ _ Hp3) as (Ev & _ & _).
  exists (with_mem s3 m'). split; [done |]. split; [exact Hsm |].
  split; [| exact (prints_displays _ _ _ Hp3)]. cbn [vol with_mem with_kern]. rewrite Ev. by eapply same_disk_trans.
Qed.

(** ** write *)

Lemma append_str_ok b str : Forall is_u8 b -> Z.of_nat (length b) <= WRITE_BUF_SIZE ->
  Forall is_u8 (append_str b str) /\ Z.of_nat (length (append_str b str)) <= WRITE_BUF_SIZE.
Proof.
  revert b. induction str as [|c str IH]; intros b Hb Hl; cbn [append_str]; [done |].
  destruct (truth c); cbn [andb]; [| done].
  destruct (Z.ltb_spec (Z.of_nat (length b)) WRITE_BUF_SIZE); [| done]. apply IH.
  - apply Forall_app. split; [done |]. apply Forall_singleton. apply u8_range.
  - rewrite length_app. cbn [length]. lia.
Qed.

Lemma join_args_ok b first args : Forall is_u8 b -> Z.of_nat (length b) <= WRITE_BUF_SIZE ->
  Forall is_u8 (join_args b first args) /\ Z.of_nat (length (join_args b first args)) <= WRITE_BUF_SIZE.
Proof.
  revert b first. induction args as [|a args IH]; intros b first Hb Hl; cbn [join_args]; [done |]. cbv zeta.
  destruct (negb first && _) eqn:E.
  - apply andb_true_iff in E as [_ E%Z.ltb_lt]. destruct (append_str_ok (b ++ [ch_sp]) a).
    + apply Forall_app. split; [done |]. apply Forall_singleton. unfold is_u8, ch_sp. lia.
    + rewrite length_app. cbn [length]. lia.
    + by apply IH.
  - destruct (append_str_ok b a Hb Hl). by apply IH.
Qed.

Lemma write_text_ok argv : Forall is_u8 (write_text argv) /\ Z.of_nat (length (write_text argv)) <= WRITE_BUF_SIZE.
Proof.
  unfold write_text. destruct (join_args_ok [] true (drop 2 argv)) as [Hu Hl]; [constructor | done |]. cbv zeta.
  destruct (Z.ltb_spec (Z.of_nat (length (join_args [] true (drop 2 argv)))) WRITE_BUF_SIZE); [| done]. split.
  - apply Forall_app. split; [done |]. apply Forall_singleton. unfold is_u8, ch_nl. lia.
  - rewrite length_app. cbn [length]. lia.
Qed.

(** The message of write. *)
Definition wrote_msg (ds name : list Z) : list (Z * Z) :=
  ink VGA_LIGHT_GREY (lit "wrote ") ++ ink VGA_LIGHT_GREY ds ++ ink VGA_LIGHT_GREY (lit " bytes to ") ++
  ink VGA_LIGHT_GREY name ++ ink VGA_LIGHT_GREY [ch_nl].

Lemma show_wrote s n name : screen_ok s -> is_u32 n -> plain name ->
  exists ds s', (do! s := show s (lit "wrote ") in do! s := show_dec s n in do! s := show s (lit " bytes to ") in
                 do! s := show s name in show s [ch_nl]) = Ret s' /\
    prints s (wrote_msg ds name) s' /\ dec_value ds = n.
Proof.
  intros Hs Hn Hp. destruct (show_ok s (lit "wrote ") Hs) as (s1 & -> & P1). cbn [obind].
  pose proof (prints_ok _ _ _ Hs P1) as K1. destruct (show_dec_ok s1 n K1 Hn) as (ds & s2 & -> & P2 & Hv). cbn [obind].
  pose proof (prints_ok _ _ _ K1 P2) as K2. exists ds.
  destruct (show_then s2 (lit " bytes to ") VGA_LIGHT_GREY (fun s => do! s := show s name in show s [ch_nl])
    (ink VGA_LIGHT_GREY (c_string name) ++ ink VGA_LIGHT_GREY [ch_nl]) K2) as (s' & E & P3).
  { intros s3 K3 _. apply show_then; [done |]. intros s4 K4 _. by apply show_ok. }
  rewrite (c_string_id name Hp) in P3. exists s'. split; [exact E |]. split; [| done].
  exact (prints_trans _ _ _ _ _ P1 (prints_trans _ _ _ _ _ P2 P3)).
Qed.

(** The name can be written in the directory: there is a place for it, and
    what it may name already is a file. *)
Record writable (fuel : nat) (v : fat D) (dl name : list Z) (size : Z) (sl : slot) : Prop := Writable {
  wr_dir : in_dir fuel v dl;
  wr_fuel : total_clusters (fs v) <= Z.of_nat fuel;
  wr_first : char_at (to_short_name name) 0 ≠ 0xE5;
  wr_place : place (bytes v) (slots v dl) (to_short_name name) = Some sl;
  wr_old look : lookup_in (bytes v) (slots v dl) (to_short_name name) = Some look -> exists lo, old_file v dl look lo;
  wr_room : size <= Z.of_nat (length (free_list v)) * cluster_size (fs v)
}.

Lemma write_ok fuel s dl base ext w args sl :
  let name := name83 base ext in let text := write_text (w :: name :: args) in
  at_dir s -> screen_ok s -> proc_ok (mem_pool s) -> plain_name base ext -> args ≠ [] ->
  writable fuel (vol s) dl name (Z.of_nat (length text)) sl ->
  exists s', cmd_write fuel s (w :: name :: args) = Ret s' /\ same_pool (mem_pool s) (mem_pool s') /\
    if heap_gives (mem_pool s) [WRITE_BUF_SIZE] then
      exists ds e l, displays s (wrote_msg ds name) s' /\ dec_value ds = Z.of_nat (length text) /\
        file_written fuel (vol s) dl name text (Z.of_nat (length text)) sl e l (vol s')
    else displays s (ink VGA_LIGHT_RED (litn "write: out of heap")) s' /\ vol s' = vol s.
Proof.
  intros name text Hd Hsc Hm Hn Hargs [Hin Hfuel Hfirst Hplace Hold Hroom].
  destruct (write_text_ok (w :: name :: args)) as [Hu Hl]. fold text in Hu, Hl. unfold WRITE_BUF_SIZE in Hl.
  pose proof (name83_chars _ _ (proj1 Hn)) as Hch. fold name in Hch.
  assert ((length (w :: name :: args) <? 3)%nat = false) as Hlen.
  { apply Nat.ltb_ge. destruct args; [done |]. cbn [length]. lia. }
  unfold cmd_write. rewrite Hlen. unfold fat32_is_mounted. rewrite (ad_mounted _ Hd). cbn [negb].
  fold text. change (arg (w :: name :: args) 1) with name.
  destruct (lend_ok s WRITE_BUF_SIZE Hm) as (p & m & -> & Hgives & [[-> Hsm] | [Hp Hlent]]); [done | |];
    cbn [obind]; rewrite <- Hgives; rewrite ?Hp; cbn [truth negb Z.eqb].
  { destruct (show_color_ok (with_mem s m) (litn "write: out of heap") VGA_LIGHT_RED Hsc) as (s' & E & Hpr).
    exists s'. split; [exact E |]. rewrite (prints_pool _ _ _ Hpr). destruct (prints_rest _ _ _ Hpr) as (Ev & _ & _).
    split; [exact Hsm |]. split; [exact (prints_displays _ _ _ Hpr) | by rewrite Ev]. }
  cbv zeta. set (s1 := with_mem s m). assert (at_dir s1) as Hd1 by (destruct Hd; by split).
  pose proof (here_path fuel s1 base ext Hd1 Hn) as Hpath. fold name in Hpath. rewrite Hpath. cbn [obind]. change (0 <? 0) with false. cbv iota.
  destruct (write_file_ok fuel (vol s) dl name text (Z.of_nat (length text)) sl Hin Hfuel) as (v & e & l & E & Hw);
    [| done | done | done | done | done | lia | done |].
  { eapply Forall_impl; [exact Hch |]. by intros c []. }
  change (vol s1) with (vol s). rewrite E. cbn [obind]. change (0 <? 0) with false. cbv iota.
  pose proof (back_here s1 v Hd1 (fw_vol _ _ _ _ _ _ _ _ _ _ Hw)) as Hback. change (vol s1) with (vol s) in Hback.
  rewrite Hback. destruct (give_back_ok (with_vol s1 v) (mem_pool s) p WRITE_BUF_SIZE) as (m' & -> & Hsm);
    [exact Hlent | done |]. cbn [obind].
  destruct (show_wrote (with_mem (with_vol s1 v) m') (Z.of_nat (length text)) name) as (ds & s' & -> & Hp' & Hv);
    [exact Hsc | unfold is_u32; lia | |].
  { eapply Forall_impl; [exact Hch |]. by intros c []. }
  destruct (prints_rest _ _ _ Hp') as (Ev & _ & _).
  exists s'. split; [done |]. rewrite (prints_pool _ _ _ Hp'). split; [exact Hsm |].
  exists ds, e, l. split; [exact (prints_displays _ _ _ Hp') |]. split; [done |]. by rewrite Ev.
Qed.

(** A written file leaves the names of the directory as they should be. *)
Lemma written_names83 fuel (v v' : fat D) dl base ext data size sl e l :
  file_written fuel v dl (name83 base ext) data size sl e l v' -> valid83 base ext ->
  names83 (bytes v) (slots v dl) -> names83 (bytes v') (slots v' dl).
Proof.
  intros Hw Hv Hn sl' Hin. assert (slots v' dl = slots v dl) as Es by (unfold slots; by rewrite (sv_fs _ _ (fw_vol _ _ _ _ _ _ _ _ _ _ Hw))).
  rewrite Es in Hin. destruct (decide (sl' = sl)) as [-> | Hne].
  - intros e' _ _. left. exists base, ext. split; [done |]. unfold e'.
    rewrite (fw_entry _ _ _ _ _ _ _ _ _ _ Hw). exact (fw_name _ _ _ _ _ _ _ _ _ _ Hw).
  - pose proof (Hn sl' Hin) as Hs. cbv zeta in Hs |- *. by rewrite (fw_other _ _ _ _ _ _ _ _ _ _ Hw) by done.
Qed.

End Here.

(** ** Property *)

(** C10 What is written is shown.  For a name of the 8.3 form, given in any
    case, with a place in the directory and room on the disk: if the heap
    gives write its buffer, write stores its words, with single blanks and a
    newline, and reports their number; cat of the same name then shows exactly
    this text, less its carriage returns, if the heap gives cat its buffer,
    and else says that it does not; if the heap does not give write its
    buffer, write says so and the volume is untouched.  After either command
    the heap has the blocks it had before, and cat changes no byte of the
    volume. *)
Theorem write_cat {M : Type} `{ProcessMemoryLaws M} `{Uart} {P D : Type} `{BlockDeviceLaws D}
    fuel (s : shell M P D) dl base ext w c args sl :
  let name := name83 base ext in let text := write_text (w :: name :: args) in
  at_dir s -> screen_ok s -> proc_ok (mem_pool s) -> plain_name base ext -> args ≠ [] ->
  names83 (bytes (vol s)) (slots (vol s) dl) ->
  writable fuel (vol s) dl name (Z.of_nat (length text)) sl ->
  exists s1, cmd_write fuel s (w :: name :: args) = Ret s1 /\ same_pool (mem_pool s) (mem_pool s1) /\
    if heap_gives (mem_pool s) [WRITE_BUF_SIZE] then
      exists ds s2, displays s (wrote_msg ds name) s1 /\ dec_value ds = Z.of_nat (length text) /\
        cmd_cat fuel s1 [c; name] = Ret s2 /\ same_pool (mem_pool s) (mem_pool s2) /\ same_disk (vol s1) (vol s2) /\
        displays s1 (if heap_gives (mem_pool s1) [CAT_BUF_SIZE] then ink VGA_LIGHT_GREY (shown text)
                     else ink VGA_LIGHT_RED (litn "cat: out of heap")) s2
    else displays s (ink VGA_LIGHT_RED (litn "write: out of heap")) s1 /\ vol s1 = vol s.
Proof.
  intros name text Hd Hsc Hm Hn Hargs H83 Hwr. destruct (write_text_ok (w :: name :: args)) as [_ Hl]. fold text in Hl.
  destruct (write_ok fuel s dl base ext w args sl Hd Hsc Hm Hn Hargs Hwr) as (s1 & E1 & Hsm1 & Hcase).
  exists s1. split; [exact E1 |]. split; [exact Hsm1 |]. destruct (heap_gives (mem_pool s) _); [| exact Hcase].
  destruct Hcase as (ds & e & l & Hmsg & Hds & Hw).
  pose proof (fw_vol _ _ _ _ _ _ _ _ _ _ Hw) as V. pose proof (sv_fs _ _ V) as F.
  destruct (cat_ok fuel s1 dl base ext c (Lookup e (fst sl) (snd sl)) l text) as (s2 & E2 & Hsm2 & Hsd & Hshow).
  - destruct Hd. split; [by rewrite (sv_mounted _ _ V) | by rewrite (sv_cwd _ _ V)].
  - by eapply displays_ok.
  - apply Hsm1.
  - apply Hw.
  - done.
  - eapply written_names83; [exact Hw | apply Hn | done].
  - assert (slots (vol s1) dl = slots (vol s) dl) as -> by (unfold slots; by rewrite F). apply Hw.
  - destruct Hw. split; cbn [l_entry]; rewrite ?F; try done.
  - unfold CAT_BUF_SIZE, WRITE_BUF_SIZE in *. lia.
  - exists ds, s2. split_and!; [done | done | exact E2 | by eapply same_pool_trans | exact Hsd | exact Hshow].
Qed.

(** ** Witness

    [write a.txt hi there] and [cat A.Txt] on the volume of the witnesses. *)

From S2P Require Import Pmm Kheap Paging PagingExt Elf ElfSpec ElfLoad Ata FatMount TaskSwitch.

#[local] Existing Instance wit_paging.
#[local] Existing Instance wit_layout.
#[local] Existing Instance wit_uart.

Definition wit_files : shell (loader pmm held_heap) (list (Z * Z)) ide :=
  Shell (wit_kernel (wit_tasks wit_vm)) wit_fat [ch_slash].

Lemma wit_files_dir : at_dir wit_files.
Proof. split; vm_compute; intuition discriminate. Qed.

Lemma wit_files_screen : screen_ok wit_files.
Proof. exists term0. apply shows_clear. Qed.

Lemma wit_files_memory : proc_ok (mem_pool wit_files).
Proof. exists wit_vm, ∅. apply wit_loader_inv. Qed.

Lemma wit_plain_name : plain_name (lit "a") (lit "txt").
Proof.
  split; [split; [simpl; lia | simpl; lia | repeat constructor; vm_compute; intuition discriminate] |].
  apply (bool_decide_unpack _). vm_compute. exact I.
Qed.

Definition wit_words : list (list Z) := [lit "hi"; lit "there"].

Lemma wit_writable : writable 9 wit_fat [2] (name83 (lit "a") (lit "txt"))
  (Z.of_nat (length (write_text (lit "write" :: name83 (lit "a") (lit "txt") :: wit_words)))) (3, 0).
Proof.
  split.
  - exact wit_dir.
  - vm_compute. discriminate.
  - vm_compute. discriminate.
  - vm_compute. reflexivity.
  - intros look Hl. assert (lookup_in (bytes wit_fat) (slots wit_fat [2]) (to_short_name (name83 (lit "a") (lit "txt"))) = Some wit_look) as E
      by (vm_compute; reflexivity).
    rewrite E in Hl. injection Hl as <-. exists [3; 4]. exact wit_old_file.
  - vm_compute. discriminate.
Qed.

(** The heap of the witnesses has room for both buffers. *)
Lemma wit_write_room : heap_gives (mem_pool wit_files) [WRITE_BUF_SIZE] = true.
Proof. vm_compute. reflexivity. Qed.

Lemma wit_cat_room :
  match cmd_write 9 wit_files (lit "write" :: name83 (lit "a") (lit "txt") :: wit_words) with
  | Ret s1 => heap_gives (mem_pool s1) [CAT_BUF_SIZE]
  | _ => false
  end = true.
Proof. vm_compute. reflexivity. Qed.

Lemma write_cat_witness :
  exists s1 s2, cmd_write 9 wit_files (lit "write" :: name83 (lit "a") (lit "txt") :: wit_words) = Ret s1 /\
    cmd_cat 9 s1 [lit "cat"; name83 (lit "a") (lit "txt")] = Ret s2 /\
    displays s1 (ink VGA_LIGHT_GREY (litn "hi there")) s2.
Proof.
  destruct (write_cat 9 wit_files [2] (lit "a") (lit "txt") (lit "write") (lit "cat") wit_words (3, 0)
    wit_files_dir wit_files_screen wit_files_memory wit_plain_name ltac:(discriminate) wit_names83 wit_writable)
    as (s1 & E1 & _ & Hrest).
  pose proof wit_cat_room as Hroom. rewrite E1 in Hroom. rewrite wit_write_room, Hroom in Hrest.
  destruct Hrest as (ds & s2 & _ & _ & E2 & _ & _ & Hshow).
  exists s1, s2. split; [exact E1 |]. split; [exact E2 | exact Hshow].
Defined.
