(* ===== verification/ShellMemory.v ===== *)
(** * Shell: the memory a program takes and gives back

    The address space and the heap across the steps of exec: what the heap's
    operations leave alone, what a loaded image adds, and when the memory is
    again what it was. *)

From S2P Require Import Prelude Memory Interfaces Paging PagingExt Elf ElfSpec ElfLoad.
From S2P Require Import FatKeep Task TaskCreate.

Section Memory.
  Context {F : Type} `{FrameAllocatorLaws F} `{PagingLayout} {K : Type} `{HeapAllocatorLaws K} `{TaskCode}.
  Notation M := (loader F K).

(** ** The address space across the heap's operations *)

Definition same_space (m0 m1 : M) : Prop := lvm m1 = lvm m0 /\ limages m1 = limages m0.

Lemma same_space_trans (m0 m1 m2 : M) : same_space m0 m1 -> same_space m1 m2 -> same_space m0 m2.
Proof. intros [] []. split; congruence. Qed.

Lemma same_space_sym (m0 m1 : M) : same_space m0 m1 -> same_space m1 m0.
Proof. by intros []. Qed.

Lemma same_space_inv (s0 : vm F) pm (m0 m1 : M) : loader_inv s0 m0 pm -> same_space m0 m1 -> proc_ok m1 -> loader_inv s0 m1 pm.
Proof.
  intros [K1 _ K4 K5] [Hv Hl] (v1 & pm1 & [_ Hh Hi _]).
  split; rewrite ?Hv, ?Hl; [exact K1 | exact Hh | | exact K5].
  intros p i Hp. destruct (K4 p i Hp) as (? & _ & ?). rewrite <- Hl in Hp. by destruct (Hi p i Hp) as (_ & ? & _).
Qed.

(** In [m1] the pages of [i] are mapped besides those of [m0], whose bytes
    are as they were. *)
Definition space_grown (m0 m1 : M) (i : user_image) : Prop :=
  exists (s0 : vm F) pm pm', loader_inv s0 m0 pm /\ loader_inv s0 m1 pm' /\ covers (segs i) pm pm' /\
    same_pages pm (lvm m0) (lvm m1).

Lemma space_grown_proper (m0 m0' m1 m1' : M) i : space_grown m0 m1 i -> same_space m0 m0' -> proc_ok m0' ->
  same_space m1 m1' -> proc_ok m1' -> space_grown m0' m1' i.
Proof.
  intros (s0 & pm & pm' & Hi0 & Hi1 & Hc & Hs) S0 Hok0 S1 Hok1. exists s0, pm, pm'.
  split; [by apply (same_space_inv s0 pm m0) |]. split; [by apply (same_space_inv s0 pm' m1) |]. split; [done |].
  by rewrite (proj1 S0), (proj1 S1).
Qed.

Lemma malloc_space (m0 : M) n : ensures (proc_malloc m0 n) (fun '(_, m1) => same_space m0 m1).
Proof. cbn. by destruct (heap_malloc _ _) as [[]| |]. Qed.

Lemma free_space (m0 : M) p : ensures (proc_free m0 p) (same_space m0).
Proof. cbn. by destruct (heap_free _ _). Qed.

Lemma free_if_space (m0 : M) p : ensures (free_if m0 p) (same_space m0).
Proof. unfold free_if. destruct (truth p); [apply free_space | done]. Qed.

Lemma upd_pool (c : sched M) p f : ensures (upd c p f) (fun c' => pool c' = pool c).
Proof. unfold upd, get. by destruct (tasks c !! p). Qed.

Lemma enqueue_pool (c : sched M) t : ensures (enqueue c t) (fun c' => pool c' = pool c).
Proof.
  unfold enqueue. cbv zeta. eapply (ensures_bind _ _ (fun c' => pool c' = pool c)); [| intros c' E'; exact E'].
  destruct (negb _).
  - eapply ensures_bind; [apply upd_pool |]. intros c' E'. exact E'.
  - unfold ready_insert_after_current. apply ensures_any. intros d.
    eapply ensures_bind; [apply upd_pool |]. intros c1 E1.
    pose proof (upd_pool c1 (g_current c1) (set_next t)) as Hu. unfold ensures in *.
    destruct (upd c1 _ _); [| done ..]. by rewrite Hu, E1.
Qed.

Lemma create_user_space (c : sched M) nm ent :
  ensures (task_create_user c nm ent) (fun '(_, c') => same_space (pool c) (pool c')).
Proof.
  unfold task_create_user. apply (ensures_bind _ _ _ _ (malloc_space (pool c) TASK_SIZE)). intros [t m1] K1.
  destruct (negb (truth t)); [exact K1 |].
  apply (ensures_bind _ _ _ _ (malloc_space m1 TASK_STACK_SIZE)). intros [k m2] K2.
  apply (ensures_bind _ _ _ _ (malloc_space m2 TASK_STACK_SIZE)). intros [u m3] K3.
  pose proof (same_space_trans _ _ _ K1 (same_space_trans _ _ _ K2 K3)) as Ks. cbv zeta.
  destruct (negb (truth k) || negb (truth u)).
  - apply (ensures_bind _ _ _ _ (free_if_space m3 k)). intros m4 K4.
    apply (ensures_bind _ _ _ _ (free_if_space m4 u)). intros m5 K5.
    apply (ensures_bind _ _ _ _ (free_space m5 t)). intros m6 K6. cbn [ensures pool with_pool].
    exact (same_space_trans _ _ _ Ks (same_space_trans _ _ _ K4 (same_space_trans _ _ _ K5 K6))).
  - destruct (push32 _ 0) as [sp km].
    match goal with |- ensures (obind (enqueue ?c1 t) _) _ => pose proof (enqueue_pool c1 t) as Kq end.
    apply (ensures_bind _ _ _ _ Kq). intros c' Kp. cbn [ensures]. by rewrite Kp.
Qed.

Lemma create_image_space (c : sched M) nm img :
  ensures (task_create_user_image c nm img) (fun '(_, c') => same_space (pool c) (pool c')).
Proof.
  unfold task_create_user_image. destruct (negb _); [done |]. destruct (_ !! img) as [ent |]; [| done].
  apply (ensures_bind _ _ _ _ (create_user_space c nm ent)). intros [t c1] K1. destruct (negb _); [exact K1 |].
  apply (ensures_bind _ _ _ _ (upd_pool c1 t (set_image img))). intros c2 K2. cbn [ensures]. by rewrite K2.
Qed.

(** ** Memory as it was *)

(** [m1] is [m0] up to what is allowed to differ: the same heap blocks,
    images and mappings, the bytes of the images, and every frame that did
    not become a page table. *)
Record restored (m0 m1 : M) : Prop := Restored {
  rs_blocks : proc_blocks m1 = proc_blocks m0;
  rs_images : limages m1 = limages m0;
  rs_walk va : is_u32 va -> walk (lvm m1) va = walk (lvm m0) va;
  rs_bytes p i va b : limages m0 !! p = Some i -> is_u32 va -> in_segs (segs i) (va / 4096) ->
    user_byte (lvm m0) va b -> user_byte (lvm m1) va b;
  rs_frames q : q ∈ frames (vframes (lvm m0)) -> not_table (pmem (lvm m1)) q -> q ∈ frames (vframes (lvm m1))
}.

(** Two states of the loader with the same base and the same pages. *)
Lemma same_base (s0 : vm F) pm (m0 m1 : M) : loader_inv s0 m0 pm -> loader_inv s0 m1 pm -> same_pages pm (lvm m0) (lvm m1) ->
  proc_blocks m1 = proc_blocks m0 -> limages m1 = limages m0 -> restored m0 m1.
Proof.
  intros Hi0 Hi1 Hs Hb Him. pose proof (li_vm _ _ _ Hi0) as L0. pose proof (li_vm _ _ _ Hi1) as L1.
  assert (forall va, is_u32 va -> walk (lvm m1) va = walk (lvm m0) va) as Hw.
  { intros va Hva. by rewrite (ld_walk _ _ _ L1), (ld_walk _ _ _ L0). }
  split; [done | done | exact Hw | |].
  - intros p i va b Hp Hva Hin (f & Hf & Hbyte). exists f. rewrite Hw by done. split; [done |].
    destruct (li_image _ _ _ Hi0 p i Hp) as (_ & _ & rest & Hc). destruct (covers_in _ _ _ _ Hc Hin) as [f' Hf'].
    rewrite (ld_walk _ _ _ L0) in Hf by done. rewrite Hf' in Hf. unfold user_pte in Hf. assert (f' = f) as -> by (injection Hf; lia).
    rewrite <- Hbyte. apply (Hs (va / 4096)); [done |]. apply Z.mod_pos_bound. lia.
  - intros q Hq Hn. destruct (ld_kept _ _ _ L1 q) as [? | (v & Hv)]; [by apply (ld_frames _ _ _ L0) | done | done |].
    destruct (ld_pm _ _ _ L0 v q Hv) as (_ & [_ Hnot] & _). by destruct (Hnot Hq).
Qed.

(** An image that comes and goes. *)
Lemma image_gone (m0 m' m1 : M) img i :
  space_grown m0 m' i -> limages m' = <[img := i]> (limages m0) -> limages m0 !! img = None -> given_back m' m1 ->
  proc_blocks m1 = proc_blocks m0 -> proc_images m1 = proc_images m0 -> restored m0 m1.
Proof.
  intros (s0 & pm & pm' & Hi0 & Hi' & Hc & Hs) Him Hnone [Hsub Hback] Hb Hpi.
  assert (limages m1 = limages m0) as Him1.
  { apply map_eq. intros q. pose proof (f_equal (.!! q) Hpi) as Hq. cbn [proc_images loader_memory] in Hq. rewrite !lookup_fmap in Hq.
    destruct (limages m1 !! q) as [x |] eqn:E; [| by destruct (limages m0 !! q)].
    pose proof (lookup_weaken _ _ _ _ E Hsub) as Hx. rewrite Him in Hx. apply lookup_insert_Some in Hx as [[<- _] | [_ Hx]]; [| done].
    by rewrite Hnone in Hq. }
  destruct (Hback s0 pm' Hi') as (pm1 & Hi1 & Hsub1 & U & Hkeep & Hs1).
  assert (forall v, unloaded m' m1 v <-> in_segs (segs i) v) as Hu.
  { intros v. unfold unloaded. rewrite Him, Him1. split.
    - intros (q & j & Hq & Hn & Hv). apply lookup_insert_Some in Hq as [[_ <-] | [_ Hq]]; [done | congruence].
    - intros Hv. exists img, i. by rewrite lookup_insert_eq. }
  assert (pm1 = pm) as ->.
  { apply map_eq. intros v. rewrite (covers_rest _ _ _ v Hc). case_decide as Hv; [by apply U, Hu | apply Hkeep]. by rewrite Hu. }
  apply (same_base s0 pm); [done | done | by apply (same_pages_trans _ _ (lvm m')) | done | done].
Qed.

Lemma restored_refl (m0 : M) : restored m0 m0.
Proof. done. Qed.

(** Both ends may differ in the heap's own structure. *)
Lemma restored_via (m0 m0' m1 m1' : M) : restored m0 m1 -> same_space m0 m0' -> same_space m1 m1' ->
  proc_blocks m1' = proc_blocks m0' -> restored m0' m1'.
Proof.
  intros [_ Hi Hw Hy Hf] [E0 I0] [E1 I1] Hb.
  split; rewrite ?E0, ?E1, ?I0, ?I1; [exact Hb | exact Hi | exact Hw | | exact Hf].
  intros p i va b. apply Hy.
Qed.

Lemma same_space_restored (m0 m1 : M) : same_space m0 m1 -> proc_blocks m1 = proc_blocks m0 -> restored m0 m1.
Proof. intros Hs. apply (restored_via m0 m0 m0 m1); [apply restored_refl | by split | done]. Qed.

End Memory.
