(* ===== verification/ShellProgram.v ===== *)
(** * Shell: running a program, shown correct

    exec takes a file of the volume to a task of ring 3 that runs it, through
    the path helpers, FAT32, the heap, the ELF loader, paging and the
    scheduler; where it refuses it shows the reason, and memory and tasks are
    as they were. *)

From S2P Require Import Prelude Memory Interfaces Paging PagingExt Elf ElfSpec ElfLoad.
From S2P Require Import Keyboard Screen Fat32 FatName FatTable FatDir FatOps FatFile FatList FatKeep Cpu.
From S2P Require Import Task TaskRing TaskSpec TaskSched TaskCreate TaskProps.
From S2P Require Import Irq ShellText ShellFs ShellPath ShellCommands ShellExec ShellUse ShellMemory.

(** ** The file in memory *)

Section Program.
  Context {F : Type} `{FrameAllocatorLaws F} `{PagingLayout} {K : Type} `{HeapAllocatorLaws K} `{TaskCode} `{Uart}
    {P D : Type} `{BlockDeviceLaws D}.
  Notation M := (loader F K).
  Implicit Types (s : shell M P D) (m : mem).

(** The file whose clusters are [l] is at [buf] in [m]. *)
Definition file_at (v : fat D) (l : list Z) (size : Z) m (buf : Z) : Prop :=
  forall j, 0 <= j < size -> load8 m (buf + j) = file_byte v l j.

Definition with_kernel_memory s m : shell M P D :=
  with_kern s (with_sched (kern s) (with_kmem (ksched (kern s)) m)).

Lemma read_into_ok s e buf l :
  fs_ok (vol s) -> mounted (vol s) = true -> chain (vol s) (start_cluster e) l -> 0 < e_size e < 2 ^ 31 ->
  e_size e <= Z.of_nat (length l) * cluster_size (fs (vol s)) ->
  exists v m, read_into s e buf (e_size e) = Ret (e_size e, with_vol (with_kernel_memory s m) v) /\
    fs_ok v /\ same_disk (vol s) v /\ file_at (vol s) l (e_size e) m buf.
Proof.
  intros Hok Hm Hc Hsz Hlen. unfold read_into. cbv zeta.
  destruct (read_file_ok (vol s) e l (copy_bytes (e_size e) (kmem (ksched (kern s))) buf ∅ 0) (e_size e) Hok Hm Hc)
    as (b & v & -> & Hok' & Hs & Hb); [unfold is_u32; lia | lia |].
  replace (Z.min (Z.min (e_size e) (e_size e)) (Z.of_nat (length l) * cluster_size (fs (vol s)))) with (e_size e) in * by lia.
  cbn [obind]. eexists v, _. split; [reflexivity |]. split_and!; [done | done |].
  intros j Hj. rewrite load8_copy_bytes, decide_True by lia. rewrite Hb, decide_True by lia. f_equal. lia.
Qed.

(** At most eight segments. *)
Lemma load_phdrs_segs n i m file fsize phoff img (v : vm F) : seg_count img <= MAX_USER_SEGMENTS ->
  ensures (load_phdrs n i m file fsize phoff img v) (fun '(_, img', _) => seg_count img' <= MAX_USER_SEGMENTS).
Proof.
  revert i img v. induction n as [|n IH]; intros i img v Hs; cbn [load_phdrs]; [done |]. cbv zeta.
  destruct (negb _); [by apply IH |]. destruct (_ =? 0); [by apply IH |]. destruct (_ <? _); [done |].
  apply (ensures_bind _ _ (fun '(_, img', _) => seg_count img' <= MAX_USER_SEGMENTS)).
  - unfold load_segment. destruct (Z.leb_spec MAX_USER_SEGMENTS (seg_count img)); [done |]. cbv zeta.
    destruct (_ <=? _); [done |]. apply ensures_any. intros [[r cnt] v']. cbn [ensures]. unfold seg_count in *.
    cbn [segs]. rewrite length_app. cbn [length]. lia.
  - intros [[r img'] v'] Hs'. destruct (r <? 0); [done | by apply IH].
Qed.

Lemma elf_load_segs m file fsize (m0 : M) p i :
  match elf_load m file fsize m0 with
  | Ret (_, Some q, m1) => q = p -> limages m1 !! p = Some i -> seg_count i <= MAX_USER_SEGMENTS
  | _ => True
  end.
Proof.
  unfold elf_load. destruct (negb _); [done |]. cbv zeta. destruct (negb _); [done |].
  destruct (heap_malloc _ _) as [[q h] | |]; [| done ..]. cbn [obind]. destruct (negb _); [done |].
  pose proof (load_phdrs_segs (Z.to_nat (e_phnum (read_ehdr m file))) 0 m file fsize (e_phoff (read_ehdr m file))
    (Image [] (e_entry (read_ehdr m file))) (lvm m0)) as Hs. unfold ensures in Hs.
  destruct (load_phdrs _ _ _ _ _ _ _ _) as [[[r img] v] | |]; cbn [obind]; [| done ..]. destruct (r <? 0).
  - by destruct (elf_unload _ _).
  - intros ->. cbn [limages]. rewrite lookup_insert_eq. intros [= <-]. by apply Hs.
Qed.

(** ** Loading from a block of the heap *)

(** If the bytes at [buf] have the header of an executable, its segments lie
    in user space, share no page and use none that is mapped, and the frames
    it may need are in the mapped part of memory. *)
Definition loads_from (m0 : M) m buf size : Prop :=
  validate_ehdr (read_ehdr m buf) size = true ->
  exists (v0 : vm F) pm, loader_inv v0 m0 pm /\ loadable v0 pm m buf /\ load_room (lvm m0) m buf.

Lemma load_step (m0 : M) m buf size :
  proc_ok m0 -> 0 < buf -> loads_from m0 m buf size ->
  exists r o (m1 : M), elf_load m buf size m0 = Ret (r, o, m1) /\ proc_ok m1 /\
    match o with
    | Some p => r = 0 /\ 0 < p /\ exists i pm pm', image_loaded m0 m1 pm pm' m buf size p i /\ seg_count i <= MAX_USER_SEGMENTS /\
        space_grown m0 m1 i
    | None => load_error m0 m buf size r /\ same_pool m0 m1 /\ restored m0 m1
    end.
Proof.
  intros Hpo Hbuf Hl. destruct (validate_ehdr (read_ehdr m buf) size) eqn:Hval.
  - destruct (Hl Hval) as (v0 & pm & Hinv & Hlo & Hroom). destruct (load_inv v0 m0 pm m buf size Hinv Hbuf Hlo Hroom) as (r & o & m1 & pm' & E & Hinv' & Hpg & Ho).
    exists r, o, m1. split; [exact E |]. split; [by exists v0, pm' |]. destruct o as [p |].
    + destruct Ho as (-> & i & Hi). split; [done |].
      assert (limages m1 !! p = Some i) as Hp by (rewrite (il_images _ _ _ _ _ _ _ _ _ Hi); apply lookup_insert_eq).
      split; [apply (li_image _ _ _ Hinv' p i Hp) |]. exists i, pm, pm'. split; [done |]. split.
      * pose proof (elf_load_segs m buf size m0 p i) as Hs. rewrite E in Hs. by apply Hs.
      * exists v0, pm, pm'. split; [done |]. split; [done |]. split; [apply (il_covers _ _ _ _ _ _ _ _ _ Hi) | done].
    + destruct Ho as (Herr & Hpm & Him & Hb).
      split; [exact Herr |]. split; [split; [by exists v0, pm' | exact Hb | cbn; by rewrite Him] |].
      subst pm'. by apply (same_base v0 pm).
  - exists (-2), None, m0. unfold elf_load. rewrite truth_pos by done. cbn [negb]. cbv zeta. rewrite Hval.
    split; [done |]. split; [done |]. split; [by left |]. split; [done | apply restored_refl].
Qed.

Lemma load_error_range (m0 : M) m buf size r : load_error m0 m buf size r -> -5 <= r < 0.
Proof. intros [[-> _] | [[-> _] | [[-> _] | [-> _]]]]; lia. Qed.

(** [m'] is [m0] with one image. *)
Record image_added (m0 : M) (p : Z) (i : user_image) (m' : M) : Prop := ImageAdded {
  ia_ok : proc_ok m';
  ia_fresh : proc_blocks m0 !! p = None;
  ia_blocks : proc_blocks m' = <[p := IMAGE_SIZE]> (proc_blocks m0);
  ia_images : limages m' = <[p := i]> (limages m0);
  ia_space : space_grown m0 m' i
}.

Lemma image_added_entry (m0 : M) p i (m' : M) : image_added m0 p i m' -> proc_images m' = <[p := entry i]> (proc_images m0).
Proof. intros Hi. cbn. by rewrite (ia_images _ _ _ _ Hi), fmap_insert. Qed.

Lemma free_buffer (m0 m1 m2 : M) buf size pm pm' m fsize p i :
  proc_ok m0 -> fresh_block m0 buf size m1 -> same_space m0 m1 -> proc_ok m2 ->
  image_loaded m1 m2 pm pm' m buf fsize p i -> space_grown m1 m2 i ->
  exists m3 : M, proc_free m2 buf = Ret m3 /\ image_added m0 p i m3 /\ same_space m2 m3.
Proof.
  intros Hok Hf Hsp1 Hok2 Hi Hgr. pose proof Hsp1 as [_ Him1]. pose proof (fresh_image _ _ _ _ Hok Hf) as Hn. destruct Hf as [_ _ Hnew Hb1 Hi1].
  pose proof (il_unheld _ _ _ _ _ _ _ _ _ Hi) as Hun. change (proc_blocks m1 !! p = None) in Hun. rewrite Hb1 in Hun.
  apply lookup_insert_None in Hun as [Hun Hne].
  assert (proc_blocks m2 = <[p := IMAGE_SIZE]> (<[buf := size]> (proc_blocks m0))) as Hb2.
  { rewrite <- Hb1. exact (il_blocks _ _ _ _ _ _ _ _ _ Hi). }
  assert (proc_images m2 !! buf = None) as Hn2.
  { cbn. rewrite (il_images _ _ _ _ _ _ _ _ _ Hi), fmap_insert, lookup_insert_ne, Him1 by done. exact Hn. }
  destruct (proc_free_ok m2 buf size Hok2) as (m3 & E & Hok3 & _ & Hb3); [| exact Hn2 |].
  { by rewrite Hb2, lookup_insert_ne, lookup_insert_eq. }
  exists m3. split; [exact E |]. pose proof (free_space m2 buf) as Hsp. rewrite E in Hsp. cbn [ensures] in Hsp.
  split; [| exact Hsp]. pose proof Hsp as [_ Him3]. split; [done | done | | by rewrite Him3, (il_images _ _ _ _ _ _ _ _ _ Hi), Him1 |].
  - rewrite Hb3, Hb2, delete_insert_ne by done. by rewrite delete_insert_id.
  - by apply (space_grown_proper m1 _ m2); [| apply same_space_sym | | |].
Qed.

Lemma swap_same (c : sched M) l (m' : M) : sched_ok c l -> same_pool (pool c) m' -> sched_ok (with_pool c m') l.
Proof. intros Hok [? Hb Hi]. apply swap_pool_ok; [done |]. split; [done |]. intros p t x _ _. by rewrite Hb, Hi. Qed.

Lemma swap_image (c : sched M) l p i (m' : M) : sched_ok c l -> 0 < p -> image_added (pool c) p i m' ->
  sched_ok (with_pool c m') l /\ image_unowned (with_pool c m') p.
Proof.
  intros Hok Hp Hi. pose proof (ro_mem _ _ (sk_ring _ _ Hok)) as Hm.
  assert (forall q t x, tasks c !! q = Some t -> x ∈ resources q t -> x ≠ p) as Hne.
  { intros q t x Hq Hx ->. destruct (resource_block _ _ _ _ _ Hm Hq Hx) as [k Hk].
    pose proof (ia_fresh _ _ _ _ Hi). congruence. }
  split.
  - apply swap_pool_ok; [done |]. split; [apply Hi |]. intros q t x Hq Hx. pose proof (Hne q t x Hq Hx) as Hxp.
    rewrite (ia_blocks _ _ _ _ Hi), (image_added_entry _ _ _ _ Hi). by rewrite !lookup_insert_ne by done.
  - intros q t Hq E. apply (Hne q t p Hq); [| done]. unfold resources. apply elem_of_app. left. rewrite E.
    apply elem_of_opt_ptr. lia.
Qed.

Lemma unheld_image (m0 : M) p : proc_ok m0 -> proc_blocks m0 !! p = None -> proc_images m0 !! p = None.
Proof.
  intros Hok Hb. apply eq_None_not_Some. intros [e He]. destruct (proc_image_block m0 p e Hok He) as [_ [k Hk]]. congruence.
Qed.

(** Giving the image back. *)
Lemma unload_added (m0 m3 m4 : M) p i : proc_ok m0 -> image_added m0 p i m3 -> same_pool m3 m4 -> same_space m3 m4 ->
  exists m5 : M, elf_unload m4 p = Ret m5 /\ same_pool m0 m5 /\ restored m0 m5.
Proof.
  intros Hok0 Hi [Hok Hb Him] Hsp. pose proof (unheld_image _ _ Hok0 (ia_fresh _ _ _ _ Hi)) as Hn.
  assert (proc_images m4 !! p = Some (entry i)) as Hp by by rewrite Him, (image_added_entry _ _ _ _ Hi), lookup_insert_eq.
  destruct (proc_unload_ok m4 p (entry i) Hok Hp) as (m5 & E & Hok5 & Hi5 & Hb5). exists m5. split; [exact E |].
  assert (same_pool m0 m5) as Hsm.
  { split; [done | |].
    - rewrite Hb5, Hb, (ia_blocks _ _ _ _ Hi). apply delete_insert_id, Hi.
    - rewrite Hi5, Him, (image_added_entry _ _ _ _ Hi). by apply delete_insert_id. }
  split; [exact Hsm |]. destruct Hsm as [_ Hb0 Hi0]. apply (image_gone m0 m4 m5 p i); [| | | | exact Hb0 | exact Hi0].
  - apply (space_grown_proper m0 m0 m3 m4 i (ia_space _ _ _ _ Hi)); done.
  - destruct Hsp as [_ ->]. apply (ia_images _ _ _ _ Hi).
  - cbn [proc_images loader_memory] in Hn. rewrite lookup_fmap in Hn. by destruct (limages m0 !! p).
  - exact (proc_unload_returns m4 p (entry i) m5 Hok Hp E).
Qed.

(** ** Messages *)

Lemma show_hex_ok s n : screen_ok s -> is_u32 n ->
  exists ds s', show_hex s n = Ret s' /\ prints s (ink VGA_LIGHT_GREY ([48; 120] ++ ds)) s' /\ hex_value ds = n.
Proof.
  intros Hs Hn. destruct (print_numbers (kscreen (kern s)) n Hn) as [_ (ds & E & Hd & Hv & _)].
  destruct (show_then s [48; 120] VGA_LIGHT_GREY (fun s => show s ds) (ink VGA_LIGHT_GREY (c_string ds)) Hs) as (s' & Es & Hp).
  { intros s1 Hs1 _. by apply show_ok. }
  exists ds, s'. split_and!; [| | done].
  - rewrite <- Es. unfold show_hex, show, show_color. rewrite E. unfold kprint.
    by destruct (kprint_color (kscreen (kern s)) [48; 120] VGA_LIGHT_GREY VGA_BLACK).
  - rewrite (c_string_id ds) in Hp; [exact Hp |].
    eapply Forall_impl; [exact Hd |]. intros c. unfold is_hex. lia.
Qed.

(** The message of a program that was started. *)
Definition started_msg (ds hs ns : list Z) : list (Z * Z) :=
  ink VGA_LIGHT_GREY (lit "exec: pid=") ++ ink VGA_LIGHT_GREY ds ++ ink VGA_LIGHT_GREY (lit " entry=") ++
  ink VGA_LIGHT_GREY ([48; 120] ++ hs) ++ ink VGA_LIGHT_GREY (lit " segs=") ++ ink VGA_LIGHT_GREY ns ++
  ink VGA_LIGHT_GREY [ch_nl].

Lemma show_str s str fg : screen_ok s -> c_string str = str ->
  exists s', show_color s str fg = Ret s' /\ prints s (ink fg str) s' /\ screen_ok s'.
Proof.
  intros Hs E. destruct (show_color_ok s str fg Hs) as (s' & Es & Hp). rewrite E in Hp. exists s'.
  split_and!; [done | done | by eapply prints_ok].
Qed.

Lemma show_started s img i n : screen_ok s -> is_u32 n -> is_u32 (entry i) -> is_u32 (seg_count i) ->
  limages (mem_pool s) !! img = Some i ->
  exists ds hs ns s',
    (do! s := show s (lit "exec: pid=") in do! s := show_dec s n in
     match limages (mem_pool s) !! img with
     | None => Halt (BadAccess img)
     | Some i =>
         do! s := show s (lit " entry=") in do! s := show_hex s (entry i) in
         do! s := show s (lit " segs=") in do! s := show_dec s (seg_count i) in show s [ch_nl]
     end) = Ret s' /\ prints s (started_msg ds hs ns) s' /\
    dec_value ds = n /\ hex_value hs = entry i /\ dec_value ns = seg_count i.
Proof.
  intros Hs Hn He Hg Hi. destruct (show_str s (lit "exec: pid=") VGA_LIGHT_GREY Hs eq_refl) as (s1 & E1 & P1 & S1).
  unfold show at 1. rewrite E1. cbn [obind]. destruct (show_dec_ok s1 n S1 Hn) as (ds & s2 & -> & P2 & Hds). cbn [obind].
  pose proof (prints_ok _ _ _ S1 P2) as S2. rewrite (prints_pool _ _ _ P2), (prints_pool _ _ _ P1), Hi.
  destruct (show_str s2 (lit " entry=") VGA_LIGHT_GREY S2 eq_refl) as (s3 & E3 & P3 & S3). unfold show at 1. rewrite E3.
  cbn [obind]. destruct (show_hex_ok s3 (entry i) S3 He) as (hs & s4 & -> & P4 & Hhs). cbn [obind].
  pose proof (prints_ok _ _ _ S3 P4) as S4.
  destruct (show_str s4 (lit " segs=") VGA_LIGHT_GREY S4 eq_refl) as (s5 & E5 & P5 & S5). unfold show at 1. rewrite E5.
  cbn [obind]. destruct (show_dec_ok s5 (seg_count i) S5 Hg) as (ns & s6 & -> & P6 & Hns). cbn [obind].
  pose proof (prints_ok _ _ _ S5 P6) as S6. destruct (show_ok s6 [ch_nl] S6) as (s7 & -> & P7).
  exists ds, hs, ns, s7. split; [done |]. split; [| done]. unfold started_msg.
  do 6 (eapply prints_trans; [eassumption |]). exact P7.
Qed.

(** ** exec *)

(** Nothing but the screen, and memory nobody owns, is different: the heap
    has the same blocks, no image came or went, every translation, the bytes
    of the programs and the free frames are as they were, but for frames that
    became page tables. *)
Record refused s (l : list Z) s' : Prop := Refused {
  rf_pool : same_pool (mem_pool s) (mem_pool s');
  rf_restored : restored (mem_pool s) (mem_pool s');
  rf_tasks : tasks (ksched (kern s')) = tasks (ksched (kern s));
  rf_sched : sched_ok (ksched (kern s')) l
}.

(** The image [img], read from the memory [m] with the file of the entry
    [e], clusters [lf], at [buf], runs as the task [t] with the stacks [k]
    and [u]. *)
Record program_running s (l : list Z) m (buf size img t k u : Z) (i : user_image) (d : task) s' : Prop := ProgramRunning {
  pr_valid : validate_ehdr (read_ehdr m buf) size = true;
  pr_entry : entry i = e_entry (read_ehdr m buf);
  pr_bytes ph va : ph ∈ load_list m buf -> p_vaddr ph <= va < p_vaddr ph + p_memsz ph ->
    user_byte (lvm (mem_pool s')) va (program_byte m buf ph va);
  pr_image : limages (mem_pool s') = <[img := i]> (limages (mem_pool s));
  pr_space : space_grown (mem_pool s) (mem_pool s') i;
  pr_blocks : proc_blocks (mem_pool s') = <[u := TASK_STACK_SIZE]> (<[k := TASK_STACK_SIZE]> (<[t := TASK_SIZE]>
    (<[img := IMAGE_SIZE]> (proc_blocks (mem_pool s)))));
  pr_fresh : Forall (fun q => proc_blocks (mem_pool s) !! q = None) [img; t; k; u];
  pr_apart : NoDup [img; t; k; u];
  pr_sched : sched_ok (ksched (kern s')) (g_current (ksched (kern s)) :: t :: tl l);
  pr_queue : queue (ksched (kern s')) (g_current (ksched (kern s)) :: t :: tl l) =
    g_current (ksched (kern s)) :: t :: runnable (ksched (kern s)) (tl l);
  pr_task : tasks (ksched (kern s')) !! t = Some d;
  pr_id : id d = g_next_id (ksched (kern s));
  pr_own : own d = (k, u, img);
  pr_esp : esp d = k + TASK_STACK_SIZE - 4 * Z.of_nat (length (user_words (entry i) u));
  pr_stack : kmem (ksched (kern s')) = snd (push_all (k + TASK_STACK_SIZE) m (user_words (entry i) u))
}.

(** After exec has found a file: what it does, and for what reason. *)
Definition bad_elf_msg (ds : list Z) : list (Z * Z) :=
  ink VGA_LIGHT_RED (lit "exec: not a valid i386 ELF (rc=") ++ ink VGA_LIGHT_GREY ds ++ ink VGA_LIGHT_GREY (litn ")").

(** The file, in the memory [m] at [buf], cannot be loaded into [m1]: the code
    shown has its cause. *)
Definition not_loaded s (l : list Z) (m1 : M) m (buf size : Z) s' : Prop :=
  exists r ds, load_error m1 m buf size (- r) /\ dec_value ds = r /\ displays s (bad_elf_msg ds) s' /\ refused s l s'.

(** It was loaded, but once its buffer was given back the heap had no room for
    a task. *)
Definition not_started s (l : list Z) (m1 : M) m (buf size : Z) s' : Prop :=
  exists img (m2 m3 : M), elf_load m buf size m1 = Ret (0, Some img, m2) /\ proc_free m2 buf = Ret m3 /\
    heap_gives m3 [TASK_SIZE; TASK_STACK_SIZE; TASK_STACK_SIZE] = false /\
    displays s (ink VGA_LIGHT_RED (litn "exec: failed to spawn task")) s' /\ refused s l s'.

(** It runs, as a task with the name [path]. *)
Definition started s (l : list Z) m (buf size : Z) (path : list Z) s' : Prop :=
  exists img t k u i d ds hs ns, program_running s l m buf size img t k u i d s' /\
    name d = str_copy_n path TASK_NAME_LEN /\
    displays s (started_msg ds hs ns) s' /\ dec_value ds = id d /\ hex_value hs = entry i /\ dec_value ns = seg_count i.

Definition exec_result s (l : list Z) (v : fat D) (size : Z) (lf path : list Z) s' : Prop :=
  if heap_gives (mem_pool s) [size] then
    exists m buf (m1 : M), proc_malloc (mem_pool s) size = Ret (buf, m1) /\ file_at v lf size m buf /\
      (not_loaded s l m1 m buf size s' \/ not_started s l m1 m buf size s' \/ started s l m buf size path s')
  else displays s (ink VGA_LIGHT_RED (litn "exec: out of heap")) s' /\ refused s l s'.

Lemma exec_result_cases s l v size lf path s' : exec_result s l v size lf path s' ->
  refused s l s' \/ exists m buf, file_at v lf size m buf /\ started s l m buf size path s'.
Proof.
  unfold exec_result. destruct (heap_gives _ _); [| intros [_ ?]; by left].
  intros (m & buf & m1 & _ & Hf & [(r & ds & _ & _ & _ & ?) | [(img & m2 & m3 & _ & _ & _ & _ & ?) | Hs]]); [by left .. |].
  right. by exists m, buf.
Qed.

Lemma refused_swap s l m (m' : M) s' :
  sched_ok (ksched (kern s)) l -> same_pool (mem_pool s) m' -> restored (mem_pool s) m' ->
  ksched (kern s') = with_pool (with_kmem (ksched (kern s)) m) m' -> refused s l s'.
Proof.
  intros Hok Hsm Hr Es. split; unfold mem_pool; rewrite Es; [exact Hsm | exact Hr | done |].
  apply swap_same; [by apply (sched_ok_ext (ksched (kern s))) | exact Hsm].
Qed.

(** The task could not be created: the image is unloaded. *)
Lemma task_refused s0 s l img i m (m3 : loader F K) :
  screen_ok s -> sched_ok (ksched (kern s0)) l ->
  ksched (kern s) = with_pool (with_kmem (ksched (kern s0)) m) (mem_pool s) ->
  image_added (mem_pool s0) img i m3 -> same_pool m3 (mem_pool s) -> same_space m3 (mem_pool s) ->
  exists s', (do! pl := elf_unload (mem_pool s) img in
              show_color (with_mem s pl) (litn "exec: failed to spawn task") VGA_LIGHT_RED) = Ret s' /\
    vol s' = vol s /\ cwd_path s' = cwd_path s /\
    displays s (ink VGA_LIGHT_RED (litn "exec: failed to spawn task")) s' /\ refused s0 l s'.
Proof.
  intros Hsc Hok Ek Hadd Hsm Hsp.
  destruct (unload_added _ _ _ _ _ (tm_ok _ _ (ro_mem _ _ (sk_ring _ _ Hok))) Hadd Hsm Hsp) as (m5 & -> & Hsm5 & Hr5). cbn [obind].
  destruct (show_str (with_mem s m5) (litn "exec: failed to spawn task") VGA_LIGHT_RED Hsc eq_refl) as (s' & -> & Hp & _).
  destruct (prints_rest _ _ _ Hp) as (Ev & Ew & Es). exists s'. split; [done |]. split; [exact Ev |]. split; [exact Ew |].
  split; [exact (prints_displays _ _ _ Hp) |]. apply (refused_swap s0 l m m5); [done | exact Hsm5 | exact Hr5 |].
  rewrite Es. cbn [ksched kern with_mem with_kern with_sched]. by rewrite Ek.
Qed.

(** The task for an image that was added to the pool of [s0]. *)
Lemma exec_task_ok s0 s l c img i path m buf size :
  screen_ok s -> sched_ok (ksched (kern s0)) (c :: l) -> is_u32 (g_next_id (ksched (kern s0))) ->
  ksched (kern s) = with_pool (with_kmem (ksched (kern s0)) m) (mem_pool s) ->
  image_added (mem_pool s0) img i (mem_pool s) -> 0 < img -> is_u32 (entry i) -> is_u32 (seg_count i) ->
  validate_ehdr (read_ehdr m buf) size = true -> entry i = e_entry (read_ehdr m buf) ->
  (forall ph va, ph ∈ load_list m buf -> p_vaddr ph <= va < p_vaddr ph + p_memsz ph ->
     user_byte (lvm (mem_pool s)) va (program_byte m buf ph va)) ->
  exists s', exec_task s path img = Ret s' /\ vol s' = vol s /\ cwd_path s' = cwd_path s /\
    ((heap_gives (mem_pool s) [TASK_SIZE; TASK_STACK_SIZE; TASK_STACK_SIZE] = false /\
      displays s (ink VGA_LIGHT_RED (litn "exec: failed to spawn task")) s' /\ refused s0 (c :: l) s') \/
     exists t k u d ds hs ns, program_running s0 (c :: l) m buf size img t k u i d s' /\
       name d = str_copy_n path TASK_NAME_LEN /\ displays s (started_msg ds hs ns) s' /\ dec_value ds = id d /\ hex_value hs = entry i /\ dec_value ns = seg_count i).
Proof.
  intros Hsc Hok Hid Ek Hadd Hpos He Hg Hval Hent Hbytes.
  assert (sched_ok (with_kmem (ksched (kern s0)) m) (c :: l)) as Hokm by (by apply (sched_ok_ext (ksched (kern s0)))).
  destruct (swap_image _ _ img i (mem_pool s) Hokm Hpos Hadd) as [Hok3 Hun]. rewrite <- Ek in Hok3, Hun.
  assert (proc_images (pool (ksched (kern s))) !! img = Some (entry i)) as Him.
  { change (pool (ksched (kern s))) with (mem_pool s). rewrite (image_added_entry _ _ _ _ Hadd). apply lookup_insert_eq. }
  unfold exec_task. pose proof (create_image_space (ksched (kern s)) path img) as Hsp.
  pose proof (create_image_refused (ksched (kern s)) path img) as Hnull.
  destruct (create_image_cases _ c l path img (entry i) Hok3 Him Hun) as (t & c' & E & Hc). rewrite E in Hsp, Hnull |- *.
  cbn [obind ensures] in *. set (s1 := with_kern s (with_sched (kern s) c')).
  assert (screen_ok s1) as Hsc1 by exact Hsc.
  destruct Hc as [(-> & m4 & Ec & Hsm) | (Ht & Hok' & Hq & _ & k & u & d & Hd & Himd & Hidd & Hnm & Hown & Hesp & Hnd & Hfr & Hb & Hi' & Hkm)].
  - cbn [truth negb Z.eqb]. destruct (task_refused s0 s1 (c :: l) img i m (mem_pool s) Hsc1 Hok) as (s' & Es & Ev & Ew & Hr);
      [subst c'; change (with_pool (ksched (kern s)) m4 = with_pool (with_kmem (ksched (kern s0)) m) m4); by rewrite Ek |
       done | subst c'; exact Hsm | subst c'; exact Hsp |].
    exists s'. split; [exact Es |]. split; [exact Ev |]. split; [exact Ew |]. left.
    split; [exact (Hnull _ (truth_pos _ Hpos) eq_refl) | exact Hr].
  - rewrite truth_pos by done. cbn [negb]. unfold get. change (ksched (kern s1)) with c'. rewrite Hd. cbn [obind].
    assert (limages (mem_pool s1) !! img = Some i) as Hlim.
    { destruct Hsp as [_ Hl]. change (mem_pool s1) with (pool c'). rewrite Hl. change (pool (ksched (kern s))) with (mem_pool s).
      rewrite (ia_images _ _ _ _ Hadd). apply lookup_insert_eq. }
    rewrite Ek in Hidd. cbn [g_next_id with_pool with_kmem] in Hidd.
    destruct (show_started s1 img i (id d) Hsc1) as (ds & hs & ns & s' & -> & Hp & Hv); [by rewrite Hidd | done .. |].
    destruct (prints_rest _ _ _ Hp) as (Ev & Ew & Es). exists s'. split; [done |]. split; [exact Ev |]. split; [exact Ew |]. right.
    exists t, k, u, d, ds, hs, ns. split; [| split; [exact Hnm | split; [exact (prints_displays _ _ _ Hp) | exact Hv]]].
    change (ksched (kern s1)) with c' in Es. pose proof (prints_pool _ _ _ Hp) as Em. change (mem_pool s1) with (pool c') in Em.
    destruct Hsp as [Hv1 Hl1]. change (pool (ksched (kern s))) with (mem_pool s) in *.
    pose proof (ro_current _ _ (sk_ring _ _ Hok)) as Hcur. injection Hcur as Hcur. subst c.
    assert (Forall (fun q => proc_blocks (mem_pool s0) !! q = None /\ q ≠ img) [t; k; u]) as Hfr0.
    { eapply Forall_impl; [exact Hfr |]. intros q Hqn. rewrite (ia_blocks _ _ _ _ Hadd) in Hqn.
      by apply lookup_insert_None in Hqn as [? ?]. }
    split; rewrite ?Es, ?Em; [exact Hval | exact Hent | rewrite Hv1; exact Hbytes | | | | | | exact Hok' | | exact Hd |
      exact Hidd | exact Hown | exact Hesp |].
    + by rewrite Hl1, (ia_images _ _ _ _ Hadd).
    + apply (space_grown_proper (mem_pool s0) _ (mem_pool s) _ i (ia_space _ _ _ _ Hadd)).
      * done.
      * apply (tm_ok _ _ (ro_mem _ _ (sk_ring _ _ Hok))).
      * by split.
      * apply (tm_ok _ _ (ro_mem _ _ (sk_ring _ _ Hok'))).
    + by rewrite Hb, (ia_blocks _ _ _ _ Hadd).
    + apply Forall_cons. split; [apply (ia_fresh _ _ _ _ Hadd) |]. eapply Forall_impl; [exact Hfr0 |]. by intros q [].
    + apply NoDup_cons. split; [| exact Hnd]. intros Hin. rewrite Forall_forall in Hfr0. by destruct (Hfr0 img Hin).
    + cbn [tl]. rewrite Hq, Ek. reflexivity.
    + rewrite Hkm, Ek. reflexivity.
Qed.

(** What may be loaded before the buffer is taken may be loaded after. *)
Lemma loads_lent (m0 m1 : M) m buf n size :
  proc_ok m0 -> fresh_block m0 buf n m1 -> same_space m0 m1 -> loads_from m0 m buf size -> loads_from m1 m buf size.
Proof.
  intros Hok Hf Hs Hlo Hval. destruct (Hlo Hval) as (v0 & pm & Hi & Hload & Hroom). exists v0, pm.
  split; [| split; [exact Hload | by rewrite (proj1 Hs)]]. by apply (same_space_inv v0 pm m0); [| | apply (fb_ok _ _ _ _ Hf)].
Qed.

(** The message of a failed load. *)
Lemma show_bad_elf s r : screen_ok s -> -5 <= r < 0 ->
  exists ds s', (do! s := show_color s (lit "exec: not a valid i386 ELF (rc=") VGA_LIGHT_RED in
                 do! s := show_dec s (u32 (- r)) in show s (litn ")")) = Ret s' /\
    prints s (bad_elf_msg ds) s' /\ dec_value ds = - r.
Proof.
  intros Hs Hr. rewrite u32_small by lia.
  destruct (show_str s (lit "exec: not a valid i386 ELF (rc=") VGA_LIGHT_RED Hs eq_refl) as (s1 & -> & P1 & S1). cbn [obind].
  destruct (show_dec_ok s1 (- r) S1) as (ds & s2 & -> & P2 & Hv); [unfold is_u32; lia |]. cbn [obind].
  pose proof (prints_ok _ _ _ S1 P2) as S2.
  destruct (show_str s2 (litn ")") VGA_LIGHT_GREY S2 eq_refl) as (s3 & E & P3 & _). exists ds, s3. split; [exact E |].
  split; [| done]. do 2 (eapply prints_trans; [eassumption |]). exact P3.
Qed.

Lemma exec_file_ok s l e lf path :
  screen_ok s -> fs_ok (vol s) -> mounted (vol s) = true -> chain (vol s) (start_cluster e) lf ->
  0 < e_size e < 2 ^ 31 -> e_size e <= Z.of_nat (length lf) * cluster_size (fs (vol s)) ->
  sched_ok (ksched (kern s)) l -> is_u32 (g_next_id (ksched (kern s))) ->
  (forall m buf, 0 < buf -> buf + e_size e < 2 ^ 32 -> file_at (vol s) lf (e_size e) m buf -> loads_from (mem_pool s) m buf (e_size e)) ->
  exists s', exec_file s e path = Ret s' /\ same_disk (vol s) (vol s') /\ cwd_path s' = cwd_path s /\
    exec_result s l (vol s) (e_size e) lf path s'.
Proof.
  intros Hsc Hfs Hm Hch Hsz Hlen Hok Hid Hload. destruct (sched_ok_head _ _ Hok) as [l' ->].
  pose proof (tm_ok _ _ (ro_mem _ _ (sk_ring _ _ Hok))) as Hpo. change (proc_ok (mem_pool s)) in Hpo.
  unfold exec_file, exec_result. pose proof (malloc_space (mem_pool s) (e_size e)) as Hsp1.
  destruct (lend_ok s (e_size e) Hpo) as (buf & m1 & E1 & <- & Hc1); [lia |]. unfold kmalloc in *.
  destruct (proc_malloc (mem_pool s) (e_size e)) as [[p1 m1'] | |]; [| discriminate ..]. cbn [obind ensures] in *.
  injection E1 as -> ->.
  destruct Hc1 as [[-> Hsm] | [Hbuf Hf]]; rewrite ?Hbuf; cbn [truth negb Z.eqb].
  { destruct (show_str (with_mem s m1) (litn "exec: out of heap") VGA_LIGHT_RED Hsc eq_refl) as (s' & -> & Hp & _).
    destruct (prints_rest _ _ _ Hp) as (Ev & Ew & Es). exists s'. split; [done |]. split; [rewrite Ev; apply same_disk_refl |].
    split; [exact Ew |]. split; [exact (prints_displays _ _ _ Hp) |].
    apply (refused_swap s _ (kmem (ksched (kern s))) m1); [done | exact Hsm | | exact Es].
    apply same_space_restored; [exact Hsp1 | apply Hsm]. }
  destruct (read_into_ok (with_mem s m1) e buf lf Hfs Hm Hch Hsz Hlen) as (v & m & -> & _ & Hdv & Hat). cbn [obind].
  rewrite (proj2 (Z.ltb_ge (e_size e) 0)), u32_small, Z.eqb_refl by lia. cbn [orb negb].
  set (s2 := with_vol (with_kernel_memory (with_mem s m1) m) v).
  destruct (load_step m1 m buf (e_size e)) as (r & o & m2 & El & Hpo2 & Ho);
    [apply Hf | apply Hf | apply (loads_lent (mem_pool s) m1 m buf (e_size e)), Hload; try done; by apply (fresh_range _ _ _ _ Hf) |].
  unfold load_program. change (kmem (ksched (kern s2))) with m. change (mem_pool s2) with m1. rewrite El. cbn [obind].
  destruct o as [img |].
  - destruct Ho as (-> & Hpos & i & pm & pm' & Hi & Hseg & Hgr). unfold kfree. change (mem_pool (with_mem s2 m2)) with m2.
    destruct (free_buffer _ _ _ _ _ _ _ _ _ _ _ Hpo Hf Hsp1 Hpo2 Hi Hgr) as (m3 & E3 & Hadd & Hsp3). rewrite E3. cbn [obind].
    change (0 <? 0) with false. cbv iota. cbn [default from_option Datatypes.id].
    destruct (exec_task_ok s (with_mem (with_mem s2 m2) m3) l' (g_current (ksched (kern s))) img i path m buf (e_size e))
      as (s' & E & Ev & Ew & Hres); try done.
    + rewrite (il_entry _ _ _ _ _ _ _ _ _ Hi). apply load32_range.
    + unfold seg_count, MAX_USER_SEGMENTS in *. unfold is_u32. lia.
    + apply (il_valid _ _ _ _ _ _ _ _ _ Hi).
    + apply (il_entry _ _ _ _ _ _ _ _ _ Hi).
    + intros ph va Hin Hva. destruct Hsp3 as [Hv3 _]. change (mem_pool (with_mem (with_mem s2 m2) m3)) with m3. rewrite Hv3.
      by apply (il_bytes _ _ _ _ _ _ _ _ _ Hi).
    + exists s'. split; [exact E |]. rewrite Ev, Ew. split; [exact Hdv |]. split; [done |].
      exists m, buf, m1. split; [done |]. split; [exact Hat |]. right.
      destruct Hres as [(Hg & Hd & Hr) | (t & k & u & d & ds & hs & ns & Hpr & Hnm & Hd & Hv)].
      * left. exists img, m2, m3. split; [exact El |]. split; [exact E3 |]. split; [exact Hg |]. split; [exact Hd | exact Hr].
      * right. exists img, t, k, u, i, d, ds, hs, ns. split; [exact Hpr |]. split; [exact Hnm |]. by split.
  - destruct Ho as (Herr & Hsm & Hrest). pose proof (load_error_range _ _ _ _ _ Herr) as Hr. rewrite (proj2 (Z.ltb_lt r 0)) by lia.
    destruct (give_back_ok (with_mem s2 m2) (mem_pool s) buf (e_size e)) as (m3 & E3 & Hsm3); [| done |].
    { destruct Hf as [_ ? ? Hb Hi], Hsm as [? Hb2 Hi2]. change (mem_pool (with_mem s2 m2)) with m2. split; congruence || done. }
    assert (same_space m2 m3) as Hsp3.
    { pose proof (free_space m2 buf) as Hsp3. unfold kfree in E3. change (mem_pool (with_mem s2 m2)) with m2 in E3.
      destruct (proc_free m2 buf) as [m3' | |]; [| discriminate ..]. injection E3 as ->. exact Hsp3. }
    rewrite E3. cbn [obind]. destruct (show_bad_elf (with_mem (with_mem s2 m2) m3) r Hsc Hr) as (ds & s' & -> & Hp & Hv).
    destruct (prints_rest _ _ _ Hp) as (Ev & Ew & Es). exists s'. split; [done |]. rewrite Ev, Ew. split; [exact Hdv |].
    split; [done |]. exists m, buf, m1. split; [done |]. split; [exact Hat |]. left.
    exists (- r), ds. rewrite Z.opp_involutive. split; [exact Herr |]. split; [exact Hv |].
    split; [exact (prints_displays _ _ _ Hp) |]. apply (refused_swap s _ m m3); [done | exact Hsm3 | | exact Es].
    apply (restored_via m1 (mem_pool s) m2 m3); [exact Hrest | by apply same_space_sym | exact Hsp3 | apply Hsm3].
Qed.


Lemma refused_vol s v l s' : refused (with_vol s v) l s' -> refused s l s'.
Proof. intros [? ? ? ?]. by split. Qed.

Lemma exec_result_vol s v l size lf path s' : same_disk (vol s) v ->
  exec_result (with_vol s v) l v size lf path s' -> exec_result s l (vol s) size lf path s'.
Proof.
  intros Hs. unfold exec_result. change (mem_pool (with_vol s v)) with (mem_pool s).
  destruct (heap_gives _ _); [| intros [? Hr%refused_vol]; by split].
  intros (m & buf & m1 & E & Hf & Hcase). exists m, buf, m1. split; [done |].
  split; [intros j Hj; rewrite (Hf j Hj); by apply same_disk_file_byte |].
  destruct Hcase as [(r & ds & He & Hd & Hm & Hr%refused_vol) | [(img & m2 & m3 & E1 & E2 & E3 & Hm & Hr%refused_vol) |
    (img & t & k & u & i & d & ds & hs & ns & [] & Hm)]].
  - left. by exists r, ds.
  - right. left. by exists img, m2, m3.
  - right. right. exists img, t, k, u, i, d, ds, hs, ns. split; [by split | exact Hm].
Qed.

(** The file [name83 base ext] of the working directory, in the clusters
    [lf], is there in full, and what it holds, if it is an executable, fits
    the user's address space and the mapped memory. *)
Record exec_ready fuel s (dl : list Z) base ext look (lf l : list Z) : Prop := ExecReady {
  xr_at : at_dir s;
  xr_screen : screen_ok s;
  xr_dir : in_dir fuel (vol s) dl;
  xr_name : plain_name base ext;
  xr_names : names83 (bytes (vol s)) (slots (vol s) dl);
  xr_look : lookup_in (bytes (vol s)) (slots (vol s) dl) (to_short_name (name83 base ext)) = Some look;
  xr_file : is_directory (l_entry look) = false;
  xr_chain : chain (vol s) (start_cluster (l_entry look)) lf;
  xr_size : 0 < e_size (l_entry look) < 2 ^ 31;
  xr_length : e_size (l_entry look) <= Z.of_nat (length lf) * cluster_size (fs (vol s));
  xr_sched : sched_ok (ksched (kern s)) l;
  xr_id : is_u32 (g_next_id (ksched (kern s)));
  xr_load m buf : 0 < buf -> buf + e_size (l_entry look) < 2 ^ 32 -> file_at (vol s) lf (e_size (l_entry look)) m buf ->
    loads_from (mem_pool s) m buf (e_size (l_entry look))
}.

End Program.

(** ** The command *)

Lemma cmd_exec_ok {F : Type} `{FrameAllocatorLaws F} `{PagingLayout} {K : Type} `{HeapAllocatorLaws K} `{TaskCode}
    `{Uart} {P D : Type} `{BlockDeviceLaws D} fuel (s : shell (loader F K) P D) dl base ext w look lf l :
  exec_ready fuel s dl base ext look lf l ->
  exists s', cmd_exec fuel s [w; name83 base ext] = Ret s' /\ same_disk (vol s) (vol s') /\ cwd_path s' = cwd_path s /\
    exec_result s l (vol s) (e_size (l_entry look)) lf (name83 base ext) s'.
Proof.
  set (name := name83 base ext). set (e := l_entry look). intros [Hd Hsc Hin Hn H83 Hlook Hfile Hch Hsz Hlen Hok Hid Hload].
  unfold cmd_exec. cbn [length Nat.ltb Nat.leb].
  unfold fat32_is_mounted. rewrite (ad_mounted _ Hd). cbn [negb]. unfold tasking_active.
  rewrite (ro_active _ _ (sk_ring _ _ Hok)). cbn [negb]. change (arg [w; name] 1) with name.
  pose proof (here_path fuel s base ext Hd Hn) as Hpath. fold name in Hpath. rewrite Hpath. cbn [obind].
  change (0 <? 0) with false. cbv iota. destruct (find_here fuel s dl base ext Hd Hin Hn H83) as (v & E & Hfs & Hv & Hback).
  fold name in E. fold name in Hlook. rewrite E, Hlook. cbn [obind]. rewrite Hback. cbv zeta. fold e.
  unfold is_directory in Hfile. fold e in Hfile, Hch, Hsz, Hlen, Hload. rewrite Hfile.
  rewrite (proj2 (Z.eqb_neq (e_size e) 0)) by lia. pose proof (sd_vol _ _ Hv) as V.
  destruct (exec_file_ok (with_vol s v) l e lf name) as (s' & Es & Hds & Hw & Hres); try done.
  - change (mounted v = true). rewrite (sv_mounted _ _ V). apply Hd.
  - by eapply same_disk_chain.
  - change (e_size e <= Z.of_nat (length lf) * cluster_size (fs v)). by rewrite (sv_fs _ _ V).
  - intros m buf Hb1 Hb2 Hf. apply (Hload m buf Hb1 Hb2). intros j Hj. rewrite (Hf j Hj). by apply same_disk_file_byte.
  - exists s'. split; [exact Es |]. split; [by eapply same_disk_trans |]. split; [exact Hw |]. by eapply exec_result_vol.
Qed.

(** ** Property *)

(** C3 Running a program from the disk.  When the name given to exec is a
    file of the working directory that the volume holds in full, and its
    program, if it is one, has disjoint segments in unmapped user pages and
    needs no frame outside the mapped part of memory, then exec returns, and
    what it does has its cause.  If the heap has no block of the size of the
    file, it says so.  Else the file is in a block of that size, and it shows
    the code of the loader's error (bad header, no heap for the image, a
    segment outside the file, too many segments or too few frames); or the
    loader succeeds but the heap has no room for a task and its stacks, which
    it says; or the bytes of the file are the program of a new image, every
    address of its segments reads as the file says, and a new task with the
    file's name that owns it, with stacks of its own and a frame that enters
    ring 3 at the program's entry point, is next after the current one.  A
    refusal leaves tasks, images, heap blocks, translations, the programs'
    bytes and the free frames that did not become page tables as they were;
    the file's buffer is given back in every case. *)
Theorem cmd_exec_spec {F : Type} `{FrameAllocatorLaws F} `{PagingLayout} {K : Type} `{HeapAllocatorLaws K} `{TaskCode}
    `{Uart} {P D : Type} `{BlockDeviceLaws D} fuel (s : shell (loader F K) P D) dl base ext w look lf l :
  exec_ready fuel s dl base ext look lf l ->
  exists s', cmd_exec fuel s [w; name83 base ext] = Ret s' /\ same_disk (vol s) (vol s') /\ cwd_path s' = cwd_path s /\
    exec_result s l (vol s) (e_size (l_entry look)) lf (name83 base ext) s'.
Proof. apply cmd_exec_ok. Qed.

(** ** Witness

    The program of the loader's witnesses, written to the witness volume as
    the file B and run by the shell of the boot task. *)

From S2P Require Import Pmm Kheap Ata FatMount TaskSwitch.

#[local] Existing Instance wit_paging.
#[local] Existing Instance wit_layout.
#[local] Existing Instance wit_uart.
#[local] Existing Instance wit_code.

Definition wit_program : list Z := (fun j => load8 wit_elf (0x10000 + j)) <$> seqZ 0 88.

Lemma wit_program_byte j : 0 <= j < 88 -> default 0 (wit_program !! Z.to_nat j) = load8 wit_elf (0x10000 + j).
Proof.
  intros Hj. unfold wit_program. rewrite list_lookup_fmap, lookup_seqZ_lt by lia. cbn. do 2 f_equal. lia.
Qed.

Lemma wit_program_u8 : Forall is_u8 wit_program.
Proof. apply Forall_fmap, Forall_forall. intros j _. apply load8_range. Qed.

(** The header and the segments are the same wherever the file is. *)
Lemma wit_program_list m buf : 0 < buf -> buf + 88 < 2 ^ 32 ->
  (forall j, 0 <= j < 88 -> load8 m (buf + j) = load8 wit_elf (0x10000 + j)) ->
  load_list m buf = [wit_phdr].
Proof.
  intros Hbuf Htop Hb.
  assert (forall k a, 0 <= a -> a + Z.of_nat k <= 88 -> load_le k m (buf + a) = load_le k wit_elf (0x10000 + a)) as Hle.
  { intros k a Ha Hk. apply load_le_shift. intros i Hi. rewrite <- !Z.add_assoc. apply Hb. lia. }
  assert (load_list m buf = load_list wit_elf 0x10000) as ->; [| apply wit_elf_list].
  unfold load_list, read_ehdr. cbn [e_phnum e_phoff]. unfold load16, load32.
  rewrite (Hle 2%nat 44), (Hle 4%nat 28) by (cbn; lia).
  change (load_le 2 wit_elf (0x10000 + 44)) with 1. change (load_le 4 wit_elf (0x10000 + 28)) with 52.
  cbn [Z.to_nat Pos.to_nat Pos.iter_op headers]. apply (f_equal (fun ph => List.filter loads [ph])).
  change (u32 (52 + 0 * PHDR_SIZE)) with 52.
  rewrite !u32_small by lia. unfold read_phdr, load32. rewrite (Hle 4%nat 52) by (cbn; lia).
  by rewrite <- !Z.add_assoc, !(Hle 4%nat) by (cbn; lia).
Qed.

Lemma wit_booted : exists s b, tasking_init (wit_tasks wit_vm) = Ret s /\ sched_ok s [b] /\
  is_u32 (g_next_id s) /\ loader_inv wit_vm (pool s) ∅.
Proof.
  destruct (init_ok _ wit_tasks_before) as [(s & b & E & Hok) | E]; [| pose proof (wit_init_returns wit_vm) as Hr; by rewrite E in Hr].
  exists s, b. split; [exact E |]. split; [exact Hok |].
  unfold tasking_init in E. pose proof (malloc_space (pool (wit_tasks wit_vm)) TASK_SIZE) as Hsp.
  destruct (proc_malloc _ _) as [[boot m] | |]; [| discriminate ..]. cbn [obind ensures] in *.
  destruct (negb _); [discriminate |]. injection E as <-. split; [apply u32_range |].
  pose proof (tm_ok _ _ (ro_mem _ _ (sk_ring _ _ Hok))) as (v1 & pm1 & Hinv).
  cbn [pool with_current with_tasks with_pool] in *. destruct Hsp as [Hv Hl]. destruct wit_loader_inv as [K1 _ _ _].
  change (limages (pool (wit_tasks wit_vm))) with (∅ : gmap Z user_image) in Hl.
  split; rewrite ?Hv, ?Hl; [exact K1 | apply Hinv | |].
  - intros p img. by rewrite lookup_empty.
  - intros p q i1 i2 v. by rewrite lookup_empty.
Qed.

Lemma wit_program_name : plain_name [0x62] [].
Proof.
  split; [split; [simpl; lia | simpl; lia | repeat constructor; vm_compute; intuition discriminate] |].
  apply (bool_decide_unpack _). vm_compute. exact I.
Qed.

(** The volume after the file was written. *)
Lemma wit_disk_program : exists v e l, fat32_write_file 9 wit_fat (name83 [0x62] []) wit_program 88 = Ret (0, v) /\
  file_written 9 wit_fat [2] (name83 [0x62] []) wit_program 88 (3, 32) e l v.
Proof.
  destruct (write_file_ok 9 wit_fat [2] (name83 [0x62] []) wit_program 88 (3, 32)) as (v & e & l & E & Hw).
  - exact wit_dir.
  - vm_compute. discriminate.
  - repeat constructor; vm_compute; intuition discriminate.
  - vm_compute. discriminate.
  - vm_compute. reflexivity.
  - assert (lookup_in (bytes wit_fat) (slots wit_fat [2]) (to_short_name (name83 [0x62] [])) = None) as E by (vm_compute; reflexivity).
    intros look Hl. by rewrite E in Hl.
  - exact wit_program_u8.
  - reflexivity.
  - lia.
  - vm_compute. discriminate.
  - exists v, e, l. exact (conj E Hw).
Qed.

(** The shell of the boot task on that volume. *)
Definition wit_exec_shell : outcome (shell (loader pmm held_heap) (list (Z * Z)) ide) :=
  do! c := tasking_init (wit_tasks wit_vm) in
  do! (_, v) := fat32_write_file 9 wit_fat (name83 [0x62] []) wit_program 88 in
  Ret (Shell (wit_kernel c) v [ch_slash]).

(** There is memory for the program: exec starts a second task. *)
Lemma wit_exec_starts :
  match (do! s := wit_exec_shell in do! s' := cmd_exec 9 s [lit "exec"; [0x62]] in
         Ret (size (tasks (ksched (kern s))), size (tasks (ksched (kern s'))))) with
  | Ret (n, n') => n = 1%nat /\ n' = 2%nat
  | _ => False
  end.
Proof. vm_compute. by split. Qed.

Lemma wit_not_refused s s' l : wit_exec_shell = Ret s -> cmd_exec 9 s [lit "exec"; [0x62]] = Ret s' -> ~ refused s l s'.
Proof.
  intros Es E Hr. pose proof wit_exec_starts as Hw. rewrite Es in Hw. cbn [obind] in Hw. rewrite E in Hw. cbn [obind] in Hw.
  rewrite (rf_tasks _ _ _ Hr) in Hw. destruct Hw as [H1 H2]. rewrite H1 in H2. discriminate.
Qed.

Lemma wit_exec_ready : exists (s : shell (loader pmm held_heap) (list (Z * Z)) ide) e lf b,
  wit_exec_shell = Ret s /\ exec_ready 9 s [2] [0x62] [] (Lookup e 3 32) lf [b] /\ e_size e = 88 /\
  forall j, 0 <= j < 88 -> file_byte (vol s) lf j = load8 wit_elf (0x10000 + j).
Proof.
  destruct wit_booted as (c & b & Ec & Hok & Hid & Hinv). destruct wit_disk_program as (v & e & lf & Ev & Hw).
  pose proof (fw_vol _ _ _ _ _ _ _ _ _ _ Hw) as V. pose proof (sv_fs _ _ V) as Fv.
  assert (forall j, 0 <= j < 88 -> file_byte v lf j = load8 wit_elf (0x10000 + j)) as Hbytes.
  { intros j Hj. rewrite (fw_data _ _ _ _ _ _ _ _ _ _ Hw j Hj). by apply wit_program_byte. }
  assert (slots v [2] = slots wit_fat [2]) as Es by (unfold slots; by rewrite Fv).
  exists (Shell (wit_kernel c) v [ch_slash]), e, lf, b.
  split; [unfold wit_exec_shell; rewrite Ec; cbn [obind]; rewrite Ev; reflexivity |].
  split; [| split; [apply (fw_size _ _ _ _ _ _ _ _ _ _ Hw) | exact Hbytes]].
  split; cbn [l_entry]; rewrite ?(fw_size _ _ _ _ _ _ _ _ _ _ Hw).
  - split; [change (mounted v = true); by rewrite (sv_mounted _ _ V) | change (2 <= cwd_cluster v); rewrite (sv_cwd _ _ V)].
    vm_compute. discriminate.
  - exists term0. apply shows_clear.
  - apply (fw_dir _ _ _ _ _ _ _ _ _ _ Hw).
  - exact wit_program_name.
  - apply (written_names83 _ _ _ _ _ _ _ _ _ _ _ Hw); [apply wit_program_name | exact wit_names83].
  - cbn [vol]. rewrite Es. apply (fw_lookup _ _ _ _ _ _ _ _ _ _ Hw).
  - apply (fw_file _ _ _ _ _ _ _ _ _ _ Hw).
  - apply (fw_chain _ _ _ _ _ _ _ _ _ _ Hw).
  - lia.
  - cbn [vol]. rewrite Fv. apply (fw_length _ _ _ _ _ _ _ _ _ _ Hw).
  - by apply wit_kernel_ok.
  - exact Hid.
  - intros m buf Hb1 Hb2 Hf _.
    exists wit_vm, ∅. split; [exact Hinv |]. pose proof wit_loadable as [Ku Kf]. rewrite wit_elf_list in Ku, Kf.
    assert (load_list m buf = [wit_phdr]) as El.
    { apply wit_program_list; [done | done |]. intros j Hj. rewrite (Hf j Hj). by apply Hbytes. }
    split; [split; rewrite El; [exact Ku | exact Kf] |]. apply room_all. intros q Hq.
    apply (wit_low_frames q). exact (ld_frames _ _ _ (li_vm _ _ _ Hinv) q Hq).
Qed.

Lemma cmd_exec_spec_witness :
  exists (s s' : shell (loader pmm held_heap) (list (Z * Z)) ide) b lf m buf img t k u i d,
    cmd_exec 9 s [lit "exec"; [0x62]] = Ret s' /\ program_running s [b] m buf 88 img t k u i d s' /\
    forall j, 0 <= j < 88 -> load8 m (buf + j) = load8 wit_elf (0x10000 + j) /\ file_byte (vol s) lf j = load8 wit_elf (0x10000 + j).
Proof.
  destruct wit_exec_ready as (s & e & lf & b & Es & R & Hsz & Hbytes).
  destruct (cmd_exec_spec 9 s [2] [0x62] [] (lit "exec") (Lookup e 3 32) lf [b] R) as (s' & E & _ & _ & Hres).
  cbn [l_entry] in Hres. rewrite Hsz in Hres.
  destruct (exec_result_cases _ _ _ _ _ _ _ Hres) as [Hr | (m & buf & Hat & img & t & k & u & i & d & _ & _ & _ & Hp & _)];
    [destruct (wit_not_refused s s' [b] Es E Hr) |].
  exists s, s', b, lf, m, buf, img, t, k, u, i, d. split; [exact E |]. split; [exact Hp |].
  intros j Hj. split; [rewrite (Hat j Hj) |]; exact (Hbytes j Hj).
Defined.
