(* ===== verification/ShellSafe.v ===== *)
(** * Shell: the commands on the kernel's own state

    The commands that neither touch the disk nor wait for other tasks nor are
    there to break something: whatever the arguments, they return, and what
    they leave is a kernel in order with everything that was in it. *)

From S2P Require Import Prelude Memory Interfaces Pmm Kheap Paging PagingExt Elf ElfSpec ElfLoad.
From S2P Require Import Keyboard Screen Fat32 Cpu Task TaskRing TaskSpec TaskSched TaskCreate TaskProps TaskSwitch.
From S2P Require Import Irq ShellText ShellLine ShellFs ShellPath ShellMessage ShellExec ShellSys ShellRun ShellUse ShellProgram.

Section Safe.
  Context `{PagingLayout} `{HeapLayout} `{TaskCode} `{Uart} {P D : Type} `{BlockDevice D}.
  Notation M := (loader pmm held_heap).
  Implicit Types s : shell M P D.

(** ** A kernel in order *)

(** The numbers of a task fit their variables. *)
Definition numbers_ok (c : sched M) : Prop :=
  forall p t, tasks c !! p = Some t -> is_u32 (id t) /\ is_u32 (ticks_run t).

Record good s : Prop := Good {
  gd_screen : screen_ok s;
  gd_sched : exists l, sched_ok (ksched (kern s)) l;
  gd_numbers : numbers_ok (ksched (kern s));
  gd_next : is_u32 (g_next_id (ksched (kern s)));
  gd_ticks : is_u32 (g_ticks (kern s))
}.

(** [s'] is a kernel in order, in which what [s] had is unchanged; behind the
    current task there are at most [n] new ones. *)
Record kept (n : nat) s s' : Prop := Kept {
  kp_good : good s';
  kp_vol : vol s' = vol s;
  kp_path : cwd_path s' = cwd_path s;
  kp_ring c l : sched_ok (ksched (kern s)) (c :: l) ->
    exists ts, (length ts <= n)%nat /\ sched_ok (ksched (kern s')) (c :: ts ++ l);
  kp_state p : is_Some (tasks (ksched (kern s)) !! p) -> state_of (ksched (kern s')) p = state_of (ksched (kern s)) p;
  kp_blocks : proc_blocks (mem_pool s) ⊆ proc_blocks (mem_pool s');
  kp_images : proc_images (mem_pool s') = proc_images (mem_pool s)
}.

Lemma state_some (c : sched M) p : is_Some (tasks c !! p) <-> is_Some (state_of c p).
Proof. unfold state_of. by rewrite fmap_is_Some. Qed.

Lemma kept_trans n m s1 s2 s3 : kept n s1 s2 -> kept m s2 s3 -> kept (n + m) s1 s3.
Proof.
  intros K1 K2. split.
  - apply K2.
  - by rewrite (kp_vol _ _ _ K2), (kp_vol _ _ _ K1).
  - by rewrite (kp_path _ _ _ K2), (kp_path _ _ _ K1).
  - intros c l Hl. destruct (kp_ring _ _ _ K1 c l Hl) as (ts1 & Hn & Hl1).
    destruct (kp_ring _ _ _ K2 c _ Hl1) as (ts2 & Hm & Hl2). exists (ts2 ++ ts1). rewrite length_app, <- app_assoc.
    split; [lia | done].
  - intros p Hp. rewrite (kp_state _ _ _ K2); [by apply (kp_state _ _ _ K1) |].
    apply state_some. rewrite (kp_state _ _ _ K1) by done. by apply state_some.
  - etrans; [apply (kp_blocks _ _ _ K1) | apply (kp_blocks _ _ _ K2)].
  - by rewrite (kp_images _ _ _ K2), (kp_images _ _ _ K1).
Qed.

Lemma kept_more n m s s' : (n <= m)%nat -> kept n s s' -> kept m s s'.
Proof.
  intros Hm [? ? ? Hr ? ? ?]. split; try done. intros c l Hl. destruct (Hr c l Hl) as (ts & Hn & ?). exists ts. split; [lia | done].
Qed.

(** A change of the screen or of what the scheduler does not use. *)
Lemma kept_screen s v : good s -> (exists t, shows v t) -> kept 0 s (with_screen s v).
Proof.
  intros [Hs Hc Hi Hn Ht] Hv. split; try done. intros c l Hl. by exists [].
Qed.

Lemma kept_refl s : good s -> kept 0 s s.
Proof. intros Hg. split; try done. intros c l Hl. by exists []. Qed.

(** ** Commands that return with everything kept *)

Definition safe (n : nat) (f : shell M P D -> outcome (shell M P D)) : Prop :=
  forall s, good s -> exists s', f s = Ret s' /\ kept n s s'.

Lemma safe_message f : message f -> safe 0 f.
Proof.
  intros Hf s Hs. destruct (Hf s (gd_screen _ Hs)) as (v & -> & Hv & _). exists (with_screen s v). split; [done |].
  by apply kept_screen.
Qed.

Lemma safe_then n m f g : safe n f -> safe m g -> safe (n + m) (fun s => do! s := f s in g s).
Proof.
  intros Hf Hg s Hs. destruct (Hf s Hs) as (s1 & -> & K1). cbn [obind]. destruct (Hg s1 (kp_good _ _ _ K1)) as (s2 & E & K2).
  exists s2. split; [exact E |]. by eapply kept_trans.
Qed.

Lemma safe_more n m f : (n <= m)%nat -> safe n f -> safe m f.
Proof. intros Hm Hf s Hs. destruct (Hf s Hs) as (s' & E & K). exists s'. split; [done |]. by eapply kept_more. Qed.

(** What a message follows. *)
Lemma kept_message n s s1 f : kept n s s1 -> message f -> exists s', f s1 = Ret s' /\ kept n s s'.
Proof.
  intros K Hf. destruct (safe_message f Hf s1 (kp_good _ _ _ K)) as (s' & E & K'). exists s'. split; [done |].
  rewrite <- (Nat.add_0_r n). by eapply kept_trans.
Qed.

(** ** Memory *)

Lemma good_pool s : good s -> proc_ok (mem_pool s).
Proof. intros Hs. destruct (gd_sched _ Hs) as [l Hl]. apply (tm_ok _ _ (ro_mem _ _ (sk_ring _ _ Hl))). Qed.

(** The pool may take new blocks. *)
Lemma kept_pool s m' : good s -> proc_ok m' -> proc_blocks (mem_pool s) ⊆ proc_blocks m' ->
  proc_images m' = proc_images (mem_pool s) -> kept 0 s (with_mem s m').
Proof.
  intros Hs Hok Hb Hi.
  assert (forall l, sched_ok (ksched (kern s)) l -> sched_ok (with_pool (ksched (kern s)) m') l) as Hsched.
  { intros l Hl. apply swap_pool_ok; [done |]. split; [done |]. intros p t x Hp Hx. rewrite Hi. split; [| done].
    destruct (resource_block _ _ _ _ _ (ro_mem _ _ (sk_ring _ _ Hl)) Hp Hx) as [k Hk]. unfold mem_pool in Hb. rewrite Hk.
    by apply (lookup_weaken _ _ _ _ Hk). }
  destruct Hs as [Hs [l Hl] Hn Hx Ht]. split; try done.
  - split; try done. exists l. by apply Hsched.
  - intros c l0 Hl0. exists []. split; [done |]. by apply Hsched.
Qed.

Lemma kept_same_pool s m' : good s -> same_pool (mem_pool s) m' -> kept 0 s (with_mem s m').
Proof. intros Hs [? Hb ?]. apply kept_pool; [done | done | by rewrite Hb | done]. Qed.

Lemma kept_fresh s p n m' : good s -> fresh_block (mem_pool s) p n m' -> kept 0 s (with_mem s m').
Proof. intros Hs [? ? Hnew Hb ?]. apply kept_pool; [done | done | | done]. rewrite Hb. by apply insert_subseteq. Qed.

(** Reading the tables changes the TLB only. *)
Lemma get_phys_pool (m0 : M) va : proc_ok m0 -> is_u32 va ->
  exists p v, vmm_get_phys (lvm m0) va = Ret (p, v) /\ is_u32 p /\ same_pool m0 (Loader v (lheap m0) (limages m0)).
Proof.
  intros (s0 & pm & [Hl Hh Hi Hd]) Hva. destruct (vmm_get_phys_ok (lvm m0) va (ld_ok _ _ _ Hl) Hva) as (tl & E & Hok).
  pose proof (vmm_get_phys_ext _ _ _ _ (ld_ok _ _ _ Hl) Hva E) as Hx. eexists _, _. split; [exact E |]. split.
  - destruct (walk (lvm m0) va) as [t |] eqn:Hw; [| unfold is_u32; lia].
    assert (is_u32 t) as Ht.
    { unfold walk in Hw. rewrite hw_walk_unfold in Hw. cbv zeta in Hw.
      destruct (present _); [| done]. destruct (present _); [| done]. injection Hw as <-. apply load32_range. }
    pose proof (entry_frame_range t Ht). unfold is_u32. zdm.
  - split; [| done | done]. exists s0, pm. split; [by apply (loaded_ext s0 (lvm m0)) | exact Hh | exact Hi | exact Hd].
Qed.

Lemma stats_ok (h : held_heap) : heap_ok h -> exists hs, kheap_get_stats (the_heap h) = Ret hs /\
  is_u32 (total_bytes hs) /\ is_u32 (used_bytes hs) /\ is_u32 (free_bytes hs) /\ is_u32 (blocks_used hs) /\
  is_u32 (blocks_free hs) /\ is_u32 (largest_free hs).
Proof.
  intros (bl & Hinv & _). pose proof (get_stats_ok _ bl Hinv) as E. eexists. split; [exact E |].
  pose proof (stats_bounded _ bl _ Hinv E) as Hb. rewrite !Forall_cons in Hb.
  unfold KHEAP_SIZE, KHEAP_SIZE_KB, is_u32 in *. lia.
Qed.

Lemma parse_uint_range str : is_u32 (parse_uint str).
Proof.
  unfold parse_uint. destruct (_ && _).
  - generalize (drop 2 str). clear str. intros str. assert (is_u32 0) as Hz by (unfold is_u32; lia). revert Hz. generalize 0.
    induction str as [|c str IH]; intros v Hv; cbn [uint_hex]; [done |]. destruct (negb _); [done |]. cbv zeta.
    assert (forall x, 0 <= x < 16 -> is_u32 (Z.lor (u32 (Z.shiftl v 4)) x)) as Hlor.
    { intros x Hx. apply is_u32_lor; [apply u32_range | unfold is_u32; lia]. }
    destruct (Z.leb_spec 48 c), (Z.leb_spec c 57); cbn [andb]; try (apply IH, Hlor; lia);
    destruct (Z.leb_spec 97 c), (Z.leb_spec c 102); cbn [andb]; try (apply IH, Hlor; lia);
    destruct (Z.leb_spec 65 c), (Z.leb_spec c 70); cbn [andb]; try (apply IH, Hlor; lia); apply u32_range.
  - assert (is_u32 0) as Hz by (unfold is_u32; lia). revert Hz. generalize 0.
    induction str as [|c str IH]; intros v Hv; cbn [uint_dec]; [done |].
    destruct (_ && _); [apply IH, u32_range | done].
Qed.

(** ** Tasks *)

Lemma same_ticks (c c' : sched M) p d : numbers_ok c -> is_u32 (id d) -> is_u32 (ticks_run d) ->
  same_tasks (<[p := d]> (tasks c)) (tasks c') -> numbers_ok c'.
Proof.
  intros Hc Hi Ht Hs q t Hq. destruct (same_tasks_some _ _ _ _ Hs Hq) as (t0 & Hq0 & ->). cbn [id ticks_run set_next].
  apply lookup_insert_Some in Hq0 as [[_ <-] | [_ Hq0]]; [done | by apply (Hc q)].
Qed.

(** A new task behind the current one. *)
Lemma kept_created s c' p d :
  good s -> created (ksched (kern s)) p d c' -> state d = TASK_READY -> id d = g_next_id (ksched (kern s)) -> ticks_run d = 0 ->
  (forall c l, ring_ok (ksched (kern s)) (c :: l) -> ring_ok c' (c :: p :: l)) ->
  proc_blocks (mem_pool s) ⊆ proc_blocks (pool c') -> kept 1 s (with_kern s (with_sched (kern s) c')).
Proof.
  intros [Hs [l Hl] Hn Hx Ht] Hc Hd Hid Htk Hring Hb.
  assert (forall c l, sched_ok (ksched (kern s)) (c :: l) -> sched_ok c' (c :: p :: l)) as Hok.
  { intros c l0 Hl0. destruct (created_ok _ _ _ _ _ _ Hl0 Hc Hd (Hring c l0 (sk_ring _ _ Hl0))) as (? & _). done. }
  split.
  - destruct (sched_ok_head _ _ Hl) as [l' ->]. split; cbn [kern ksched with_kern with_sched kscreen g_ticks]; try done.
    + eexists. by apply Hok.
    + apply (same_ticks (ksched (kern s)) c' p d); [done | by rewrite Hid | rewrite Htk; unfold is_u32; lia | apply (cr_tasks _ _ _ _ Hc)].
    + rewrite (cr_next_id _ _ _ _ Hc). apply u32_range.
  - done.
  - done.
  - intros c l0 Hl0. exists [p]. split; [done |]. by apply Hok.
  - intros q Hq. cbn [kern ksched with_kern with_sched]. rewrite (created_states _ _ _ _ q Hc). rewrite decide_False; [done |].
    intros ->. rewrite (cr_new _ _ _ _ Hc) in Hq. by destruct Hq.
  - done.
  - exact (cr_images _ _ _ _ Hc).
Qed.

(** Both functions that create a task from an entry point. *)
Definition creates (mk : sched M -> outcome (Z * sched M)) : Prop :=
  forall (c : sched M) x l, ring_ok c (x :: l) -> exists t c', mk c = Ret (t, c') /\
    ((t = 0 /\ exists m', c' = with_pool c m' /\ same_pool (pool c) m') \/
     (0 < t /\ exists d, created c t d c' /\ state d = TASK_READY /\ id d = g_next_id c /\ ticks_run d = 0 /\
        ring_ok c' (x :: t :: l) /\ proc_blocks (pool c) ⊆ proc_blocks (pool c'))).

Lemma creates_thread nm ent : creates (fun c => task_create c nm ent).
Proof.
  intros c x l Hr. destruct (create_cases c x l nm ent Hr) as (t & c' & E & [Hf | (Ht & k & Hc & Hr' & Hnt & Hnk & Hne & _ & _ & Hb & _)]);
    exists t, c'; (split; [exact E |]); [by left | right].
  split; [done |]. eexists. split; [exact Hc |]. do 3 (split; [done |]). split; [done |]. rewrite Hb.
  etrans; [by apply (insert_subseteq _ t TASK_SIZE) |]. apply insert_subseteq. by rewrite lookup_insert_ne.
Qed.

Lemma creates_user nm ent : creates (fun c => task_create_user c nm ent).
Proof.
  intros c x l Hr. destruct (create_user_cases c x l nm ent Hr)
    as (t & c' & E & [Hf | (Ht & k & u & Hc & Hr' & Hnd & Hfr & _ & _ & _ & _ & Hb & _)]);
    exists t, c'; (split; [exact E |]); [by left | right].
  split; [done |]. eexists. split; [exact Hc |]. do 3 (split; [done |]). split; [done |]. rewrite Hb.
  apply NoDup_cons in Hnd as [Ht1 [Ht2 _]%NoDup_cons]. assert (t ≠ k /\ t ≠ u /\ k ≠ u) as (? & ? & ?) by set_solver.
  rewrite !Forall_cons in Hfr. destruct Hfr as (? & ? & ? & _).
  etrans; [by apply (insert_subseteq _ t TASK_SIZE) |]. etrans; [apply (insert_subseteq _ k TASK_STACK_SIZE) |].
  - by rewrite lookup_insert_ne.
  - apply insert_subseteq. by rewrite !lookup_insert_ne.
Qed.

Lemma safe_create mk s : creates mk -> good s ->
  exists t c', mk (ksched (kern s)) = Ret (t, c') /\ kept 1 s (with_kern s (with_sched (kern s) c')) /\
    (truth t = true -> exists d, tasks c' !! t = Some d /\ is_u32 (id d)).
Proof.
  intros Hmk Hs. pose proof (gd_sched _ Hs) as [l Hl]. destruct (sched_ok_head _ _ Hl) as [l' ->].
  destruct (Hmk _ _ _ (sk_ring _ _ Hl)) as (t & c' & E & [(-> & m' & -> & Hsm) | (Ht & d & Hc & Hd & Hid & Htk & Hr & Hb)]);
    eexists _, _; (split; [exact E |]).
  - split; [| done]. apply (kept_more 0); [lia |]. by apply (kept_same_pool s m').
  - assert (kept 1 s (with_kern s (with_sched (kern s) c'))) as K.
    { apply (kept_created s c' t d); try done. intros x l Hx.
      destruct (Hmk _ _ _ Hx) as (t1 & c1 & E1 & Hcase). rewrite E in E1. injection E1 as <- <-.
      destruct Hcase as [(-> & _) | (_ & d1 & _ & _ & _ & _ & Hr1 & _)]; [lia | exact Hr1]. }
    split; [exact K |]. intros _. destruct (ring_dom _ _ t (ro_ring _ _ Hr)) as [d' Hd']; [apply list_elem_of_further, list_elem_of_here |].
    exists d'. split; [done |]. by apply (gd_numbers _ (kp_good _ _ _ K) t d').
Qed.

(** ** Printing commands *)

(** A message, and what follows it. *)
Lemma kept_then n s0 s f g : kept n s0 s -> message f ->
  (forall s1, kept n s0 s1 -> exists s', g s1 = Ret s' /\ kept n s0 s') ->
  exists s', (do! s := f s in g s) = Ret s' /\ kept n s0 s'.
Proof. intros K Hf Hg. destruct (kept_message n s0 s f K Hf) as (s1 & -> & K1). cbn [obind]. by apply Hg. Qed.

(** The messages a command consists of. *)
Ltac say :=
  lazymatch goal with
  | K : kept ?n ?s0 ?s |- exists s', obind ?c _ = Ret s' /\ kept ?n ?s0 s' =>
      lazymatch eval pattern s in c with
      | ?f _ => apply (kept_then n s0 s f);
          [exact K | solve [auto 20 with messages cint] | clear K; let s1 := fresh "s" in intros s1 K]
      end
  end.
Ltac said_by tac :=
  lazymatch goal with
  | K : kept ?n ?s0 ?s |- exists s', ?c = Ret s' /\ kept ?n ?s0 s' =>
      lazymatch eval pattern s in c with ?f _ => apply (kept_message n s0 s f); [exact K | tac] end
  end.
Ltac said := said_by ltac:(solve [auto 20 with messages cint]).

Lemma message_num before n : is_u32 n -> message (M := M) (P := P) (D := D) (fun s => show_num s before n).
Proof. intros Hn. unfold show_num. auto with messages. Qed.

Lemma message_bar n used : 0 <= n -> message (M := M) (P := P) (D := D) (fun s => show_bar s n used).
Proof.
  intros Hn s Hs. unfold show_bar.
  refine (for_range_ind (fun _ o => exists v, o = Ret (with_screen s v) /\ drawn (kscreen (kern s)) v) 0 n _ _ Hn _ _).
  - exact (message_none s Hs).
  - intros i o _ (v & -> & Hv). cbn [obind].
    assert (message (M := M) (P := P) (D := D) (fun s => if i <? used then show_color s (lit "|") VGA_LIGHT_RED
      else show_color s (lit "-") VGA_LIGHT_GREEN)) as Hm by auto with messages.
    destruct (Hm (with_screen s v) (proj1 Hv)) as (w & E & Hw). exists w. split; [exact E |]. by eapply drawn_trans.
Qed.

#[local] Hint Resolve message_num message_bar : messages.

Lemma div_u32 x d : is_u32 x -> 0 < d -> is_u32 (x / d).
Proof. unfold is_u32. intros Hx Hd. pose proof (Z.div_le_upper_bound x d x Hd). split; [apply Z.div_pos; lia | nia]. Qed.

Lemma message_clear argv : message (M := M) (P := P) (D := D) (fun s => cmd_clear s argv).
Proof.
  intros s _. unfold cmd_clear. eexists. split; [reflexivity |]. split; [exists term0; apply shows_clear | done].
Qed.

Lemma message_echo argv : message (M := M) (P := P) (D := D) (fun s => cmd_echo s argv).
Proof.
  assert (forall args first, message (M := M) (P := P) (D := D) (fun s => echo_args s first args)) as Ha.
  { induction args as [|a args IH]; intros first; [exact message_none |]. cbn [echo_args]. auto with messages. }
  unfold cmd_echo. auto with messages.
Qed.

Lemma message_version argv : message (M := M) (P := P) (D := D) (fun s => cmd_version s argv).
Proof. unfold cmd_version. auto 20 with messages. Qed.

Lemma message_pwd argv : message (M := M) (P := P) (D := D) (fun s => cmd_pwd s argv).
Proof.
  intros s. exact (message_then _ (fun s' => show s' [ch_nl]) (message_show (cwd_path s)) (message_show [ch_nl]) s).
Qed.

Lemma message_help argv : message (M := M) (P := P) (D := D) (fun s => cmd_help s argv).
Proof.
  unfold cmd_help. apply message_then; [auto with messages |]. apply message_each, Forall_forall. intros c _.
  unfold help_line. auto 10 with messages.
Qed.

Lemma message_two n : is_u32 n -> message (M := M) (P := P) (D := D) (fun s => show_two s n).
Proof. intros Hn. unfold show_two. auto with messages. Qed.

#[local] Hint Resolve message_two div_u32 : messages.

Lemma safe_uptime argv : safe 0 (fun s => cmd_uptime s argv).
Proof.
  intros s Hs. pose proof (gd_ticks _ Hs) as Ht. pose proof (kept_refl s Hs) as K. unfold cmd_uptime. cbv zeta.
  assert (is_u32 (timer_uptime_seconds (kern s))) as Hu by (apply div_u32; [exact Ht | unfold TIMER_HZ; lia]).
  revert Hu. generalize (timer_uptime_seconds (kern s)). intros u Hu. clear Ht.
  assert (is_u32 (u / 3600) /\ is_u32 ((u / 60) mod 60) /\ is_u32 (u mod 60)) as (? & ? & ?).
  { unfold is_u32 in *. split_and!; zdm. }
  assert (is_u32 TIMER_HZ) by (unfold is_u32, TIMER_HZ; lia). do 6 say. unfold timer_ticks.
  match goal with K : kept _ _ ?s |- _ => generalize (gd_ticks _ (kp_good _ _ _ K)); generalize (g_ticks (kern s)) end.
  intros tk Ht. do 2 say. said.
Qed.

(** ** Commands on the memory *)

(** The statistics, wherever in a command they are taken. *)
Lemma kept_stats n s0 s g : kept n s0 s ->
  (forall hs, is_u32 (total_bytes hs) -> is_u32 (used_bytes hs) -> is_u32 (free_bytes hs) -> is_u32 (blocks_used hs) ->
     is_u32 (blocks_free hs) -> is_u32 (largest_free hs) -> exists s', g hs = Ret s' /\ kept n s0 s') ->
  exists s', (do! hs := kheap_get_stats (the_heap (lheap (mem_pool s))) in g hs) = Ret s' /\ kept n s0 s'.
Proof.
  intros K Hg. destruct (good_pool s (kp_good _ _ _ K)) as (v0 & pm & Hi).
  destruct (stats_ok _ (li_heap _ _ _ Hi)) as (hs & -> & ? & ? & ? & ? & ? & ?). cbn [obind]. by apply Hg.
Qed.

Lemma safe_meminfo argv : safe 0 (fun s => cmd_meminfo s argv).
Proof.
  intros s Hs. pose proof (kept_refl s Hs) as K. unfold cmd_meminfo. cbv zeta.
  pose proof (u32_range (pmm_total_pages (frames_of s) * (Pmm.PAGE_SIZE / 1024))) as Ht. revert Ht.
  generalize (u32 (pmm_total_pages (frames_of s) * (Pmm.PAGE_SIZE / 1024))). intros total Ht.
  pose proof (u32_range (pmm_free_pages (frames_of s) * (Pmm.PAGE_SIZE / 1024))) as Hf. revert Hf.
  generalize (u32 (pmm_free_pages (frames_of s) * (Pmm.PAGE_SIZE / 1024))). intros free Hf.
  generalize (u32_range (total - free)). generalize (u32 (total - free)). intros used Hu.
  assert (0 < 1024) by lia. do 7 say. destruct (Z.eqb_spec total 0) as [_ | Hnz]; [by eexists |].
  assert (0 < total) by (unfold is_u32 in Ht; lia). assert (0 <= 30) by lia. do 5 say.
  eapply kept_stats; [eassumption |]. intros hs ? ? ? ? ? ?. do 5 say. said.
Qed.

Lemma safe_heap argv : safe 0 (fun s => cmd_heap s argv).
Proof.
  intros s Hs. pose proof (kept_refl s Hs) as K. unfold cmd_heap. apply kept_stats; [done |]. intros hs Ht ? ? ? ? ?.
  do 11 say. destruct (Z.eqb_spec (total_bytes hs) 0); [by eexists |]. say. cbv zeta.
  assert (0 < (if u32 (used_bytes hs + free_bytes hs) =? 0 then 1 else u32 (used_bytes hs + free_bytes hs))) as Hd.
  { pose proof (u32_range (used_bytes hs + free_bytes hs)) as Hr. unfold is_u32 in Hr. destruct (Z.eqb_spec (u32 (used_bytes hs + free_bytes hs)) 0); lia. }
  revert Hd. generalize (if u32 (used_bytes hs + free_bytes hs) =? 0 then 1 else u32 (used_bytes hs + free_bytes hs)). intros d Hd.
  assert (0 <= 32) by lia. do 3 say. said.
Qed.

Lemma safe_vmap argv : safe 0 (fun s => cmd_vmap s argv).
Proof.
  intros s Hs. pose proof (kept_refl s Hs) as K. unfold cmd_vmap. destruct (_ <? 2)%nat; [said |]. cbv zeta.
  destruct (get_phys_pool (mem_pool s) (parse_uint (arg argv 1)) (good_pool s Hs) (parse_uint_range _)) as (p & v & E & Hp & Hsm).
  pose proof (parse_uint_range (arg argv 1)) as Hv. revert E Hv. generalize (parse_uint (arg argv 1)). intros va E Hv.
  rewrite E. cbn [obind]. apply (kept_same_pool s _ Hs) in Hsm. change (with_mem s _) with (with_pages s v) in Hsm.
  clear K. rename Hsm into K. revert K. generalize (with_pages s v). intros s1 K. do 2 say.
  destruct (p =? _); [said |]. do 2 say. said.
Qed.

(** Taking a page frame away. *)
Lemma alloc_pool (m0 : M) : proc_ok m0 -> exists p f, pmm_alloc (vframes (lvm m0)) = (p, f) /\ is_u32 p /\
  same_pool m0 (Loader (with_frames (lvm m0) f) (lheap m0) (limages m0)).
Proof.
  intros (s0 & pm & [Hl Hh Hi Hd]). destruct (vo_frames _ (ld_ok _ _ _ Hl)) as [Hwf Hz].
  destruct (pmm_alloc (vframes (lvm m0))) as [a f] eqn:E. exists a, f. split; [done |].
  destruct (pmm_alloc_cases _ _ _ Hwf E) as [(-> & -> & _) | (p & -> & Hp & Hwf' & Hf)].
  { split; [unfold is_u32; lia |]. replace (with_frames (lvm m0) _) with (lvm m0) by by destruct (lvm m0).
    split; [| done | done]. by exists s0, pm. }
  pose proof Hp as [Hr _]%elem_of_free_set. rewrite TOTAL_PAGES_eq in Hr. unfold Pmm.PAGE_SIZE in *.
  pose proof (ld_frames _ _ _ Hl p Hp) as Hp0. destruct (ld_base _ _ _ Hl) as [Hwf0 Hz0].
  pose proof (free_set_take _ p Hwf0 ltac:(rewrite TOTAL_PAGES_eq; lia)) as Hg.
  destruct (loaded_take _ _ _ p f (take_page (vframes s0) p) Hl Hp) as (s1 & Hl1 & Hg1); [lia | done | | done | |].
  - split; [done |]. rewrite Hf. intros [Hin _]%elem_of_difference. exact (Hz Hin).
  - split; [by apply take_page_wf | rewrite Hg; intros [Hin _]%elem_of_difference; exact (Hz0 Hin)].
  - split; [unfold is_u32; lia |]. split; [| done | done]. exists s1, pm. split; [exact Hl1 | exact Hh | exact Hi | exact Hd].
Qed.

Lemma safe_page argv : negb (str_eq (arg argv 1) (lit "free")) = true -> safe 0 (fun s => cmd_page s argv).
Proof.
  intros Hf s Hs. pose proof (kept_refl s Hs) as K. unfold cmd_page, page_usage. destruct (_ <? 2)%nat; [said |].
  apply negb_true_iff in Hf. rewrite Hf. cbn [andb]. destruct (str_eq _ (lit "alloc")); [| said].
  destruct (alloc_pool (mem_pool s) (good_pool s Hs)) as (p & f & E & Hp & Hsm). unfold frames_of. rewrite E. cbv zeta.
  apply (kept_same_pool s _ Hs) in Hsm. change (with_mem s _) with (with_pages s (with_frames (lvm (mem_pool s)) f)) in Hsm.
  clear K. rename Hsm into K. revert K. generalize (with_pages s (with_frames (lvm (mem_pool s)) f)). intros s1 K.
  destruct (negb (truth p)); [said |]. do 2 say. said.
Qed.

(** The pool gives a block of any size, or none. *)
Lemma pool_malloc (m0 : M) n : proc_ok m0 -> is_u32 n ->
  exists p m1, proc_malloc m0 n = Ret (p, m1) /\ is_u32 p /\ proc_ok m1 /\
    proc_blocks m0 ⊆ proc_blocks m1 /\ proc_images m1 = proc_images m0.
Proof.
  intros (s0 & pm & [Hl Hh Hi Hd]) Hn. destruct (held_malloc_ok (lheap m0) n Hh Hn) as (p & h & E & Hh' & Hc).
  cbn [proc_malloc loader_memory]. rewrite E. cbn [obind]. eexists _, _. split; [reflexivity |].
  assert (heap_blocks (lheap m0) ⊆ heap_blocks h) as Hsub.
  { destruct Hc as [[_ ->] | (_ & -> & Hf)]; [done | by apply insert_subseteq]. }
  split; [destruct Hc as [[-> _] | [Hp _]]; unfold is_u32; lia |]. split; [| by split].
  exists s0, pm. split; [exact Hl | exact Hh' | | exact Hd]. intros q img Hq.
  destruct (Hi q img Hq) as (? & Hb & ?). split_and!; [done | by eapply lookup_weaken | done].
Qed.

Lemma safe_kalloc argv : negb (str_eq (arg argv 1) (lit "free")) = true -> safe 0 (fun s => cmd_kalloc s argv).
Proof.
  intros Hf s Hs. pose proof (kept_refl s Hs) as K. unfold cmd_kalloc, kalloc_usage. destruct (_ <? 2)%nat; [said |].
  apply negb_true_iff in Hf. rewrite Hf. cbn [andb]. destruct (_ && _); [| said].
  pose proof (parse_uint_range (arg argv 2)) as Hr. revert Hr. generalize (parse_uint (arg argv 2)). intros n Hr.
  destruct (pool_malloc (mem_pool s) n (good_pool s Hs) Hr) as (p & m & E & Hp & Hok & Hb & Hi).
  unfold ShellFs.kmalloc. rewrite E. cbn [obind]. clear K. pose proof (kept_pool s m Hs Hok Hb Hi) as K.
  revert K. generalize (with_mem s m). intros s1 K. destruct (negb (truth p)); [said |]. do 3 say. said.
Qed.

(** ** Commands on the tasks *)

Lemma kept_sti s : good s -> kept 0 s (with_kern s (with_sched (kern s) (sti (ksched (kern s))))).
Proof.
  intros [Hs [l Hl] Hn Hx Ht].
  assert (forall l, sched_ok (ksched (kern s)) l -> sched_ok (sti (ksched (kern s))) l) as Hsti.
  { intros l0 Hl0. by apply (sched_ok_ext (ksched (kern s))). }
  split; try done; [split; try done; exists l; by apply Hsti |]. intros c l0 Hl0. exists []. split; [done |]. by apply Hsti.
Qed.

Lemma message_task i : is_u32 (ti_id i) -> is_u32 (ti_ticks_run i) ->
  message (M := M) (P := P) (D := D) (fun s => show_task s i).
Proof. intros Hi Ht. unfold show_task. auto 30 with messages. Qed.

Lemma info_numbers (c : sched M) p : numbers_ok c -> is_u32 (ti_id (info_of c p)) /\ is_u32 (ti_ticks_run (info_of c p)).
Proof.
  intros Hc. unfold info_of. destruct (tasks c !! p) as [t |] eqn:Ht; [by apply (Hc p) | cbn; unfold is_u32; lia].
Qed.

Lemma safe_tasks argv : safe 0 (fun s => cmd_tasks s argv).
Proof.
  intros s Hs. pose proof (kept_refl s Hs) as K. unfold cmd_tasks. destruct (negb _); [said |].
  destruct (gd_sched _ Hs) as [l Hl]. pose proof (snapshot_ok _ l 1 16 Hl ltac:(lia) ltac:(lia)) as E. rewrite E. cbn [obind].
  clear K. pose proof (kept_sti s Hs) as K. revert K. generalize (with_kern s (with_sched (kern s) (sti (ksched (kern s))))).
  intros s1 K. say.
  said_by ltac:(apply message_each, Forall_forall). intros i Hi.
  assert (i ∈ info_of (ksched (kern s)) <$> l) as (p & -> & _)%list_elem_of_fmap.
  { rewrite <- (take_drop (Z.to_nat 16) (info_of _ <$> l)). by apply elem_of_app; left. }
  destruct (info_numbers _ p (gd_numbers _ Hs)). by apply message_task.
Qed.

(** The message of a command that started a task. *)
Lemma kept_spawned n s0 s before t d : kept n s0 s -> tasks (ksched (kern s)) !! t = Some d -> is_u32 (id d) ->
  exists s', show_spawned s before t = Ret s' /\ kept n s0 s'.
Proof. intros K Hd Hi. unfold show_spawned, get. rewrite Hd. cbn [obind]. do 3 say. said. Qed.

Lemma safe_spawn_loop k entry i : safe k (fun s => spawn_loop k s entry i).
Proof.
  revert i. induction k as [|k IH]; intros i s Hs; cbn [spawn_loop]; [exists s; split; [done | by apply kept_refl] |]. cbv zeta.
  destruct (safe_create _ s (creates_thread (lit "cnt-" ++ [ch_0 + i mod 10]) entry) Hs) as (t & c' & -> & K & Ht). cbn [obind].
  destruct (truth t); cbn [negb].
  - destruct (Ht eq_refl) as (d & Hd & Hid). destruct (kept_spawned 1 s _ "spawned task #" t d K Hd Hid) as (s1 & -> & K1).
    cbn [obind]. destruct (IH (i + 1) s1 (kp_good _ _ _ K1)) as (s2 & -> & K2). exists s2. split; [done |].
    exact (kept_trans 1 k _ _ _ K1 K2).
  - apply (kept_more 1 (S k)) in K; [| lia]. revert K. generalize (with_kern s (with_sched (kern s) c')). intros s1 K. said.
Qed.

Lemma safe_spawn entry argv : safe 8 (fun s => cmd_spawn entry s argv).
Proof.
  intros s Hs. pose proof (kept_more 0 8 _ _ ltac:(lia) (kept_refl s Hs)) as K. unfold cmd_spawn, inactive.
  destruct (_ <? 2)%nat; [said |]. destruct (negb _); [said |]. cbv zeta.
  set (n := if parse_uint (arg argv 1) =? 0 then 1 else parse_uint (arg argv 1)).
  assert (Z.to_nat (if 8 <? n then 8 else n)%Z <= 8)%nat as Hn by (destruct (Z.ltb_spec 8 n); lia).
  by apply (safe_more _ 8 _ Hn (safe_spawn_loop _ entry 0)).
Qed.

Lemma safe_user entry argv : safe 1 (fun s => cmd_user entry s argv).
Proof.
  intros s Hs. pose proof (kept_more 0 1 _ _ ltac:(lia) (kept_refl s Hs)) as K. unfold cmd_user, inactive.
  destruct (negb _); [said |]. clear K.
  destruct (safe_create _ s (creates_user (lit "ring3-demo") entry) Hs) as (t & c' & -> & K & Ht). cbn [obind]. cbv zeta.
  destruct (truth t); cbn [negb].
  - destruct (Ht eq_refl) as (d & Hd & Hid). exact (kept_spawned 1 s _ _ t d K Hd Hid).
  - revert K. generalize (with_kern s (with_sched (kern s) c')). intros s1 K. said.
Qed.

(** ** Any of these commands *)

(** What is excluded: the commands on the disk, which depend on the volume,
    sleep and yield, in which other tasks run, freeing an address of the
    user's choice, pf-test and halt, which are there to stop the machine. *)
Definition harmless_call (fn : cmd_fn) (argv : list (list Z)) : Prop :=
  match fn with
  | Help | Clear | Echo | Meminfo | Vmap | Pwd | Uptime | Heap | Tasks | Spawn | User | Version => True
  | Page | Kalloc => str_eq (arg argv 1) (lit "free") = false
  | _ => False
  end.

#[export] Instance harmless_call_dec fn argv : Decision (harmless_call fn argv).
Proof. destruct fn; cbn [harmless_call]; apply _. Defined.

Definition harmless (words : list (list Z)) : Prop :=
  match words with
  | [] => True
  | w :: _ => Forall (fun c => cmd_name c = w -> harmless_call (cmd_call c) words) cmds
  end.

#[export] Instance harmless_dec words : Decision (harmless words).
Proof. destruct words; cbn [harmless]; apply _. Defined.

Context (counter_entry demo_entry : Z) (fuel : nat).
Notation call := (call counter_entry demo_entry fuel).
Notation exec := (exec counter_entry demo_entry fuel).

Lemma safe_call e fn argv : harmless_call fn argv -> safe 8 (fun s => call e fn s argv).
Proof.
  assert (forall f : shell M P D -> outcome (shell M P D), message f -> safe 8 f) as Hm.
  { intros f Hf. apply (safe_more 0); [lia | by apply safe_message]. }
  intros Ha. destruct fn; cbn [ShellRun.call harmless_call] in *; try (by destruct Ha).
  - apply Hm, message_help.
  - apply Hm, message_clear.
  - apply Hm, message_echo.
  - apply (safe_more 0); [lia | apply safe_meminfo].
  - apply (safe_more 0); [lia |]. apply safe_page. by rewrite Ha.
  - apply (safe_more 0); [lia | apply safe_vmap].
  - apply Hm, message_pwd.
  - apply (safe_more 0); [lia | apply safe_uptime].
  - apply (safe_more 0); [lia | apply safe_heap].
  - apply (safe_more 0); [lia |]. apply safe_kalloc. by rewrite Ha.
  - apply (safe_more 0); [lia | apply safe_tasks].
  - apply safe_spawn.
  - apply (safe_more 1); [lia | apply safe_user].
  - apply Hm, message_version.
Qed.

(** A line without zero bytes, whose command, with the arguments [parse] makes
    of the line, is harmless. *)
Definition harmless_line (line : list Z) : Prop :=
  plain line /\ match parse line with Ret (line', ps) => harmless (arg_at line' <$> ps) | _ => True end.

#[export] Instance harmless_line_dec line : Decision (harmless_line line).
Proof. unfold harmless_line, plain. destruct (parse line) as [[] | |]; apply _. Defined.

Lemma safe_exec e line : harmless_line line -> safe 8 (fun s => exec e s line).
Proof.
  intros [Hl Hh] s Hs. destruct (parse_loop_ok (S (length line)) [] line [] Hl) as (line' & ps & E & _);
    [lia | cbn; unfold ARGS_MAX; lia |]. change (parse line = Ret (line', ps)) in E.
  unfold ShellRun.exec. rewrite E in Hh |- *. cbn [obind].
  pose proof (kept_more 0 8 _ _ ltac:(lia) (kept_refl s Hs)) as K. destruct ps as [|p ps]; [by exists s |].
  cbn [fmap list_fmap] in *. rewrite exec_loop_ok; [| apply c_string_plain | apply cmds_names].
  destruct (list_find _ cmds) as [[i c] |] eqn:Hf.
  - apply list_find_Some in Hf as (Hi & Hc & _). apply list_elem_of_lookup_2 in Hi.
    cbn [harmless] in Hh. rewrite Forall_forall in Hh. exact (safe_call e (cmd_call c) _ (Hh c Hi Hc) s Hs).
  - do 2 say. said.
Qed.

(** A session: lines one after the other. *)
Definition session (l : list (env M P * list Z)) s : outcome (shell M P D) :=
  foldl (fun o el => do! s := o in exec el.1 s el.2) (Ret s) l.

Lemma session_ok l s : good s -> Forall (fun el => harmless_line el.2) l ->
  exists s', session l s = Ret s' /\ kept (8 * length l) s s'.
Proof.
  intros Hs Hl. unfold session. revert s Hs. induction Hl as [|[e line] l Hline _ IH]; intros s Hs.
  { exists s. split; [done | by apply kept_refl]. }
  cbn [foldl obind fst snd]. destruct (safe_exec e line Hline s Hs) as (s1 & -> & K1).
  destruct (IH s1 (kp_good _ _ _ K1)) as (s2 & -> & K2). exists s2. split; [done |].
  replace (8 * length ((e, line) :: l))%nat with (8 + 8 * length l)%nat by (cbn; lia). by eapply kept_trans.
Qed.

End Safe.

(** ** Property *)

(** C6 The shell cannot hurt the kernel.  Any sequence of command lines of
    help, clear, echo, meminfo, page alloc, vmap, pwd, uptime, heap, kalloc
    alloc, tasks, spawn, user and version, with any arguments, of any number
    and with numbers of any size, of blank lines and of words that are no
    command, the lines being any bytes but zero, runs to its end without a
    panic, a page fault or a loop, and leaves a kernel in order: the screen is
    a terminal, the ring of tasks, the address space, the images and the heap
    satisfy their invariants; the disk and the working directory are as they
    were, no block of the heap was given back and no image unloaded, every
    task is there in its state, and only new tasks, eight for a line at most,
    have come behind the current one. *)
Theorem session_safe `{PagingLayout} `{HeapLayout} `{TaskCode} `{Uart} {P D : Type} `{BlockDevice D}
    counter_entry demo_entry fuel (l : list (env (loader pmm held_heap) P * list Z)) (s : shell (loader pmm held_heap) P D) :
  good s -> Forall (fun el => harmless_line el.2) l ->
  exists s', session counter_entry demo_entry fuel l s = Ret s' /\ kept (8 * length l) s s'.
Proof. apply session_ok. Qed.

(** ** Witness: eight lines after the start of the boot task *)

From S2P Require Import Ata FatMount ShellCommands.

#[local] Existing Instance wit_paging.
#[local] Existing Instance wit_layout.
#[local] Existing Instance wit_uart.
#[local] Existing Instance wit_code.

Lemma init_numbers {M : Type} `{ProcessMemory M} (c c' : sched M) : tasks c = ∅ -> is_u32 (g_next_id c) ->
  tasking_init c = Ret c' -> forall p t, tasks c' !! p = Some t -> is_u32 (id t) /\ is_u32 (ticks_run t).
Proof.
  intros Hc Hn E. unfold tasking_init in E. destruct (proc_malloc _ _) as [[b m] | |]; [| discriminate ..]. cbn [obind] in E.
  destruct (negb _); [discriminate |]. injection E as <-. intros p t. cbn [tasks with_current with_tasks].
  change (tasks (with_pool (with_next_id c (u32 (g_next_id c + 1))) m)) with (tasks c). rewrite Hc.
  intros [[_ <-] | [_ ?]]%lookup_insert_Some; [| done]. split; [exact Hn | cbn; unfold is_u32; lia].
Qed.

Lemma wit_good : exists s : shell (loader pmm held_heap) (list (Z * Z)) ide, good s.
Proof.
  destruct wit_booted as (c & b & E & Hok & Hid & _). exists (Shell (wit_kernel c) wit_dirs [ch_slash]). split.
  - exists term0. apply shows_clear.
  - exists [b]. by apply wit_kernel_ok.
  - intros p t. apply (init_numbers (wit_tasks wit_vm) c); [reflexivity | unfold is_u32; cbn; lia | exact E].
  - exact Hid.
  - vm_compute. by split.
Qed.

Definition wit_lines : list (list Z) :=
  [lit "spawn 9"; lit "kalloc alloc 0x40"; lit "kalloc alloc 0xFFFFFFF9"; lit "page alloc";
   lit "echo 1 2 3 4 5 6 7 8 9 10 11 12 13 14 15 16"; lit "  "; lit "nonsense"; lit "tasks"].

Lemma session_safe_witness : exists s s' : shell (loader pmm held_heap) (list (Z * Z)) ide,
  session 0x1000 0x2000 9 ((fun line => (wit_env [], line)) <$> wit_lines) s = Ret s' /\ kept 64 s s'.
Proof.
  destruct wit_good as [s Hs].
  destruct (session_safe 0x1000 0x2000 9 ((fun line => (wit_env [], line)) <$> wit_lines) s Hs) as (s' & E & K).
  - apply Forall_fmap. apply (bool_decide_unpack _). vm_compute. exact I.
  - exists s, s'. split; [exact E | exact K].
Defined.
