(* ===== verification/ShellLife.v ===== *)
(** * Shell: a program from exec to its end

    exec, the turns of the new task and its exit, and the scheduler that
    frees it, put together: what exec took from the kernel comes back. *)

From S2P Require Import Prelude Memory Interfaces Paging PagingExt Elf ElfSpec ElfLoad.
From S2P Require Import Keyboard Screen Fat32 FatName FatTable FatDir FatOps FatFile FatList FatKeep Cpu.
From S2P Require Import Task TaskRing TaskSpec TaskSched TaskCreate TaskProps TaskSwitch TaskLife.
From S2P Require Import Irq ShellText ShellFs ShellPath ShellCommands ShellExec ShellUse ShellMemory ShellProgram.

Section Life.
  Context {F : Type} `{FrameAllocatorLaws F} `{PagingLayout} {K : Type} `{HeapAllocatorLaws K} `{TaskCode} `{Uart}
    {P D : Type} `{BlockDeviceLaws D}.
  Notation M := (loader F K).
  Implicit Types (s : shell M P D) (c : sched M).

(** A ring whose queue is the whole ring has no exited task. *)
Lemma no_zombies c l : sched_ok c l -> runnable c (tl l) = tl l -> forall p, ~ zombie c p.
Proof.
  intros Hok Hq p Hp. destruct (sched_ok_head _ _ Hok) as [l' ->]. cbn [tl] in Hq.
  assert (p ∈ g_current c :: l') as Hin.
  { apply (ro_dom _ _ (sk_ring _ _ Hok)). unfold zombie, state_of in Hp. by destruct (tasks c !! p). }
  apply elem_of_cons in Hin as [-> | Hin].
  - unfold zombie in Hp. by rewrite (sk_running _ _ Hok) in Hp.
  - rewrite <- Hq in Hin. by apply list_elem_of_filter in Hin as [Hnz _].
Qed.

(** What the new task owns. *)
Lemma running_owns s (l : list Z) m buf size img t k u i d s' q :
  program_running s l m buf size img t k u i d s' ->
  q ∈ resources_of (ksched (kern s')) t <-> q ∈ [img; t; k; u].
Proof.
  intros R. pose proof (tm_ok _ _ (ro_mem _ _ (sk_ring _ _ (pr_sched _ _ _ _ _ _ _ _ _ _ _ _ R)))) as Hok.
  assert (Forall (fun x => x ≠ 0) [img; t; k; u]) as Hpos.
  { apply Forall_forall. intros x Hx. destruct (proc_blocks (mem_pool s') !! x) as [n |] eqn:Hb.
    - pose proof (proc_block_range _ _ _ Hok Hb). lia.
    - exfalso. rewrite (pr_blocks _ _ _ _ _ _ _ _ _ _ _ _ R), !lookup_insert_None in Hb.
      rewrite !elem_of_cons in Hx. pose proof (not_elem_of_nil x). naive_solver. }
  apply Forall_cons in Hpos as [? Hpos]. apply Forall_cons in Hpos as [? Hpos]. apply Forall_cons in Hpos as [? Hpos].
  apply Forall_cons in Hpos as [? _].
  unfold resources_of. rewrite (pr_task _ _ _ _ _ _ _ _ _ _ _ _ R). pose proof (pr_own _ _ _ _ _ _ _ _ _ _ _ _ R) as [= Ek Eu Ei].
  unfold resources, stacks. rewrite Ek, Eu, Ei, !elem_of_app, !elem_of_opt_ptr, !elem_of_cons.
  pose proof (not_elem_of_nil q). naive_solver.
Qed.

(** What is given back is what was taken. *)
Lemma memory_back s (l : list Z) m buf size img t k u i d s' (m2 : M) :
  proc_ok (mem_pool s) ->
  program_running s l m buf size img t k u i d s' -> gone (mem_pool s') (resources_of (ksched (kern s')) t) m2 ->
  restored (mem_pool s) m2.
Proof.
  intros Hok R [_ Hb Hi Hback]. pose proof (pr_fresh _ _ _ _ _ _ _ _ _ _ _ _ R) as Hf. rewrite Forall_forall in Hf.
  pose proof (fun q => running_owns _ _ _ _ _ _ _ _ _ _ _ _ q R) as Hown.
  assert (proc_images (mem_pool s) !! img = None) as Hnone by apply (unheld_image _ _ Hok), Hf, list_elem_of_here.
  apply (image_gone _ (mem_pool s') _ img i);
    [apply (pr_space _ _ _ _ _ _ _ _ _ _ _ _ R) | apply (pr_image _ _ _ _ _ _ _ _ _ _ _ _ R) | | exact Hback | |].
  - cbn [proc_images loader_memory] in Hnone. rewrite lookup_fmap in Hnone. by destruct (limages (mem_pool s) !! img).
  - apply map_eq. intros q. rewrite Hb. case_decide as Hq; rewrite Hown in Hq; [by rewrite Hf |].
    rewrite (pr_blocks _ _ _ _ _ _ _ _ _ _ _ _ R). rewrite !not_elem_of_cons in Hq. destruct Hq as (? & ? & ? & ? & _).
    by rewrite !lookup_insert_ne.
  - apply map_eq. intros q. rewrite Hi. case_decide as Hq; rewrite Hown in Hq; [by rewrite (unheld_image _ _ Hok (Hf q Hq)) |].
    rewrite !not_elem_of_cons in Hq. destruct Hq as (? & _).
    cbn [proc_images loader_memory]. rewrite (pr_image _ _ _ _ _ _ _ _ _ _ _ _ R), !lookup_fmap. by rewrite lookup_insert_ne.
Qed.

(** A started program's turn, its exit, and enough further turns. *)
Lemma program_life s (l : list Z) m buf size img t k u i d s' r1 r2 es :
  proc_ok (mem_pool s) -> runnable (ksched (kern s)) (tl l) = tl l ->
  program_running s l m buf size img t k u i d s' ->
  (length (tl l) < length es)%nat -> Forall (fun e => exists r, e = Yield r) es ->
  exists c' l', run (Yield r1 :: Exit r2 :: es) (ksched (kern s')) = Ret c' /\ sched_ok c' l' /\ tasks c' !! t = None /\
    restored (mem_pool s) (pool c').
Proof.
  intros Hok Hq R Hlen Hes.
  pose proof (pr_queue _ _ _ _ _ _ _ _ _ _ _ _ R) as Hq'. rewrite Hq in Hq'. apply (f_equal (drop 1)) in Hq'.
  pose proof (no_zombies _ _ (pr_sched _ _ _ _ _ _ _ _ _ _ _ _ R) Hq') as Hno.
  destruct (life_ok _ _ t (tl l) r1 r2 es (pr_sched _ _ _ _ _ _ _ _ _ _ _ _ R) Hno Hlen Hes) as (c' & l' & E & Hok' & Hnone & Hg).
  exists c', l'. split; [exact E |]. split; [exact Hok' |]. split; [exact Hnone |]. by eapply memory_back.
Qed.

End Life.

(** ** Property *)

(** C5 A program leaves no trace.  When exec starts a file of the working
    directory -- one with disjoint segments in unmapped user pages, for which
    the frames it may need are in the mapped part of memory -- while no task
    has exited, then the new task takes its turn when
    the current one yields, and once it has exited and the others have
    yielded often enough, whatever the registers each time, the scheduler has
    freed it, and the memory is restored: the blocks of the heap, the loaded
    images and every translation are those before the command, the other
    programs have their bytes, every free frame that did not become a page
    table is free again, and the ring of tasks is sound. *)
Theorem exec_life {F : Type} `{FrameAllocatorLaws F} `{PagingLayout} {K : Type} `{HeapAllocatorLaws K} `{TaskCode}
    `{Uart} {P D : Type} `{BlockDeviceLaws D} fuel (s : shell (loader F K) P D) dl base ext w look lf l :
  exec_ready fuel s dl base ext look lf l -> runnable (ksched (kern s)) (tl l) = tl l ->
  exists s', cmd_exec fuel s [w; name83 base ext] = Ret s' /\
    (refused s l s' \/
     exists t, is_Some (tasks (ksched (kern s')) !! t) /\ forall r1 r2 es,
       (length (tl l) < length es)%nat -> Forall (fun e => exists r, e = Yield r) es ->
       exists c' l', run (Yield r1 :: Exit r2 :: es) (ksched (kern s')) = Ret c' /\ sched_ok c' l' /\ tasks c' !! t = None /\
         restored (mem_pool s) (pool c')).
Proof.
  intros R Hq. destruct (cmd_exec_ok fuel s dl base ext w look lf l R) as (s' & E & _ & _ & Hres).
  pose proof (tm_ok _ _ (ro_mem _ _ (sk_ring _ _ (xr_sched _ _ _ _ _ _ _ _ R)))) as Hpo.
  exists s'. split; [exact E |].
  destruct (exec_result_cases _ _ _ _ _ _ _ Hres) as [Hr | (m & buf & _ & img & t & k & u & i & d & _ & _ & _ & Hp & _)]; [left; exact Hr | right].
  exists t. split; [rewrite (pr_task _ _ _ _ _ _ _ _ _ _ _ _ Hp); done |].
  intros r1 r2 es Hlen Hes. by apply (program_life s l m buf _ img t k u i d s' r1 r2 es Hpo Hq Hp).
Qed.

From S2P Require Import Pmm Kheap Ata FatMount.

#[local] Existing Instance wit_paging.
#[local] Existing Instance wit_layout.
#[local] Existing Instance wit_uart.
#[local] Existing Instance wit_code.

Lemma exec_life_witness :
  exists (s s' : shell (loader pmm held_heap) (list (Z * Z)) ide) t c',
    cmd_exec 9 s [lit "exec"; [0x62]] = Ret s' /\ is_Some (tasks (ksched (kern s')) !! t) /\
    run [Yield wit_regs; Exit wit_regs; Yield wit_regs] (ksched (kern s')) = Ret c' /\ tasks c' !! t = None /\
    restored (mem_pool s) (pool c').
Proof.
  destruct wit_exec_ready as (s & e & lf & b & Es & R & _ & _).
  destruct (exec_life 9 s [2] [0x62] [] (lit "exec") (Lookup e 3 32) lf [b] R eq_refl) as (s' & E & Hres).
  destruct Hres as [Hr | (t & Ht & Hrun)]; [destruct (wit_not_refused s s' [b] Es E Hr) |].
  destruct (Hrun wit_regs wit_regs [Yield wit_regs]) as (c' & l' & Er & _ & Hn & Hb).
  - simpl. lia.
  - apply Forall_singleton. by eexists.
  - exists s, s', t, c'. split; [exact E |]. split; [exact Ht |]. split; [exact Er |]. split; [exact Hn | exact Hb].
Defined.
