(* ===== verification/Kernel.v ===== *)
(** * Kernel entry: from the boot loader to the shell

    [kmain] of [kernel/kernel.c]: the initialisers of the other files in the
    order in which they run, the messages between them, and the shell at the
    end.  The theorem is that what the initialisers establish is what the
    theorems about the components ask for. *)

From S2P Require Import Prelude Memory Interfaces Pmm Kheap Paging PagingExt Elf ElfSpec ElfLoad Cpu.
From S2P Require Import Task TaskRing TaskSpec TaskSched TaskCreate TaskProps TaskSwitch.
From S2P Require Import Ata Fat32 FatTable FatMount Keyboard Screen Irq.
From S2P Require Import ShellText ShellLine ShellFs ShellPath ShellMessage ShellExec ShellSys ShellRun ShellSafe.

(** ** State *)

(** The addresses the linker gives to the descriptor tables, the TSS and the
    interrupt stubs. *)
Record linker : Type := Linker {
  gdt_at : Z; tss_at : Z; idt_at : Z; isr_stub_table : Z -> Z; isr128_at : Z
}.

(** The tables and registers of the processor, and what the shell works on:
    the kernel's variables and the volume. *)
Record machine (P B : Type) : Type := Machine {
  gdt_table : Gdt.gdt_state;
  task_register : Z;
  idt_table : list Idt.idt_entry;
  idt_register : Z * Z;
  sh : shell (loader pmm held_heap) P B
}.
Arguments Machine {P B}. Arguments gdt_table {P B}. Arguments task_register {P B}.
Arguments idt_table {P B}. Arguments idt_register {P B}. Arguments sh {P B}.

Definition ATA_DRIVE_SLAVE : Z := 1.

Section Boot.
  Context `{PagingLayout} `{HeapLayout} `{TaskCode} `{Uart} {P : Type} (outb : P -> Z -> Z -> P).
  Context {B : Type} `{AtaBus B} (counter_entry demo_entry : Z) (L : linker).
  Implicit Types s : shell (loader pmm held_heap) P B.

(** ** The parts of the state an initialiser works on *)

Definition on_serial s (f : serial -> serial) : shell (loader pmm held_heap) P B :=
  let v := kscreen (kern s) in
  with_screen s (Screen (vram v) (cur_col v) (cur_row v) (f (com1 v))).
Definition on_vm s (v : vm pmm) : shell (loader pmm held_heap) P B :=
  with_mem s (Loader v (lheap (mem_pool s)) (limages (mem_pool s))).
Definition on_heap s (f : kheap -> kheap) : shell (loader pmm held_heap) P B :=
  let h := lheap (mem_pool s) in
  with_mem s (Loader (lvm (mem_pool s)) (HeldHeap (f (the_heap h)) (held h)) (limages (mem_pool s))).
Definition with_pmm (v : vm pmm) (f : pmm) : vm pmm := Vm (pmem v) f (tlb v) (cr3 v) (pg v) (isr14 v).

(** ** Messages *)

Definition print_banner s : outcome (shell (loader pmm held_heap) P B) :=
  do! s := show_color s (litn "  __  __       ___  ____  ") VGA_LIGHT_CYAN in
  do! s := show_color s (litn " |  \/  |_   _/ _ \/ ___| ") VGA_LIGHT_CYAN in
  do! s := show_color s (litn " | |\/| | | | | | | \___ \ ") VGA_LIGHT_CYAN in
  do! s := show_color s (litn " | |  | | |_| | |_| |___) |") VGA_LIGHT_CYAN in
  do! s := show_color s (litn " |_|  |_|\__, |\___/|____/ ") VGA_LIGHT_CYAN in
  do! s := show_color s (litn "          |___/       v2.2 ") VGA_LIGHT_CYAN in
  show s [ch_nl].

Definition ok s (msg : string) : outcome (shell (loader pmm held_heap) P B) :=
  do! s := show_color s (lit "[ OK ] ") VGA_LIGHT_GREEN in
  do! s := show s (lit msg) in
  show s [ch_nl].

(** A number of pages in megabytes. *)
Definition megabytes (pages : Z) : Z := u32 (pages * 4) / 1024.

Definition show_memory s : outcome (shell (loader pmm held_heap) P B) :=
  let f := vframes (lvm (mem_pool s)) in
  do! s := show_color s (lit "[ OK ] ") VGA_LIGHT_GREEN in
  do! s := show s (lit "PMM ready - free: ") in
  do! s := show_dec s (megabytes (pmm_free_pages f)) in
  do! s := show s (lit " MB / total: ") in
  do! s := show_dec s (megabytes (pmm_total_pages f)) in
  show s (litn " MB").

(** ** [kmain] *)

(** The screen and the processor's tables. *)
Definition boot_cpu (mc : machine P B) : outcome (machine P B) :=
  let s := sh mc in
  let s := with_screen s (clear_screen (kscreen (kern s))) in
  let s := on_serial s serial_init in
  do! s := print_banner s in
  do! s := ok s "Serial COM1 ready (115200 8N1)" in
  let g := Gdt.gdt_init (gdt_at L) (gdt_table mc) in
  do! s := ok s "GDT loaded (kernel + user segments + TSS slot)" in
  let '(t, g, tr) := Tss.tss_init (tss_at L) g in
  let s := with_kern s (with_sched (kern s) (with_tss (ksched (kern s)) t)) in
  do! s := ok s "TSS loaded (LTR done)" in
  let s := with_kern s (with_ports (kern s) (Pic.pic_init outb (kports (kern s)))) in
  do! s := ok s "PIC remapped" in
  let '(i, ir) := Idt.idt_init (isr_stub_table L) (isr128_at L) (idt_at L) (idt_table mc) in
  do! s := ok s "IDT loaded (incl. INT 0x80 syscall, DPL=3)" in
  let s := with_kern s (keyboard_init (kern s)) in
  do! s := ok s "Keyboard driver ready" in
  Ret (Machine g tr i ir s).

(** Memory: page frames, paging, the heap. *)
Definition boot_memory s : outcome (shell (loader pmm held_heap) P B) :=
  let v := lvm (mem_pool s) in
  let s := on_vm s (with_pmm v (pmm_init (pmem v))) in
  do! s := show_memory s in
  do! v := paging_init (lvm (mem_pool s)) in
  let s := with_kern s (isr_register (kern s) 14 page_fault_handler) in
  do! s := ok (on_vm s v) "Paging enabled - first 4 MB identity-mapped" in
  let s := on_heap s kheap_init in
  ok s "Kernel heap ready (256 KB freelist, 8B align)".

(** The disk. *)
Definition boot_disk s : outcome (shell (loader pmm held_heap) P B) :=
  let s := with_vol s (set_dev (vol s) (ata_init (dev (vol s)))) in
  do! s := ok s "ATA driver ready (primary bus, polling PIO)" in
  do! (r, v) := fat32_mount (vol s) ATA_DRIVE_SLAVE in
  let s := with_vol s v in
  if r =? 0 then ok s "FAT32 mounted on primary slave"
  else
    do! s := show_color s (lit "[WARN] ") VGA_YELLOW in
    show s (litn "FAT32 mount failed (no data disk?) - 'ls/cat' will be unavailable").

(** The timer, the first task, and interrupts. *)
Definition boot_tasks s : outcome (shell (loader pmm held_heap) P B) :=
  let s := with_kern s (timer_init outb (kern s)) in
  do! s := ok s "PIT 100 Hz timer running (IRQ 0)" in
  do! c := tasking_init (ksched (kern s)) in
  let s := with_kern s (with_sched (kern s) c) in
  do! s := ok s "Multitasking active (round-robin, 50ms slice)" in
  let s := with_kern s (with_sched (kern s) (sti (ksched (kern s)))) in
  do! s := ok s "Interrupts enabled" in
  show s [ch_nl].

Definition with_sh (mc : machine P B) s : machine P B :=
  Machine (gdt_table mc) (task_register mc) (idt_table mc) (idt_register mc) s.

(** All of [kmain] up to the call of [shell_run]. *)
Definition boot (mc : machine P B) : outcome (machine P B) :=
  do! mc := boot_cpu mc in
  do! s := boot_memory (sh mc) in
  do! s := boot_disk s in
  do! s := boot_tasks s in
  Ret (with_sh mc s).

(** For [fuel], [es] and [irqs] see [shell_run]. *)
Definition kmain (fuel : nat) (es : list (env (loader pmm held_heap) P)) (irqs : list interrupt) (mc : machine P B)
    : outcome (list interrupt * machine P B) :=
  do! mc := boot mc in
  do! (irqs, s) := shell_run counter_entry demo_entry fuel es irqs (sh mc) in
  Ret (irqs, with_sh mc s).

End Boot.

(** ** What the initialisers establish *)

Section Booting.
  Context `{PagingLayout} `{HeapLayout} `{TaskCode} `{Uart} {P B : Type} `{AtaBusLaws B}.
  Context (outb : P -> Z -> Z -> P) (counter_entry demo_entry : Z) (L : linker).
  Notation shell := (shell (loader pmm held_heap) P B).
  Implicit Types (s : shell) (mc : machine P B).

Lemma message_banner : message (M := loader pmm held_heap) (P := P) (D := B) print_banner.
Proof. unfold print_banner. auto 10 with messages. Qed.

Lemma message_ok msg : message (M := loader pmm held_heap) (P := P) (D := B) (fun s => ok s msg).
Proof. unfold ok. auto with messages. Qed.

Lemma megabytes_range n : is_u32 (megabytes n).
Proof. unfold megabytes. pose proof (u32_range (n * 4)). unfold is_u32 in *. zdm. Qed.

#[local] Hint Resolve megabytes_range : messages.

Lemma message_memory : message (M := loader pmm held_heap) (P := P) (D := B) show_memory.
Proof.
  intros s. unfold show_memory. set (f := vframes _). cbv zeta. generalize f. clear f. intros f. revert s.
  change (message (M := loader pmm held_heap) (P := P) (D := B) (fun s =>
    do! s := show_color s (lit "[ OK ] ") VGA_LIGHT_GREEN in
    do! s := show s (lit "PMM ready - free: ") in
    do! s := show_dec s (megabytes (pmm_free_pages f)) in
    do! s := show s (lit " MB / total: ") in
    do! s := show_dec s (megabytes (pmm_total_pages f)) in
    show s (litn " MB"))). auto 10 with messages.
Qed.

(** The next message of a stage, the screen drawn since [v0] as hypothesis. *)
Ltac say :=
  match goal with
  | Hd : drawn ?v0 ?v |- context [ok ?s ?m] =>
      let v' := fresh "v" in let E := fresh "E" in let Hv := fresh "Hv" in
      destruct (message_ok m s) as (v' & E & Hv); [exact (proj1 Hd) |];
      rewrite E; clear E; cbn [obind]; apply (drawn_trans _ _ _ Hd) in Hv; clear Hd
  end.

Lemma drawn_start v : drawn (Screen (vram (clear_screen v)) 0 0 (serial_init (com1 v)))
  (Screen (vram (clear_screen v)) 0 0 (serial_init (com1 v))).
Proof. split; [| done]. exists term0. destruct (shows_clear v). by split. Qed.

Lemma drawn_refl s : screen_ok s -> drawn (kscreen (kern s)) (kscreen (kern s)).
Proof. by split. Qed.

Lemma boot_cpu_ok mc :
  let k := kern (sh mc) in
  let '(t, g, tr) := Tss.tss_init (tss_at L) (Gdt.gdt_init (gdt_at L) (gdt_table mc)) in
  let '(i, ir) := Idt.idt_init (isr_stub_table L) (isr128_at L) (idt_at L) (idt_table mc) in
  exists v, boot_cpu outb L mc = Ret (Machine g tr i ir
    (Shell (Kernel (with_tss (ksched k) t) v (kkbd k) (Pic.pic_init outb (kports k)) (g_ticks k)
       (<[33 := keyboard_irq_handler]> (handlers k))) (vol (sh mc)) (cwd_path (sh mc)))) /\
    (exists t, shows v t) /\ g_initialized (com1 v) = true.
Proof.
  cbv zeta. destruct (Tss.tss_init _ _) as [[t g] tr] eqn:Et. destruct (Idt.idt_init _ _ _ _) as [i ir] eqn:Ei.
  unfold boot_cpu. rewrite Et, Ei. pose proof (drawn_start (kscreen (kern (sh mc)))) as Hd.
  destruct (message_banner (on_serial (with_screen (sh mc) (clear_screen (kscreen (kern (sh mc))))) serial_init)) as (v & E & Hv);
    [exact (proj1 Hd) |].
  rewrite E. clear E. cbn [obind]. apply (drawn_trans _ _ _ Hd) in Hv. clear Hd. do 6 say.
  eexists. split; [reflexivity |]. match goal with Hd : drawn _ _ |- _ => exact Hd end.
Qed.

(** Memory, when the kernel and its tables lie below 1 MB. *)
Definition low_image : Prop := page_directory < 0x100000 /\ first_page_table < 0x100000.

Lemma boot_frames m a : 0 <= a < 0x100000 -> frames_ok (pmm_init m) /\ a / 4096 ∉ frames (pmm_init m).
Proof.
  intros Ha. destruct (pmm_init_facts m) as (Hwf & Hset & _).
  assert (forall p, 0 <= p < 0x100 -> p ∉ free_set (pmm_init m)) as Hlow.
  { intros p Hp Hin. rewrite Hset in Hin. apply elem_of_difference in Hin as [_ Hn].
    apply Hn, elem_of_page_range. lia. }
  split; [split; [exact Hwf | apply Hlow; lia] | apply Hlow; zdm].
Qed.

(** What the three initialisers of memory leave. *)
Record memory_ready (m : mem) (l : loader pmm held_heap) : Prop := MemoryReady {
  mr_vm : vm_ok (lvm l);
  mr_frames : vframes (lvm l) = pmm_init m;
  mr_walk va : is_u32 va -> walk (lvm l) va = if decide (va < LOW_MEM) then Some (va - va mod 4096 + 7) else None;
  mr_heap : heap_inv (the_heap (lheap l)) [init_block]
}.

Lemma boot_memory_ok s :
  let l := mem_pool s in
  screen_ok s -> pg (lvm l) = false -> low_image ->
  exists v vm', boot_memory s = Ret (Shell (Kernel
      (with_pool (ksched (kern s)) (Loader vm' (HeldHeap (kheap_init (the_heap (lheap l))) (held (lheap l))) (limages l)))
      v (kkbd (kern s)) (kports (kern s)) (g_ticks (kern s)) (<[14 := page_fault_handler]> (handlers (kern s))))
      (vol s) (cwd_path s)) /\
    drawn (kscreen (kern s)) v /\
    memory_ready (pmem (lvm l)) (Loader vm' (HeldHeap (kheap_init (the_heap (lheap l))) (held (lheap l))) (limages l)).
Proof.
  intros l Hs Hpg [Hpd Hpt]. unfold boot_memory. cbv zeta. fold l.
  destruct (message_memory (on_vm s (with_pmm (lvm l) (pmm_init (pmem (lvm l)))))) as (v & E & Hd); [exact Hs |]. rewrite E. clear E.
  cbn [obind]. pose proof page_directory_low. pose proof first_page_table_low.
  destruct (boot_frames (pmem (lvm l)) page_directory) as [Hok Hd1]; [lia |].
  destruct (boot_frames (pmem (lvm l)) first_page_table) as [_ Hd2]; [lia |].
  destruct (paging_init_ok (with_pmm (lvm l) (pmm_init (pmem (lvm l)))) Hpg Hok Hd1 Hd2) as (vm' & E & Hvm & Hfr & Hw & _).
  change (lvm (mem_pool _)) with (with_pmm (lvm l) (pmm_init (pmem (lvm l)))). rewrite E. cbn [obind]. do 2 say.
  eexists _, vm'. split; [reflexivity |]. split; [eassumption |].
  split; [done | exact Hfr | exact Hw | apply kheap_init_inv].
Qed.

(** The disk: the volume is mounted, or refused and left alone. *)
Record disk_ready (d : B) (v : fat B) : Prop := DiskReady {
  dr_dev : dev_ok (dev v);
  dr_bytes k x : load8 (disk (dev v) k) x = load8 (disk d k) x;
  dr_mounted : mounted v = true <-> bpb_accepted (read_bpb (disk d ATA_DRIVE_SLAVE));
  dr_root : mounted v = true -> cwd_cluster v = bpb_root_cluster (read_bpb (disk d ATA_DRIVE_SLAVE));
  dr_fs : mounted v = true ->
    formatted (read_bpb (disk d ATA_DRIVE_SLAVE)) (capacity d ATA_DRIVE_SLAVE) -> fs_ok v
}.

Lemma ata_init_ok (d : B) : dev_ok d ->
  dev_ok (ata_init d) /\ (forall k x, load8 (disk (ata_init d) k) x = load8 (disk d k) x) /\
  forall k, capacity (ata_init d) k = capacity d k.
Proof.
  unfold ata_init, dev_ok, disk, capacity. cbn [ata_block_device]. intros Hd.
  destruct (outb_law d ATA_CTRL_BASE 0x02) as (_ & [Hb Hc] & Hp). split_and!.
  - rewrite Hp; [exact Hd | done].
  - intros k x. case_decide; [apply Hb | done].
  - intros k. case_decide; [apply Hc | done].
Qed.

Lemma boot_disk_ok s :
  screen_ok s -> dev_ok (dev (vol s)) -> 0 < capacity (dev (vol s)) ATA_DRIVE_SLAVE -> mounted (vol s) = false ->
  exists v w, boot_disk s = Ret (with_screen (with_vol s w) v) /\ drawn (kscreen (kern s)) v /\
    disk_ready (dev (vol s)) w.
Proof.
  intros Hs Hdev Hcap Hm. unfold boot_disk. cbv zeta. pose proof (drawn_refl _ Hs) as Hd. say.
  destruct (ata_init_ok _ Hdev) as (Hdev1 & Hb1 & Hc1). set (d := dev (vol s)) in *.
  set (w0 := set_dev (vol s) (ata_init d)).
  destruct (mount_ok w0 ATA_DRIVE_SLAVE Hdev1) as (r & w & E & Hr & Ha & Hdw & Hbw & Hno & Hyes); [by rewrite Hc1 |].
  assert (r = -1 -> mounted w = mounted w0) as Hkeep by (intros Er; exact (f_equal mounted (Hno Er))).
  change (vol (with_screen (with_vol s w0) _)) with w0. rewrite E. cbn [obind].
  assert (disk_bpb w0 ATA_DRIVE_SLAVE = read_bpb (disk d ATA_DRIVE_SLAVE)) as Eb.
  { apply read_bpb_ext. intros i _. apply Hb1. }
  rewrite Eb in *. change (dev w0) with (ata_init d) in *.
  assert (disk_ready d w) as Hready.
  { split; [done | intros k x; by rewrite Hbw, Hb1 | | |].
    - destruct Hr as [-> | ->]; [split; [intros _; by apply Ha | intros _; by apply Hyes] |].
      rewrite (Hkeep eq_refl). change (mounted w0) with (mounted (vol s)). rewrite Hm. split; [done |].
      by intros ?%Ha.
    - intros Hmw. destruct Hr as [-> | ->]; [by apply Hyes |]. pose proof (Hkeep eq_refl) as E'.
      rewrite E' in Hmw. change (mounted w0) with (mounted (vol s)) in Hmw. congruence.
    - intros Hmw. destruct Hr as [-> | ->].
      + intros Hf. apply Hyes; [done |]. by rewrite Hc1.
      + pose proof (Hkeep eq_refl) as E'. rewrite E' in Hmw. change (mounted w0) with (mounted (vol s)) in Hmw. congruence. }
  destruct Hr as [-> | ->].
  - change (0 =? 0) with true. cbv iota. say. eexists _, w. split; [reflexivity |]. by split.
  - change (-1 =? 0) with false. cbv iota.
    match goal with Hd : drawn _ ?v |- _ =>
      destruct (message_then (M := loader pmm held_heap) (P := P) (D := B) _ _ (message_color (lit "[WARN] ") VGA_YELLOW)
        (message_show (litn "FAT32 mount failed (no data disk?) - 'ls/cat' will be unavailable"))
        (with_vol (with_screen (with_vol s w0) v) w) (proj1 Hd)) as (v2 & E2 & Hv2) end.
    rewrite E2. exists v2, w. split; [reflexivity |]. split; [| done]. by eapply drawn_trans.
Qed.

(** The task that the flow of control of [kmain] becomes. *)
Definition boot_task (n b : Z) : task :=
  Task n (str_copy_n [98; 111; 111; 116] TASK_NAME_LEN) TASK_RUNNING 0 0 0 0 0 0 0 0 TASK_TIME_SLICE b.

Lemma tasking_init_boot (c : sched (loader pmm held_heap)) :
  tasks c = ∅ -> heap_inv (the_heap (lheap (pool c))) [init_block] -> held (lheap (pool c)) = ∅ ->
  exists b h, 0 < b /\ heap_ok (HeldHeap h {[b := TASK_SIZE]}) /\ tasking_init c = Ret (Sched {[b := boot_task (g_next_id c) b]} b true (g_need_resched c)
    (u32 (g_next_id c + 1)) (intr c) (kmem c) (tss c)
    (Loader (lvm (pool c)) (HeldHeap h {[b := TASK_SIZE]}) (limages (pool c)))).
Proof.
  intros Ht Hinv Hheld.
  destruct (kmalloc_some _ _ TASK_SIZE init_block Hinv) as (_ & _ & h & _ & _ & _ & _ & E & _ & _); [done | done | reflexivity |].
  exists (payload init_block), h. assert (0 < payload init_block) as Hpos.
  { unfold payload, init_block. cbn [addr]. pose proof heap_storage_range. unfold HDR_SIZE. lia. }
  assert (heap_malloc (lheap (pool c)) TASK_SIZE = Ret (payload init_block, HeldHeap h {[payload init_block := TASK_SIZE]})) as Em.
  { cbn [heap_malloc kheap_allocator]. rewrite E. cbn [obind]. by rewrite (proj2 (Z.eqb_neq _ _)), Hheld by lia. }
  destruct (heap_malloc_ok (lheap (pool c)) TASK_SIZE) as (p & h' & Em' & Hok & _); [| done |].
  { exists [init_block]. split; [done |]. rewrite Hheld. intros p n. by rewrite lookup_empty. }
  rewrite Em in Em'. injection Em' as <- <-. split_and!; [done | exact Hok |].
  unfold tasking_init. cbn [proc_malloc loader_memory]. rewrite Em. cbn [obind]. rewrite truth_pos by done. cbn [negb].
  cbn [tasks with_pool with_next_id]. by rewrite Ht.
Qed.

Lemma boot_tasks_ok s c' :
  let c := ksched (kern s) in
  screen_ok s -> tasking_init c = Ret c' ->
  exists v, boot_tasks outb s = Ret (Shell (Kernel (sti c') v (kkbd (kern s)) (kports (timer_init outb (kern s)))
      (g_ticks (kern s)) (<[32 := timer_irq_handler]> (handlers (kern s)))) (vol s) (cwd_path s)) /\
    drawn (kscreen (kern s)) v.
Proof.
  intros c Hs E. unfold boot_tasks. cbv zeta. pose proof (drawn_refl _ Hs) as Hd. say.
  change (ksched (kern (with_screen _ _))) with c. rewrite E. cbn [obind]. do 2 say.
  match goal with Hd : drawn _ ?v |- context [show ?s [ch_nl]] =>
    destruct (message_show [ch_nl] s (proj1 Hd)) as (v2 & E2 & Hv2); apply (drawn_trans _ _ _ Hd) in Hv2 end.
  rewrite E2. exists v2. split; [reflexivity | done].
Qed.

(** The state in which [kernel_entry.asm] calls [kmain]: the variables are
    zero or as initialised, paging is off, the disk is idle. *)
Record at_entry mc : Prop := AtEntry {
  ae_gdt : length (Gdt.gdt (gdt_table mc)) = 6%nat;
  ae_idt : idt_table mc = Idt.idt_reset;
  ae_tasks : tasks (ksched (kern (sh mc))) = ∅;
  ae_active : g_active (ksched (kern (sh mc))) = false;
  ae_next : g_next_id (ksched (kern (sh mc))) = 0;
  ae_ticks : g_ticks (kern (sh mc)) = 0;
  ae_handlers : handlers (kern (sh mc)) = ∅;
  ae_keyboard : kkbd (kern (sh mc)) = keyboard0;
  ae_paging : pg (lvm (mem_pool (sh mc))) = false;
  ae_held : held (lheap (mem_pool (sh mc))) = ∅;
  ae_images : limages (mem_pool (sh mc)) = ∅;
  ae_mounted : mounted (vol (sh mc)) = false;
  ae_path : cwd_path (sh mc) = [ch_slash];
  ae_dev : dev_ok (dev (vol (sh mc)));
  ae_slave : 0 < capacity (dev (vol (sh mc))) ATA_DRIVE_SLAVE
}.

(** The state in which [kmain] calls [shell_run]. *)
Record booted mc mc' : Prop := Booted {
  bt_screen : exists t, shows (kscreen (kern (sh mc'))) t;
  bt_serial : g_initialized (com1 (kscreen (kern (sh mc')))) = true;
  bt_segments sel dpl ty :
    (sel, dpl, ty) ∈ [(Gdt.GDT_KCODE_SEL, 0, 0x1A); (Gdt.GDT_KDATA_SEL, 0, 0x12);
                      (Gdt.GDT_UCODE_SEL, 3, 0x1A); (Gdt.GDT_UDATA_SEL, 3, 0x12)] ->
    exists e, Gdt.gdt (gdt_table mc') !! Z.to_nat (sel / 8) = Some e /\ Gdt.seg_present e = true /\ Gdt.seg_dpl e = dpl /\
      Gdt.seg_type e = ty /\ Gdt.seg_base e = 0 /\ Gdt.seg_limit e = 2 ^ 32 - 1;
  bt_tss : exists e, Gdt.gdt (gdt_table mc') !! Z.to_nat (task_register mc' / 8) = Some e /\
    Gdt.seg_base e = tss_at L /\ Gdt.seg_limit e = Tss.TSS_SIZE - 1;
  bt_stack_segment : Tss.ss0 (tss (ksched (kern (sh mc')))) = Gdt.GDT_KDATA_SEL;
  bt_gates v : 0 <= v < 256 -> Idt.int_allowed (idt_table mc') v 3 = true <-> v = 128;
  bt_handlers : handlers (kern (sh mc')) =
    {[14 := page_fault_handler; 32 := timer_irq_handler; 33 := keyboard_irq_handler]};
  bt_keyboard : repr (kkbd (kern (sh mc'))) (KSpec [] false false);
  bt_paging : vm_ok (lvm (mem_pool (sh mc'))) /\
    forall va, is_u32 va -> mmu_entry (lvm (mem_pool (sh mc'))) va =
      if decide (va < LOW_MEM) then Some (va - va mod 4096 + 7) else None;
  bt_frames : vframes (lvm (mem_pool (sh mc'))) = pmm_init (pmem (lvm (mem_pool (sh mc))));
  bt_heap : heap_ok (lheap (mem_pool (sh mc'))) /\
    held (lheap (mem_pool (sh mc'))) = {[g_current (ksched (kern (sh mc'))) := TASK_SIZE]};
  bt_task : let c := ksched (kern (sh mc')) in
    tasks c = {[g_current c := boot_task 0 (g_current c)]} /\ g_active c = true /\ intr c = true /\ g_next_id c = 1;
  bt_sched : sched_ok (ksched (kern (sh mc'))) [g_current (ksched (kern (sh mc')))] /\
    loader_inv (lvm (mem_pool (sh mc'))) (mem_pool (sh mc')) ∅;
  bt_good : good (sh mc');
  bt_disk : disk_ready (dev (vol (sh mc))) (vol (sh mc'));
  bt_path : cwd_path (sh mc') = [ch_slash]
}.

(** The scheduler that [tasking_init] leaves, when every free frame is in
    the part of memory that is mapped. *)
Lemma sched_boot (c c' : sched (loader pmm held_heap)) b :
  before_init c -> tasking_init c = Ret c' -> g_current c' = b -> sched_ok (sti c') [b].
Proof.
  intros Hb E Hc. destruct (init_ok c Hb) as [(c1 & b1 & E1 & Hok) | E1]; rewrite E in E1; [injection E1 as <- | done].
  destruct (sched_ok_head _ _ Hok) as [l El]. injection El as -> <-. rewrite Hc in Hok.
  by apply (sched_ok_ext c' (sti c') [b] Hok).
Qed.

Lemma empty_loader (l : loader pmm held_heap) :
  vm_ok (lvm l) -> heap_ok (lheap l) -> limages l = ∅ -> loader_inv (lvm l) l ∅.
Proof.
  intros Hm Hh Him. split; [by apply loaded_refl | done | |]; rewrite Him.
  - intros p img. by rewrite lookup_empty.
  - intros p q img img' v. by rewrite lookup_empty.
Qed.

Lemma boot_ok mc :
  at_entry mc -> low_image -> is_u32 (tss_at L) -> (forall i, is_u32 (isr_stub_table L i)) -> is_u32 (isr128_at L) ->
  exists mc', boot outb L mc = Ret mc' /\ booted mc mc'.
Proof.
  intros [Hg Hi Ht Hact Hnext Htk Hh Hkb Hpg Hheld Him Hmnt Hpath Hdev Hcap] Himg Htss Hstub H128. unfold boot.
  pose proof (boot_cpu_ok mc) as Hcpu. cbv zeta in Hcpu.
  pose proof (gdt_descriptors (gdt_table mc) (gdt_at L) (tss_at L) Hg Htss) as [_ Hgdt].
  pose proof (idt_gates_ok (isr_stub_table L) (isr128_at L) (idt_at L) Hstub H128) as (_ & _ & Hgates). rewrite <- Hi in Hgates.
  destruct (Tss.tss_init _ _) as [[t g] tr]. destruct (Idt.idt_init _ _ _ _) as [i ir].
  destruct Hcpu as (v1 & -> & Hv1 & Hser). cbn [obind sh].
  set (s1 := Shell _ _ _). change (exists t, shows (kscreen (kern s1)) t) in Hv1.
  destruct (boot_memory_ok s1 Hv1 Hpg Himg) as (v2 & vm & -> & [Hv2 Hs2] & Hmem). cbn [obind].
  set (l := Loader vm _ _) in *. set (s2 := Shell _ _ _).
  destruct (boot_disk_ok s2 Hv2 Hdev Hcap Hmnt) as (v3 & w & -> & [Hv3 Hs3] & Hdisk). cbn [obind].
  set (s3 := with_screen _ _). set (c := ksched (kern s3)).
  assert (held (lheap l) = ∅) as Hl by exact Hheld. assert (limages l = ∅) as Hlim by exact Him.
  destruct (tasking_init_boot c Ht (mr_heap _ _ Hmem) Hl) as (b & h & Hb & Hheap & E).
  destruct (boot_tasks_ok s3 _ Hv3 E) as (v4 & -> & [Hv4 Hs4]). cbn [obind].
  eexists. split; [reflexivity |]. destruct Hgdt as (_ & Hseg & (e & He & _ & _ & Hbase & Hlimit) & Hss).
  assert (heap_ok (lheap l)) as Hheap0 by (exists [init_block]; split; [apply Hmem | intros p n; rewrite Hl; by rewrite lookup_empty]).
  pose proof (fun Hc => sched_boot c _ b Hc E eq_refl) as Hsch.
  assert (before_init c) as Hbefore.
  { split; [exact Ht | exact Hact |]. exists vm, ∅. exact (empty_loader l (mr_vm _ _ Hmem) Hheap0 Hlim). }
  specialize (Hsch Hbefore).
  split.
  - exact Hv4.
  - change (g_initialized (com1 v4) = true). rewrite Hs4. change (g_initialized (com1 v3) = true). rewrite Hs3. change (g_initialized (com1 v2) = true).
    by rewrite Hs2.
  - intros sel dpl ty Hin. destruct (Hseg sel dpl ty Hin) as (e' & ? & ? & ? & ? & _ & ? & ?). by exists e'.
  - exists e. exact (conj He (conj Hbase Hlimit)).
  - exact Hss.
  - exact Hgates.
  - change (handlers (kern s3)) with (<[14 := page_fault_handler]> (<[33 := keyboard_irq_handler]> (handlers (kern (sh mc))))).
    rewrite Hh. vm_compute. reflexivity.
  - change (repr (kkbd (kern (sh mc))) (KSpec [] false false)). rewrite Hkb. apply repr_init.
  - split; [exact (mr_vm _ _ Hmem) |]. intros va Hva. exact (eq_trans (mmu_walk _ _ (mr_vm _ _ Hmem) Hva) (mr_walk _ _ Hmem va Hva)).
  - exact (mr_frames _ _ Hmem).
  - by split.
  - change (g_next_id c) with (g_next_id (ksched (kern (sh mc)))). by rewrite Hnext.
  - split; [exact Hsch |].
    exact (empty_loader (Loader vm (HeldHeap h {[b := TASK_SIZE]}) (limages l)) (mr_vm _ _ Hmem) Hheap Hlim).
  - split; [exact Hv4 | eexists; exact Hsch | | apply u32_range |].
    + intros p d. change (tasks _) with ({[b := boot_task (g_next_id c) b]} : gmap Z task).
      intros [_ <-]%lookup_singleton_Some. change (g_next_id c) with (g_next_id (ksched (kern (sh mc)))). rewrite Hnext.
      cbn. unfold is_u32. lia.
    + change (is_u32 (g_ticks (kern (sh mc)))). rewrite Htk. unfold is_u32. lia.
  - exact Hdisk.
  - exact Hpath.
Qed.

(** ** The property *)

(** C4 From the state the boot loader leaves, [kmain] reaches the shell, and
    what the initialisers establish together is what the rest relies on: the
    screen shows a terminal and the serial port mirrors it; the kernel and
    the user have flat segments, the TSS is loaded, and a program can raise
    vector 128 only; the page fault, timer and keyboard handlers are the ones
    registered; exactly the first 4 MB are mapped, one to one, and the free
    frames are those of the memory map; the boot task is the one task, owns
    the one block of the heap, and interrupts are on; the volume is mounted
    when its boot sector is accepted, with the invariant of the file system
    when it is formatted, and no byte of the disk changed; the invariants of
    scheduler and loader hold, and the kernel is in the order that the
    commands of the shell keep. *)
Theorem kmain_boots fuel es irqs mc :
  at_entry mc -> low_image -> is_u32 (tss_at L) -> (forall i, is_u32 (isr_stub_table L i)) -> is_u32 (isr128_at L) ->
  exists mc', booted mc mc' /\
    kmain outb counter_entry demo_entry L fuel es irqs mc =
      do! (irqs, s) := shell_run counter_entry demo_entry fuel es irqs (sh mc') in Ret (irqs, with_sh mc' s).
Proof.
  intros Hen Himg Htss Hstub H128. destruct (boot_ok mc Hen Himg Htss Hstub H128) as (mc' & E & Hb).
  exists mc'. split; [done |]. unfold kmain. by rewrite E.
Qed.

End Booting.

(** ** Witness: a PC with the small volume as its slave disk *)

#[local] Existing Instance wit_paging.
#[local] Existing Instance wit_layout.
#[local] Existing Instance wit_code.
#[local] Existing Instance wit_uart.

Definition wit_linker : linker := Linker 0x60000 0x61000 0x62000 (fun i => 0x20000 + 16 * (i mod 256)) 0x21000.

Definition wit_machine : machine (list (Z * Z)) ide :=
  Machine (Gdt.GdtState (replicate 6 Gdt.zero_gdt_entry) None) 0 Idt.idt_reset (0, 0)
    (Shell (Kernel (Sched ∅ 0 false false 0 false ∅ zero_tss (Loader (boot_vm boot_mem) (HeldHeap (Kheap ∅ 0) ∅) ∅))
       (Screen ∅ 0 0 (Serial false [] 0)) keyboard0 [] 0 ∅)
      (Fat (Ide {[1 := wit_image]} ∅ Idle 0) (Geo 0 0 0 0 0 0 0 0 0) 0 0 false ∅ ∅ NO_LBA) [ch_slash]).

Lemma kmain_boots_witness :
  exists mc', kmain (fun p a v => p ++ [(a, v)]) 0x1000 0x2000 wit_linker 9 [] [] wit_machine =
      (do! (irqs, s) := shell_run 0x1000 0x2000 9 [] [] (sh mc') in Ret (irqs, with_sh mc' s)) /\
    sched_ok (ksched (kern (sh mc'))) [g_current (ksched (kern (sh mc')))] /\
    mmu_entry (lvm (mem_pool (sh mc'))) 0x12345 = Some 0x12007 /\ mounted (vol (sh mc')) = true.
Proof.
  destruct (kmain_boots (fun p a v => p ++ [(a, v)]) 0x1000 0x2000 wit_linker 9 [] [] wit_machine) as (mc' & Hb & E).
  - split; reflexivity.
  - split; reflexivity.
  - unfold is_u32. cbn. lia.
  - intros i. unfold is_u32. cbn [isr_stub_table wit_linker]. zdm.
  - unfold is_u32. cbn. lia.
  - exists mc'. split; [exact E |]. split.
    + apply (bt_sched _ _ _ Hb).
    + split; [rewrite (proj2 (bt_paging _ _ _ Hb)) by (unfold is_u32; lia); reflexivity |].
      apply (dr_mounted _ _ (bt_disk _ _ _ Hb)). repeat split; vm_compute; congruence.
Defined.
