(* ===== verification/User.v ===== *)
(** * User programs

    The code that runs in ring 3: the system-call wrappers of
    [proc/syscall.h], the demonstration task of [proc/user_demo.c] and the
    program of [userland/hello.c] with its start-up code.  A system call is a
    trap into [isr_handler]; what other tasks do meanwhile is what the
    environment of the call says. *)

From S2P Require Import Prelude Memory Interfaces Keyboard Screen Cpu Task TaskRing TaskSpec TaskSched TaskCreate.
From S2P Require Import TaskProps TaskSwitch Irq ShellText.

(** ** Numbers *)

Definition ch_minus : Z := 45.

(** [while (s[n]) n++]. *)
Fixpoint ulen (str : list Z) : Z :=
  match str with
  | [] => 0
  | c :: str' => if c =? 0 then 0 else 1 + ulen str'
  end.

(** [while (v > 0 && i < 15) { buf[i++] = '0' + v % 10; v /= 10; }]: [n] is
    [15 - i], [buf] the [i] characters written. *)
Fixpoint digit_loop (n : nat) (v : Z) (buf : list Z) : list Z :=
  match n with
  | O => buf
  | S n' => if 0 <? v then digit_loop n' (v / 10) (buf ++ [ch_0 + v mod 10]) else buf
  end.

(** [while (i > 0) out[j++] = buf[--i]]: the last [j] and the array. *)
Fixpoint reverse_loop (i : nat) (buf : list Z) (j : nat) (out : list Z) : nat * list Z :=
  match i with
  | O => (j, out)
  | S i' => reverse_loop i' buf (S j) (<[j := default 0 (buf !! i')]> out)
  end.

Definition put_digits (v : Z) (j : nat) (out : list Z) : list Z :=
  let buf := digit_loop 15 v [] in
  let '(j, out) := reverse_loop (length buf) buf j out in
  <[j := 0]> out.

(** user_demo.c: an unsigned number. *)
Definition u_itoa (v : Z) (out : list Z) : list Z :=
  if v =? 0 then <[1%nat := 0]> (<[0%nat := ch_0]> out) else put_digits v 0 out.

(** hello.c: a signed one; [j] counts the moves of the pointer. *)
Definition uitoa (v : Z) (out : list Z) : list Z :=
  let '(v, j, out) := if v <? 0 then (i32 (- v), 1%nat, <[0%nat := ch_minus]> out) else (v, 0%nat, out) in
  if v =? 0 then <[S j := 0]> (<[j := ch_0]> out) else put_digits v j out.

(** ** System calls *)

Section Programs.
  Context {M : Type} `{ProcessMemory M} `{TaskCode} `{Uart} {P : Type} (outb : P -> Z -> Z -> P).
  (** The registers a system call does not set, where the program's strings
      and its stack buffer lie, and what the buffer holds at the start. *)
  Context (f0 : registers_t) (str_at : list Z -> Z) (buf_at : Z) (stack : list Z).
  Implicit Types (k : kernel M P) (e : env M P).

Definition set_args (num a b c : Z) (f : registers_t) : registers_t :=
  Frame (fr_gs f) (fr_fs f) (fr_es f) (fr_ds f) (fr_edi f) (fr_esi f) (fr_ebp f) (fr_esp f)
    a c b num 128 (err_code f) (fr_eip f) (fr_cs f) (fr_eflags f) (fr_useresp f) (fr_ss f).

(** [int $0x80]: the registers of the task that goes on, when it is another
    one, and [eax] for the caller. *)
Definition int80 e k (num a b c : Z) : outcome (option regs * Z * kernel M P) :=
  do! (o, f, k) := isr_handler outb e (set_args num a b c f0) k in Ret (o, i32 (fr_eax f), k).

Definition syscall0 e k (num : Z) := int80 e k num (fr_ebx f0) (fr_ecx f0) (fr_edx f0).
Definition syscall1 e k (num a : Z) := int80 e k num a (fr_ecx f0) (fr_edx f0).
Definition syscall3 e k (num a b c : Z) := int80 e k num a b c.

(** The environment of a call when the program has [bytes] at [addr]. *)
Definition holding (addr : Z) (bytes : list Z) e : env M P :=
  Env (at_switch e) (scancode e) (cr2 e)
    (fun a => if (addr <=? a) && (a <? addr + Z.of_nat (length bytes))
              then Ret (default 0 (bytes !! Z.to_nat (a - addr))) else peek e a) (wakes e).

(** These three come back to the caller; [u_exit] does not. *)
Definition u_write e k (fd addr : Z) (bytes : list Z) (n : Z) : outcome (Z * kernel M P) :=
  do! (_, r, k) := syscall3 (holding addr bytes e) k SYS_WRITE (u32 fd) addr (u32 n) in Ret (r, k).
Definition u_getpid e k : outcome (Z * kernel M P) :=
  do! (_, r, k) := syscall0 e k SYS_GETPID in Ret (r, k).
Definition u_sleep_ms e k (ms : Z) : outcome (kernel M P) :=
  do! (_, _, k) := syscall1 e k SYS_SLEEP_MS (u32 ms) in Ret k.
Definition u_exit e k (code : Z) : outcome (option regs * kernel M P) :=
  do! (o, _, k) := syscall1 e k SYS_EXIT (u32 code) in Ret (o, k).

(** ** The programs *)

(** A string literal is written with its length taken by [ulen]. *)
Definition uputs e k (str : list Z) : outcome (kernel M P) :=
  do! (_, k) := u_write e k 1 (str_at str) str (ulen str) in Ret k.

(** The demonstration up to its sleep. *)
Definition demo_greeting e k : outcome (kernel M P) :=
  do! k := uputs e k (litn "[ring 3] Hello from user mode!") in
  do! (pid, k) := u_getpid e k in
  let pidbuf := u_itoa (u32 pid) stack in
  do! k := uputs e k (lit "[ring 3] my pid = ") in
  do! (_, k) := u_write e k 1 buf_at pidbuf (ulen pidbuf) in
  do! (_, k) := u_write e k 1 (str_at [ch_nl]) [ch_nl] 1 in
  uputs e k (litn "[ring 3] sleeping 2 seconds...").

Definition user_demo_entry e k : outcome (option regs * kernel M P) :=
  do! k := demo_greeting e k in
  do! k := u_sleep_ms e k 2000 in
  do! k := uputs e k (litn "[ring 3] bye!") in
  u_exit e k 0.

(** The rounds of the counting loop of hello.c; [es] has the environment of
    each, whose sleep it is. *)
Fixpoint count_loop (es : list (env M P)) (i : Z) k : outcome (kernel M P) :=
  if i <=? 3 then
    match es with
    | [] => OutOfFuel
    | e :: es' =>
        let b := [ch_0 + i; ch_nl; 0] in
        do! k := uputs e k (lit "  > ") in
        do! (_, k) := u_write e k 1 buf_at b 2 in
        do! k := u_sleep_ms e k 1000 in
        count_loop es' (i + 1) k
    end
  else Ret k.

Definition hello_main e (es : list (env M P)) k : outcome (Z * kernel M P) :=
  do! k := uputs e k (litn "=== /HELLO.ELF (loaded from FAT32 disk!) ===") in
  do! k := uputs e k (litn "This program is a separate ELF binary.") in
  do! k := uputs e k (litn "It runs in ring 3 and talks to MyOS only via INT 0x80.") in
  do! (pid, k) := u_getpid e k in
  let pidbuf := uitoa pid stack in
  do! k := uputs e k (lit "[hello] my pid is ") in
  do! (_, k) := u_write e k 1 buf_at pidbuf (ulen pidbuf) in
  do! k := uputs e k [ch_nl] in
  do! k := uputs e k (litn "[hello] counting 1..3 with 1s sleep each:") in
  do! k := count_loop es 1 k in
  do! k := uputs e k (litn "[hello] goodbye!") in
  Ret (0, k).

(** crt0.S: [main], then [SYS_EXIT] with what it returned. *)
Definition hello_start e (es : list (env M P)) k : outcome (option regs * kernel M P) :=
  do! (code, k) := hello_main e es k in u_exit e k code.

End Programs.

(** ** Lemmas *)

Lemma ulen_plain str : plain str -> ulen str = Z.of_nat (length str).
Proof.
  induction 1 as [|c str Hc _ IH]; [done |]. cbn [ulen length]. rewrite (proj2 (Z.eqb_neq c 0)), IH by done. lia.
Qed.

Lemma ulen_c_string str rest : plain str -> ulen (str ++ 0 :: rest) = Z.of_nat (length str).
Proof.
  induction 1 as [|c str Hc _ IH]; [done |]. cbn [ulen app length]. rewrite (proj2 (Z.eqb_neq c 0)), IH by done. lia.
Qed.

(** The digits come out in reverse. *)
Lemma digit_loop_ok n v buf : 0 <= v < 10 ^ Z.of_nat n ->
  exists ds, digit_loop n v buf = buf ++ rev ds /\ Forall is_digit ds /\ dec_value ds = v /\
    10 ^ (Z.of_nat (length ds) - 1) <= Z.max 1 v /\
    (v = 0 -> ds = []) /\ (v ≠ 0 -> exists c r, ds = c :: r /\ c ≠ ch_0).
Proof.
  revert v buf. induction n as [|n IH]; intros v buf Hv; cbn [digit_loop].
  { assert (v = 0) as -> by (cbn in Hv; lia). exists []. rewrite app_nil_r. by split_and!. }
  destruct (Z.ltb_spec 0 v) as [Hpos | Hz].
  2: { assert (v = 0) as -> by lia. exists []. rewrite app_nil_r. by split_and!. }
  set (c := ch_0 + v mod 10). pose proof (Z.mod_pos_bound v 10) as Hm.
  destruct (IH (v / 10) (buf ++ [c])) as (ds & -> & Hd & Hval & Hlen & Hz & Hnz).
  { rewrite Nat2Z.inj_succ, Z.pow_succ_r in Hv by lia. split; [zdm |]. apply Z.div_lt_upper_bound; lia. }
  exists (ds ++ [c]). split_and!.
  - rewrite rev_app_distr, <- app_assoc. done.
  - apply Forall_app. split; [done |]. apply Forall_singleton. unfold is_digit, c. lia.
  - rewrite dec_value_snoc, Hval. unfold c. zdm.
  - rewrite length_app. cbn [length]. destruct ds as [|d ds]; [cbn; lia |]. cbn [length] in *.
    replace (Z.of_nat (S (length ds) + 1) - 1) with (Z.succ (Z.of_nat (S (length ds)) - 1)) by lia.
    rewrite Z.pow_succ_r by lia. destruct (decide (v / 10 = 0)) as [E | E]; [by specialize (Hz E) |]. zdm.
  - lia.
  - intros _. destruct (decide (v / 10 = 0)) as [E | E].
    + exists c, []. rewrite (Hz E). split; [done |]. unfold c. zdm.
    + destruct (Hnz E) as (d & ds' & -> & ?). by exists d, (ds' ++ [c]).
Qed.

Lemma reverse_loop_ok i buf j out : (i <= length buf)%nat -> (j + i <= length out)%nat ->
  reverse_loop i buf j out = ((j + i)%nat, take j out ++ rev (take i buf) ++ drop (j + i) out).
Proof.
  revert j out. induction i as [|i IH]; intros j out Hi Hj; cbn [reverse_loop].
  { rewrite Nat.add_0_r, take_0. cbn [rev app]. by rewrite take_drop. }
  destruct (lookup_lt_is_Some_2 buf i) as [b Hb]; [lia |]. rewrite Hb. cbn [default from_option].
  rewrite IH by (rewrite ?length_insert; lia). replace (S j + i)%nat with (j + S i)%nat by lia. f_equal.
  rewrite (take_S_r _ _ b), take_insert_ge by (lia || (apply list_lookup_insert_eq; lia)).
  rewrite drop_insert_lt by lia. rewrite (take_S_r buf i b Hb), rev_app_distr. by rewrite <- app_assoc.
Qed.

(** The numeral in the array, from [j] on, with its terminator. *)
Definition numeral (out : list Z) (j : nat) (v : Z) (out' : list Z) : Prop :=
  exists ds, out' = take j out ++ ds ++ 0 :: drop (j + length ds + 1) out /\ Forall is_digit ds /\ dec_value ds = v /\
    (length ds <= 10)%nat /\ exists c r, ds = c :: r /\ (c = ch_0 -> r = []).

Lemma put_digits_ok v j out : 0 < v < 2 ^ 32 -> (j + 11 <= length out)%nat -> numeral out j v (put_digits v j out).
Proof.
  intros Hv Hj. unfold put_digits. destruct (digit_loop_ok 15 v []) as (ds & -> & Hd & Hval & Hlen & _ & Hnz); [cbn; lia |].
  destruct Hnz as (c & r & Eds & Hc); [lia |]. cbn [app].
  assert (length ds <= 10)%nat as H10.
  { apply Nat.nlt_ge. intros Hgt. assert (10 ^ 10 <= 10 ^ (Z.of_nat (length ds) - 1)) by (apply Z.pow_le_mono_r; lia). lia. }
  rewrite reverse_loop_ok by (rewrite ?length_rev; lia). rewrite length_rev.
  exists ds. split; [| split_and!; [done | done | done |]; exists c, r; split; [done | congruence]].
  rewrite (take_ge (rev ds)), rev_involutive by (by rewrite length_rev).
  rewrite insert_app_r_alt by (rewrite length_take; lia). f_equal. rewrite length_take, Nat.min_l by lia.
  replace (j + length ds - j)%nat with (length ds + 0)%nat by lia. rewrite insert_app_r. f_equal.
  destruct (lookup_lt_is_Some_2 out (j + length ds)) as [x Hx]; [lia |]. rewrite (drop_S _ _ _ Hx). cbn.
  do 2 f_equal. lia.
Qed.

Lemma zero_ok j out : (j + 2 <= length out)%nat -> numeral out j 0 (<[S j := 0]> (<[j := ch_0]> out)).
Proof.
  intros Hj. exists [ch_0]. split; [| split_and!; [| done | cbn; lia | by exists ch_0, []]].
  2: { apply Forall_singleton. unfold is_digit, ch_0. lia. }
  rewrite (insert_take_drop out) by lia. rewrite insert_app_r_alt by (rewrite length_take; lia).
  rewrite length_take, Nat.min_l by lia. replace (S j - j)%nat with 1%nat by lia. f_equal. cbn [length app].
  destruct (lookup_lt_is_Some_2 out (S j)) as [x Hx]; [lia |]. rewrite (drop_S _ _ _ Hx).
  replace (j + 1 + 1)%nat with (S (S j)) by lia. done.
Qed.

Lemma u_itoa_ok v out : is_u32 v -> (11 <= length out)%nat -> numeral out 0 v (u_itoa v out).
Proof.
  intros Hv Hlen. unfold u_itoa, is_u32 in *. destruct (Z.eqb_spec v 0) as [-> | Hne]; [apply zero_ok; lia |].
  apply put_digits_ok; lia.
Qed.

Definition sign (v : Z) : list Z := if v <? 0 then [ch_minus] else [].

Lemma uitoa_ok v out : - 2 ^ 31 < v < 2 ^ 31 -> (12 <= length out)%nat ->
  exists out1, length out1 = length out /\ take (length (sign v)) out1 = sign v /\
    numeral out1 (length (sign v)) (Z.abs v) (uitoa v out).
Proof.
  intros Hv Hlen. unfold uitoa, sign. destruct (Z.ltb_spec v 0) as [Hneg | Hpos]; cbn [length].
  - exists (<[0%nat := ch_minus]> out). rewrite length_insert. split; [done |]. split; [destruct out; [cbn in Hlen; lia | done] |].
    rewrite i32_small, (proj2 (Z.eqb_neq (- v) 0)), Z.abs_neq by lia. apply put_digits_ok; [lia |]. rewrite length_insert. lia.
  - exists out. split; [done |]. split; [by rewrite take_0 |]. rewrite Z.abs_eq by lia.
    destruct (Z.eqb_spec v 0) as [-> | Hne]; [apply zero_ok; lia | apply put_digits_ok; lia].
Qed.

(** ** The numbers *)

(** C40 The number printing of the user programs fits its 16 characters and is
    read back: [u_itoa] of any unsigned and [uitoa] of any signed value but
    the least leave a sign, if there is one, the digits of the number, no
    leading zero, and the terminator. *)
Theorem itoa_roundtrip (v : Z) (out : list Z) :
  length out = 16%nat ->
  (is_u32 v -> exists ds rest, u_itoa v out = ds ++ 0 :: rest /\ length (u_itoa v out) = 16%nat /\
     Forall is_digit ds /\ dec_value ds = v /\ exists c r, ds = c :: r /\ (c = ch_0 -> r = [])) /\
  (- 2 ^ 31 < v < 2 ^ 31 -> exists ds rest, uitoa v out = sign v ++ ds ++ 0 :: rest /\ length (uitoa v out) = 16%nat /\
     Forall is_digit ds /\ dec_value ds = Z.abs v /\ exists c r, ds = c :: r /\ (c = ch_0 -> r = [])).
Proof.
  intros Hlen. split_and!.
  - intros Hv. destruct (u_itoa_ok v out Hv) as (ds & -> & Hd & Hval & H10 & Hnz); [lia |].
    exists ds, (drop (0 + length ds + 1) out). rewrite take_0. split_and!; [done | | done ..].
    rewrite !length_app. cbn [length]. rewrite length_drop. lia.
  - intros Hv. destruct (uitoa_ok v out Hv) as (out1 & Hl1 & Ht & ds & -> & Hd & Hval & H10 & Hnz); [lia |].
    exists ds, (drop (length (sign v) + length ds + 1) out1). rewrite Ht. split_and!; [done | | done ..].
    assert (length (sign v) <= 1)%nat by (unfold sign; case_match; cbn; lia).
    rewrite !length_app. cbn [length]. rewrite length_drop. lia.
Qed.

(** Of the least value, whose negation does not change it, [uitoa] prints the
    sign only. *)
Lemma uitoa_least (out : list Z) : length out = 16%nat -> exists rest, uitoa (- 2 ^ 31) out = ch_minus :: 0 :: rest.
Proof. intros Hlen. do 2 (destruct out as [|? out]; [done |]). eexists. reflexivity. Qed.

(** ** The demonstration task *)

Section Demo.
  Context {M : Type} `{ProcessMemoryLaws M} `{TaskCode} `{Uart} {P : Type} (outb : P -> Z -> Z -> P).
  Context (f0 : registers_t) (str_at : list Z -> Z) (buf_at : Z) (stack : list Z).
  (** The strings and the buffer lie in the address space, not at 0. *)
  Hypothesis str_at_ok : forall str, 0 < str_at str < 2 ^ 32 - 64.
  Hypothesis buf_at_ok : 0 < buf_at < 2 ^ 32 - 64.
  Hypothesis stack_length : length stack = 16%nat.
  Implicit Types (k : kernel M P) (e : env M P).

(** The characters typed on the terminal as [SYS_WRITE] prints them. *)
Definition typed (t : term) (str : list Z) : term :=
  foldl (term_char (vga_color VGA_LIGHT_GREY VGA_BLACK)) t str.

Lemma typed_app t a b : typed t (a ++ b) = typed (typed t a) b.
Proof. apply foldl_app. Qed.

Lemma u_write_ok e k addr txt t bytes rest :
  shows (kscreen k) t -> bytes = txt ++ rest -> 0 < addr < 2 ^ 32 - 64 -> Z.of_nat (length bytes) <= 64 ->
  exists r v, u_write outb f0 e k 1 addr bytes (Z.of_nat (length txt)) = Ret (r, with_screen k v) /\
    shows v (typed t txt).
Proof.
  intros Hv -> Ha Hlen. rewrite length_app in Hlen. unfold u_write, syscall3, int80.
  set (f := set_args SYS_WRITE (u32 1) addr (u32 (Z.of_nat (length txt))) f0).
  destruct (write_call (holding addr (txt ++ rest) e) f k t txt Hv) as (v & E & Hv' & _).
  - done.
  - apply list_elem_of_here.
  - cbn. lia.
  - cbn. apply u32_small. unfold is_u32. lia.
  - intros i b Hi. pose proof (lookup_lt_Some _ _ _ Hi) as Hlt. cbn [peek holding fr_ecx f set_args].
    rewrite u32_small by (unfold is_u32; lia). rewrite length_app.
    rewrite (proj2 (Z.leb_le _ _)), (proj2 (Z.ltb_lt _ _)) by lia. cbn [andb].
    replace (Z.to_nat (addr + Z.of_nat i - addr)) with i by lia. by rewrite (lookup_app_l_Some _ _ _ _ Hi).
  - change (isr_handler outb (holding addr (txt ++ rest) e) f k) with (syscall_dispatch (holding addr (txt ++ rest) e) f k).
    rewrite E. cbn [obind]. by eexists _, v.
Qed.

Lemma uputs_ok e k t str : shows (kscreen k) t -> plain str -> (length str <= 64)%nat ->
  exists v, uputs outb f0 str_at e k str = Ret (with_screen k v) /\ shows v (typed t str).
Proof.
  intros Hv Hp Hlen. unfold uputs. rewrite (ulen_plain _ Hp).
  destruct (u_write_ok e k (str_at str) str t str [] Hv) as (r & v & -> & Hv'); [by rewrite app_nil_r | done | lia |].
  by exists v.
Qed.

Lemma u_getpid_ok e k l : sched_ok (ksched k) l ->
  exists d, tasks (ksched k) !! g_current (ksched k) = Some d /\
    u_getpid outb f0 e k = Ret (i32 (u32 (id d)), k).
Proof.
  intros Hok. unfold u_getpid, syscall0, int80. set (f := set_args _ _ _ _ f0).
  destruct (getpid_call e f k l Hok eq_refl) as (d & Hd & E). exists d. split; [done |].
  change (isr_handler outb e f k) with (syscall_dispatch e f k). by rewrite E.
Qed.

(** The sleep ends in a state that is found after it. *)
Lemma u_sleep_ok e k pre k' post ms : 0 <= ms <= 60000 -> 0 <= g_ticks k -> g_ticks k + ticks_to_wait ms < 2 ^ 32 ->
  0 < ticks_to_wait ms -> wakes e = pre ++ k' :: post ->
  Forall (fun w => g_ticks w < g_ticks k + ticks_to_wait ms) pre -> g_ticks k + ticks_to_wait ms <= g_ticks k' ->
  u_sleep_ms outb f0 e k ms = Ret k'.
Proof.
  intros Hms Hk0 H32 Hpos Hw Hpre Hk'. unfold u_sleep_ms, syscall1, int80. rewrite (u32_small ms) by (unfold is_u32; lia).
  set (f := set_args _ _ _ _ f0).
  change (isr_handler outb e f k) with (do! (ret, k) := sys_sleep_ms_impl e k ms in Ret (None (A := regs), set_eax (u32 ret) f, k)).
  unfold sys_sleep_ms_impl, timer_sleep_ms. rewrite (proj2 (Z.ltb_ge _ _)) by lia. cbv zeta.
  rewrite u32_small, Hw by (unfold is_u32; lia). rewrite sleep_loop_ok by (lia || done). done.
Qed.

Lemma u_exit_ok e k l code : sched_ok (ksched k) l ->
  match runnable (ksched k) (tl l) with
  | [] => u_exit outb f0 e k code = Halt NoRunnable
  | x :: ys => exists r s' l', u_exit outb f0 e k code = Ret (Some r, with_sched k s') /\
      sched_ok s' (x :: l') /\ runnable s' l' = ys
  end.
Proof.
  intros Hok. unfold u_exit, syscall1, int80. set (f := set_args _ _ _ _ f0).
  pose proof (exit_call e f k l Hok eq_refl) as Hx. unfold exits in Hx.
  change (isr_handler outb e f k) with (syscall_dispatch e f k).
  destruct (runnable (ksched k) (tl l)) as [|x ys]; [by rewrite Hx |].
  destruct Hx as (r & s' & l' & -> & Hs). by exists r, s', l'.
Qed.

(** The text of the demonstration with the digits [ds] of its id. *)
Definition greeting (ds : list Z) : list Z :=
  litn "[ring 3] Hello from user mode!" ++ lit "[ring 3] my pid = " ++ ds ++ [ch_nl] ++ litn "[ring 3] sleeping 2 seconds...".

Lemma digits_plain ds : Forall is_digit ds -> plain ds.
Proof. intros Hd. eapply Forall_impl; [exact Hd |]. intros c. unfold is_digit, ch_0. lia. Qed.

Lemma greeting_ok e k l t d : sched_ok (ksched k) l -> shows (kscreen k) t ->
  tasks (ksched k) !! g_current (ksched k) = Some d ->
  exists ds v, demo_greeting outb f0 str_at buf_at stack e k = Ret (with_screen k v) /\ shows v (typed t (greeting ds)) /\
    Forall is_digit ds /\ dec_value ds = u32 (id d).
Proof.
  intros Hok Ht Hd. pose proof (u32_range (id d)) as Hid. unfold demo_greeting. cbv zeta.
  edestruct (uputs_ok e k) as (v1 & -> & K1); [exact Ht | repeat constructor; discriminate | cbn; lia |]. cbn [obind].
  destruct (u_getpid_ok e (with_screen k v1) l Hok) as (d' & Hd' & ->). change (ksched (with_screen k v1)) with (ksched k) in Hd'.
  rewrite Hd in Hd'. injection Hd' as <-. cbn [obind].
  rewrite u32_i32, (u32_small _ Hid).
  destruct (u_itoa_ok (u32 (id d)) stack Hid) as (ds & Eb & Hds & Hval & H10 & _); [lia |]. rewrite take_0 in Eb. cbn [app] in Eb.
  edestruct (uputs_ok e (with_screen k v1)) as (v2 & -> & K2); [exact K1 | repeat constructor; discriminate | cbn; lia |]. cbn [obind].
  change (with_screen (with_screen k v1) v2) with (with_screen k v2). rewrite Eb, (ulen_c_string ds) by by apply digits_plain.
  edestruct (u_write_ok e (with_screen k v2) buf_at ds) as (r3 & v3 & E3 & K3);
    [exact K2 | exact (eq_refl (ds ++ 0 :: drop (0 + length ds + 1) stack)) | done | |].
  { rewrite length_app. cbn [length]. rewrite length_drop. lia. }
  rewrite E3. cbn [obind]. change (with_screen (with_screen k v2) v3) with (with_screen k v3).
  edestruct (u_write_ok e (with_screen k v3) (str_at [ch_nl]) [ch_nl]) as (r4 & v4 & E4 & K4);
    [exact K3 | by rewrite app_nil_r | done | cbn; lia |].
  change (Z.of_nat (length [ch_nl])) with 1 in E4. rewrite E4. cbn [obind].
  change (with_screen (with_screen k v3) v4) with (with_screen k v4).
  edestruct (uputs_ok e (with_screen k v4)) as (v5 & -> & K5); [exact K4 | repeat constructor; discriminate | cbn; lia |].
  exists ds, v5. split; [done |]. split; [| done]. unfold greeting. by rewrite !typed_app.
Qed.

(** C11 The demonstration task of ring 3 through its system calls: it prints its
    greeting with the decimal digits of its task id; in the state [k'] its
    sleep of two seconds ends in, it prints its farewell and exits, and the
    next runnable task goes on.  The sleep ends with the first state found
    after a [hlt] in which 200 ticks have passed. *)
Theorem user_demo_spec e k l t d pre k' post l' t' :
  sched_ok (ksched k) l -> shows (kscreen k) t -> tasks (ksched k) !! g_current (ksched k) = Some d ->
  0 <= g_ticks k < 2 ^ 32 - 200 -> wakes e = pre ++ k' :: post ->
  Forall (fun w => g_ticks w < g_ticks k + 200) pre -> g_ticks k + 200 <= g_ticks k' ->
  sched_ok (ksched k') l' -> shows (kscreen k') t' ->
  (exists ds v, demo_greeting outb f0 str_at buf_at stack e k = Ret (with_screen k v) /\ shows v (typed t (greeting ds)) /\
     Forall is_digit ds /\ dec_value ds = u32 (id d)) /\
  exists v, shows v (typed t' (litn "[ring 3] bye!")) /\
    match runnable (ksched k') (tl l') with
    | [] => user_demo_entry outb f0 str_at buf_at stack e k = Halt NoRunnable
    | x :: ys => exists r s' l2, user_demo_entry outb f0 str_at buf_at stack e k = Ret (Some r, with_sched (with_screen k' v) s') /\
        sched_ok s' (x :: l2) /\ runnable s' l2 = ys
    end.
Proof.
  intros Hok Ht Hd Htk Hw Hpre Hk' Hok' Ht'.
  destruct (greeting_ok e k l t d Hok Ht Hd) as (ds & v & E & Hg). split; [by exists ds, v |].
  unfold user_demo_entry. rewrite E. cbn [obind].
  rewrite (u_sleep_ok e (with_screen k v) pre k' post 2000) by (done || (change (ticks_to_wait 2000) with 200; cbn; lia)).
  cbn [obind]. edestruct (uputs_ok e k') as (v' & -> & Hv'); [exact Ht' | repeat constructor; discriminate | cbn; lia |].
  exists v'. split; [done |]. cbn [obind]. exact (u_exit_ok e (with_screen k' v') l' 0 Hok').
Qed.

End Demo.

(** ** Witnesses *)

From S2P Require Import Pmm Kheap Paging PagingExt Elf ElfSpec ElfLoad.

#[local] Existing Instance wit_paging.
#[local] Existing Instance wit_layout.
#[local] Existing Instance wit_code.
#[local] Existing Instance wit_uart.

Lemma itoa_roundtrip_witness :
  exists ds rest, uitoa (-1024) (replicate 16 0x55) = ch_minus :: ds ++ 0 :: rest /\ dec_value ds = 1024.
Proof.
  destruct (itoa_roundtrip (-1024) (replicate 16 0x55) eq_refl) as (_ & Hs).
  destruct Hs as (ds & rest & E & _ & _ & Hv & _); [lia |]. exists ds, rest. split; [exact E | exact Hv].
Defined.

(** Another task is ready; the sleep is woken after one second and after two. *)
Lemma user_demo_spec_witness :
  exists s b t r k', sched_ok s [b; t] /\
    user_demo_entry wit_outb (wit_frame 128 0 0 0 0) (fun _ => 0x5000) 0x6000 (replicate 16 0)
      (wit_env [with_ticks (wit_kernel s) 100; with_ticks (wit_kernel s) 200]) (wit_kernel s) = Ret (Some r, k') /\
    g_current (ksched k') = t.
Proof.
  destruct wit_two as (s0 & s & b & t & d & _ & _ & _ & Hok & Hq & Hd & _). pose proof (wit_kernel_ok _ _ Hok) as Hk.
  injection Hq as Hb Hq. cbn [list.tail] in Hq.
  destruct (user_demo_spec wit_outb (wit_frame 128 0 0 0 0) (fun _ => 0x5000) 0x6000 (replicate 16 0) ltac:(intros; lia) ltac:(lia)
    eq_refl (wit_env [with_ticks (wit_kernel s) 100; with_ticks (wit_kernel s) 200]) (wit_kernel s) [b; t] term0 d
    [with_ticks (wit_kernel s) 100] (with_ticks (wit_kernel s) 200) [] [b; t] term0) as (_ & v & _ & Hrun).
  - exact Hk.
  - apply shows_clear.
  - change (tasks s !! g_current s = Some d). by rewrite Hb.
  - cbn. lia.
  - reflexivity.
  - apply Forall_singleton. cbn. lia.
  - cbn. lia.
  - exact Hk.
  - apply shows_clear.
  - change (runnable (ksched (with_ticks (wit_kernel s) 200)) (tl [b; t])) with (runnable s [t]) in Hrun. rewrite Hq in Hrun.
    destruct Hrun as (r & s' & l2 & E & Hok' & _). exists s, b, t, r, (with_sched (with_screen (with_ticks (wit_kernel s) 200) v) s').
    split; [exact Hok |]. split; [exact E |]. destruct (sched_ok_head _ _ Hok') as [l3 El]. by injection El.
Defined.
